(* ===== verification/_CoqProject ===== *)
-Q . S2P
Prelude.v
Uds.v
DoipMessage.v
DoipServer.v
DoipTrace.v
DoipClient.v
Floats.v
Rounding.v
CppString.v
Types.v
SomeIpMessage.v
SomeIpPublisher.v
SomeIpSd.v
SomeIpSdService.v
Subscribers.v
SignalDecoder.v
Accuracy.v
CanTools.v
DbcParser.v
ConfigLoader.v
Benchmark.v
Watchdog.v
EventLoop.v
StatsReporter.v
Shipped.v
Gateway.v
Pipeline.v
