(* ===== verification/Prelude.v ===== *)
(** * Automotive CAN-to-Ethernet gateway: a verification development

    The gateway reads CAN frames, decodes their signals with a DBC database
    and publishes them as SOME/IP notifications; it offers its services with
    SOME/IP service discovery, answers diagnostic requests (UDS over DoIP) on
    TCP, and measures its own latency.  Everything runs in one thread on an
    epoll event loop.  This library models the program below [src/src/] and
    the five tools in [src/tools/] - the simulator and the stress test that
    feed it, the two subscribers and the diagnostic client that use it -, and
    proves what each part promises and what they do together.

    ** How the program is modelled

    Code becomes functions.  A class is a [Module] with a [Record] of its
    members and one definition per member function, which takes the object and
    returns it changed.  Integers are [Z], reduced to their width where the
    code converts or wraps ([u8] to [u64], [i32], [i64], and [sz] for [size_t],
    whose width the class [Target] fixes, with the byte order: [x86_64] and
    [armv7] are its instances here).  Buffers are lists of bytes read and
    written by [rd], [wr], [rd_bytes] and [wr_bytes].  [double] and [float]
    are the binary64 and binary32 numbers of [SpecFloat], so that rounding is
    the machine's.  What C++ leaves undefined - an access outside an object, a
    shift by the width or more, a conversion that does not fit, a division by
    zero - and a loop
    that exhausts its fuel are values [Fault _] of the monad [checked]; that
    an operation is [Ok] is therefore a statement of memory safety and
    termination.  System calls are inputs (what [accept], [recv], [read],
    [epoll_wait] or the clock return, and what stack memory holds before it is
    written) and logged actions (what is sent, closed or watched).
    [std::cout] is shared state too: the base in which it prints integers is
    followed, because a diagnostic request leaves it changed and the report
    shows it.

    ** The files

    - [Prelude.v] (this file): [checked], [Target], bytes and integers, memory.
    - [Uds.v]: [doip/uds_handler]; the interface [UdsService] that the DoIP
      server uses and the instance the handler gives.
    - [DoipMessage.v]: [doip/doip_message]; headers and frames.
    - [DoipServer.v]: [doip/doip_server]; the class and, in [DoIpSpec], what it
      promises as a function of the byte stream of a connection.
    - [DoipTrace.v]: the server over sequences of events; [Abstract] is the
      server without buffers and pointers that the code refines.
    - [DoipClient.v]: [tools/doip_client.cpp], and its conversation with the
      server.
    - [Floats.v]: the floating-point operations, conversions and bit patterns.
    - [Rounding.v]: what they compute, in exact arithmetic on the rationals:
      each operation rounds the exact result, with its error.
    - [CppString.v]: the parts of the C++ library the parsers use (strings,
      streams, [stoi], [stoul], [stod]).
    - [Types.v]: [include/gateway/types.hpp], the definitions of a database,
      [can_frame], calls on UDP sockets.
    - [SomeIpMessage.v]: [someip/someip_message], and the decoding in
      [tools/someip_subscriber.cpp] and [tools/someip_sd_subscriber.cpp].
    - [SomeIpPublisher.v]: [someip/someip_publisher].
    - [SomeIpSd.v]: [someip/someip_sd]; service discovery messages.
    - [SomeIpSdService.v]: [someip/someip_sd_service], and the subscription of
      [tools/someip_sd_subscriber.cpp].
    - [Subscribers.v]: the rest of the two subscribing tools: their receive
      loops and [main].
    - [SignalDecoder.v]: [can/signal_decoder].
    - [Accuracy.v]: how far a decoded value is from the exact one.
    - [CanTools.v]: [tools/can_simulator.cpp], over the interface [Sine] of the
      C library's [sin], and [tools/stress_test.cpp].
    - [DbcParser.v]: [can/dbc_parser].
    - [ConfigLoader.v]: [utils/config_loader].
    - [Benchmark.v]: [bench/benchmark.hpp].
    - [Watchdog.v]: [utils/watchdog.hpp].
    - [EventLoop.v]: [event/event_loop.hpp] and [can/can_socket]; [LoopSpec] is
      the loop as a transition system, in which a signal can come while
      [epoll_wait] waits, just before it is called, or between two callbacks.
    - [StatsReporter.v]: [utils/stats_reporter] and [utils/can_printer.hpp].
    - [Shipped.v]: [config/vehicle.dbc] and [config/gateway.conf] as texts, and
      what they load as.
    - [Gateway.v]: [main.cpp].
    - [Pipeline.v]: simulator, gateway and subscriber together.

    ** What is proved

    - The whole program ([Gateway.v]): a known frame becomes one notification
      per routed signal with the value the database gives, and nothing else
      disturbs it; on a 64-bit machine [main] comes to a result for any
      decodable database, any results of system calls and any sequence of
      events; the periodic work follows the frame counter; SIGINT prints the
      report and ends the program, at once or after the batch it interrupts,
      except in the moment before [epoll_wait]; the watchdog can never raise
      its alarm; the shipped files fit together, and the values sent are what
      the database says.  From end to end ([Pipeline.v]): what the
      subscriber shows are the simulator's curves, to a step of each signal.
    - The diagnostic server: it refines a server over byte streams, does not
      depend on how TCP cuts the stream, and sends no diagnostic message
      before routing activation; one request gets one acknowledgement and the
      reply of the UDS protocol table; errors, oversized messages, and the
      endless loop on 32-bit targets.  The client tool holds a complete
      conversation with it, and misreads the answers ([DoipClient.v]).
    - SOME/IP: messages, notifications and service discovery messages are read
      back by a receiver; session numbers are consecutive; subscriptions are
      all acknowledged; the handshake between the gateway's service and the
      subscribing tool; what the tools print, and what they read wrongly.
    - CAN: extraction is division and remainder of the 64-bit value of the
      frame, decoding the two's complement value, scaled and clamped, within
      two roundings of exact arithmetic ([Accuracy.v]); packing and extraction
      are inverse; the simulator's conversions stay in range for any [sin];
      the stress test keeps its schedule; frames survive the kernel interface.
    - Files: a database or a list of routes written as text is parsed back;
      whatever a file holds, what is kept fits its types.
    - Statistics: percentiles computed through floating point are exact order
      statistics; the collector and its JSON report say what was recorded.
    - The event loop is its transition system: it dispatches in order to the
      callback registered at the moment, and is left by an exception at once
      and by [stop] before the next wait.  The watchdog's alarm is exactly one
      per silence.

    ** Bounds and fuel

    [drain_fuel] is 512: each message takes at least 8 of the 4096 bytes of
    the receive buffer.  [loop_fuel] is 93: at most 92 entries of 16 bytes fit
    a datagram of 1500 bytes.  Bit extraction has fuel 255, the largest
    length.  That these suffice is part of the theorems ([Ok] results);
    [doip_armv7_hangs] shows that no fuel suffices on a 32-bit target.
    Percentiles are exact up to 10000 samples, the capacity of a histogram.

    ** What is not modelled

    Lines logged to the standard streams, apart from the report and the base
    they leave [std::cout] in; the options set on sockets; signals that arrive
    inside a callback or before the loop runs, and [SIGPIPE]; the results of
    [send], which the code only logs; destructors at the end of [main]; in the tools, their progress messages,
    the command line and how numbers are laid out on the terminal.  The
    iteration order of hash tables is an argument where it shows.  [sin] of
    the simulator is a function of the C library: the class [Sine] asks of it
    only a finite value between -1 and 1. *)

From stdpp Require Export base tactics numbers list gmap strings option.
From Stdlib Require Export ZArith Lia.

#[global] Open Scope Z_scope.
Declare Scope gw_scope.
Delimit Scope gw_scope with gw.
#[global] Open Scope gw_scope.

(** ** Checked computations

    A C++ expression that the language leaves undefined (a read or a write
    outside an object, a shift by a negative amount or by the width or more, a
    conversion of a floating-point number that does not fit, a division by zero)
    evaluates to a [Fault]; so does a loop whose fuel is exhausted.  A
    theorem that an operation yields [Ok] is therefore a memory-safety and
    a termination statement about the code. *)
Variant fault := OutOfBounds | BadShift | BadConversion | DivisionByZero | OutOfFuel.

#[export] Instance fault_eq_dec : EqDecision fault.
Proof. solve_decision. Defined.

Inductive checked (A : Type) : Type :=
| Ok (a : A)
| Fault (f : fault).
Arguments Ok {A} a.
Arguments Fault {A} f.

#[export] Instance checked_ret : MRet checked := fun A a => Ok a.
#[export] Instance checked_bind : MBind checked := fun A B f c =>
  match c with Ok a => f a | Fault e => Fault e end.

Definition is_ok {A} (c : checked A) : bool :=
  match c with Ok _ => true | Fault _ => false end.

(** ** Machine integers

    Fixed-width integers are values of [Z]; the conversions below are the
    wrap-around of the C++ conversion to each type. *)
Definition u8 (x : Z) : Z := x mod 256.
Definition u16 (x : Z) : Z := x mod 65536.
Definition u32 (x : Z) : Z := x mod 4294967296.
Definition u64 (x : Z) : Z := x mod 18446744073709551616.
Definition i32 (x : Z) : Z := (x + 2147483648) mod 4294967296 - 2147483648.
Definition i64 (x : Z) : Z :=
  (x + 9223372036854775808) mod 18446744073709551616 - 9223372036854775808.

Definition is_u8 (x : Z) : Prop := 0 <= x < 256.
Definition is_u16 (x : Z) : Prop := 0 <= x < 65536.
Definition is_u32 (x : Z) : Prop := 0 <= x < 4294967296.
Definition is_u64 (x : Z) : Prop := 0 <= x < 18446744073709551616.

(** The platform: the width of [size_t] and [unsigned long] and the byte
    order.  The README names two targets, a 64-bit Linux host and the
    32-bit BeagleBone Black; both are little-endian, and the byte order is
    kept abstract so that the [htons]/[htonl] calls mean something. *)
Variant endian := Little | Big.

Class Target := {
  size_bits : Z;
  order : endian;
  size_bits_ok : size_bits = 32 \/ size_bits = 64
}.

Definition x86_64 : Target :=
  {| size_bits := 64; order := Little; size_bits_ok := or_intror eq_refl |}.
Definition armv7 : Target :=
  {| size_bits := 32; order := Little; size_bits_ok := or_introl eq_refl |}.

(** Arithmetic in [size_t]. *)
Definition sz `{Target} (x : Z) : Z := x mod 2 ^ size_bits.

(** ** Bytes of an integer *)

(** [(x >> 8*n) & 0xFF] *)
Definition byte_at (n x : Z) : Z := Z.land (Z.shiftr x (8 * n)) 255.

Definition be16 (x : Z) : list Z := [byte_at 1 x; byte_at 0 x].
Definition be24 (x : Z) : list Z := [byte_at 2 x; byte_at 1 x; byte_at 0 x].
Definition be32 (x : Z) : list Z :=
  [byte_at 3 x; byte_at 2 x; byte_at 1 x; byte_at 0 x].

(** The value of a big-endian and of a little-endian byte string. *)
Definition be_val (l : list Z) : Z := fold_left (fun a b => a * 256 + b) l 0.
Fixpoint le_val (l : list Z) : Z :=
  match l with [] => 0 | b :: l' => b + 256 * le_val l' end.

(** What [memcpy(buf, &x, sizeof x)] stores, and what it loads. *)
Definition mem16 `{Target} (x : Z) : list Z :=
  match order with Little => rev (be16 x) | Big => be16 x end.
Definition mem32 `{Target} (x : Z) : list Z :=
  match order with Little => rev (be32 x) | Big => be32 x end.
Definition load `{Target} (l : list Z) : Z :=
  match order with Little => le_val l | Big => be_val l end.

(** [htons], [htonl]; [ntohs] and [ntohl] are the same functions. *)
Definition bswap16 (x : Z) : Z := be_val (rev (be16 x)).
Definition bswap32 (x : Z) : Z := be_val (rev (be32 x)).
Definition htons `{Target} (x : Z) : Z :=
  match order with Little => bswap16 x | Big => x end.
Definition htonl `{Target} (x : Z) : Z :=
  match order with Little => bswap32 x | Big => x end.

(** ** Memory

    An object's bytes are a list; a pointer into it is the suffix that
    starts there. *)
Definition rd (buf : list Z) (i : Z) : checked Z :=
  if i <? 0 then Fault OutOfBounds
  else match buf !! Z.to_nat i with Some b => Ok b | None => Fault OutOfBounds end.

Definition wr (buf : list Z) (i v : Z) : checked (list Z) :=
  if i <? 0 then Fault OutOfBounds
  else match buf !! Z.to_nat i with
       | Some _ => Ok (<[Z.to_nat i := v]> buf)
       | None => Fault OutOfBounds
       end.

(** [memcpy] out of [buf + i] and into [buf + i]. *)
Definition rd_bytes (buf : list Z) (i n : Z) : checked (list Z) :=
  if (0 <=? i) && (0 <=? n) && (i + n <=? Z.of_nat (length buf))
  then Ok (take (Z.to_nat n) (drop (Z.to_nat i) buf))
  else Fault OutOfBounds.

Fixpoint wr_bytes (buf : list Z) (i : Z) (bs : list Z) : checked (list Z) :=
  match bs with
  | [] => Ok buf
  | b :: bs' => buf' ← wr buf i b; wr_bytes buf' (i + 1) bs'
  end.

(** [p + n] on pointers. *)
Notation "p +! n" := (drop (Z.to_nat n) p) (at level 50, left associativity) : gw_scope.

Definition zlen {A} (l : list A) : Z := Z.of_nat (length l).

Abbreviation bytes := (Forall is_u8).

(** ** Tactics and hint databases *)
Create HintDb gw.
Create Rewrite HintDb gw.

(** [u8 x] and its siblings as [mod] by a literal, then [lia]. *)
Ltac unfold_ints :=
  unfold u8, u16, u32, u64, i32, i64, is_u8, is_u16, is_u32, is_u64, zlen in *.
Ltac zlia := unfold_ints; Z.to_euclidean_division_equations; lia.

(** Decides the integer comparisons of the goal that [lia] can. *)
Ltac guards :=
  progress repeat match goal with
  | |- context [?a <? ?b] =>
      first [rewrite (proj2 (Z.ltb_lt a b)) by lia | rewrite (proj2 (Z.ltb_ge a b)) by lia]
  | |- context [?a <=? ?b] =>
      first [rewrite (proj2 (Z.leb_le a b)) by lia | rewrite (proj2 (Z.leb_gt a b)) by lia]
  | |- context [?a =? ?b] =>
      first [rewrite (proj2 (Z.eqb_eq a b)) by lia | rewrite (proj2 (Z.eqb_neq a b)) by lia]
  end.

(** Splits the hypotheses [x ← c; k = Ok _] of a checked computation. *)
Ltac checked_inv :=
  repeat match goal with
  | H : mbind _ ?c = Ok _ |- _ =>
      let E := fresh "E" in
      destruct c eqn:E; cbn [mbind checked_bind] in H; [|discriminate H]
  | H : Ok _ = Ok _ |- _ => injection H as H
  | H : Fault _ = Ok _ |- _ => discriminate H
  end; subst.

(** Destructs a list whose length is known to be at least as large as
    needed, exposing its first elements. *)
Ltac uncons l :=
  let b := fresh "b" in
  destruct l as [|b l]; [cbn in *; exfalso; lia|].

(** Evaluates the reads and writes at literal positions of a buffer whose
    first elements are explicit. *)
Ltac mem_red :=
  repeat (match goal with
  | |- context [rd ?l ?k] =>
      let r := eval hnf in (rd l k) in
      lazymatch r with Ok _ => change (rd l k) with r | Fault _ => change (rd l k) with r end
  | |- context [wr ?l ?k ?v] =>
      let r := eval cbv [wr Z.ltb Z.compare Z.to_nat Pos.to_nat Pos.iter_op Init.Nat.add
                         lookup list_lookup insert list_insert] in (wr l k v) in
      lazymatch r with Ok _ => change (wr l k v) with r end
  end; cbn [mbind checked_bind]).

(** ** Lemmas: checked computations *)
Lemma bind_Ok {A B} (c : checked A) (f : A -> checked B) b :
  (c ≫= f) = Ok b <-> exists a, c = Ok a /\ f a = Ok b.
Proof. destruct c; cbn; naive_solver. Qed.

Lemma bind_ok_l {A B} (a : A) (f : A -> checked B) : (Ok a ≫= f) = f a.
Proof. done. Qed.

Lemma is_ok_exists {A} (c : checked A) : is_ok c = true <-> exists a, c = Ok a.
Proof. destruct c; naive_solver. Qed.

(** ** Lemmas: machine integers *)
Lemma u8_range x : is_u8 (u8 x).
Proof. apply Z.mod_pos_bound. lia. Qed.
Lemma u16_range x : is_u16 (u16 x).
Proof. apply Z.mod_pos_bound. lia. Qed.
Lemma u32_range x : is_u32 (u32 x).
Proof. apply Z.mod_pos_bound. lia. Qed.
Lemma u64_range x : is_u64 (u64 x).
Proof. apply Z.mod_pos_bound. lia. Qed.
#[export] Hint Resolve u8_range u16_range u32_range u64_range : gw.

Lemma u8_small x : is_u8 x -> u8 x = x.
Proof. apply Z.mod_small. Qed.
Lemma u16_small x : is_u16 x -> u16 x = x.
Proof. apply Z.mod_small. Qed.
Lemma u32_small x : is_u32 x -> u32 x = x.
Proof. apply Z.mod_small. Qed.
Lemma u64_small x : is_u64 x -> u64 x = x.
Proof. apply Z.mod_small. Qed.

(** ** Lemmas: bytes of integers *)
Lemma byte_at_div n x : 0 <= n -> byte_at n x = (x / 2 ^ (8 * n)) mod 256.
Proof.
  intros. unfold byte_at. change 255 with (Z.ones 8).
  rewrite Z.land_ones, Z.shiftr_div_pow2 by lia. done.
Qed.

Lemma byte_at_u8 n x : is_u8 (byte_at n x).
Proof.
  unfold byte_at. change 255 with (Z.ones 8). rewrite Z.land_ones by lia.
  unfold is_u8. apply Z.mod_pos_bound. lia.
Qed.

Lemma be16_div x : be16 x = [(x / 256) mod 256; x mod 256].
Proof. unfold be16. rewrite !byte_at_div by lia. by rewrite Z.div_1_r. Qed.

Lemma be24_div x :
  be24 x = [(x / 65536) mod 256; (x / 256) mod 256; x mod 256].
Proof. unfold be24. rewrite !byte_at_div by lia. by rewrite Z.div_1_r. Qed.

Lemma be32_div x :
  be32 x = [(x / 16777216) mod 256; (x / 65536) mod 256; (x / 256) mod 256; x mod 256].
Proof. unfold be32. rewrite !byte_at_div by lia. by rewrite Z.div_1_r. Qed.

Lemma be16_bytes x : bytes (be16 x).
Proof. repeat constructor; apply byte_at_u8. Qed.
Lemma be24_bytes x : bytes (be24 x).
Proof. repeat constructor; apply byte_at_u8. Qed.
Lemma be32_bytes x : bytes (be32 x).
Proof. repeat constructor; apply byte_at_u8. Qed.
Lemma mem32_bytes `{Target} x : bytes (mem32 x).
Proof. unfold mem32. destruct order; [apply Forall_rev|]; apply be32_bytes. Qed.
#[export] Hint Resolve byte_at_u8 be16_bytes be24_bytes be32_bytes mem32_bytes : gw.

Lemma be16_val x : be_val (be16 x) = u16 x.
Proof. rewrite be16_div. cbn. zlia. Qed.
Lemma be24_val x : be_val (be24 x) = x mod 16777216.
Proof. rewrite be24_div. cbn. zlia. Qed.
Lemma be32_val x : be_val (be32 x) = u32 x.
Proof. rewrite be32_div. cbn. zlia. Qed.
#[export] Hint Rewrite be16_val be24_val be32_val : gw.

(** Encoding the value of a byte string gives the string back. *)
Lemma be16_of_val a b : is_u8 a -> is_u8 b -> be16 (be_val [a; b]) = [a; b].
Proof. intros. rewrite be16_div. cbn. f_equal; [|f_equal]; zlia. Qed.

Lemma be32_of_val a b c d :
  is_u8 a -> is_u8 b -> is_u8 c -> is_u8 d ->
  be32 (be_val [a; b; c; d]) = [a; b; c; d].
Proof.
  intros. rewrite be32_div. cbn.
  f_equal; [|f_equal; [|f_equal; [|f_equal]]]; zlia.
Qed.

(** [a << n | b] is [a * 2^n + b] when [b] has at most [n] bits. *)
Lemma lor_shiftl_add a b n :
  0 <= n -> 0 <= b < 2 ^ n -> Z.lor (Z.shiftl a n) b = a * 2 ^ n + b.
Proof.
  intros Hn Hb. rewrite <- (Z.shiftl_mul_pow2 a n) by lia.
  assert (Z.land (Z.shiftl a n) b = 0) as Hl.
  { apply Z.bits_inj'. intros i Hi. rewrite Z.land_spec, Z.bits_0.
    destruct (decide (i < n)).
    - by rewrite Z.shiftl_spec_low.
    - rewrite andb_comm. replace (Z.testbit b i) with false; [done|].
      symmetry. rewrite <- (Z.mod_small b (2 ^ n)) by lia.
      apply Z.mod_pow2_bits_high. lia. }
  by rewrite <- Z.lxor_lor, <- Z.add_nocarry_lxor by done.
Qed.

(** [(b0 << 8) | b1] and the four-byte version, as the parsers write it. *)
Lemma or16_be_val a b :
  is_u8 a -> is_u8 b -> Z.lor (Z.shiftl a 8) b = be_val [a; b].
Proof. intros. rewrite lor_shiftl_add by (unfold is_u8 in *; lia). cbn. lia. Qed.

(** The 16-bit value of two bytes, and the bytes of that value. *)
Lemma or16_split h l :
  is_u8 h -> is_u8 l ->
  u16 (Z.lor (Z.shiftl h 8) l) = h * 256 + l /\
  Z.land (Z.shiftr (h * 256 + l) 8) 0xFF = h /\ Z.land (h * 256 + l) 0xFF = l.
Proof.
  intros Hh Hl. rewrite or16_be_val by done. change (be_val [h; l]) with (h * 256 + l).
  change 0xFF with (Z.ones 8). rewrite !Z.land_ones, Z.shiftr_div_pow2 by lia.
  change (2 ^ 8) with 256. repeat split; zlia.
Qed.

Lemma or32_be_val a b c d :
  is_u8 a -> is_u8 b -> is_u8 c -> is_u8 d ->
  Z.lor (Z.lor (Z.lor (Z.shiftl a 24) (Z.shiftl b 16)) (Z.shiftl c 8)) d
  = be_val [a; b; c; d].
Proof.
  unfold is_u8. intros.
  rewrite <- (Z.lor_assoc _ (Z.shiftl c 8)), (lor_shiftl_add c d 8) by lia.
  rewrite <- Z.lor_assoc, (lor_shiftl_add b (c * 2 ^ 8 + d) 16) by lia.
  rewrite lor_shiftl_add by lia. cbn. lia.
Qed.

Lemma be_val_u8 l n : bytes l -> length l = n -> 0 <= be_val l < 2 ^ (8 * Z.of_nat n).
Proof.
  intros Hl <-. unfold be_val.
  assert (forall a, 0 <= a -> a * 2 ^ (8 * zlen l) <= fold_left (fun a b => a * 256 + b) l a
            < (a + 1) * 2 ^ (8 * zlen l)) as H.
  { induction Hl as [|b l Hb Hl IH]; intros a Ha; cbn [fold_left].
    - change (zlen []) with 0. lia.
    - unfold is_u8 in Hb. specialize (IH (a * 256 + b) ltac:(lia)).
      unfold zlen in *. cbn [length].
      replace (8 * Z.of_nat (S (length l))) with (8 + 8 * Z.of_nat (length l)) by lia.
      rewrite Z.pow_add_r by lia. change (2 ^ 8) with 256.
      remember (2 ^ (8 * Z.of_nat (length l))) as p. nia. }
  specialize (H 0 ltac:(lia)). unfold zlen in H. lia.
Qed.

(** The four-byte expression whose first shift, in [int], reaches the sign
    bit still denotes the big-endian value. *)
Lemma or32_int_be_val a b c d :
  is_u8 a -> is_u8 b -> is_u8 c -> is_u8 d ->
  u32 (Z.lor (Z.lor (Z.lor (i32 (Z.shiftl a 24)) (Z.shiftl b 16)) (Z.shiftl c 8)) d)
  = be_val [a; b; c; d].
Proof.
  intros Ha Hb Hc Hd.
  assert (forall x y, u32 (Z.lor (i32 x) y) = u32 (Z.lor x y)) as Hw.
  { intros x y. unfold u32, i32. change 4294967296 with (2 ^ 32).
    rewrite <- !Z.land_ones by lia. rewrite !Z.land_lor_distr_l. f_equal.
    rewrite !Z.land_ones by lia. rewrite Zminus_mod_idemp_l. f_equal. lia. }
  rewrite <- !Z.lor_assoc, Hw, !Z.lor_assoc, or32_be_val by done.
  apply u32_small. pose proof (be_val_u8 [a; b; c; d] 4 ltac:(repeat first [assumption | constructor]) eq_refl).
  unfold is_u32. change (2 ^ (8 * Z.of_nat 4)) with 4294967296 in *. done.
Qed.

(** ** Lemmas: byte order *)
Section byte_order.
Context `{Target}.

Lemma memcpy_htons x : mem16 (htons x) = be16 x.
Proof.
  unfold mem16, htons. destruct order; [|done].
  unfold bswap16. rewrite (be16_div x). cbn [rev app].
  rewrite be16_of_val by (unfold is_u8; apply Z.mod_pos_bound; lia). done.
Qed.

Lemma memcpy_htonl x : mem32 (htonl x) = be32 x.
Proof.
  unfold mem32, htonl. destruct order; [|done].
  unfold bswap32. rewrite (be32_div x). cbn [rev app].
  rewrite be32_of_val by (unfold is_u8; apply Z.mod_pos_bound; lia). done.
Qed.

Lemma ntohs_load a b :
  is_u8 a -> is_u8 b -> htons (load [a; b]) = be_val [a; b].
Proof.
  intros Ha Hb. unfold htons, load. destruct order; [|done]. unfold bswap16.
  replace (le_val [a; b]) with (be_val [b; a]) by (cbn; lia).
  by rewrite be16_of_val.
Qed.

Lemma ntohl_load a b c d :
  is_u8 a -> is_u8 b -> is_u8 c -> is_u8 d ->
  htonl (load [a; b; c; d]) = be_val [a; b; c; d].
Proof.
  intros Ha Hb Hc Hd. unfold htonl, load. destruct order; [|done]. unfold bswap32.
  replace (le_val [a; b; c; d]) with (be_val [d; c; b; a]) by (cbn; lia).
  by rewrite be32_of_val.
Qed.

Lemma load_u32 l : bytes l -> length l = 4%nat -> is_u32 (load l).
Proof.
  intros Hb Hl. destruct l as [|a [|b [|c [|d [|]]]]]; try discriminate Hl.
  repeat match goal with H : bytes (_ :: _) |- _ => inversion_clear H end.
  unfold load. destruct order; unfold is_u32, is_u8 in *; cbn; lia.
Qed.

Lemma mem32_length x : length (mem32 x) = 4%nat.
Proof. unfold mem32. by destruct order. Qed.

Lemma size_bits_ge : 32 <= size_bits.
Proof. destruct size_bits_ok as [-> | ->]; lia. Qed.

(** Values that fit in 32 bits are unchanged by [size_t] arithmetic on
    every target. *)
Lemma sz_small x : 0 <= x < 4294967296 -> sz x = x.
Proof.
  intros. unfold sz. apply Z.mod_small.
  destruct size_bits_ok as [-> | ->]; lia.
Qed.

Lemma sz_add x y : sz (sz x + y) = sz (x + y).
Proof. unfold sz. by rewrite Zplus_mod_idemp_l. Qed.
End byte_order.

#[export] Hint Rewrite @memcpy_htons @memcpy_htonl : gw.

(** ** Lemmas: memory *)
Lemma zlen_nonneg {A} (l : list A) : 0 <= zlen l.
Proof. unfold zlen. lia. Qed.
#[export] Hint Resolve zlen_nonneg : gw.

Lemma zlen_app {A} (l k : list A) : zlen (l ++ k) = zlen l + zlen k.
Proof. unfold zlen. rewrite length_app. lia. Qed.
Lemma zlen_cons {A} (x : A) l : zlen (x :: l) = 1 + zlen l.
Proof. unfold zlen. cbn. lia. Qed.
Lemma zlen_nil {A} : zlen (@nil A) = 0.
Proof. done. Qed.
Lemma zlen_be16 x : zlen (be16 x) = 2.
Proof. done. Qed.
Lemma zlen_be24 x : zlen (be24 x) = 3.
Proof. done. Qed.
Lemma zlen_be32 x : zlen (be32 x) = 4.
Proof. done. Qed.
Lemma take_zlen {A} (l : list A) : take (Z.to_nat (zlen l)) l = l.
Proof. apply take_ge. unfold zlen. lia. Qed.
Lemma zlen_take {A} n (l : list A) : 0 <= n <= zlen l -> zlen (take (Z.to_nat n) l) = n.
Proof. intros. unfold zlen in *. rewrite length_take. lia. Qed.
Lemma zlen_drop {A} n (l : list A) : 0 <= n <= zlen l -> zlen (l +! n) = zlen l - n.
Proof. intros. unfold zlen in *. rewrite length_drop. lia. Qed.
Create Rewrite HintDb zlen.
#[export] Hint Rewrite @zlen_app @zlen_cons @zlen_nil zlen_be16 zlen_be24 zlen_be32 : zlen.

Lemma rd_inv buf i b :
  rd buf i = Ok b <-> 0 <= i /\ buf !! Z.to_nat i = Some b.
Proof.
  unfold rd. destruct (Z.ltb_spec i 0); destruct (buf !! Z.to_nat i); naive_solver lia.
Qed.

Lemma rd_ok buf i : 0 <= i < zlen buf -> rd buf i = Ok (buf !!! Z.to_nat i).
Proof.
  intros [??]. apply rd_inv. split; [done|].
  apply list_lookup_lookup_total_lt. unfold zlen in *. lia.
Qed.

Lemma rd_u8 buf i b : bytes buf -> rd buf i = Ok b -> is_u8 b.
Proof. intros Hb [_ Hi]%rd_inv. by eapply Forall_lookup_1. Qed.

Lemma rd_drop buf n i :
  0 <= i -> 0 <= n -> rd (buf +! n) i = rd buf (n + i).
Proof.
  intros. unfold rd. rewrite lookup_drop.
  destruct (Z.ltb_spec i 0); [lia|]. destruct (Z.ltb_spec (n + i) 0); [lia|].
  rewrite Z2Nat.inj_add by lia. done.
Qed.

Lemma rd_app_l l k i : i < zlen l -> rd (l ++ k) i = rd l i.
Proof.
  intros Hi. unfold rd. destruct (Z.ltb_spec i 0); [done|].
  rewrite lookup_app_l; [done|]. unfold zlen in *. lia.
Qed.

Lemma rd_app_r l k i : 0 <= i -> rd (l ++ k) (zlen l + i) = rd k i.
Proof.
  intros Hi. unfold rd, zlen.
  destruct (Z.ltb_spec (Z.of_nat (length l) + i) 0); [lia|].
  destruct (Z.ltb_spec i 0); [lia|].
  replace (Z.to_nat (Z.of_nat (length l) + i)) with (length l + Z.to_nat i)%nat by lia.
  by rewrite lookup_app_r, Nat.add_sub' by lia.
Qed.

Lemma rd_bytes_ok buf i n :
  0 <= i -> 0 <= n -> i + n <= zlen buf ->
  rd_bytes buf i n = Ok (take (Z.to_nat n) (buf +! i)).
Proof.
  intros. unfold rd_bytes, zlen in *.
  by guards.
Qed.

Lemma wr_app pre x post i v :
  i = zlen pre -> wr (pre ++ x :: post) i v = Ok (pre ++ v :: post).
Proof.
  intros ->. unfold wr, zlen. destruct (Z.ltb_spec (Z.of_nat (length pre)) 0); [lia|].
  rewrite Nat2Z.id, list_lookup_middle by done.
  rewrite insert_app_r_alt by done. by rewrite Nat.sub_diag.
Qed.

(** Writing [bs] over [old], an equally long part of the buffer. *)
Lemma wr_bytes_app pre old post i bs :
  i = zlen pre -> length old = length bs ->
  wr_bytes (pre ++ old ++ post) i bs = Ok (pre ++ bs ++ post).
Proof.
  revert pre old i. induction bs as [|b bs IH]; intros pre old i -> Hl.
  - destruct old; [done|discriminate].
  - destruct old as [|o old]; [discriminate|]. cbn [wr_bytes].
    cbn [app]. rewrite wr_app by done. cbn [mbind checked_bind].
    specialize (IH (pre ++ [b]) old (zlen pre + 1)). rewrite <- !app_assoc in IH.
    apply IH; [autorewrite with zlen; lia | cbn in Hl; lia].
Qed.

(** Received bytes overwrite the front of a buffer. *)
Lemma wr_bytes_front buf bs :
  zlen bs <= zlen buf ->
  wr_bytes buf 0 bs = Ok (bs ++ drop (length bs) buf) /\ zlen (bs ++ drop (length bs) buf) = zlen buf.
Proof.
  unfold zlen. intros Hl. split; [|rewrite length_app, length_drop; lia].
  pose proof (wr_bytes_app [] (take (length bs) buf) (drop (length bs) buf) 0 bs eq_refl) as Hw.
  cbn [app] in Hw. rewrite take_drop in Hw. apply Hw. rewrite length_take. lia.
Qed.

Lemma wr_inv buf i v buf' :
  wr buf i v = Ok buf' ->
  0 <= i < zlen buf /\ buf' = <[Z.to_nat i := v]> buf /\ length buf' = length buf.
Proof.
  unfold wr. destruct (Z.ltb_spec i 0); [done|].
  destruct (buf !! Z.to_nat i) eqn:E; [|done]. intros [= <-].
  apply lookup_lt_Some in E. rewrite length_insert. split_and!; unfold zlen; try lia; done.
Qed.

Lemma bytes_drop n l : bytes l -> bytes (drop n l).
Proof. apply Forall_drop. Qed.
Lemma bytes_take n l : bytes l -> bytes (take n l).
Proof. apply Forall_take. Qed.
Lemma bytes_app l k : bytes l -> bytes k -> bytes (l ++ k).
Proof. intros. by apply Forall_app. Qed.
Lemma bytes_cons b l : is_u8 b -> bytes l -> bytes (b :: l).
Proof. by constructor. Qed.
Lemma bytes_nil : bytes [].
Proof. by constructor. Qed.
#[export] Hint Resolve bytes_drop bytes_take bytes_app bytes_cons bytes_nil : gw.

Lemma sub_take {A} i n m (l : list A) :
  (i + n <= m)%nat -> take n (drop i (take m l)) = take n (drop i l).
Proof. intros. rewrite skipn_firstn_comm, take_take. f_equal. lia. Qed.

(** [memmove(buf, buf + i, n)]: the part at [i] moves to the front. *)
Lemma memmove_front buf i n :
  0 <= i -> 0 <= n -> i + n <= zlen buf ->
  (moved ← rd_bytes buf i n; wr_bytes buf 0 moved)
  = Ok (take (Z.to_nat n) (buf +! i) ++ (buf +! n)).
Proof.
  intros Hi Hn Hb. rewrite rd_bytes_ok by done. cbn [mbind checked_bind].
  rewrite <- (take_drop (Z.to_nat n) buf) at 1.
  pose proof (wr_bytes_app [] (take (Z.to_nat n) buf) (drop (Z.to_nat n) buf) 0
                (take (Z.to_nat n) (buf +! i))) as H.
  cbn [app] in H. apply H; [done|].
  rewrite !length_take, length_drop. unfold zlen in Hb. lia.
Qed.

(** Literal bytes. *)
#[export] Hint Extern 5 (is_u8 _) => (unfold is_u8; lia) : gw.

(** Deciding [bytes] on closed lists. *)
Definition bytesb (l : list Z) : bool := forallb (fun b => (0 <=? b) && (b <? 256)) l.
Lemma bytesb_ok l : bytesb l = true -> bytes l.
Proof.
  unfold bytesb. rewrite forallb_forall. intros H. apply List.Forall_forall. intros b Hb.
  apply H in Hb. unfold is_u8. lia.
Qed.
Ltac closed_bytes := apply bytesb_ok; vm_compute; reflexivity.
