(* ===== verification/Uds.v ===== *)
(** * UDS request handler ([src/src/doip/uds_handler.hpp], [uds_handler.cpp])

    [Module UdsHandler] follows the class: its state is the list of stored
    trouble codes, [handle] dispatches on the service identifier and each
    [handle_*] works on the request as a pointer and a length.
    [UdsReference] is the protocol table the handler is meant to implement,
    written on the request's bytes.  The class [UdsService] is what the DoIP
    server relies on; the handler discharges it.  [handle_base] is the base in
    which a request leaves [std::cout] printing integers. *)

From S2P Require Import Prelude.

(** [constexpr]s of [uds_handler.hpp]. *)
Definition UDS_SESSION_CONTROL : Z := 0x10.
Definition UDS_READ_DTC : Z := 0x19.
Definition UDS_READ_DATA_BY_ID : Z := 0x22.
Definition UDS_ECU_RESET : Z := 0x11.
Definition UDS_NEGATIVE_RESPONSE : Z := 0x7F.
Definition UDS_NRC_SERVICE_NOT_SUPPORTED : Z := 0x11.
Definition UDS_NRC_REQUEST_OUT_OF_RANGE : Z := 0x31.

(** The bytes of a [std::string]. *)
Fixpoint string_bytes (s : string) : list Z :=
  match s with
  | EmptyString => []
  | String c s' => Z.of_nat (Ascii.nat_of_ascii c) :: string_bytes s'
  end.

(** The base [std::cout] writes integers in; the stream is shared by the whole
    program and keeps the last one set. *)
Variant base := Dec | Hex.

Record Dtc := mk_dtc { code : Z; status : Z; description : string }.

(** ** The class *)
Module UdsHandler.

(** [UdsHandler::UdsHandler]: the simulated trouble codes. *)
Definition init : list Dtc :=
  [ mk_dtc 0x012345 0x08 "Engine coolant temperature sensor";
    mk_dtc 0x023456 0x09 "Throttle position sensor";
    mk_dtc 0x034567 0x00 "Vehicle speed sensor (inactive)" ]%string.

Definition negative_response (service_id nrc : Z) : list Z :=
  [UDS_NEGATIVE_RESPONSE; service_id; nrc].

Definition handle_session_control (req : list Z) (len : Z) : checked (list Z) :=
  if len <? 2
  then Ok (negative_response UDS_SESSION_CONTROL UDS_NRC_REQUEST_OUT_OF_RANGE)
  else session_type ← rd req 1; Ok [0x50; session_type].

(** One DTC record of the response: three code bytes and the status. *)
Definition dtc_record (dtc : Dtc) : list Z :=
  [Z.land (Z.shiftr (code dtc) 16) 0xFF; Z.land (Z.shiftr (code dtc) 8) 0xFF;
   Z.land (code dtc) 0xFF; status dtc].

Definition handle_read_dtc (dtcs : list Dtc) (req : list Z) (len : Z)
  : checked (list Z) :=
  if len <? 2
  then Ok (negative_response UDS_READ_DTC UDS_NRC_REQUEST_OUT_OF_RANGE)
  else
    sub_func ← rd req 1;
    let response := [0x59; sub_func; 0xFF; 0x09; 0x00; u8 (zlen dtcs)] in
    Ok (fold_left (fun response dtc => response ++ dtc_record dtc) dtcs response).

Definition handle_read_data_by_id (req : list Z) (len : Z) : checked (list Z) :=
  if len <? 3
  then Ok (negative_response UDS_READ_DATA_BY_ID UDS_NRC_REQUEST_OUT_OF_RANGE)
  else
    r1 ← rd req 1;
    r2 ← rd req 2;
    let did := u16 (Z.lor (Z.shiftl r1 8) r2) in
    let response := [0x62; Z.land (Z.shiftr did 8) 0xFF; Z.land did 0xFF] in
    if did =? 0xF190 then Ok (response ++ string_bytes "BBB0000000000001")
    else if did =? 0xF18C then Ok (response ++ string_bytes "ECU-BBB-2024-001")
    else if did =? 0xF187 then Ok (response ++ string_bytes "v1.0.0-automotive-gateway")
    else Ok (negative_response UDS_READ_DATA_BY_ID UDS_NRC_REQUEST_OUT_OF_RANGE).

Definition handle_ecu_reset (req : list Z) (len : Z) : checked (list Z) :=
  if len <? 2
  then Ok (negative_response UDS_ECU_RESET UDS_NRC_REQUEST_OUT_OF_RANGE)
  else reset_type ← rd req 1; Ok [0x51; reset_type].

(** [UdsHandler::handle]: [req] is the memory the pointer points into. *)
Definition handle (dtcs : list Dtc) (req : list Z) (len : Z) : checked (list Z) :=
  if len <? 1
  then Ok (negative_response 0x00 UDS_NRC_SERVICE_NOT_SUPPORTED)
  else
    service_id ← rd req 0;
    if service_id =? UDS_SESSION_CONTROL then handle_session_control req len
    else if service_id =? UDS_READ_DTC then handle_read_dtc dtcs req len
    else if service_id =? UDS_READ_DATA_BY_ID then handle_read_data_by_id req len
    else if service_id =? UDS_ECU_RESET then handle_ecu_reset req len
    else Ok (negative_response service_id UDS_NRC_SERVICE_NOT_SUPPORTED).

(** The base [handle] leaves [std::cout] in: each line it logs ends with
    [std::dec], except those that name the trouble codes. *)
Definition handle_base (dtcs : list Dtc) (req : list Z) (len : Z) : base :=
  if (2 <=? len) && (req !!! 0%nat =? UDS_READ_DTC)
  then fold_left (fun _ _ => Hex) dtcs Dec
  else Dec.

End UdsHandler.

(** ** The protocol table *)
Module UdsReference.

Inductive request :=
| SessionControl (session : Z)
| ReadDtc (sub_func : Z)
| ReadData (did_high did_low : Z)
| EcuReset (reset : Z)
| Truncated (service : Z)    (* a known service without its parameters *)
| Unknown (service : Z)
| Empty.

Definition known (sid : Z) : bool :=
  bool_decide (sid ∈ [0x10; 0x19; 0x22; 0x11]).

Definition parse (req : list Z) : request :=
  match req with
  | [] => Empty
  | 0x10 :: s :: _ => SessionControl s
  | 0x19 :: s :: _ => ReadDtc s
  | 0x22 :: h :: l :: _ => ReadData h l
  | 0x11 :: r :: _ => EcuReset r
  | sid :: _ => if known sid then Truncated sid else Unknown sid
  end.

(** Data identifier to value. *)
Definition did_value (h l : Z) : option string :=
  match h, l with
  | 0xF1, 0x90 => Some "BBB0000000000001"
  | 0xF1, 0x8C => Some "ECU-BBB-2024-001"
  | 0xF1, 0x87 => Some "v1.0.0-automotive-gateway"
  | _, _ => None
  end%string.

Definition respond (dtcs : list Dtc) (r : request) : list Z :=
  match r with
  | SessionControl s => [0x50; s]
  | ReadDtc s =>
      [0x59; s; 0xFF; 0x09; 0x00; u8 (zlen dtcs)]
      ++ (dtcs ≫= fun d => be24 (code d) ++ [status d])
  | ReadData h l =>
      match did_value h l with
      | Some v => [0x62; h; l] ++ string_bytes v
      | None => [0x7F; 0x22; 0x31]
      end
  | EcuReset r => [0x51; r]
  | Truncated sid => [0x7F; sid; 0x31]
  | Unknown sid => [0x7F; sid; 0x11]
  | Empty => [0x7F; 0x00; 0x11]
  end.

(** A diagnostic tool's view of a ReadDTC response: the records of its body. *)
Fixpoint parse_dtcs (body : list Z) : option (list (Z * Z)) :=
  match body with
  | [] => Some []
  | a :: b :: c :: s :: body' => rest ← parse_dtcs body'; Some ((be_val [a; b; c], s) :: rest)
  | _ => None
  end.

End UdsReference.

(** ** What the DoIP server relies on *)
Class UdsService := {
  uds_handle : list Z -> Z -> checked (list Z);
  uds_handle_base : list Z -> Z -> base;
  uds_reply : list Z -> list Z;
  uds_handle_reply req len :
    bytes req -> 0 <= len <= zlen req ->
    uds_handle req len = Ok (uds_reply (take (Z.to_nat len) req));
  uds_reply_bytes req : bytes req -> bytes (uds_reply req);
  uds_reply_bound req : zlen (uds_reply req) <= 65535
}.

(** ** Lemmas *)
Module UdsFacts.
Import UdsHandler UdsReference.

Lemma string_bytes_u8 s : bytes (string_bytes s).
Proof.
  induction s as [|c s IH]; constructor; [|done].
  pose proof (Ascii.nat_ascii_bounded c). unfold is_u8. lia.
Qed.
#[export] Hint Resolve string_bytes_u8 : gw.

Lemma dtc_record_be24 d : dtc_record d = be24 (code d) ++ [status d].
Proof. unfold dtc_record, be24, byte_at. by rewrite Z.shiftr_0_r. Qed.

Lemma read_dtc_fold dtcs response :
  fold_left (fun response dtc => response ++ dtc_record dtc) dtcs response
  = response ++ (dtcs ≫= fun d => be24 (code d) ++ [status d]).
Proof.
  revert response. induction dtcs as [|d dtcs IH]; intros response; cbn [fold_left].
  - cbn. by rewrite app_nil_r.
  - rewrite IH, dtc_record_be24, <- app_assoc. done.
Qed.

(** Reading the first bytes of a request that is long enough. *)
Lemma rd_cons_0 b l : rd (b :: l) 0 = Ok b.
Proof. done. Qed.
Lemma rd_cons_1 a b l : rd (a :: b :: l) 1 = Ok b.
Proof. done. Qed.
Lemma rd_cons_2 a b c l : rd (a :: b :: c :: l) 2 = Ok c.
Proof. done. Qed.

Ltac case_eqb :=
  match goal with |- context [?x =? ?y] => destruct (Z.eqb_spec x y) end.

Lemma read_data_reply req len :
  bytes req -> 0 <= len <= zlen req -> 1 <= len ->
  rd req 0 = Ok 0x22 ->
  handle_read_data_by_id req len
  = Ok (respond [] (parse (take (Z.to_nat len) req))).
Proof.
  intros Hb Hlen H1 H0. unfold handle_read_data_by_id. unfold zlen in Hlen.
  destruct req as [|r0 req]; [discriminate H0|]. injection H0 as ->.
  destruct (Z.ltb_spec len 3) as [Hl|Hl].
  - assert (len = 1 \/ len = 2) as [-> | ->] by lia; [done|].
    by destruct req as [|r1 req].
  - do 2 (destruct req as [|? req]; [cbn in Hlen; lia|]).
    rewrite rd_cons_1, rd_cons_2. cbn [mbind checked_bind].
    inversion_clear Hb as [|? ? _ Hb']. inversion_clear Hb' as [|? ? Hh Hb].
    inversion_clear Hb as [|? ? Hl' _].
    destruct (or16_split z z0 Hh Hl') as (-> & -> & ->).
    replace (Z.to_nat len) with (S (S (S (Z.to_nat (len - 3))))) by lia. cbn [take].
    unfold parse, respond.
    assert (did_value z z0 = if z * 256 + z0 =? 0xF190 then Some "BBB0000000000001"%string
      else if z * 256 + z0 =? 0xF18C then Some "ECU-BBB-2024-001"%string
      else if z * 256 + z0 =? 0xF187 then Some "v1.0.0-automotive-gateway"%string
      else None) as ->.
    { unfold is_u8 in *. unfold did_value.
      destruct (decide (z = 0xF1)) as [->|Hne].
      - destruct (decide (z0 = 0x90)) as [->|]; [done|].
        destruct (decide (z0 = 0x8C)) as [->|]; [done|].
        destruct (decide (z0 = 0x87)) as [->|]; [done|].
        repeat (case_eqb; [lia|]). repeat case_match; congruence.
      - repeat (case_eqb; [lia|]). repeat case_match; congruence. }
    repeat case_eqb; done.
Qed.

(** A request of one byte or more. *)
Lemma take_1 (r0 : Z) (req : list Z) len :
  1 <= len -> take (Z.to_nat len) (r0 :: req) = r0 :: take (Z.to_nat (len - 1)) req.
Proof. intros. by replace (Z.to_nat len) with (S (Z.to_nat (len - 1))) by lia. Qed.

Lemma known_spec sid :
  known sid = (sid =? UDS_SESSION_CONTROL) || (sid =? UDS_READ_DTC)
              || (sid =? UDS_READ_DATA_BY_ID) || (sid =? UDS_ECU_RESET).
Proof.
  unfold known. apply eq_bool_prop_intro. rewrite bool_decide_spec.
  rewrite !orb_True, !Is_true_true, !Z.eqb_eq. set_solver.
Qed.

Lemma parse_unknown sid (rest : list Z) :
  known sid = false -> parse (sid :: rest) = Unknown sid.
Proof.
  intros Hk. pose proof Hk as Hn. rewrite known_spec in Hn.
  unfold UDS_SESSION_CONTROL, UDS_READ_DTC, UDS_READ_DATA_BY_ID, UDS_ECU_RESET in Hn.
  unfold parse. rewrite Hk. repeat (case_match; try done; try lia).
Qed.

(** The services with one parameter byte share their length check. *)
Lemma one_parameter (f : Z -> list Z) sid rest len :
  1 <= len <= 1 + zlen rest ->
  (if len <? 2 then Ok (negative_response sid UDS_NRC_REQUEST_OUT_OF_RANGE)
   else x ← rd (sid :: rest) 1; Ok (f x))
  = Ok (match take (Z.to_nat (len - 1)) rest with
        | [] => [0x7F; sid; 0x31]
        | x :: _ => f x
        end).
Proof.
  intros Hlen. destruct (Z.ltb_spec len 2) as [Hl|Hl].
  - by replace len with 1 by lia.
  - destruct rest as [|x rest]; [unfold zlen in Hlen; cbn in Hlen; lia|].
    rewrite rd_cons_1. by replace (Z.to_nat (len - 1)) with (S (Z.to_nat (len - 2))) by lia.
Qed.

Lemma handle_reply dtcs req len :
  bytes req -> 0 <= len <= zlen req ->
  handle dtcs req len = Ok (respond dtcs (parse (take (Z.to_nat len) req))).
Proof.
  intros Hb Hlen. unfold handle.
  destruct (Z.ltb_spec len 1) as [Hl|Hl]; [by replace len with 0 by lia|].
  destruct req as [|sid rest]; [unfold zlen in Hlen; cbn in Hlen; lia|].
  rewrite rd_cons_0, (take_1 _ _ _ Hl). cbn [mbind checked_bind].
  rewrite zlen_cons in Hlen. pose proof (known_spec sid) as Hk.
  destruct (Z.eqb_spec sid UDS_SESSION_CONTROL) as [->|_].
  { unfold handle_session_control. rewrite (one_parameter (fun x => [0x50; x])) by lia.
    by destruct (take _ rest). }
  destruct (Z.eqb_spec sid UDS_READ_DTC) as [->|_].
  { unfold handle_read_dtc. rewrite (one_parameter (fun x => _)) by lia.
    destruct (take _ rest); [done|]. by rewrite read_dtc_fold. }
  destruct (Z.eqb_spec sid UDS_READ_DATA_BY_ID) as [->|_].
  { rewrite read_data_reply by (rewrite ?zlen_cons; auto with lia).
    rewrite (take_1 _ _ _ Hl). by destruct (take _ rest) as [|? [|??]]. }
  destruct (Z.eqb_spec sid UDS_ECU_RESET) as [->|_].
  { unfold handle_ecu_reset. rewrite (one_parameter (fun x => [0x51; x])) by lia.
    by destruct (take _ rest). }
  by rewrite parse_unknown.
Qed.

Lemma parse_inv req :
  match parse req with
  | SessionControl s => exists r, req = 0x10 :: s :: r
  | ReadDtc s => exists r, req = 0x19 :: s :: r
  | ReadData h l => exists r, req = 0x22 :: h :: l :: r
  | EcuReset s => exists r, req = 0x11 :: s :: r
  | Truncated sid | Unknown sid => exists r, req = sid :: r
  | Empty => req = []
  end.
Proof. unfold parse. repeat case_match; simplify_eq; eauto. Qed.

Lemma dtc_body_bytes dtcs :
  Forall (fun d => is_u8 (status d)) dtcs ->
  bytes (dtcs ≫= fun d => be24 (code d) ++ [status d]).
Proof. induction 1; cbn [mbind list_bind]; auto 10 with gw. Qed.

Lemma respond_bytes dtcs req :
  Forall (fun d => is_u8 (status d)) dtcs -> bytes req ->
  bytes (respond dtcs (parse req)).
Proof.
  intros Hd Hb. pose proof (dtc_body_bytes dtcs Hd).
  pose proof (u8_range (zlen dtcs)).
  pose proof (parse_inv req) as Hp.
  destruct (parse req) as [s|s|h l|s|s|s|]; [destruct Hp as [r ->]..|]; cbn [respond];
    repeat match goal with H : bytes (_ :: _) |- _ => inversion_clear H end.
  3: destruct (did_value h l).
  all: auto 20 with gw.
Qed.

Lemma did_value_bound h l v : did_value h l = Some v -> zlen (string_bytes v) <= 25.
Proof. unfold did_value. intros. repeat (case_match; try done); simplify_eq; by vm_compute. Qed.

Lemma dtc_body_length dtcs :
  zlen (dtcs ≫= fun d => be24 (code d) ++ [status d]) = 4 * zlen dtcs.
Proof.
  induction dtcs as [|d dtcs IH]; [done|].
  rewrite bind_cons, zlen_app, zlen_cons, IH. change (zlen (be24 (code d) ++ [status d])) with 4. lia.
Qed.

Lemma respond_bound dtcs r :
  zlen dtcs <= 1000 -> zlen (respond dtcs r) <= 65535.
Proof.
  intros Hd. destruct r as [s|s|h l|s|s|s|]; cbn [respond]; try done.
  - autorewrite with zlen. rewrite dtc_body_length. lia.
  - destruct (did_value h l) as [v|] eqn:E; [|done].
    apply did_value_bound in E. autorewrite with zlen. lia.
Qed.

Lemma parse_dtcs_record c st l :
  parse_dtcs ((be24 c ++ [st]) ++ l)
  = (rest ← parse_dtcs l; Some ((c mod 16777216, st) :: rest)).
Proof.
  cbn [be24 app parse_dtcs]. change [byte_at 2 c; byte_at 1 c; byte_at 0 c] with (be24 c).
  by rewrite be24_val.
Qed.

Lemma parse_dtcs_body dtcs :
  parse_dtcs (dtcs ≫= fun d => be24 (code d) ++ [status d])
  = Some (map (fun d => (code d mod 16777216, status d)) dtcs).
Proof.
  induction dtcs as [|d dtcs IH]; [done|].
  by rewrite bind_cons, parse_dtcs_record, IH.
Qed.

End UdsFacts.

(** The handler with its built-in trouble codes is such a service. *)
#[export] Program Instance gateway_uds : UdsService := {|
  uds_handle := UdsHandler.handle UdsHandler.init;
  uds_handle_base := UdsHandler.handle_base UdsHandler.init;
  uds_reply req := UdsReference.respond UdsHandler.init (UdsReference.parse req)
|}.
Next Obligation. intros. by apply UdsFacts.handle_reply. Qed.
Next Obligation.
  intros. apply UdsFacts.respond_bytes; [|done].
  repeat constructor; by vm_compute.
Qed.
Next Obligation. intros. by apply UdsFacts.respond_bound. Qed.

(** ** Properties *)
Section properties.
Import UdsHandler UdsReference.

(** C9: for every request held in a buffer of at least [len] bytes the
    handler stays inside the buffer and answers exactly what the protocol
    table prescribes, on every branch, malformed requests included; the
    answer is either a negative response that echoes the service
    identifier, or the service identifier plus 0x40. *)
Theorem uds_handle_correct dtcs req len :
  bytes req -> 0 <= len <= zlen req ->
  exists reply,
    handle dtcs req len = Ok reply
    /\ reply = respond dtcs (parse (take (Z.to_nat len) req))
    /\ match take (Z.to_nat len) req, reply with
       | [], _ => reply = [0x7F; 0x00; 0x11]
       | sid :: _, [0x7F; sid'; nrc] => sid' = sid /\ (nrc = 0x11 \/ nrc = 0x31)
       | sid :: _, r0 :: _ => r0 = sid + 0x40
       | _, [] => False
       end.
Proof.
  intros Hb Hlen. eexists. split; [by apply UdsFacts.handle_reply|]. split; [done|].
  generalize (take (Z.to_nat len) req) as q. intros q.
  pose proof (UdsFacts.parse_inv q) as Hp.
  destruct (parse q) as [s|s|h l|s|s|s|]; [destruct Hp as [r ->]..|subst q; done];
    cbn [respond]; try done; try (split; [done|auto]).
  destruct (did_value h l); [done|auto].
Qed.

Lemma uds_handle_correct_witness :
  exists reply, handle init [0x22; 0xF1; 0x87; 0xAA] 3 = Ok reply
    /\ reply = respond init (parse (take (Z.to_nat 3) [0x22; 0xF1; 0x87; 0xAA]))
    /\ length reply = 28%nat.
Proof.
  destruct (uds_handle_correct init [0x22; 0xF1; 0x87; 0xAA] 3) as (r & H1 & H2 & _).
  - closed_bytes.
  - unfold zlen; cbn; lia.
  - exists r. split; [exact H1|]. split; [exact H2|]. rewrite H2. reflexivity.
Defined.

(** A ReadDTC response carries the stored trouble codes: after the six
    header bytes, whose last is the number of records (modulo 256), a tool
    that reads four-byte records recovers each stored code (24 bits of it)
    and status, in order. *)
Theorem uds_read_dtc_roundtrip dtcs sub_func rest :
  is_u8 sub_func -> bytes rest ->
  exists body,
    handle dtcs (0x19 :: sub_func :: rest) (2 + zlen rest)
    = Ok ([0x59; sub_func; 0xFF; 0x09; 0x00; u8 (zlen dtcs)] ++ body)
    /\ parse_dtcs body = Some (map (fun d => (code d mod 16777216, status d)) dtcs)
    /\ zlen body = 4 * zlen dtcs.
Proof.
  intros Hs Hr. eexists. split_and!.
  - rewrite UdsFacts.handle_reply.
    + replace (Z.to_nat (2 + zlen rest)) with (S (S (length rest))) by (unfold zlen; lia).
      reflexivity.
    + constructor; [done|by constructor].
    + autorewrite with zlen. pose proof (zlen_nonneg rest). lia.
  - apply UdsFacts.parse_dtcs_body.
  - apply UdsFacts.dtc_body_length.
Qed.

Lemma uds_read_dtc_roundtrip_witness :
  exists body,
    handle init [0x19; 0x02; 0xFF] 3 = Ok ([0x59; 0x02; 0xFF; 0x09; 0x00; 3] ++ body)
    /\ parse_dtcs body = Some [(0x012345, 0x08); (0x023456, 0x09); (0x034567, 0x00)].
Proof.
  destruct (uds_read_dtc_roundtrip init 0x02 [0xFF]) as (body & H1 & H2 & _);
    [unfold is_u8; lia | closed_bytes |].
  exists body. split; [exact H1|]. rewrite H2. reflexivity.
Defined.

End properties.
