(* ===== verification/DoipMessage.v ===== *)
(** * DoIP messages ([src/src/doip/doip_message.hpp], [doip_message.cpp])

    The fixed eight-byte header, its parser and serialiser as the code has
    them (reads and writes through a pointer, [htonl] and [memcpy]), the
    message builder, and [doip_frame], the frame the protocol prescribes. *)

From S2P Require Import Prelude.

Definition DOIP_PROTO_VERSION : Z := 0x02.
Definition DOIP_PROTO_VERSION_INV : Z := 0xFD.
Definition DOIP_ROUTING_ACTIVATION_REQ : Z := 0x0005.
Definition DOIP_ROUTING_ACTIVATION_RES : Z := 0x0006.
Definition DOIP_DIAGNOSTIC_MESSAGE : Z := 0x8001.
Definition DOIP_DIAGNOSTIC_ACK : Z := 0x8002.
Definition DOIP_DIAGNOSTIC_NACK : Z := 0x8003.
Definition DOIP_ALIVE_CHECK_REQ : Z := 0x0007.
Definition DOIP_ALIVE_CHECK_RES : Z := 0x0008.
Definition DOIP_ROUTING_OK : Z := 0x10.
Definition DOIP_ROUTING_DENIED : Z := 0x00.
Definition DOIP_ACK_OK : Z := 0x00.
Definition DOIP_NACK_UNKNOWN_SOURCE : Z := 0x02.
Definition DOIP_HEADER_SIZE : Z := 8.
Definition DOIP_ECU_ADDRESS : Z := 0x0001.

(** ** The header *)
Module DoIpHeader.

Record t := mk {
  proto_version : Z;
  proto_version_inv : Z;
  payload_type : Z;
  payload_length : Z
}.

(** The default member initialisers. *)
Definition default : t := mk DOIP_PROTO_VERSION DOIP_PROTO_VERSION_INV 0 0.

(** [DoIpHeader::parse]: the returned flag and the header written to [out]. *)
Definition parse (buf : list Z) (len : Z) (out : t) : checked (bool * t) :=
  if len <? DOIP_HEADER_SIZE then Ok (false, out)
  else
    b0 ← rd buf 0; b1 ← rd buf 1; b2 ← rd buf 2; b3 ← rd buf 3;
    b4 ← rd buf 4; b5 ← rd buf 5; b6 ← rd buf 6; b7 ← rd buf 7;
    Ok (true,
        mk b0 b1
          (u16 (Z.lor (Z.shiftl b2 8) b3))
          (u32 (Z.lor (Z.lor (Z.lor (i32 (Z.shiftl b4 24)) (Z.shiftl b5 16))
                             (Z.shiftl b6 8)) b7))).

(** [DoIpHeader::serialize] into the memory at [buf]. *)
Definition serialize `{Target} (hdr : t) (buf : list Z) : checked (list Z) :=
  buf ← wr buf 0 (proto_version hdr);
  buf ← wr buf 1 (proto_version_inv hdr);
  buf ← wr buf 2 (Z.land (Z.shiftr (payload_type hdr) 8) 0xFF);
  buf ← wr buf 3 (Z.land (payload_type hdr) 0xFF);
  wr_bytes buf 4 (mem32 (htonl (payload_length hdr))).

End DoIpHeader.

(** [make_doip_message]; a null [payload] is [None]. *)
Definition make_doip_message `{Target} (payload_type : Z) (payload : option (list Z))
    (payload_len : Z) : checked (list Z) :=
  let buf := replicate (Z.to_nat (sz (DOIP_HEADER_SIZE + payload_len))) 0 in
  let hdr := DoIpHeader.mk DOIP_PROTO_VERSION DOIP_PROTO_VERSION_INV
               payload_type (u32 payload_len) in
  buf ← DoIpHeader.serialize hdr buf;
  match payload with
  | Some p =>
      if 0 <? payload_len
      then bs ← rd_bytes p 0 payload_len; wr_bytes buf DOIP_HEADER_SIZE bs
      else Ok buf
  | None => Ok buf
  end.

(** ** The frame of the protocol *)
Definition doip_frame (payload_type : Z) (payload : list Z) : list Z :=
  [0x02; 0xFD] ++ be16 payload_type ++ be32 (zlen payload) ++ payload.

(** The length field of a header, as the receiver reads it. *)
Definition frame_type (l : list Z) : Z := be_val (take 2 (drop 2 l)).
Definition frame_length (l : list Z) : Z := be_val (take 4 (drop 4 l)).

(** ** Lemmas *)
Module DoipMessageFacts.

Lemma parse_header b0 b1 b2 b3 b4 b5 b6 b7 rest len out :
  bytes [b2; b3; b4; b5; b6; b7] -> 8 <= len ->
  DoIpHeader.parse (b0 :: b1 :: b2 :: b3 :: b4 :: b5 :: b6 :: b7 :: rest) len out
  = Ok (true, DoIpHeader.mk b0 b1 (be_val [b2; b3]) (be_val [b4; b5; b6; b7])).
Proof.
  intros Hb Hlen. repeat (inversion_clear Hb as [|? ? ? Hb']; rename Hb' into Hb).
  unfold DoIpHeader.parse, DOIP_HEADER_SIZE. guards.
  mem_red. do 3 f_equal.
  - rewrite or16_be_val by done. apply u16_small.
    pose proof (be_val_u8 [b2; b3] 2 ltac:(auto with gw) eq_refl). done.
  - by apply or32_int_be_val.
Qed.

Lemma be32_u32 x : be32 (u32 x) = be32 x.
Proof. rewrite !be32_div. unfold u32. do 3 (f_equal; [zlia|]). f_equal. zlia. Qed.

Lemma serialize_header `{Target} hdr (l rest : list Z) :
  length l = 8%nat ->
  DoIpHeader.serialize hdr (l ++ rest)
  = Ok ([DoIpHeader.proto_version hdr; DoIpHeader.proto_version_inv hdr]
        ++ be16 (DoIpHeader.payload_type hdr)
        ++ be32 (DoIpHeader.payload_length hdr) ++ rest).
Proof.
  intros Hl. do 8 (destruct l as [|? l]; [discriminate Hl|]). destruct l; [|discriminate Hl].
  unfold DoIpHeader.serialize, be16, byte_at. rewrite Z.shiftr_0_r, memcpy_htonl.
  cbn [app]. mem_red.
  apply (wr_bytes_app [_; _; _; _] [_; _; _; _] rest 4); done.
Qed.

Lemma make_frame `{Target} t p n :
  0 <= n <= zlen p -> n < 4294967288 ->
  make_doip_message t (Some p) n = Ok (doip_frame t (take (Z.to_nat n) p)).
Proof.
  intros Hn Hm. unfold make_doip_message, DOIP_HEADER_SIZE.
  rewrite sz_small, Z2Nat.inj_add, replicate_add, serialize_header by (done || lia).
  cbn [mbind checked_bind DoIpHeader.proto_version DoIpHeader.proto_version_inv
       DoIpHeader.payload_type DoIpHeader.payload_length]. rewrite be32_u32.
  assert (zlen (take (Z.to_nat n) p) = n) as Hz.
  { by apply zlen_take. }
  unfold doip_frame. rewrite Hz. destruct (Z.ltb_spec 0 n) as [Hp|Hp].
  - rewrite rd_bytes_ok by lia. cbn [mbind checked_bind].
    rewrite drop_0, !app_assoc. rewrite <- (app_nil_r (replicate _ _)).
    rewrite wr_bytes_app; [by rewrite app_nil_r|done|].
    rewrite length_replicate, length_take. unfold zlen in *. lia.
  - by replace n with 0 by lia.
Qed.

Lemma doip_frame_bytes t p : bytes p -> bytes (doip_frame t p).
Proof. unfold doip_frame. auto 10 with gw. Qed.
#[export] Hint Resolve doip_frame_bytes : gw.

Lemma doip_frame_length t p : zlen (doip_frame t p) = 8 + zlen p.
Proof. unfold doip_frame. autorewrite with zlen. lia. Qed.

Lemma frame_type_frame t p rest :
  frame_type (doip_frame t p ++ rest) = u16 t.
Proof. exact (be16_val t). Qed.
Lemma frame_length_frame t p rest :
  frame_length (doip_frame t p ++ rest) = u32 (zlen p).
Proof. exact (be32_val (zlen p)). Qed.

End DoipMessageFacts.

(** ** Properties *)

(** C35: the message builder and the header parser are inverse.  Every message
    built from a 16-bit type and a payload parses back, whatever follows it
    in the receive buffer, to the same type and to the payload's length,
    and its body is the payload; and serialising the header parsed from any
    eight bytes writes those eight bytes back. *)
Theorem doip_message_roundtrip `{Target} t p rest out :
  is_u16 t -> bytes p -> zlen p < 4294967288 ->
  (exists msg,
     make_doip_message t (Some p) (zlen p) = Ok msg
     /\ zlen msg = 8 + zlen p
     /\ DoIpHeader.parse (msg ++ rest) (zlen (msg ++ rest)) out
        = Ok (true, DoIpHeader.mk 0x02 0xFD t (zlen p))
     /\ msg +! DOIP_HEADER_SIZE = p)
  /\ (forall h, bytes h -> length h = 8%nat ->
     exists hdr, DoIpHeader.parse h 8 out = Ok (true, hdr)
       /\ DoIpHeader.serialize hdr (replicate 8 0) = Ok h).
Proof.
  intros Ht Hp Hl. pose proof (zlen_nonneg p). split.
  - exists (doip_frame t p). split_and!.
    + rewrite DoipMessageFacts.make_frame by lia.
      by rewrite take_zlen.
    + apply DoipMessageFacts.doip_frame_length.
    + unfold doip_frame. cbn [app be16 be32].
      rewrite DoipMessageFacts.parse_header;
        [|auto 10 with gw|autorewrite with zlen; pose proof (zlen_nonneg rest); lia].
      change [byte_at 1 t; byte_at 0 t] with (be16 t).
      change [byte_at 3 (zlen p); _; _; _] with (be32 (zlen p)).
      rewrite be16_val, be32_val, u16_small, u32_small by (done || (unfold is_u32; lia)).
      done.
    + done.
  - intros h Hh Hlen. do 8 (destruct h as [|? h]; [discriminate Hlen|]).
    destruct h; [|discriminate Hlen]. repeat (inversion_clear Hh as [|? ? ? Hh']; rename Hh' into Hh).
    eexists. split; [apply DoipMessageFacts.parse_header; [auto 10 with gw|lia]|].
    rewrite (DoipMessageFacts.serialize_header _ (replicate 8 0) []) by done.
    cbn [DoIpHeader.proto_version DoIpHeader.proto_version_inv DoIpHeader.payload_type
         DoIpHeader.payload_length].
    by rewrite be16_of_val, be32_of_val.
Qed.

Lemma doip_message_roundtrip_witness :
  (exists msg, make_doip_message (H:=armv7) 0x8001 (Some [0x0E; 0x00]) 2 = Ok msg
     /\ msg = [0x02; 0xFD; 0x80; 0x01; 0; 0; 0; 2; 0x0E; 0x00])
  /\ DoIpHeader.parse [2; 0xFD; 0; 5; 0xFF; 0xFF; 0xFF; 0xF8] 8 DoIpHeader.default
     = Ok (true, DoIpHeader.mk 2 0xFD 5 0xFFFFFFF8).
Proof.
  destruct (doip_message_roundtrip (H:=armv7) 0x8001 [0x0E; 0x00] [] DoIpHeader.default)
    as [(msg & H1 & _) H2];
    [unfold is_u16; lia | closed_bytes | unfold zlen; cbn; lia |].
  split.
  - exists msg. split; [exact H1|]. vm_compute in H1. by injection H1 as <-.
  - destruct (H2 [2; 0xFD; 0; 5; 0xFF; 0xFF; 0xFF; 0xF8]) as (hdr & H3 & _);
      [closed_bytes | reflexivity |].
    rewrite H3. vm_compute in H3. by injection H3 as <-.
Defined.
