(* ===== verification/DoipServer.v ===== *)
(** * DoIP server ([src/src/doip/doip_server.hpp], [doip_server.cpp])

    [Module DoIpServer] is the class: the connection table, the accept and
    receive callbacks, the reassembly loop over the 4096-byte receive buffer
    and the message handlers, against the interface [UdsService].
    [Module DoIpSpec] is what the server promises: a function of the byte
    stream of a connection alone.  The properties relate the two and state
    the invariants of the connection table over every sequence of events.
    [on_client_base] follows the state of [std::cout] through the lines that
    are logged. *)

From S2P Require Import Prelude Uds DoipMessage.

(** ** The class *)
Module DoIpServer.

Definition RECV_BUF_SIZE : Z := 4096.

Record DoIpConnection := mk_conn {
  fd : Z;
  activated : bool;
  tester_addr : Z;
  recv_buf : list Z;
  recv_len : Z
}.

(** The members the class keeps, [uds_] apart ([UdsService]). *)
Record t := mk {
  listen_fd : Z;
  port : Z;
  connections : gmap Z DoIpConnection
}.

(** Calls made on the operating system and on the event loop. *)
Variant action :=
| Send (fd : Z) (data : list Z)
| Close (fd : Z)
| AddReader (fd : Z).

(** What [recv] finds on the socket: an error ([errno], [EAGAIN] included)
    or the bytes that have arrived, none at end of stream. *)
Variant socket_input :=
| RecvError (errno : Z)
| RecvBytes (available : list Z).

(** [recv(fd, p, cap, 0)]: the returned count and the bytes stored at [p]. *)
Definition recv (input : socket_input) (cap : Z) : Z * list Z :=
  match input with
  | RecvError _ => (-1, [])
  | RecvBytes available =>
      let got := take (Z.to_nat cap) available in (zlen got, got)
  end.

(** [DoIpServer::DoIpServer]: the results of [socket], [bind] and [listen]
    decide between the object and the exception. *)
Definition construct (port_ sock_res bind_res listen_res : Z) : t + string :=
  if sock_res <? 0 then inr "DoIP socket failed: "%string
  else if bind_res <? 0 then inr "DoIP bind failed: "%string
  else if listen_res <? 0 then inr "DoIP listen failed: "%string
  else inl (mk sock_res port_ ∅).

(** [~DoIpServer]. *)
Definition destroy (srv : t) : list action :=
  map Close (filter (fun fd => 0 <= fd) (map fst (map_to_list (connections srv))))
  ++ (if 0 <=? listen_fd srv then [Close (listen_fd srv)] else []).

(** The default member initialisers of [DoIpConnection], with the
    descriptor and flag the accept callback sets. *)
Definition new_connection (client_fd : Z) : DoIpConnection :=
  mk_conn client_fd false 0 (replicate (Z.to_nat RECV_BUF_SIZE) 0) 0.

(** The accept callback that [register_with_loop] installs on the listening
    socket; [accept_res] is what [accept] returns. *)
Definition on_accept (srv : t) (accept_res : Z) : t * list action :=
  if accept_res <? 0 then (srv, [])
  else (mk (listen_fd srv) (port srv)
          (<[accept_res := new_connection accept_res]> (connections srv)),
        [AddReader accept_res]).

(** [register_with_loop]. *)
Definition register_with_loop (srv : t) : list action := [AddReader (listen_fd srv)].

(** The call of [send].  Its result is only reported on [std::cerr]: nothing the
    server does afterwards depends on it, nor on how much the kernel took. *)
Definition send_to_client (fd : Z) (data : list Z) : list action := [Send fd data].

Section handlers.
Context {T : Target} {U : UdsService}.

Definition handle_routing_activation (conn : DoIpConnection) (payload : list Z) (len : Z)
  : checked (DoIpConnection * list action) :=
  if len <? 2 then Ok (conn, [])
  else
    p0 ← rd payload 0;
    p1 ← rd payload 1;
    let tester_addr := u16 (Z.lor (Z.shiftl p0 8) p1) in
    let conn := mk_conn (fd conn) true tester_addr (recv_buf conn) (recv_len conn) in
    let res := [Z.land (Z.shiftr tester_addr 8) 0xFF; Z.land tester_addr 0xFF;
                Z.land (Z.shiftr DOIP_ECU_ADDRESS 8) 0xFF; Z.land DOIP_ECU_ADDRESS 0xFF;
                DOIP_ROUTING_OK; 0x00; 0x00; 0x00; 0x00] in
    msg ← make_doip_message DOIP_ROUTING_ACTIVATION_RES (Some res) 9;
    Ok (conn, send_to_client (fd conn) msg).

Definition handle_diagnostic_message (conn : DoIpConnection) (payload : list Z) (len : Z)
  : checked (DoIpConnection * list action) :=
  if negb (activated conn) then Ok (conn, [])
  else if len <? 4 then Ok (conn, [])
  else
    p0 ← rd payload 0; p1 ← rd payload 1; p2 ← rd payload 2; p3 ← rd payload 3;
    let src_addr := u16 (Z.lor (Z.shiftl p0 8) p1) in
    let tgt_addr := u16 (Z.lor (Z.shiftl p2 8) p3) in
    let uds_data := payload +! 4 in
    let uds_len := sz (len - 4) in
    let ack := [Z.land (Z.shiftr src_addr 8) 0xFF; Z.land src_addr 0xFF;
                Z.land (Z.shiftr tgt_addr 8) 0xFF; Z.land tgt_addr 0xFF; DOIP_ACK_OK] in
    ack_msg ← make_doip_message DOIP_DIAGNOSTIC_ACK (Some ack) 5;
    uds_response ← uds_handle uds_data uds_len;
    let diag_payload :=
      [Z.land (Z.shiftr tgt_addr 8) 0xFF; Z.land tgt_addr 0xFF;
       Z.land (Z.shiftr src_addr 8) 0xFF; Z.land src_addr 0xFF] ++ uds_response in
    diag_msg ← make_doip_message DOIP_DIAGNOSTIC_MESSAGE (Some diag_payload)
                 (zlen diag_payload);
    Ok (conn, send_to_client (fd conn) ack_msg ++ send_to_client (fd conn) diag_msg).

Definition handle_doip_message (conn : DoIpConnection) (hdr : DoIpHeader.t)
    (payload : list Z) (payload_len : Z) : checked (DoIpConnection * list action) :=
  if DoIpHeader.payload_type hdr =? DOIP_ROUTING_ACTIVATION_REQ
  then handle_routing_activation conn payload payload_len
  else if DoIpHeader.payload_type hdr =? DOIP_DIAGNOSTIC_MESSAGE
  then handle_diagnostic_message conn payload payload_len
  else if DoIpHeader.payload_type hdr =? DOIP_ALIVE_CHECK_REQ
  then
    let res := [Z.land (Z.shiftr DOIP_ECU_ADDRESS 8) 0xFF; Z.land DOIP_ECU_ADDRESS 0xFF] in
    msg ← make_doip_message DOIP_ALIVE_CHECK_RES (Some res) 2;
    Ok (conn, send_to_client (fd conn) msg)
  else Ok (conn, []).

(** The [while] loop of [on_client_data]. *)
Fixpoint process_buffer (fuel : nat) (conn : DoIpConnection) (acts : list action)
  : checked (DoIpConnection * list action) :=
  if recv_len conn <? DOIP_HEADER_SIZE then Ok (conn, acts)
  else
    match fuel with
    | O => Fault OutOfFuel
    | S fuel =>
        parsed ← DoIpHeader.parse (recv_buf conn) (recv_len conn) DoIpHeader.default;
        let hdr := parsed.2 in
        let total := sz (DOIP_HEADER_SIZE + DoIpHeader.payload_length hdr) in
        if recv_len conn <? total then Ok (conn, acts)
        else
          handled ← handle_doip_message conn hdr (recv_buf conn +! DOIP_HEADER_SIZE)
                      (DoIpHeader.payload_length hdr);
          let conn := handled.1 in
          let left_len := sz (recv_len conn - total) in
          buf ← (if 0 <? left_len
                 then moved ← rd_bytes (recv_buf conn) total left_len;
                      wr_bytes (recv_buf conn) 0 moved
                 else Ok (recv_buf conn));
          process_buffer fuel
            (mk_conn (fd conn) (activated conn) (tester_addr conn) buf left_len)
            (acts ++ handled.2)
    end.

(** Every message takes at least eight of the 4096 bytes. *)
Definition drain_fuel : nat := 512.

(** [on_client_data]. *)
Definition on_client_data (srv : t) (client_fd : Z) (input : socket_input)
  : checked (t * list action) :=
  match connections srv !! client_fd with
  | None => Ok (srv, [])
  | Some conn =>
      let '(n, got) := recv input (sz (RECV_BUF_SIZE - recv_len conn)) in
      if n <=? 0 then
        Ok (mk (listen_fd srv) (port srv) (delete client_fd (connections srv)),
            [Close client_fd])
      else
        buf ← wr_bytes (recv_buf conn) (recv_len conn) got;
        let conn := mk_conn (fd conn) (activated conn) (tester_addr conn) buf
                      (sz (recv_len conn + n)) in
        drained ← process_buffer drain_fuel conn [];
        Ok (mk (listen_fd srv) (port srv)
              (<[client_fd := drained.1]> (connections srv)),
            drained.2)
  end.

(** *** The state of [std::cout]

    What the lines logged for a message, and by a call of [on_client_data],
    leave as the base integers are written in. *)
Definition message_base (conn : DoIpConnection) (hdr : DoIpHeader.t) (payload : list Z) (len : Z) : base :=
  if (DoIpHeader.payload_type hdr =? DOIP_DIAGNOSTIC_MESSAGE) && activated conn && negb (len <? 4)
  then uds_handle_base (payload +! 4) (sz (len - 4))
  else Dec.

Fixpoint process_base (fuel : nat) (conn : DoIpConnection) (b : base) : checked base :=
  if recv_len conn <? DOIP_HEADER_SIZE then Ok b
  else
    match fuel with
    | O => Fault OutOfFuel
    | S fuel =>
        parsed ← DoIpHeader.parse (recv_buf conn) (recv_len conn) DoIpHeader.default;
        let hdr := parsed.2 in
        let total := sz (DOIP_HEADER_SIZE + DoIpHeader.payload_length hdr) in
        if recv_len conn <? total then Ok b
        else
          let payload := recv_buf conn +! DOIP_HEADER_SIZE in
          let b := message_base conn hdr payload (DoIpHeader.payload_length hdr) in
          handled ← handle_doip_message conn hdr payload (DoIpHeader.payload_length hdr);
          let conn := handled.1 in
          let left_len := sz (recv_len conn - total) in
          buf ← (if 0 <? left_len
                 then moved ← rd_bytes (recv_buf conn) total left_len;
                      wr_bytes (recv_buf conn) 0 moved
                 else Ok (recv_buf conn));
          process_base fuel (mk_conn (fd conn) (activated conn) (tester_addr conn) buf left_len) b
    end.

Definition on_client_base (srv : t) (client_fd : Z) (input : socket_input) (b : base) : checked base :=
  match connections srv !! client_fd with
  | None => Ok b
  | Some conn =>
      let '(n, got) := recv input (sz (RECV_BUF_SIZE - recv_len conn)) in
      if n <=? 0 then Ok b
      else
        buf ← wr_bytes (recv_buf conn) (recv_len conn) got;
        process_base drain_fuel
          (mk_conn (fd conn) (activated conn) (tester_addr conn) buf (sz (recv_len conn + n))) b
  end.

End handlers.
End DoIpServer.

(** ** What the server promises

    The diagnostic session of one connection, as a function of the bytes
    received on it: complete frames are served in order, each at once. *)
Module DoIpSpec.

Record session := mk_session { s_activated : bool; s_tester : Z }.

Definition fresh : session := mk_session false 0.

Section spec.
Context {U : UdsService}.

(** The effect of one frame and the frames sent in reply. *)
Definition react (s : session) (type : Z) (p : list Z) : session * list (list Z) :=
  if type =? 0x0005 then
    match p with
    | a :: b :: _ =>
        (mk_session true (be_val [a; b]),
         [doip_frame 0x0006 [a; b; 0x00; 0x01; 0x10; 0; 0; 0; 0]])
    | _ => (s, [])
    end
  else if type =? 0x8001 then
    match s_activated s, p with
    | true, s1 :: s2 :: t1 :: t2 :: req =>
        (s, [doip_frame 0x8002 [s1; s2; t1; t2; 0x00];
             doip_frame 0x8001 ([t1; t2; s1; s2] ++ uds_reply req)])
    | _, _ => (s, [])
    end
  else if type =? 0x0007 then (s, [doip_frame 0x0008 [0x00; 0x01]])
  else (s, []).

(** Serves the complete frames of [l]; the rest stays pending. *)
Fixpoint serve (fuel : nat) (s : session) (l : list Z)
  : session * list (list Z) * list Z :=
  match fuel with
  | O => (s, [], l)
  | S fuel =>
      if zlen l <? 8 then (s, [], l)
      else if zlen l <? 8 + frame_length l then (s, [], l)
      else
        let '(s1, o1) := react s (frame_type l)
                           (take (Z.to_nat (frame_length l)) (l +! 8)) in
        let '(s2, o2, r) := serve fuel s1 (l +! (8 + frame_length l)) in
        (s2, o1 ++ o2, r)
  end.

Definition serve_all (s : session) (l : list Z) : session * list (list Z) * list Z :=
  serve (length l) s l.

End spec.
End DoIpSpec.

(** ** Lemmas *)
Module DoipServerFacts.
Import DoIpServer DoIpSpec.

Section facts.
Context {T : Target} {U : UdsService}.

(** The session a connection implements. *)
Definition sess (conn : DoIpConnection) : session :=
  mk_session (activated conn) (tester_addr conn).

Definition with_session (conn : DoIpConnection) (s : session) : DoIpConnection :=
  mk_conn (fd conn) (s_activated s) (s_tester s) (recv_buf conn) (recv_len conn).

Definition sends (conn : DoIpConnection) (frames : list (list Z)) : list action :=
  map (Send (fd conn)) frames.

Lemma with_session_id conn : with_session conn (sess conn) = conn.
Proof. by destruct conn. Qed.

(** A payload of at least [n] bytes as its first bytes and the rest. *)
Lemma take_pos (n : Z) x (l : list Z) :
  0 < n -> take (Z.to_nat n) (x :: l) = x :: take (Z.to_nat (n - 1)) l.
Proof. intros. by replace (Z.to_nat n) with (S (Z.to_nat (n - 1))) by lia. Qed.

Lemma handle_routing_activation_ok conn payload len :
  bytes payload -> 0 <= len <= zlen payload ->
  handle_routing_activation conn payload len
  = let r := react (sess conn) 0x0005 (take (Z.to_nat len) payload) in
    Ok (with_session conn r.1, sends conn r.2).
Proof.
  intros Hb Hlen. unfold handle_routing_activation.
  destruct (Z.ltb_spec len 2) as [Hl|Hl].
  - assert (take (Z.to_nat len) payload = [] \/ exists a, take (Z.to_nat len) payload = [a])
      as [-> | [a ->]] by (assert (len = 0 \/ len = 1) as [-> | ->] by lia;
        [by left|destruct payload; [by left|by right; eexists]]).
    all: by destruct conn.
  - do 2 (destruct payload as [|? payload]; [unfold zlen in Hlen; cbn in Hlen; lia|]).
    inversion_clear Hb as [|? ? Ha Hb']. inversion_clear Hb' as [|? ? Hc Hb].
    rewrite !take_pos by lia. mem_red.
    destruct (or16_split z z0 Ha Hc) as (-> & -> & ->).
    rewrite DoipMessageFacts.make_frame by (unfold zlen; cbn; lia). done.
Qed.

Lemma handle_diagnostic_message_ok conn payload len :
  bytes payload -> 0 <= len <= zlen payload -> is_u32 len ->
  handle_diagnostic_message conn payload len
  = let r := react (sess conn) 0x8001 (take (Z.to_nat len) payload) in
    Ok (with_session conn r.1, sends conn r.2).
Proof.
  intros Hb Hlen H32. unfold handle_diagnostic_message. unfold is_u32 in H32.
  destruct (activated conn) eqn:Ea; cbn [negb].
  2: { unfold react. cbn. rewrite Ea. cbn. by destruct conn; cbn in *; subst. }
  destruct (Z.ltb_spec len 4) as [Hl|Hl].
  - assert (length (take (Z.to_nat len) payload) < 4)%nat as Hs
      by (rewrite length_take; lia).
    destruct (take (Z.to_nat len) payload) as [|? [|? [|? [|? ?]]]]; cbn in Hs; try lia;
      unfold react; cbn; rewrite Ea; by destruct conn; cbn in *; subst.
  - do 4 (destruct payload as [|? payload]; [unfold zlen in Hlen; cbn in Hlen; lia|]).
    pose proof Hb as Hall.
    do 4 (inversion_clear Hb as [|? ? ? Hb']; rename Hb' into Hb).
    autorewrite with zlen in Hlen. rewrite !take_pos by lia. mem_red.
    destruct (or16_split z z0) as (-> & -> & ->); [done..|].
    destruct (or16_split z1 z2) as (-> & -> & ->); [done..|].
    rewrite DoipMessageFacts.make_frame by (unfold zlen; cbn; lia). cbn [mbind checked_bind].
    rewrite (sz_small (len - 4)) by lia.
    change ((z :: z0 :: z1 :: z2 :: payload) +! 4) with payload.
    rewrite uds_handle_reply by (done || lia). cbn [mbind checked_bind].
    pose proof (uds_reply_bound (take (Z.to_nat (len - 4)) payload)) as Hr.
    rewrite DoipMessageFacts.make_frame by (autorewrite with zlen;
      pose proof (zlen_nonneg (uds_reply (take (Z.to_nat (len - 4)) payload))); lia).
    rewrite take_zlen. cbn [mbind checked_bind]. unfold react. cbn [sess s_activated].
    rewrite Ea.
    replace (len - 1 - 1 - 1 - 1) with (len - 4) by lia. cbn -[doip_frame app].
    by destruct conn; cbn in *; subst.
Qed.

Lemma react_diagnostic s s1 s2 t1 t2 req :
  s_activated s = true ->
  react s DOIP_DIAGNOSTIC_MESSAGE (s1 :: s2 :: t1 :: t2 :: req)
  = (s, [doip_frame 0x8002 [s1; s2; t1; t2; 0x00];
         doip_frame 0x8001 ([t1; t2; s1; s2] ++ uds_reply req)]).
Proof.
  intros Ha. unfold react, DOIP_DIAGNOSTIC_MESSAGE.
  change (0x8001 =? 0x0005) with false. change (0x8001 =? 0x8001) with true. cbv iota.
  by rewrite Ha.
Qed.

Lemma handle_doip_message_ok conn hdr payload len :
  bytes payload -> 0 <= len <= zlen payload -> is_u32 len ->
  handle_doip_message conn hdr payload len
  = let r := react (sess conn) (DoIpHeader.payload_type hdr) (take (Z.to_nat len) payload) in
    Ok (with_session conn r.1, sends conn r.2).
Proof.
  intros Hb Hlen H32. unfold handle_doip_message.
  destruct (Z.eqb_spec (DoIpHeader.payload_type hdr) DOIP_ROUTING_ACTIVATION_REQ) as [->|N1].
  { by rewrite handle_routing_activation_ok. }
  destruct (Z.eqb_spec (DoIpHeader.payload_type hdr) DOIP_DIAGNOSTIC_MESSAGE) as [->|N2].
  { by rewrite handle_diagnostic_message_ok. }
  unfold react, DOIP_ROUTING_ACTIVATION_REQ, DOIP_DIAGNOSTIC_MESSAGE in *.
  rewrite (proj2 (Z.eqb_neq _ _) N1), (proj2 (Z.eqb_neq _ _) N2).
  change DOIP_ALIVE_CHECK_REQ with 0x0007.
  destruct (DoIpHeader.payload_type hdr =? 0x0007).
  - rewrite DoipMessageFacts.make_frame by (unfold zlen; cbn; lia). by destruct conn.
  - by destruct conn.
Qed.

(** *** The reassembly loop *)

(** The receive buffer's invariant, and the bytes waiting in it. *)
Definition inv (conn : DoIpConnection) : Prop :=
  zlen (recv_buf conn) = RECV_BUF_SIZE /\ bytes (recv_buf conn)
  /\ 0 <= recv_len conn <= RECV_BUF_SIZE.

Definition pending (conn : DoIpConnection) : list Z :=
  take (Z.to_nat (recv_len conn)) (recv_buf conn).

Lemma zlen_pending conn : inv conn -> zlen (pending conn) = recv_len conn.
Proof. intros (Hl & _ & Hr). apply zlen_take. rewrite Hl. done. Qed.

Lemma pending_bytes conn : inv conn -> bytes (pending conn).
Proof. intros (_ & Hb & _). by apply bytes_take. Qed.

(** The parsed header of a buffer that holds at least one. *)
Lemma parse_pending conn :
  inv conn -> 8 <= recv_len conn ->
  exists hdr,
    DoIpHeader.parse (recv_buf conn) (recv_len conn) DoIpHeader.default = Ok (true, hdr)
    /\ DoIpHeader.payload_type hdr = frame_type (pending conn)
    /\ DoIpHeader.payload_length hdr = frame_length (pending conn)
    /\ is_u32 (frame_length (pending conn)).
Proof.
  intros (Hl & Hb & Hr) H8. unfold pending. destruct (recv_buf conn) as [|b0 l] eqn:E0;
    [discriminate Hl|].
  do 7 (destruct l as [|? l]; [discriminate Hl|]).
  pose proof Hb as Hall. do 8 (inversion_clear Hb as [|? ? ? Hb']; rename Hb' into Hb).
  eexists. split; [apply DoipMessageFacts.parse_header; [auto 10 with gw|done]|].
  rewrite !take_pos by lia. split_and!; [done|done|].
  pose proof (be_val_u8 [z2; z3; z4; z5] 4 ltac:(auto with gw) eq_refl). done.
Qed.

(** One turn of the loop on a complete message. *)
Lemma consume_ok conn total :
  inv conn -> 0 <= total <= recv_len conn ->
  exists buf,
    (if 0 <? recv_len conn - total
     then moved ← rd_bytes (recv_buf conn) total (recv_len conn - total);
          wr_bytes (recv_buf conn) 0 moved
     else Ok (recv_buf conn)) = Ok buf
    /\ zlen buf = RECV_BUF_SIZE /\ bytes buf
    /\ take (Z.to_nat (recv_len conn - total)) buf = pending conn +! total.
Proof.
  intros (Hl & Hb & Hr) Ht. pose proof (zlen_pending conn ltac:(done)) as Hp.
  destruct (Z.ltb_spec 0 (recv_len conn - total)) as [Hlt|Hge].
  - rewrite memmove_front by lia. eexists. split; [done|].
    assert (zlen (take (Z.to_nat (recv_len conn - total)) (recv_buf conn +! total))
            = recv_len conn - total) as Hz.
    { apply zlen_take. rewrite zlen_drop by lia. lia. }
    split_and!.
    + rewrite zlen_app, Hz, zlen_drop by lia. lia.
    + auto with gw.
    + rewrite take_app_le by (unfold zlen in Hz; lia).
      rewrite take_take, Nat.min_id. unfold pending.
      rewrite skipn_firstn_comm. f_equal. lia.
  - exists (recv_buf conn). split_and!; [done|done|done|].
    replace (Z.to_nat (recv_len conn - total)) with 0%nat by lia.
    rewrite take_0, drop_ge; [done|]. unfold zlen in Hp. lia.
Qed.

Lemma process_buffer_ok fuel conn acts :
  size_bits = 64 -> inv conn -> recv_len conn < 8 * (Z.of_nat fuel + 1) ->
  let '(s, o, r) := serve fuel (sess conn) (pending conn) in
  exists conn',
    process_buffer fuel conn acts = Ok (conn', acts ++ sends conn o)
    /\ inv conn' /\ fd conn' = fd conn /\ sess conn' = s /\ pending conn' = r.
Proof.
  intros H64. revert conn acts. induction fuel as [|fuel IH]; intros conn acts Hi Hf;
    cbn [process_buffer serve]; unfold DOIP_HEADER_SIZE.
  { guards. exists conn. cbn. by rewrite app_nil_r. }
  rewrite zlen_pending by done. destruct (Z.ltb_spec (recv_len conn) 8) as [H8|H8].
  { exists conn. cbn. by rewrite app_nil_r. }
  destruct (parse_pending conn Hi H8) as (hdr & -> & Ht & Hn & H32).
  cbn [mbind checked_bind snd]. rewrite Hn. set (n := frame_length (pending conn)) in *.
  assert (Hsz : forall x, 0 <= x < 2 ^ 64 -> sz x = x).
  { intros x Hx. unfold sz. rewrite H64. by apply Z.mod_small. }
  unfold is_u32 in H32. rewrite (Hsz (8 + n)) by lia.
  destruct (Z.ltb_spec (recv_len conn) (8 + n)) as [Hs|Hs].
  { exists conn. cbn. by rewrite app_nil_r. }
  pose proof Hi as (Hl & Hb & Hr).
  rewrite handle_doip_message_ok;
    [|by apply bytes_drop|rewrite zlen_drop by lia; lia|done].
  rewrite Ht. assert (take (Z.to_nat n) (recv_buf conn +! 8)
    = take (Z.to_nat n) (pending conn +! 8)) as ->.
  { unfold pending. rewrite sub_take by lia. done. }
  destruct (react _ _ _) as [s1 o1]. cbn [mbind checked_bind fst snd].
  change (recv_buf (with_session conn s1)) with (recv_buf conn).
  change (recv_len (with_session conn s1)) with (recv_len conn).
  rewrite (Hsz (recv_len conn - (8 + n))) by (unfold RECV_BUF_SIZE in *; lia).
  destruct (consume_ok conn (8 + n) Hi ltac:(lia)) as (buf & -> & Hlb & Hbb & Hpb).
  cbn [mbind checked_bind].
  match goal with |- context [process_buffer fuel ?c ?a] =>
    specialize (IH c a); set (conn1 := c) in * end.
  assert (pending conn1 = pending conn +! (8 + n)) as Hp1 by exact Hpb.
  assert (sess conn1 = s1) as Hs1 by (by destruct s1).
  rewrite <- Hp1, <- Hs1.
  specialize (IH ltac:(split_and!; [done|done|cbn; lia|cbn; lia]) ltac:(cbn; lia)).
  destruct (serve fuel _ _) as [[s2 o2] r]. destruct IH as (conn' & -> & H1 & H2 & H3 & H4).
  exists conn'. split_and!; [|done..].
  unfold sends. by rewrite map_app, app_assoc.
Qed.

(** *** The specification: fuel and concatenation *)
Lemma frame_length_nonneg l : bytes l -> 0 <= frame_length l.
Proof.
  intros Hb. unfold frame_length. pose proof (be_val_u8 (take 4 (drop 4 l)) _ ltac:(auto with gw) eq_refl).
  lia.
Qed.

Lemma frame_app l k :
  8 <= zlen l -> frame_length (l ++ k) = frame_length l /\ frame_type (l ++ k) = frame_type l.
Proof.
  unfold zlen, frame_length, frame_type. intros.
  rewrite !drop_app_le, !take_app_le by (rewrite ?length_drop; lia). done.
Qed.

Lemma serve_fuel n m s l :
  bytes l -> zlen l < 8 * (Z.of_nat n + 1) -> zlen l < 8 * (Z.of_nat m + 1) ->
  serve n s l = serve m s l.
Proof.
  revert m s l. induction n as [|n IH]; intros m s l Hb Hn Hm.
  - destruct m; [done|]. cbn [serve]. by guards.
  - destruct m as [|m]; cbn [serve].
    + by guards.
    + destruct (Z.ltb_spec (zlen l) 8); [done|].
      destruct (Z.ltb_spec (zlen l) (8 + frame_length l)); [done|].
      destruct (react _ _ _) as [s1 o1]. pose proof (frame_length_nonneg l Hb).
      rewrite (IH m); [done|auto with gw|rewrite zlen_drop by lia; lia..].
Qed.

Lemma serve_rest n s l :
  bytes l -> let '(_, _, r) := serve n s l in bytes r /\ zlen r <= zlen l.
Proof.
  revert s l. induction n as [|n IH]; intros s l Hb; cbn [serve]; [done|].
  destruct (Z.ltb_spec (zlen l) 8); [done|].
  destruct (Z.ltb_spec (zlen l) (8 + frame_length l)); [done|].
  destruct (react _ _ _) as [s1 o1]. pose proof (frame_length_nonneg l Hb).
  specialize (IH s1 (l +! (8 + frame_length l)) ltac:(auto with gw)).
  destruct (serve n _ _) as [[s2 o2] r]. rewrite zlen_drop in IH by lia. split; [naive_solver|lia].
Qed.

Lemma serve_app n m s l k :
  bytes (l ++ k) -> zlen l < 8 * (Z.of_nat n + 1) -> zlen (l ++ k) < 8 * (Z.of_nat m + 1) ->
  serve m s (l ++ k)
  = let '(s1, o1, r1) := serve n s l in
    let '(s2, o2, r2) := serve m s1 (r1 ++ k) in (s2, o1 ++ o2, r2).
Proof.
  revert m s l. induction n as [|n IH]; intros m s l Hb Hn Hm.
  { cbn [serve]. by destruct (serve m s (l ++ k)) as [[??]?]. }
  cbn [serve]. destruct (Z.ltb_spec (zlen l) 8) as [H8|H8].
  { by destruct (serve m s (l ++ k)) as [[??]?]. }
  destruct (Z.ltb_spec (zlen l) (8 + frame_length l)) as [Hs|Hs].
  { by destruct (serve m s (l ++ k)) as [[??]?]. }
  pose proof Hb as [Hbl Hbk]%Forall_app. pose proof (frame_length_nonneg l Hbl) as Hfl.
  rewrite zlen_app in Hm. pose proof (zlen_nonneg k).
  destruct m as [|m]; [lia|]. cbn [serve]. destruct (frame_app l k H8) as [-> ->].
  rewrite zlen_app, !(proj2 (Z.ltb_ge _ _)) by lia.
  assert (forall i, 0 <= i <= zlen l -> (l ++ k) +! i = (l +! i) ++ k) as Hd.
  { intros i Hi. apply drop_app_le. unfold zlen in Hi. lia. }
  rewrite !Hd, take_app_le by (try lia; pose proof (zlen_drop 8 l); unfold zlen in *; lia).
  destruct (react _ _ _) as [s1 o1].
  assert (bytes ((l +! (8 + frame_length l)) ++ k)) as Hb1 by auto with gw.
  pose proof (serve_rest n s1 (l +! (8 + frame_length l)) ltac:(auto with gw)) as Hr.
  rewrite (IH m) by (try done; rewrite ?zlen_app, ?zlen_drop by lia; lia).
  destruct (serve n _ _) as [[s2 o2] r]. rewrite zlen_drop in Hr by lia. destruct Hr as [Hr1 Hr2].
  rewrite (serve_fuel m (S m) s2 (r ++ k)) by (try auto with gw; rewrite zlen_app; lia).
  cbn [serve]. destruct (if _ <? 8 then _ else _) as [[??]?]. by rewrite app_assoc.
Qed.

Lemma serve_all_app s l k :
  bytes l -> bytes k ->
  serve_all s (l ++ k)
  = let '(s1, o1, r1) := serve_all s l in
    let '(s2, o2, r2) := serve_all s1 (r1 ++ k) in (s2, o1 ++ o2, r2).
Proof.
  intros Hl Hk. unfold serve_all.
  rewrite (serve_app (length l) (length (l ++ k)) s l k) by (auto with gw; unfold zlen; lia).
  pose proof (serve_rest (length l) s l Hl) as Hr.
  destruct (serve (length l) s l) as [[s1 o1] r1]. destruct Hr as [Hr1 Hr2].
  rewrite (serve_fuel (length (l ++ k)) (length (r1 ++ k))); [done|auto with gw|..];
    rewrite !zlen_app, length_app; unfold zlen in *; lia.
Qed.

(** No complete frame. *)
Definition incomplete (l : list Z) : Prop := zlen l < 8 \/ zlen l < 8 + frame_length l.

Lemma serve_incomplete n s l :
  bytes l -> zlen l < 8 * (Z.of_nat n + 1) ->
  let '(_, _, r) := serve n s l in incomplete r.
Proof.
  revert s l. induction n as [|n IH]; intros s l Hb Hn; cbn [serve]; [left; lia|].
  destruct (Z.ltb_spec (zlen l) 8); [by left|].
  destruct (Z.ltb_spec (zlen l) (8 + frame_length l)); [by right|].
  destruct (react _ _ _) as [s1 o1]. pose proof (frame_length_nonneg l Hb).
  specialize (IH s1 (l +! (8 + frame_length l)) ltac:(auto with gw)).
  rewrite zlen_drop in IH by lia. specialize (IH ltac:(lia)).
  by destruct (serve n _ _) as [[s2 o2] r].
Qed.

Lemma serve_all_incomplete s l :
  bytes l -> incomplete l -> serve_all s l = (s, [], l).
Proof.
  intros Hb [Hi|Hi]; unfold serve_all; destruct (length l) as [|n]; try done; cbn [serve].
  - by rewrite (proj2 (Z.ltb_lt _ _)).
  - destruct (zlen l <? 8); [done|]. by rewrite (proj2 (Z.ltb_lt _ _)).
Qed.

(** What is logged never gets in the way: the base is known whenever the
    messages are served. *)
Lemma process_base_ok fuel : forall conn acts b r,
  process_buffer fuel conn acts = Ok r -> exists b', process_base fuel conn b = Ok b'.
Proof.
  induction fuel as [|fuel IH]; intros conn acts b r; cbn [process_buffer process_base];
    (destruct (recv_len conn <? DOIP_HEADER_SIZE); [by eexists|]); [done|].
  destruct (DoIpHeader.parse _ _ _) as [parsed|]; [|done]. cbn [mbind checked_bind].
  destruct (recv_len conn <? _); [by eexists|].
  destruct (handle_doip_message _ _ _ _) as [handled|]; [|done]. cbn [mbind checked_bind].
  match goal with |- context [mbind _ ?c] => destruct c as [buf|]; [|done] end.
  cbn [mbind checked_bind]. apply IH.
Qed.

Lemma on_client_base_ok srv f input b r :
  on_client_data srv f input = Ok r -> exists b', on_client_base srv f input b = Ok b'.
Proof.
  unfold on_client_data, on_client_base. destruct (connections srv !! f) as [conn|]; [|by eexists].
  destruct (recv _ _) as [n got]. destruct (n <=? 0); [by eexists|].
  destruct (wr_bytes _ _ _) as [buf|]; [|done]. cbn [mbind checked_bind].
  destruct (process_buffer _ _ _) as [drained|] eqn:E; [|done]. intros _.
  exact (process_base_ok _ _ _ b _ E).
Qed.

(** *** One call of [on_client_data] *)
Definition free_space (conn : DoIpConnection) : Z := RECV_BUF_SIZE - recv_len conn.

Definition received (conn : DoIpConnection) (input : socket_input) : list Z :=
  match input with
  | RecvError _ => []
  | RecvBytes available => take (Z.to_nat (free_space conn)) available
  end.

Lemma on_client_data_unknown srv f input :
  connections srv !! f = None -> on_client_data srv f input = Ok (srv, []).
Proof. intros H. unfold on_client_data. by rewrite H. Qed.

Lemma recv_received conn input :
  inv conn ->
  let '(n, got) := recv input (sz (RECV_BUF_SIZE - recv_len conn)) in
  got = received conn input
  /\ (received conn input = [] -> n <= 0)
  /\ (received conn input <> [] -> n = zlen got /\ 0 < n <= free_space conn).
Proof.
  intros (_ & _ & Hr). unfold RECV_BUF_SIZE in *. rewrite sz_small by lia.
  destruct input as [e|av]; cbn; [naive_solver lia|].
  unfold free_space, RECV_BUF_SIZE.
  pose proof (length_take av (Z.to_nat (4096 - recv_len conn))) as Hlen.
  destruct (take _ av) as [|b l]; [naive_solver|]. cbn [length] in Hlen. unfold zlen. cbn [length].
  split; [done|]. split; [done|]. intros _. lia.
Qed.

Lemma on_client_data_close srv f conn input :
  connections srv !! f = Some conn -> inv conn -> received conn input = [] ->
  on_client_data srv f input
  = Ok (mk (listen_fd srv) (port srv) (delete f (connections srv)), [Close f]).
Proof.
  intros Hc Hi Hn. unfold on_client_data. rewrite Hc.
  pose proof (recv_received conn input Hi) as Hrecv.
  destruct (recv _ _) as [n got]. destruct Hrecv as (_ & Hle & _).
  rewrite (proj2 (Z.leb_le _ _)); [done|auto].
Qed.

(** The receive buffer after a read, before the loop runs. *)
Definition filled (conn : DoIpConnection) (got : list Z) : DoIpConnection :=
  mk_conn (fd conn) (activated conn) (tester_addr conn)
    (pending conn ++ got ++ (recv_buf conn +! (recv_len conn + zlen got)))
    (recv_len conn + zlen got).

Lemma received_space conn input :
  inv conn -> received conn input <> [] -> 0 < zlen (received conn input) <= free_space conn.
Proof.
  intros Hi Hn. pose proof (recv_received conn input Hi) as Hrecv.
  destruct (recv _ _) as [n got]. destruct Hrecv as (-> & _ & Hd). destruct (Hd Hn). lia.
Qed.

Lemma on_client_data_filled srv f conn input :
  connections srv !! f = Some conn -> inv conn -> received conn input <> [] ->
  on_client_data srv f input
  = (drained ← process_buffer drain_fuel (filled conn (received conn input)) [];
     Ok (mk (listen_fd srv) (port srv) (<[f := drained.1]> (connections srv)), drained.2)).
Proof.
  intros Hc Hi Hn. unfold on_client_data. rewrite Hc.
  pose proof (recv_received conn input Hi) as Hrecv. pose proof Hi as (Hl & Hbuf & Hr).
  destruct (recv _ _) as [n got]. destruct Hrecv as (-> & _ & Hd).
  destruct (Hd Hn) as [Hnz Hpos]. unfold free_space in Hpos. set (got := received conn input) in *.
  guards. unfold filled. rewrite <- Hnz.
  set (m := recv_len conn) in *.
  assert (wr_bytes (recv_buf conn) m got
    = Ok (pending conn ++ got ++ (recv_buf conn +! (m + n)))) as ->.
  { rewrite <- (take_drop (Z.to_nat m) (recv_buf conn)) at 1.
    rewrite <- (take_drop (Z.to_nat n) (recv_buf conn +! m)). rewrite drop_drop.
    replace (Z.to_nat m + Z.to_nat n)%nat with (Z.to_nat (m + n)) by lia.
    apply wr_bytes_app.
    - symmetry. by apply zlen_pending.
    - rewrite length_take, length_drop. unfold zlen in Hnz, Hl. lia. }
  cbn [mbind checked_bind].
  rewrite sz_small by (unfold RECV_BUF_SIZE in *; lia). done.
Qed.

Lemma filled_inv conn input :
  inv conn -> received conn input <> [] -> bytes (received conn input) ->
  inv (filled conn (received conn input))
  /\ pending (filled conn (received conn input)) = pending conn ++ received conn input.
Proof.
  intros Hi Hn Hb. pose proof (received_space conn input Hi Hn) as Hpos.
  pose proof Hi as (Hl & Hbuf & Hr). pose proof (zlen_pending conn Hi) as Hz.
  unfold free_space in Hpos. set (got := received conn input) in *. split.
  - unfold filled. split_and!; cbn [recv_buf recv_len].
    + rewrite !zlen_app, Hz, zlen_drop by lia. lia.
    + pose proof (pending_bytes conn Hi). auto with gw.
    + lia.
    + lia.
  - unfold pending at 1. unfold filled. cbn [recv_buf recv_len].
    rewrite app_assoc, take_app_length'; [done|].
    unfold zlen in *. rewrite length_app. lia.
Qed.

Lemma on_client_data_data srv f conn input :
  size_bits = 64 ->
  connections srv !! f = Some conn -> inv conn ->
  received conn input <> [] -> bytes (received conn input) ->
  let '(s, o, r) := serve_all (sess conn) (pending conn ++ received conn input) in
  exists conn',
    on_client_data srv f input
    = Ok (mk (listen_fd srv) (port srv) (<[f := conn']> (connections srv)), sends conn o)
    /\ inv conn' /\ fd conn' = fd conn /\ sess conn' = s /\ pending conn' = r.
Proof.
  intros H64 Hc Hi Hn Hb. rewrite (on_client_data_filled srv f conn input Hc Hi Hn).
  destruct (filled_inv conn input Hi Hn Hb) as [Hi1 Hp1].
  pose proof (received_space conn input Hi Hn) as Hpos. unfold free_space in Hpos.
  pose proof Hi as (_ & _ & Hr). pose proof (pending_bytes conn Hi) as Hpb.
  assert (Z.of_nat drain_fuel = 512) as Hfuel by reflexivity.
  assert (recv_len (filled conn (received conn input))
    = recv_len conn + zlen (received conn input)) as Hrl by reflexivity.
  pose proof (process_buffer_ok drain_fuel _ [] H64 Hi1
    ltac:(rewrite Hrl, Hfuel; unfold RECV_BUF_SIZE in *; lia)) as Hproc.
  rewrite Hp1 in Hproc. unfold serve_all. rewrite (serve_fuel _ drain_fuel).
  - change (sess (filled conn (received conn input))) with (sess conn) in Hproc.
    destruct (serve drain_fuel _ _) as [[s o] r].
    destruct Hproc as (conn' & -> & H1 & H2 & H3 & H4). by exists conn'.
  - auto with gw.
  - unfold zlen. lia.
  - rewrite zlen_app, (zlen_pending conn Hi), Hfuel. unfold RECV_BUF_SIZE in *. lia.
Qed.

End facts.
End DoipServerFacts.
