(* ===== verification/DoipTrace.v ===== *)
(** * The DoIP server over sequences of events

    Connections come and go and bytes arrive in arbitrary pieces; [run]
    feeds a sequence of such events to the server of [DoipServer.v] and logs
    its calls.  [Module Abstract] is the same server over byte streams, with
    no buffers and no pointers; the theorems show that the code refines it
    and what follows: totality, independence from segmentation, no
    diagnostic traffic before routing activation, and what happens at the
    edges (errors, oversized messages, the 32-bit target). *)

From S2P Require Import Prelude Uds DoipMessage DoipServer.
Import DoIpServer DoIpSpec DoipServerFacts.

(** ** Events *)
Variant event :=
| Accept (accept_res : Z)
| Data (client_fd : Z) (input : socket_input).

Definition event_ok (ev : event) : Prop :=
  match ev with Data _ (RecvBytes l) => bytes l | _ => True end.

(** A log entry: an event, or a call the server made in reaction. *)
Variant item := Event (ev : event) | Act (a : action).

Section run.
Context {T : Target} {U : UdsService}.

(** The event loop's two callbacks into the server. *)
Definition on_event (srv : t) (ev : event) : checked (t * list action) :=
  match ev with
  | Accept res => Ok (on_accept srv res)
  | Data f input => on_client_data srv f input
  end.

Fixpoint run (srv : t) (evs : list event) : checked (t * list item) :=
  match evs with
  | [] => Ok (srv, [])
  | ev :: evs =>
      r ← on_event srv ev;
      rs ← run r.1 evs;
      Ok (rs.1, Event ev :: map Act r.2 ++ rs.2)
  end.

(** Successive reads on one connection, each returning the non-empty chunk
    given, within the free space of the buffer. *)
Inductive delivers (f : Z) : t -> list (list Z) -> t -> list action -> Prop :=
| delivers_nil srv : delivers f srv [] srv []
| delivers_cons srv conn c cs srv1 a1 srv2 a2 :
    connections srv !! f = Some conn -> c <> [] -> zlen c <= free_space conn ->
    on_client_data srv f (RecvBytes c) = Ok (srv1, a1) ->
    delivers f srv1 cs srv2 a2 ->
    delivers f srv (c :: cs) srv2 (a1 ++ a2).

Definition reachable (srv : t) : Prop :=
  exists lfd p evs items,
    Forall event_ok evs /\ run (mk lfd p ∅) evs = Ok (srv, items).

End run.

(** ** The abstract server *)
Module Abstract.
Section abstract.
Context {U : UdsService}.

Abbreviation state := (gmap Z (session * list Z)).

(** The bytes a read takes from the socket when [p] is still pending. *)
Definition taken (p : list Z) (input : socket_input) : list Z :=
  match input with
  | RecvError _ => []
  | RecvBytes l => take (Z.to_nat (RECV_BUF_SIZE - zlen p)) l
  end.

Definition step (a : state) (ev : event) : state * list action :=
  match ev with
  | Accept res => if res <? 0 then (a, []) else (<[res := (fresh, [])]> a, [AddReader res])
  | Data f input =>
      match a !! f with
      | None => (a, [])
      | Some (s, p) =>
          match taken p input with
          | [] => (delete f a, [Close f])
          | got =>
              let '(s', o, r) := serve_all s (p ++ got) in
              (<[f := (s', r)]> a, map (Send f) o)
          end
      end
  end.

Fixpoint run (a : state) (evs : list event) : state * list item :=
  match evs with
  | [] => (a, [])
  | ev :: evs =>
      let '(a1, acts) := step a ev in
      let '(a2, items) := run a1 evs in
      (a2, Event ev :: map Act acts ++ items)
  end.

End abstract.
End Abstract.

(** ** Diagnostic gating

    [gated f g items]: in [items] every diagnostic frame sent on [f] comes
    after a routing activation response on [f] that is itself more recent
    than the last [accept] that returned [f]; [g] tells whether one is
    already pending at the start. *)
Definition is_diagnostic (frame : list Z) : bool :=
  (frame_type frame =? DOIP_DIAGNOSTIC_MESSAGE) || (frame_type frame =? DOIP_DIAGNOSTIC_ACK).
Definition is_activation (frame : list Z) : bool :=
  frame_type frame =? DOIP_ROUTING_ACTIVATION_RES.

Fixpoint gated (f : Z) (g : bool) (items : list item) : bool :=
  match items with
  | [] => true
  | Event (Accept res) :: items => gated f (if (0 <=? res) && (res =? f) then false else g) items
  | Act (Send f' frame) :: items =>
      if f' =? f then
        if is_diagnostic frame then g && gated f g items
        else gated f (g || is_activation frame) items
      else gated f g items
  | _ :: items => gated f g items
  end.

(** ** Lemmas *)
Module DoipTraceFacts.
Section facts.
Context {T : Target} {U : UdsService}.

Definition conn_inv (f : Z) (c : DoIpConnection) : Prop :=
  fd c = f /\ inv c /\ incomplete (pending c).

(** The connection table's invariant. *)
Definition table_inv (srv : t) : Prop := map_Forall conn_inv (connections srv).

(** The abstract state a server implements. *)
Definition abs (srv : t) : gmap Z (session * list Z) :=
  (fun c => (sess c, pending c)) <$> connections srv.

Lemma new_connection_inv f : conn_inv f (new_connection f).
Proof.
  split; [done|]. split; [|by left]. split_and!; [done| |done|done].
  apply Forall_replicate. unfold is_u8. lia.
Qed.

Lemma taken_received c input :
  inv c -> Abstract.taken (pending c) input = received c input.
Proof. intros Hi. destruct input; [done|]. unfold Abstract.taken. by rewrite zlen_pending. Qed.

Lemma received_bytes c input :
  (forall l, input = RecvBytes l -> bytes l) -> bytes (received c input).
Proof. destruct input; cbn; [auto with gw|]. intros H. eauto with gw. Qed.

(** One event: the code's step is the abstract step and keeps the invariant. *)
Lemma step_refines srv ev :
  size_bits = 64 -> table_inv srv -> event_ok ev ->
  exists srv' acts,
    on_event srv ev = Ok (srv', acts) /\ table_inv srv'
    /\ Abstract.step (abs srv) ev = (abs srv', acts).
Proof.
  intros H64 Hinv Hev. destruct ev as [res|f input]; cbn [on_event Abstract.step].
  - do 2 eexists. split; [by rewrite <- surjective_pairing|].
    unfold on_accept. destruct (res <? 0); [done|]. cbn [fst snd]. split.
    + apply map_Forall_insert_2; [apply new_connection_inv|done].
    + unfold abs. cbn. rewrite fmap_insert. done.
  - unfold abs at 1. rewrite lookup_fmap.
    destruct (connections srv !! f) as [c|] eqn:Ec; cbn [fmap option_fmap option_map].
    2: { exists srv, []. by rewrite on_client_data_unknown. }
    destruct (Hinv f c Ec) as (Hf & Hi & Hinc). rewrite taken_received by done.
    assert (bytes (received c input)) as Hb.
    { apply received_bytes. intros l ->. exact Hev. }
    destruct (decide (received c input = [])) as [He|Hne].
    + rewrite He. do 2 eexists. split; [by eapply on_client_data_close|]. split.
      * cbn. by apply map_Forall_delete.
      * unfold abs. cbn. by rewrite fmap_delete.
    + pose proof (on_client_data_data srv f c input H64 Ec Hi Hne Hb) as Hd.
      pose proof (pending_bytes c Hi) as Hpb.
      pose proof (serve_incomplete (length (pending c ++ received c input)) (sess c)
                    (pending c ++ received c input) ltac:(auto with gw)
                    ltac:(unfold zlen; lia)) as Hr.
      fold (serve_all (sess c) (pending c ++ received c input)) in Hr.
      destruct (received c input) as [|b got] eqn:Eg; [done|].
      destruct (serve_all _ _) as [[s o] r]. destruct Hd as (c' & Hok & Hi' & Hf' & <- & <-).
      do 2 eexists. split; [exact Hok|]. split.
      * cbn. apply map_Forall_insert_2; [|done]. unfold conn_inv. by rewrite Hf', Hf.
      * unfold abs, sends. cbn. rewrite fmap_insert, Hf. done.
Qed.

Lemma run_refines srv evs :
  size_bits = 64 -> table_inv srv -> Forall event_ok evs ->
  exists srv' items,
    run srv evs = Ok (srv', items) /\ table_inv srv'
    /\ Abstract.run (abs srv) evs = (abs srv', items).
Proof.
  intros H64 Hinv Hevs. revert srv Hinv. induction Hevs as [|ev evs Hev _ IH]; intros srv Hinv.
  - by exists srv, [].
  - destruct (step_refines srv ev H64 Hinv Hev) as (srv1 & acts & H1 & Hinv1 & Ha1).
    destruct (IH srv1 Hinv1) as (srv2 & items & H2 & Hinv2 & Ha2).
    do 2 eexists. cbn [run Abstract.run]. rewrite H1, Ha1. cbn [mbind checked_bind fst snd].
    rewrite H2, Ha2. done.
Qed.

Lemma abs_empty lfd p : abs (mk lfd p ∅) = ∅.
Proof. unfold abs. cbn [connections]. apply fmap_empty. Qed.

Lemma empty_inv lfd p : table_inv (mk lfd p ∅).
Proof. apply map_Forall_empty. Qed.

Lemma reachable_inv srv : size_bits = 64 -> reachable srv -> table_inv srv.
Proof.
  intros H64 (lfd & p & evs & items & Hok & Hrun).
  destruct (run_refines (mk lfd p ∅) evs H64 (empty_inv lfd p) Hok) as (srv' & it & H & Hi & _).
  rewrite Hrun in H. by injection H as -> _.
Qed.

(** *** Chunks *)
Lemma delivers_serve f srv cs srv' acts conn :
  size_bits = 64 -> table_inv srv -> connections srv !! f = Some conn ->
  bytes (concat cs) -> delivers f srv cs srv' acts ->
  let '(s, o, r) := serve_all (sess conn) (pending conn ++ concat cs) in
  acts = map (Send f) o /\ abs srv' = <[f := (s, r)]> (abs srv).
Proof.
  intros H64 Hinv Hc Hb Hd. revert conn Hinv Hc Hb.
  induction Hd as [srv|srv conn0 c cs srv1 a1 srv2 a2 Hc0 Hne Hfit Hok Hd IH];
    intros conn Hinv Hc Hb.
  - destruct (Hinv f conn Hc) as (_ & Hi & Hinc). cbn [concat]. rewrite app_nil_r.
    rewrite serve_all_incomplete by auto using pending_bytes.
    split; [done|]. symmetry. apply insert_id. unfold abs. by rewrite lookup_fmap, Hc.
  - rewrite Hc in Hc0. injection Hc0 as <-. cbn [concat] in Hb |- *.
    apply Forall_app in Hb as [Hbc Hbcs].
    destruct (step_refines srv (Data f (RecvBytes c)) H64 Hinv Hbc) as (? & ? & H1 & Hinv1 & Ha1).
    cbn [on_event] in H1. rewrite Hok in H1. injection H1 as <- <-.
    cbn [Abstract.step] in Ha1. unfold abs at 1 in Ha1. rewrite lookup_fmap, Hc in Ha1.
    destruct (Hinv f conn Hc) as (_ & Hi & _).
    cbn [fmap option_fmap option_map] in Ha1. rewrite taken_received in Ha1 by done.
    unfold received in Ha1. rewrite take_ge in Ha1 by (unfold zlen in Hfit; lia).
    destruct c as [|b c]; [done|].
    rewrite app_assoc, serve_all_app by auto using pending_bytes with gw.
    destruct (serve_all (sess conn) (pending conn ++ b :: c)) as [[s1 o1] r1].
    injection Ha1 as Habs1 Hacts1.
    assert (abs srv1 !! f = Some (s1, r1)) as Hl by (rewrite <- Habs1; apply lookup_insert_eq).
    unfold abs in Hl. rewrite lookup_fmap in Hl.
    destruct (connections srv1 !! f) as [conn1|] eqn:Ec1; [|discriminate Hl].
    cbn in Hl. injection Hl as Hs1 Hr1. specialize (IH conn1 Hinv1 eq_refl Hbcs).
    rewrite Hs1, Hr1 in IH. destruct (serve_all s1 (r1 ++ concat cs)) as [[s2 o2] r2].
    destruct IH as [-> ->]. rewrite <- Hacts1, <- map_app, <- Habs1. split; [done|].
    by rewrite insert_insert_eq.
Qed.

(** One complete frame with nothing after it. *)
Lemma serve_frame s ty p :
  is_u16 ty -> bytes p -> zlen p < 4294967296 ->
  serve_all s (doip_frame ty p) = ((react s ty p).1, (react s ty p).2, []).
Proof.
  intros Hty Hb Hl. pose proof (zlen_nonneg p).
  pose proof (DoipMessageFacts.frame_type_frame ty p []) as Ht.
  pose proof (DoipMessageFacts.frame_length_frame ty p []) as Hn. rewrite app_nil_r in *.
  rewrite u16_small in Ht by done. rewrite u32_small in Hn by (unfold is_u32; lia).
  pose proof (DoipMessageFacts.doip_frame_length ty p) as Hfl.
  unfold serve_all. destruct (length (doip_frame ty p)) as [|n] eqn:El;
    [unfold zlen in *; lia|]. cbn [serve].
  rewrite Ht, Hn, Hfl. destruct (Z.ltb_spec (8 + zlen p) 8); [lia|].
  rewrite Z.ltb_irrefl. change (doip_frame ty p +! 8) with p. rewrite take_zlen.
  destruct (react s ty p) as [s1 o1].
  rewrite (drop_ge (doip_frame ty p)) by (unfold zlen in *; lia).
  cbn [fst snd]. destruct n; cbn [serve]; rewrite ?app_nil_r; [done|].
  change (@zlen Z [] <? 8) with true. cbv iota. by rewrite app_nil_r.
Qed.

(** One complete frame on an idle connection. *)
Lemma step_frame a f s ty p :
  a !! f = Some (s, []) -> is_u16 ty -> bytes p -> zlen p <= 4088 ->
  Abstract.step a (Data f (RecvBytes (doip_frame ty p)))
  = (<[f := ((react s ty p).1, [])]> a, map (Send f) (react s ty p).2).
Proof.
  intros Ha Hty Hb Hl. cbn [Abstract.step]. rewrite Ha.
  pose proof (serve_frame s ty p Hty Hb ltac:(lia)) as E.
  pose proof (DoipMessageFacts.doip_frame_length ty p) as Hfl. pose proof (zlen_nonneg p).
  assert (Abstract.taken [] (RecvBytes (doip_frame ty p)) = doip_frame ty p) as ->.
  { cbn [Abstract.taken]. apply take_ge. rewrite zlen_nil. unfold RECV_BUF_SIZE, zlen in *. lia. }
  destruct (doip_frame ty p) as [|b l]; [rewrite zlen_nil in Hfl; lia|].
  cbn [app]. by rewrite E.
Qed.

(** The server answers a complete frame on an idle connection at once. *)
Lemma frame_answered srv f s ty p :
  size_bits = 64 -> table_inv srv -> abs srv !! f = Some (s, []) ->
  is_u16 ty -> bytes p -> zlen p <= 4088 ->
  exists srv',
    on_client_data srv f (RecvBytes (doip_frame ty p)) = Ok (srv', map (Send f) (react s ty p).2)
    /\ table_inv srv' /\ abs srv' = <[f := ((react s ty p).1, [])]> (abs srv).
Proof.
  intros H64 Hinv Ha Hty Hb Hl. pose proof (step_frame (abs srv) f s ty p Ha Hty Hb Hl) as Hs.
  destruct (step_refines srv (Data f (RecvBytes (doip_frame ty p))) H64 Hinv
    (DoipMessageFacts.doip_frame_bytes ty p Hb)) as (srv' & acts & Hok & Hinv' & Hst).
  cbn [on_event] in Hok. rewrite Hs in Hst. injection Hst as Hst1 Hst2. exists srv'.
  by rewrite Hok, Hst1, Hst2.
Qed.

(** *** Gating *)

(** [g] covers what session state [a] may let through on [f]. *)
Definition covers (g : bool) (s : session) : Prop := s_activated s = true -> g = true.

Definition sent (f : Z) (o : list (list Z)) : list item := map Act (map (Send f) o).

Lemma gated_other f f' g o items :
  f' <> f -> gated f g (sent f' o ++ items) = gated f g items.
Proof.
  intros Hf. induction o as [|fr o IH]; [done|].
  cbn. rewrite (proj2 (Z.eqb_neq _ _) Hf). exact IH.
Qed.

Lemma react_gated f g s ty p items :
  covers g s ->
  exists g', covers g' (react s ty p).1
    /\ gated f g (sent f (react s ty p).2 ++ items) = gated f g' items.
Proof.
  intros Hg. unfold react.
  destruct (ty =? 0x0005).
  { destruct p as [|a [|b p]]; [by exists g..|]. exists true. split; [done|].
    cbn. rewrite Z.eqb_refl. by rewrite orb_true_r. }
  destruct (ty =? 0x8001).
  { destruct (s_activated s) eqn:Es; [|by exists g].
    destruct p as [|s1 [|s2 [|t1 [|t2 req]]]]; [by exists g..|].
    exists g. split; [done|]. rewrite (Hg Es). cbn. by rewrite Z.eqb_refl. }
  destruct (ty =? 0x0007).
  { exists g. split; [done|]. cbn. rewrite Z.eqb_refl. by rewrite orb_false_r. }
  by exists g.
Qed.

Lemma serve_gated f g n s l items :
  covers g s ->
  let '(s', o, _) := serve n s l in
  exists g', covers g' s' /\ gated f g (sent f o ++ items) = gated f g' items.
Proof.
  revert g s l. induction n as [|n IH]; intros g s l Hg; cbn [serve]; [by exists g|].
  destruct (zlen l <? 8); [by exists g|].
  destruct (zlen l <? 8 + frame_length l); [by exists g|].
  destruct (react s _ _) as [s1 o1] eqn:Er.
  destruct (serve n s1 _) as [[s2 o2] r] eqn:Es.
  unfold sent. rewrite !map_app, <- app_assoc.
  destruct (react_gated f g s (frame_type l)
    (take (Z.to_nat (frame_length l)) (l +! 8)) (sent f o2 ++ items) Hg) as (g1 & Hg1 & E1).
  rewrite Er in Hg1, E1. unfold sent in E1. cbn [fst snd] in *. rewrite E1.
  specialize (IH g1 s1 (l +! (8 + frame_length l)) Hg1). by rewrite Es in IH.
Qed.

Lemma run_gated f g a evs :
  (forall s p, a !! f = Some (s, p) -> covers g s) ->
  gated f g (Abstract.run a evs).2 = true.
Proof.
  revert g a. induction evs as [|ev evs IH]; intros g a Hg; [done|].
  cbn [Abstract.run]. destruct (Abstract.step a ev) as [a1 acts] eqn:Est.
  destruct (Abstract.run a1 evs) as [a2 items] eqn:Er. cbn [snd].
  destruct ev as [res|f0 input]; cbn [Abstract.step] in Est.
  - destruct (Z.ltb_spec res 0) as [Hneg|Hpos]; injection Est as <- <-; cbn [map app gated].
    + rewrite (proj2 (Z.leb_gt _ _)) by done. cbn [andb].
      specialize (IH g a Hg). by rewrite Er in IH.
    + rewrite (proj2 (Z.leb_le _ _)) by done. cbn [andb].
      specialize (IH (if res =? f then false else g) (<[res:=(fresh, [])]> a)).
      rewrite Er in IH. apply IH. intros s p Hl. destruct (Z.eqb_spec res f) as [->|Hne].
      * rewrite lookup_insert_eq in Hl. by injection Hl as <- <-.
      * rewrite lookup_insert_ne in Hl by done. eauto.
  - cbn [gated].
    destruct (a !! f0) as [[s p]|] eqn:Ea.
    2: { injection Est as <- <-. specialize (IH g a Hg). by rewrite Er in IH. }
    destruct (Abstract.taken p input) as [|b got].
    { injection Est as <- <-. cbn. specialize (IH g (delete f0 a)). rewrite Er in IH. apply IH.
      intros s' p' Hl. apply lookup_delete_Some in Hl as [_ Hl]. eauto. }
    destruct (serve_all s (p ++ b :: got)) as [[s' o] r] eqn:Es.
    injection Est as <- <-. fold (sent f0 o). destruct (decide (f0 = f)) as [->|Hne].
    + pose proof (serve_gated f g (length (p ++ b :: got)) s (p ++ b :: got) items
        (Hg s p Ea)) as Hs. fold (serve_all s (p ++ b :: got)) in Hs. rewrite Es in Hs.
      destruct Hs as (g' & Hg' & ->). specialize (IH g' (<[f:=(s', r)]> a)).
      rewrite Er in IH. apply IH. intros s0 p0 Hl. rewrite lookup_insert_eq in Hl.
      by injection Hl as <- <-.
    + rewrite gated_other by done. specialize (IH g (<[f0:=(s', r)]> a)). rewrite Er in IH.
      apply IH. intros s0 p0 Hl. rewrite lookup_insert_ne in Hl by done. eauto.
Qed.

(** *** The 32-bit target *)

(** A header whose length field is [0xFFFFFFF8], in an otherwise empty
    buffer. *)
Definition looping_header : list Z := [0x02; 0xFD; 0x00; 0x00; 0xFF; 0xFF; 0xFF; 0xF8].

Lemma parse_looping buf :
  DoIpHeader.parse (looping_header ++ buf) 8 DoIpHeader.default
  = Ok (true, DoIpHeader.mk 2 0xFD 0 0xFFFFFFF8).
Proof.
  apply (DoipMessageFacts.parse_header _ _ 0 0 0xFF 0xFF 0xFF 0xF8); [auto 10 with gw|lia].
Qed.

Lemma waits_64 fuel f a ad buf acts :
  size_bits = 64 ->
  let conn := mk_conn f a ad (looping_header ++ buf) 8 in
  process_buffer (S fuel) conn acts = Ok (conn, acts).
Proof.
  intros H64 conn. cbn [process_buffer conn recv_len recv_buf]. rewrite parse_looping.
  change (8 <? DOIP_HEADER_SIZE) with false.
  cbn [mbind checked_bind snd DoIpHeader.payload_length].
  assert (sz (DOIP_HEADER_SIZE + 0xFFFFFFF8) = 0x100000000) as -> by (unfold sz; by rewrite H64).
  done.
Qed.

Lemma loops_32 fuel f a ad buf acts :
  size_bits = 32 ->
  process_buffer fuel (mk_conn f a ad (looping_header ++ buf) 8) acts = Fault OutOfFuel.
Proof.
  intros H32. revert acts. induction fuel as [|fuel IH]; intros acts; [done|].
  cbn [process_buffer recv_len recv_buf].
  rewrite parse_looping.
  change (8 <? DOIP_HEADER_SIZE) with false.
  cbn [mbind checked_bind snd DoIpHeader.payload_length].
  assert (sz (DOIP_HEADER_SIZE + 0xFFFFFFF8) = 0) as -> by (unfold sz; by rewrite H32).
  change (8 <? 0) with false.
  assert (forall c p n, handle_doip_message c (DoIpHeader.mk 2 0xFD 0 n) p n = Ok (c, []))
    as -> by reflexivity.
  cbn [mbind checked_bind fst snd recv_len recv_buf fd activated tester_addr].
  change (8 - 0) with 8. rewrite (sz_small 8) by lia. change (0 <? 8) with true. cbv iota.
  rewrite memmove_front;
    [|lia..|unfold looping_header; autorewrite with zlen; pose proof (zlen_nonneg buf); lia].
  cbn [mbind checked_bind]. rewrite drop_0, take_drop. apply IH.
Qed.

End facts.
End DoipTraceFacts.

(** ** Properties *)
Section properties.
Import DoipTraceFacts.

(** C4: on a 64-bit target the server is total and refines the abstract
    server: for every sequence of accepts and reads from the empty
    connection table, no callback leaves its buffers or fails to
    terminate, the calls made are those of the byte-stream server, and
    afterwards every table entry is filed under its own descriptor, holds
    at most 4096 bytes and no complete frame. *)
Theorem doip_server_refines {T : Target} {U : UdsService} lfd p evs :
  size_bits = 64 -> Forall event_ok evs ->
  exists srv items,
    run (mk lfd p ∅) evs = Ok (srv, items)
    /\ Abstract.run ∅ evs = (abs srv, items)
    /\ map_Forall (fun f c => fd c = f /\ zlen (recv_buf c) = 4096
         /\ 0 <= recv_len c <= 4096 /\ incomplete (pending c)) (connections srv).
Proof.
  intros H64 Hok.
  destruct (run_refines (mk lfd p ∅) evs H64 (empty_inv lfd p) Hok) as (srv & items & H1 & Hi & H2).
  exists srv, items. split; [done|]. split; [by rewrite <- H2, abs_empty|].
  intros f c Hc. destruct (Hi f c Hc) as (? & (? & _ & ?) & ?). done.
Qed.

Definition demo_events : list event :=
  [Accept 7; Data 7 (RecvBytes (doip_frame 0x0005 [0x0E; 0x00; 0; 0; 0; 0; 0]));
   Data 7 (RecvBytes [0x02; 0xFD; 0x80]); Data 7 (RecvBytes []); Accept 7].

Lemma demo_events_ok : Forall event_ok demo_events.
Proof.
  repeat (apply Forall_cons_2; [first [exact I|closed_bytes]|]). apply Forall_nil_2.
Qed.

Lemma doip_server_refines_witness :
  exists srv items, run (T:=x86_64) (mk 3 13400 ∅) demo_events = Ok (srv, items)
    /\ length items = 9%nat.
Proof.
  destruct (doip_server_refines (T:=x86_64) 3 13400 demo_events) as (srv & items & H1 & H2 & _);
    [reflexivity | exact demo_events_ok |].
  exists srv, items. split; [exact H1|].
  change items with (abs srv, items).2. rewrite <- H2. reflexivity.
Defined.

(** C10: on a 64-bit target, what a connection sees does not depend on how TCP
    cuts its byte stream: two deliveries of the same bytes, in whatever non-empty pieces
    fit the buffer, leave the server with the same sessions and pending
    bytes and make the same calls, namely the replies to the complete
    frames of the stream in order. *)
Theorem doip_segmentation_independent {T : Target} {U : UdsService} srv f conn cs1 cs2 srv1 srv2 a1 a2 :
  size_bits = 64 -> reachable srv -> connections srv !! f = Some conn ->
  bytes (concat cs1) -> concat cs1 = concat cs2 ->
  delivers f srv cs1 srv1 a1 -> delivers f srv cs2 srv2 a2 ->
  a1 = a2 /\ abs srv1 = abs srv2
  /\ a1 = map (Send f) (serve_all (sess conn) (pending conn ++ concat cs1)).1.2.
Proof.
  intros H64 Hr%(reachable_inv _ H64) Hc Hb Heq Hd1 Hd2.
  pose proof (delivers_serve f srv cs1 srv1 a1 conn H64 Hr Hc Hb Hd1) as H1.
  rewrite Heq in Hb. pose proof (delivers_serve f srv cs2 srv2 a2 conn H64 Hr Hc Hb Hd2) as H2.
  rewrite Heq in *. destruct (serve_all _ _) as [[s o] r].
  destruct H1 as [-> ->], H2 as [-> ->]. done.
Qed.

(** One connection accepted on descriptor 7. *)
Definition demo_server : t := mk 3 13400 {[7 := new_connection 7]}.

Lemma demo_reachable {T : Target} {U : UdsService} : reachable demo_server.
Proof. exists 3, 13400, [Accept 7], [Event (Accept 7); Act (AddReader 7)]. by repeat constructor. Qed.

Definition demo_frame : list Z := doip_frame 0x0005 [0x0E; 0x00].

Ltac deliver_all :=
  repeat (eapply delivers_cons; [vm_compute; reflexivity|discriminate|vm_compute; discriminate
                                |vm_compute; reflexivity|]); apply delivers_nil.

Lemma doip_segmentation_independent_witness :
  exists srv1 srv2 a1 a2,
    delivers (T:=x86_64) 7 demo_server [demo_frame] srv1 a1
    /\ delivers (T:=x86_64) 7 demo_server [take 3 demo_frame; drop 3 demo_frame] srv2 a2
    /\ a1 = a2 /\ length a1 = 1%nat.
Proof.
  do 4 eexists.
  match goal with |- ?A /\ ?B /\ _ =>
    assert (D1 : A) by deliver_all; assert (D2 : B) by deliver_all end.
  split; [exact D1|]. split; [exact D2|].
  destruct (doip_segmentation_independent (T:=x86_64) demo_server 7 (new_connection 7)
    [demo_frame] [take 3 demo_frame; drop 3 demo_frame] _ _ _ _ eq_refl
    demo_reachable eq_refl ltac:(closed_bytes) eq_refl D1 D2) as (He & _ & _).
  split; [exact He|reflexivity].
Defined.

(** C5: no diagnostic traffic before routing activation: on a 64-bit target, over every
    sequence of events, each diagnostic acknowledgement or response sent on
    a descriptor follows a routing activation response sent on it since
    the descriptor was last accepted, also when descriptors are reused. *)
Theorem doip_diagnostics_gated {T : Target} {U : UdsService} lfd p evs srv items f :
  size_bits = 64 -> Forall event_ok evs -> run (mk lfd p ∅) evs = Ok (srv, items) ->
  gated f false items = true.
Proof.
  intros H64 Hok Hrun.
  destruct (run_refines (mk lfd p ∅) evs H64 (empty_inv lfd p) Hok) as (srv' & it & H1 & _ & H2).
  rewrite Hrun in H1. injection H1 as <- <-.
  pose proof (run_gated f false (abs (mk lfd p ∅)) evs) as Hg. rewrite H2 in Hg. apply Hg.
  intros s q Hl. by rewrite abs_empty in Hl.
Qed.

Lemma doip_diagnostics_gated_witness :
  exists srv items, run (T:=x86_64) (mk 3 13400 ∅) demo_events = Ok (srv, items)
    /\ gated 7 false items = true.
Proof.
  destruct (run (T:=x86_64) (mk 3 13400 ∅) demo_events) as [[srv items]|e] eqn:E.
  - exists srv, items. split; [reflexivity|].
    apply (doip_diagnostics_gated (T:=x86_64) 3 13400 demo_events srv items 7);
      [reflexivity | exact demo_events_ok | exact E].
  - exfalso. vm_compute in E. discriminate E.
Defined.

(** C37: on a 64-bit target, an error on the socket (a spurious [EAGAIN] included), the end of the
    stream or a full buffer closes exactly this connection, forgets its
    session, and leaves the others alone; callbacks that still fire for the
    descriptor do nothing. *)
Theorem doip_close_on_error {T : Target} {U : UdsService} srv f conn input :
  size_bits = 64 -> reachable srv -> connections srv !! f = Some conn ->
  (exists e, input = RecvError e) \/ input = RecvBytes [] \/ recv_len conn = 4096 ->
  exists srv',
    on_client_data srv f input = Ok (srv', [Close f])
    /\ connections srv' !! f = None
    /\ (forall f', f' <> f -> connections srv' !! f' = connections srv !! f')
    /\ forall input', on_client_data srv' f input' = Ok (srv', []).
Proof.
  intros H64 Hr%(reachable_inv _ H64) Hc Hcase. destruct (Hr f conn Hc) as (_ & Hi & _).
  eexists. split; [eapply on_client_data_close; [done|done|]|].
  - destruct Hcase as [[e ->] | [-> | Hfull]]; [done|cbn; by rewrite take_nil|].
    destruct input; [done|]. unfold received, free_space. by rewrite Hfull.
  - cbn. split; [apply lookup_delete_eq|]. split; [intros f' Hf; by rewrite lookup_delete_ne|].
    intros input'. apply on_client_data_unknown. apply lookup_delete_eq.
Qed.

Lemma doip_close_on_error_witness :
  exists srv', on_client_data (T:=x86_64) demo_server 7 (RecvError 11) = Ok (srv', [Close 7])
    /\ connections srv' !! 7 = None.
Proof.
  destruct (doip_close_on_error (T:=x86_64) demo_server 7 (new_connection 7) (RecvError 11)
    eq_refl demo_reachable eq_refl ltac:(left; by exists 11)) as (srv' & H1 & H2 & _).
  exists srv'. split; [exact H1|exact H2].
Defined.

(** C38: on a 64-bit target, a message that announces more than the 4088
    payload bytes the buffer can hold is never answered: each read either only appends to the
    pending bytes, making no call and leaving the session alone, or, once
    the 4096 bytes are full, closes the connection. *)
Theorem doip_oversized_never_served {T : Target} {U : UdsService} srv f conn input :
  size_bits = 64 -> reachable srv -> connections srv !! f = Some conn ->
  event_ok (Data f input) ->
  let l := pending conn ++ received conn input in
  8 <= zlen l -> 4088 < frame_length l ->
  exists srv' acts, on_client_data srv f input = Ok (srv', acts)
    /\ ((received conn input = [] /\ acts = [Close f] /\ connections srv' !! f = None)
       \/ (received conn input <> [] /\ acts = []
           /\ abs srv' = <[f := (sess conn, l)]> (abs srv) /\ zlen l <= 4096)).
Proof.
  intros H64 Hr%(reachable_inv _ H64) Hc Hev l H8 Hbig.
  destruct (Hr f conn Hc) as (_ & Hi & _).
  destruct (decide (received conn input = [])) as [He|Hne].
  { do 2 eexists. split; [by eapply on_client_data_close|]. left.
    cbn. by rewrite lookup_delete_eq. }
  destruct (step_refines srv (Data f input) H64 Hr Hev) as (srv' & acts & Hok & _ & Ha).
  exists srv', acts. split; [exact Hok|]. right.
  assert (bytes l) as Hb.
  { apply bytes_app; [by apply pending_bytes|]. apply received_bytes. by intros k ->. }
  assert (zlen l <= 4096) as Hl.
  { unfold l. rewrite zlen_app, zlen_pending by done. pose proof Hi as (_ & _ & Hrl).
    unfold received, free_space, RECV_BUF_SIZE in *. destruct input as [|av]; [done|].
    unfold zlen. rewrite length_take. lia. }
  cbn [Abstract.step] in Ha. unfold abs at 1 in Ha. rewrite lookup_fmap, Hc in Ha.
  cbn [fmap option_fmap option_map] in Ha. rewrite taken_received in Ha by done.
  destruct (received conn input) as [|b got] eqn:Er; [done|]. fold l in Ha.
  rewrite serve_all_incomplete in Ha by (done || (right; lia)).
  injection Ha as Ha1 Ha2. done.
Qed.

Lemma doip_oversized_never_served_witness :
  exists srv' acts,
    on_client_data (T:=x86_64) demo_server 7 (RecvBytes [2; 0xFD; 0x80; 1; 0; 0; 0x10; 0])
    = Ok (srv', acts) /\ acts = [].
Proof.
  destruct (doip_oversized_never_served (T:=x86_64) demo_server 7 (new_connection 7)
    (RecvBytes [2; 0xFD; 0x80; 1; 0; 0; 0x10; 0])) as (srv' & acts & H1 & H2);
    [reflexivity | apply demo_reachable | reflexivity | closed_bytes
    | vm_compute; discriminate | vm_compute; reflexivity |].
  exists srv', acts. split; [exact H1|].
  destruct H2 as [(He & _) | (_ & Ha & _)]; [vm_compute in He; discriminate He | exact Ha].
Defined.

(** C36: on a target with a 32-bit [size_t], eight bytes from any client stop
    the gateway for good: a header whose length field is 0xFFFFFFF8 makes
    the total message size wrap to zero, and the reassembly loop turns
    without consuming anything, whatever number of turns it is given; on
    a 64-bit target the same bytes are just an incomplete message. *)
Theorem doip_armv7_hangs {U : UdsService} f :
  let conn := mk_conn f false 0 (looping_header ++ replicate 4088 0) 8 in
  (forall fuel acts, process_buffer (T:=armv7) fuel conn acts = Fault OutOfFuel)
  /\ on_client_data (T:=armv7) (mk 3 13400 {[f := new_connection f]}) f
       (RecvBytes looping_header) = Fault OutOfFuel
  /\ process_buffer (T:=x86_64) 1 conn [] = Ok (conn, []).
Proof.
  split; [|split].
  - intros fuel acts. by apply loops_32.
  - rewrite (on_client_data_filled _ f (new_connection f));
      [|apply lookup_singleton_eq|apply new_connection_inv|discriminate].
    assert (filled (new_connection f) (received (new_connection f) (RecvBytes looping_header))
      = mk_conn f false 0 (looping_header ++ (recv_buf (new_connection f) +! 8)) 8) as ->
      by reflexivity.
    by rewrite loops_32.
  - by apply waits_64.
Qed.

(** C11: on a 64-bit target, an activated connection with nothing pending that receives one
    diagnostic message from [src] to [tgt] answers with exactly two frames
    in this order: the acknowledgement, which repeats both addresses, and
    the UDS reply to the request with the addresses exchanged. *)
Theorem doip_diagnostic_reply {T : Target} {U : UdsService} srv f conn src tgt req :
  size_bits = 64 -> reachable srv -> connections srv !! f = Some conn ->
  activated conn = true -> pending conn = [] ->
  is_u16 src -> is_u16 tgt -> bytes req -> zlen req <= 4084 ->
  exists srv',
    on_client_data srv f
      (RecvBytes (doip_frame DOIP_DIAGNOSTIC_MESSAGE (be16 src ++ be16 tgt ++ req)))
    = Ok (srv',
          [Send f (doip_frame DOIP_DIAGNOSTIC_ACK (be16 src ++ be16 tgt ++ [DOIP_ACK_OK]));
           Send f (doip_frame DOIP_DIAGNOSTIC_MESSAGE (be16 tgt ++ be16 src ++ uds_reply req))])
    /\ abs srv' = abs srv.
Proof.
  intros H64 Hr%(reachable_inv _ H64) Hc Hact Hp Hsrc Htgt Hreq Hlen.
  assert (bytes (be16 src ++ be16 tgt ++ req)) as Hbp by (auto 10 with gw).
  assert (abs srv !! f = Some (sess conn, [])) as Ha
    by (unfold abs; by rewrite lookup_fmap, Hc, <- Hp).
  destruct (frame_answered srv f (sess conn) DOIP_DIAGNOSTIC_MESSAGE _ H64 Hr Ha ltac:(done) Hbp
    ltac:(autorewrite with zlen; lia)) as (srv' & Hok & _ & Habs).
  cbn [be16 app] in Hok, Habs |- *. rewrite react_diagnostic in Hok, Habs by done.
  exists srv'. split; [exact Hok|]. by rewrite Habs, insert_id.
Qed.

(** The demo connection after routing activation. *)
Definition demo_events_active : list event :=
  [Accept 7; Data 7 (RecvBytes demo_frame)].
Definition demo_active : t :=
  match run (T:=x86_64) (mk 3 13400 ∅) demo_events_active with
  | Ok r => r.1
  | Fault _ => demo_server
  end.
Definition demo_conn : DoIpConnection :=
  default (new_connection 7) (connections demo_active !! 7).

Lemma demo_active_reachable : reachable (T:=x86_64) demo_active.
Proof.
  exists 3, 13400, demo_events_active.
  destruct (run (T:=x86_64) (mk 3 13400 ∅) demo_events_active) as [[srv items]|e] eqn:E.
  - exists items. split.
    + repeat (apply Forall_cons_2; [first [exact I|closed_bytes]|]). apply Forall_nil_2.
    + unfold demo_active. by rewrite E.
  - vm_compute in E. discriminate E.
Qed.

Lemma doip_diagnostic_reply_witness :
  exists srv',
    on_client_data (T:=x86_64) demo_active 7
      (RecvBytes (doip_frame DOIP_DIAGNOSTIC_MESSAGE (be16 0x0E00 ++ be16 1 ++ [0x11; 0x01])))
    = Ok (srv',
          [Send 7 (doip_frame DOIP_DIAGNOSTIC_ACK (be16 0x0E00 ++ be16 1 ++ [DOIP_ACK_OK]));
           Send 7 (doip_frame DOIP_DIAGNOSTIC_MESSAGE
                     (be16 1 ++ be16 0x0E00 ++ uds_reply [0x11; 0x01]))])
    /\ uds_reply [0x11; 0x01] = [0x51; 0x01].
Proof.
  destruct (doip_diagnostic_reply (T:=x86_64) demo_active 7 demo_conn 0x0E00 1 [0x11; 0x01])
    as (srv' & H1 & _);
    [reflexivity | exact demo_active_reachable | vm_compute; reflexivity
    | vm_compute; reflexivity | vm_compute; reflexivity | unfold is_u16; lia
    | unfold is_u16; lia | closed_bytes | unfold zlen; cbn; lia |].
  exists srv'. split; [exact H1|reflexivity].
Defined.

End properties.
