(* ===== verification/DoipClient.v ===== *)
(** * DoIP client tool ([src/tools/doip_client.cpp])

    [Module DoipClient] is the tool: the messages it sends, what it shows of
    an answer, and its conversation - routing activation, then six requests,
    one [recv] for each.  What the system calls return is an argument; the
    address of the server and the result of [send] are ignored, as the code
    ignores the latter. *)

From S2P Require Import Prelude Uds DoipMessage DoipServer DoipTrace.

Module DoipClient.

Definition DOIP_PROTO_VER : Z := 0x02.
Definition DOIP_PROTO_VER_INV : Z := 0xFD.
Definition TESTER_ADDR : Z := 0x0E00.
Definition ECU_ADDR : Z := 0x0001.
Definition BUF_SIZE : Z := 4096.

(** What is printed for a request: the bytes received, and those shown as the
    UDS response. *)
Record shown := mk_shown { raw : list Z; uds : option (list Z) }.

Section code.
Context {T : Target}.

Definition make_msg (type : Z) (payload : list Z) : checked (list Z) :=
  let msg := replicate (Z.to_nat (sz (8 + zlen payload))) 0 in
  msg ← wr msg 0 DOIP_PROTO_VER;
  msg ← wr msg 1 DOIP_PROTO_VER_INV;
  msg ← wr msg 2 (Z.land (Z.shiftr type 8) 0xFF);
  msg ← wr msg 3 (Z.land type 0xFF);
  msg ← wr_bytes msg 4 (mem32 (htonl (u32 (zlen payload))));
  wr_bytes msg 8 payload.

Definition diag_payload (uds_req : list Z) : list Z :=
  [Z.land (Z.shiftr TESTER_ADDR 8) 0xFF; Z.land TESTER_ADDR 0xFF;
   Z.land (Z.shiftr ECU_ADDR 8) 0xFF; Z.land ECU_ADDR 0xFF] ++ uds_req.

(** The conversion to [ssize_t]. *)
Definition ssize (x : Z) : Z := if size_bits =? 32 then i32 x else x.

(** What [send_uds] shows as the response in the [n] bytes of the buffer.
    [8 + second_len] is computed in [uint32_t]. *)
Definition uds_response (buf : list Z) (n : Z) : checked (option (list Z)) :=
  if 8 <? n then
    l ← rd_bytes buf 4 4;
    let second_len := htonl (load l) in
    if (ssize (u32 (8 + second_len)) <=? n) && (5 <=? second_len) then
      r ← rd_bytes buf (8 + 4) (u32 (second_len - 4));
      Ok (Some r)
    else Ok None
  else Ok None.

(** [send_uds]: the message sent, and what is shown unless [recv] failed;
    [stack] is what the 4096-byte buffer holds before. *)
Definition send_uds (stack : list Z) (uds_req : list Z) (input : DoIpServer.socket_input)
  : checked (list Z * option shown) :=
  diag_msg ← make_msg 0x8001 (diag_payload uds_req);
  let '(n, got) := DoIpServer.recv input BUF_SIZE in
  if n <=? 0 then Ok (diag_msg, None)
  else
    buf ← wr_bytes stack 0 got;
    raw ← rd_bytes buf 0 n;
    uds ← uds_response buf n;
    Ok (diag_msg, Some (mk_shown raw uds)).

Definition routing_payload : list Z :=
  [Z.land (Z.shiftr TESTER_ADDR 8) 0xFF; Z.land TESTER_ADDR 0xFF; 0x00; 0x00; 0x00; 0x00; 0x00].

(** The test of the answer to the routing activation. *)
Definition routing_activated (buf : list Z) (n : Z) : checked bool :=
  if 13 <=? n then code ← rd buf 12; Ok (code =? 0x10) else Ok false.

(** The requests of [main]. *)
Definition requests : list (list Z) :=
  [[0x10; 0x03]; [0x19; 0x02; 0xFF]; [0x22; 0xF1; 0x90]; [0x22; 0xF1; 0x8C]; [0x22; 0xF1; 0x87];
   [0x11; 0x01]].

Definition next_input (inputs : list DoIpServer.socket_input) : DoIpServer.socket_input :=
  match inputs with
  | [] => DoIpServer.RecvBytes []
  | input :: _ => input
  end.

(** The calls of [send_uds], one result of [recv] each; where there are none
    left, the connection is closed. *)
Fixpoint converse (stack : list Z) (reqs : list (list Z)) (inputs : list DoIpServer.socket_input)
  : checked (list (list Z * option shown)) :=
  match reqs with
  | [] => Ok []
  | req :: reqs =>
      r ← send_uds stack req (next_input inputs);
      rs ← converse stack reqs (tail inputs);
      Ok (r :: rs)
  end.

(** [main] from the first message on: the exit code, that message, and the
    rest of the conversation. *)
Definition talk (stack : list Z) (inputs : list DoIpServer.socket_input)
  : checked (Z * list Z * list (list Z * option shown)) :=
  routing_msg ← make_msg 0x0005 routing_payload;
  let '(n, got) := DoIpServer.recv (next_input inputs) BUF_SIZE in
  if n <=? 0 then Ok (1, routing_msg, [])
  else
    buf ← wr_bytes stack 0 got;
    activated ← routing_activated buf n;
    if (activated : bool) then
      rest ← converse stack requests (tail inputs);
      Ok (0, routing_msg, rest)
    else Ok (1, routing_msg, []).

(** [main]: the exit code and, once connected, the conversation. *)
Definition main (sock_res connect_res : Z) (stack : list Z) (inputs : list DoIpServer.socket_input)
  : checked (Z * option (list Z * list (list Z * option shown))) :=
  if sock_res <? 0 then Ok (1, None)
  else if connect_res <? 0 then Ok (1, None)
  else
    r ← talk stack inputs;
    let '(code, first, rest) := r in
    Ok (code, Some (first, rest)).

End code.
End DoipClient.

(** ** The conversation with the server *)
Module ClientSpec.
Import DoIpServer.

(** What goes out on a connection. *)
Definition output (f : Z) (acts : list action) : list Z :=
  concat (map (fun a => match a with
                        | Send f' data => if f' =? f then data else []
                        | _ => []
                        end) acts).

(** The server's outputs for successive messages on one connection, each
    arriving in one piece. *)
Fixpoint answers {T : Target} {U : UdsService} (f : Z) (srv : t) (msgs : list (list Z))
  : checked (t * list (list Z)) :=
  match msgs with
  | [] => Ok (srv, [])
  | msg :: msgs =>
      r ← on_client_data srv f (RecvBytes msg);
      rs ← answers f r.1 msgs;
      Ok (rs.1, output f r.2 :: rs.2)
  end.

(** A closed conversation: what the client receives is what the server
    answers to what the client sends. *)
Definition conversation {T : Target} {U : UdsService} (sock_res f : Z) (srv : t) (stack : list Z)
  (code : Z) (srv' : t) (replies : list (list Z)) (shown : list (option DoipClient.shown)) : Prop :=
  exists first rest,
    DoipClient.main sock_res 0 stack (map RecvBytes replies) = Ok (code, Some (first, rest))
    /\ answers f srv (first :: map fst rest) = Ok (srv', replies)
    /\ map snd rest = shown.

(** The answers the protocol prescribes. *)
Definition request_frame (req : list Z) : list Z := doip_frame 0x8001 (DoipClient.diag_payload req).
Definition activation_answer : list Z := doip_frame 0x0006 [0x0E; 0x00; 0x00; 0x01; 0x10; 0; 0; 0; 0].
Definition request_answer {U : UdsService} (req : list Z) : list Z :=
  doip_frame 0x8002 [0x0E; 0x00; 0x00; 0x01; 0x00]
  ++ doip_frame 0x8001 ([0x00; 0x01; 0x0E; 0x00] ++ uds_reply req).

End ClientSpec.

(** ** Lemmas *)
Module ClientFacts.
Import DoipClient ClientSpec DoIpServer DoIpSpec DoipServerFacts DoipTraceFacts.

Section facts.
Context {T : Target} {U : UdsService}.

Lemma make_msg_ok type payload :
  zlen payload < 4294967288 -> make_msg type payload = Ok (doip_frame type payload).
Proof.
  intros Hl. pose proof (zlen_nonneg payload). unfold make_msg.
  rewrite sz_small, Z2Nat.inj_add, replicate_add by lia. change (Z.to_nat 8) with 8%nat.
  cbn [replicate app]. set (rest := replicate (Z.to_nat (zlen payload)) 0). mem_red.
  rewrite memcpy_htonl. set (a := Z.land (type ≫ 8) 255). set (b := Z.land type 255).
  pose proof (wr_bytes_app [DOIP_PROTO_VER; DOIP_PROTO_VER_INV; a; b] [0; 0; 0; 0] rest 4
    (be32 (u32 (zlen payload))) eq_refl eq_refl) as Hw.
  cbn [app] in Hw. rewrite Hw. cbn [mbind checked_bind].
  pose proof (wr_bytes_app ([DOIP_PROTO_VER; DOIP_PROTO_VER_INV; a; b]
    ++ be32 (u32 (zlen payload))) rest [] 8 payload eq_refl) as Hp.
  rewrite !app_nil_r in Hp. cbn [app] in Hp.
  etransitivity; [apply Hp; unfold rest, zlen in *; rewrite length_replicate; lia|].
  rewrite DoipMessageFacts.be32_u32. unfold doip_frame, be16, byte_at, a, b.
  by rewrite Z.shiftr_0_r.
Qed.

(** A reply that starts with the acknowledgement is shown as its code. *)
Lemma ack_shown buf n a b c d code rest :
  zlen buf = BUF_SIZE -> 13 <= n ->
  buf = doip_frame 0x8002 [a; b; c; d; code] ++ rest ->
  uds_response buf n = Ok (Some [code]).
Proof.
  intros Hb Hn Hbuf. unfold uds_response. guards.
  rewrite rd_bytes_ok by (rewrite ?Hb; unfold BUF_SIZE; lia). cbn [mbind checked_bind].
  assert (take (Z.to_nat 4) (buf +! 4) = [0; 0; 0; 5]) as -> by (by subst buf).
  rewrite ntohl_load by (unfold is_u8; lia). change (be_val [0; 0; 0; 5]) with 5. change (u32 (8 + 5)) with 13.
  assert (ssize 13 = 13) as -> by (unfold ssize; by destruct (size_bits =? 32)).
  guards. change (5 <=? 5) with true. cbn [andb].
  rewrite rd_bytes_ok by (rewrite ?Hb; change (u32 (5 - 4)) with 1; unfold BUF_SIZE; lia).
  by subst buf.
Qed.

(** [recv] of a reply that starts with [pre], into the 4096-byte buffer. *)
Lemma received stack pre rest :
  zlen stack = BUF_SIZE -> zlen pre <= BUF_SIZE ->
  exists n got buf tail,
    recv (RecvBytes (pre ++ rest)) BUF_SIZE = (n, got) /\ zlen pre <= n <= BUF_SIZE
    /\ got = take (Z.to_nat BUF_SIZE) (pre ++ rest)
    /\ wr_bytes stack 0 got = Ok buf /\ zlen buf = BUF_SIZE /\ buf = pre ++ tail
    /\ rd_bytes buf 0 n = Ok got.
Proof.
  intros Hs Hp. assert (0 <= BUF_SIZE) as H0 by done. clear -Hs Hp H0.
  generalize dependent BUF_SIZE. intros cap Hs Hp H0. cbn [recv].
  set (got := take (Z.to_nat cap) (pre ++ rest)).
  assert (got = pre ++ take (Z.to_nat cap - length pre) rest) as Hg.
  { unfold got. rewrite take_app, (take_ge pre) by (unfold zlen in *; lia). done. }
  assert (zlen got <= cap) as Hgl by (unfold got, zlen; rewrite length_take; lia).
  assert (zlen pre <= zlen got) as Hpl by (rewrite Hg, zlen_app; pose proof (zlen_nonneg (take (Z.to_nat cap - length pre) rest)); lia).
  exists (zlen got), got, (got ++ drop (length got) stack),
    (take (Z.to_nat cap - length pre) rest ++ drop (length got) stack).
  split_and!; [done|done|done|done| | | |].
  - apply wr_bytes_front. lia.
  - rewrite (proj2 (wr_bytes_front stack got ltac:(lia))). done.
  - by rewrite Hg at 1; rewrite <- app_assoc.
  - rewrite rd_bytes_ok.
    + rewrite drop_0. f_equal. unfold zlen. rewrite Nat2Z.id. by rewrite take_app_length.
    + lia.
    + unfold zlen. lia.
    + unfold zlen. rewrite length_app. lia.
Qed.

Lemma request_shown stack req :
  zlen stack = BUF_SIZE -> zlen req < 4294967284 ->
  send_uds stack req (RecvBytes (request_answer req))
  = Ok (request_frame req, Some (mk_shown (take (Z.to_nat BUF_SIZE) (request_answer req)) (Some [0x00]))).
Proof.
  intros Hs Hr. unfold send_uds, request_answer.
  rewrite make_msg_ok by (unfold diag_payload; autorewrite with zlen; lia). cbn [mbind checked_bind].
  destruct (received stack (doip_frame 0x8002 [0x0E; 0x00; 0x00; 0x01; 0x00])
    (doip_frame 0x8001 ([0x00; 0x01; 0x0E; 0x00] ++ uds_reply req)) Hs ltac:(done))
    as (n & got & buf & tl & Hrecv & Hn & -> & Hw & Hb & Hbuf & Hrd).
  change (zlen (doip_frame 0x8002 [0x0E; 0x00; 0x00; 0x01; 0x00])) with 13 in Hn.
  rewrite Hrecv, (proj2 (Z.leb_gt n 0)) by lia. rewrite Hw. cbn [mbind checked_bind].
  rewrite Hrd. cbn [mbind checked_bind].
  rewrite (ack_shown buf n 0x0E 0x00 0x00 0x01 0x00 tl Hb ltac:(lia) Hbuf). done.
Qed.

Lemma converse_ok stack reqs :
  zlen stack = BUF_SIZE -> Forall (fun req => zlen req < 4294967284) reqs ->
  converse stack reqs (map (fun req => RecvBytes (request_answer req)) reqs)
  = Ok (map (fun req => (request_frame req,
        Some (mk_shown (take (Z.to_nat BUF_SIZE) (request_answer req)) (Some [0x00])))) reqs).
Proof.
  intros Hs. induction 1 as [|req reqs Hr _ IH]; [done|].
  cbn [converse map next_input List.tl]. rewrite request_shown by done. cbn [mbind checked_bind].
  rewrite IH. done.
Qed.

(** *** The server's side *)
Lemma answer_frame f srv s ty p msgs :
  size_bits = 64 -> table_inv srv -> abs srv !! f = Some (s, []) ->
  is_u16 ty -> bytes p -> zlen p <= 4088 ->
  exists srv', table_inv srv' /\ abs srv' !! f = Some ((react s ty p).1, [])
    /\ answers f srv (doip_frame ty p :: msgs)
       = (rs ← answers f srv' msgs; Ok (rs.1, concat (react s ty p).2 :: rs.2)).
Proof.
  intros H64 Hi Ha Hty Hp Hl.
  destruct (frame_answered srv f s ty p H64 Hi Ha Hty Hp Hl) as (srv' & Hok & Hi' & Ha').
  exists srv'. split; [done|]. split; [by rewrite Ha', lookup_insert_eq|].
  cbn [answers]. rewrite Hok. cbn [mbind checked_bind fst snd].
  assert (output f (map (Send f) (react s ty p).2) = concat (react s ty p).2) as ->; [|done].
  unfold output. rewrite List.map_map. f_equal. rewrite <- List.map_id. apply List.map_ext.
  intros. by rewrite Z.eqb_refl.
Qed.

Lemma requests_answered f srv s reqs :
  size_bits = 64 -> table_inv srv -> abs srv !! f = Some (s, []) -> s_activated s = true ->
  Forall (fun req => bytes req /\ zlen req <= 4084) reqs ->
  exists srv', table_inv srv' /\ answers f srv (map request_frame reqs) = Ok (srv', map request_answer reqs).
Proof.
  intros H64 Hi Ha Hact Hr. revert srv Hi Ha. induction Hr as [|req reqs [Hb Hl] _ IH]; intros srv Hi Ha.
  { by exists srv. }
  destruct (answer_frame f srv s 0x8001 (diag_payload req) (map request_frame reqs) H64 Hi Ha)
    as (srv1 & Hi1 & Ha1 & Hans); [done| | |].
  { unfold diag_payload. apply Forall_app_2; [closed_bytes|done]. }
  { unfold diag_payload. autorewrite with zlen. lia. }
  pose proof (react_diagnostic s 0x0E 0x00 0x00 0x01 req Hact) as Hre.
  change (react s 0x8001 (diag_payload req) = (s, [doip_frame 0x8002 [0x0E; 0x00; 0x00; 0x01; 0x00];
    doip_frame 0x8001 ([0x00; 0x01; 0x0E; 0x00] ++ uds_reply req)])) in Hre.
  rewrite Hre in Ha1, Hans.
  destruct (IH srv1 Hi1 Ha1) as (srv' & Hi' & Hrest). exists srv'. split; [done|].
  cbn [map]. unfold request_frame at 1.
  rewrite Hans, Hrest. cbn [mbind checked_bind fst snd]. unfold request_answer.
  cbn [concat]. by rewrite app_nil_r.
Qed.

End facts.
End ClientFacts.

(** ** Properties *)
Section properties.
Import DoipClient ClientSpec DoIpServer DoIpSpec DoipServerFacts DoipTraceFacts ClientFacts.

(** C12: the client and the server understand each other, up to a point.  With
    a 64-bit server, on an idle connection of a reachable state, a run of the
    tool in which each [recv] yields one whole answer - the acknowledgement
    and the reply, two [send]s of the server, together - exists and ends with
    exit code 0: routing is activated and each request is sent,
    framed as the protocol has it, and answered by the acknowledgement
    followed by the UDS reply.  What the tool then shows as the UDS response
    is never that reply: it decodes the first message it finds, the
    acknowledgement, and shows its code. *)
Theorem doip_client_session {T : Target} {U : UdsService} sock_res srv f conn stack :
  0 <= sock_res -> size_bits = 64 -> reachable srv -> connections srv !! f = Some conn -> pending conn = [] ->
  zlen stack = BUF_SIZE ->
  exists srv',
    conversation sock_res f srv stack 0 srv' (activation_answer :: map request_answer requests)
      (map (fun req => Some (mk_shown (take (Z.to_nat BUF_SIZE) (request_answer req)) (Some [0x00]))) requests).
Proof.
  intros Hsock H64 Hr%(reachable_inv _ H64) Hc Hp Hs.
  assert (abs srv !! f = Some (sess conn, [])) as Ha
    by (unfold abs; by rewrite lookup_fmap, Hc, <- Hp).
  destruct (answer_frame f srv (sess conn) 0x0005 routing_payload (map request_frame requests) H64 Hr Ha)
    as (srv1 & Hi1 & Ha1 & Hans); [done|closed_bytes|by vm_compute|].
  destruct (requests_answered f srv1 _ requests H64 Hi1 Ha1 eq_refl) as (srv' & _ & Hreqs).
  { repeat (apply Forall_cons_2; [split; [closed_bytes|by vm_compute]|]). apply Forall_nil_2. }
  exists srv', (doip_frame 0x0005 routing_payload),
    (map (fun req => (request_frame req,
       Some (mk_shown (take (Z.to_nat BUF_SIZE) (request_answer req)) (Some [0x00])))) requests).
  split; [|split]; [|rewrite List.map_map; cbn [fst]; change (map (fun req => request_frame req)) with (map request_frame);
     by rewrite Hans, Hreqs|by rewrite List.map_map].
  cbn [map]. unfold main, talk. rewrite (proj2 (Z.ltb_ge sock_res 0) Hsock). change (0 <? 0) with false.
  cbn match. rewrite make_msg_ok by done. cbn [mbind checked_bind next_input List.tl].
  destruct (received stack activation_answer [] Hs ltac:(done)) as (n & got & buf & tl & Hrecv & Hn & _ & Hw & Hb & Hbuf & _).
  rewrite app_nil_r in Hrecv. change (zlen activation_answer) with 17 in Hn.
  rewrite Hrecv, (proj2 (Z.leb_gt n 0)), Hw by lia. cbn [mbind checked_bind].
  assert (routing_activated buf n = Ok true) as ->.
  { unfold routing_activated. guards. by rewrite Hbuf. }
  cbn [mbind checked_bind]. rewrite List.map_map, converse_ok; [done|done|].
  repeat (apply Forall_cons_2; [by vm_compute|]). apply Forall_nil_2.
Qed.

(** The session of the tool with the gateway's own UDS handler. *)
Lemma doip_client_session_witness :
  exists srv' shown,
    conversation (T:=x86_64) (U:=gateway_uds) 3 7 demo_server (replicate 4096 0) 0 srv'
      (activation_answer :: map (request_answer (U:=gateway_uds)) requests) shown
    /\ nth_error (map (request_answer (U:=gateway_uds)) requests) 5
       = Some (doip_frame 0x8002 [0x0E; 0x00; 0x00; 0x01; 0x00]
               ++ doip_frame 0x8001 [0x00; 0x01; 0x0E; 0x00; 0x51; 0x01]).
Proof.
  destruct (doip_client_session (T:=x86_64) (U:=gateway_uds) 3 demo_server 7 (new_connection 7) (replicate 4096 0))
    as (srv' & Hc); [lia|reflexivity|apply demo_reachable|vm_compute; reflexivity|reflexivity|vm_compute; reflexivity|].
  exists srv', (map (fun req => Some (mk_shown (take (Z.to_nat BUF_SIZE) (request_answer req)) (Some [0x00]))) requests).
  split; [exact Hc|vm_compute; reflexivity].
Defined.

(** The test of the announced length against the [n] bytes received. *)
Lemma shown_size {T : Target} len n :
  is_u32 len -> 0 <= n <= 4096 -> 8 < n ->
  (ssize (u32 (8 + len)) <=? n)
  = ((if size_bits =? 32 then 0x7FFFFFF8 else 0xFFFFFFF8) <=? len) || (8 + len <=? n).
Proof.
  intros Hu Hn Hn8. unfold is_u32 in Hu. unfold ssize, i32, u32.
  destruct (size_bits =? 32), (Z.leb_spec 0x7FFFFFF8 len), (Z.leb_spec 0xFFFFFFF8 len),
    (Z.leb_spec (8 + len) n); cbn [orb]; first [apply Z.leb_le|apply Z.leb_gt]; zlia.
Qed.

(** C39: what the tool shows of [n] received bytes: the part of the first
    message after its four address bytes when that message is complete and
    has at least five bytes of payload - and memory beyond the buffer when
    the message announces too much: 0xFFFFFFF8 bytes or more, where
    [8 + second_len] wraps around, and where [ssize_t] has 32 bits already
    0x7FFFFFF8 or more, which the cast makes negative. *)
Theorem doip_client_response {T : Target} buf n :
  bytes buf -> zlen buf = BUF_SIZE -> 0 <= n <= BUF_SIZE ->
  uds_response buf n
  = let len := frame_length buf in
    if n <=? 8 then Ok None
    else if (if size_bits =? 32 then 0x7FFFFFF8 else 0xFFFFFFF8) <=? len then Fault OutOfBounds
    else if (8 + len <=? n) && (5 <=? len) then Ok (Some (take (Z.to_nat (len - 4)) (drop 12 buf)))
    else Ok None.
Proof.
  intros Hb Hl Hn. unfold uds_response.
  destruct (Z.leb_spec n 8), (Z.ltb_spec 8 n); try lia; [done|].
  rewrite rd_bytes_ok by (rewrite ?Hl; unfold BUF_SIZE; lia). cbn [mbind checked_bind].
  change (take (Z.to_nat 4) (buf +! 4)) with (take 4 (drop 4 buf)). unfold frame_length.
  assert (is_u32 (be_val (take 4 (drop 4 buf))) /\ htonl (load (take 4 (drop 4 buf))) = be_val (take 4 (drop 4 buf)))
    as [Hu ->].
  { assert (bytes (take 4 (drop 4 buf))) as Hb4 by (by apply Forall_take, Forall_drop).
    assert (length (take 4 (drop 4 buf)) = 4%nat) as Hl4
      by (rewrite length_take, length_drop; unfold zlen, BUF_SIZE in Hl; lia).
    destruct (take 4 (drop 4 buf)) as [|a [|b [|c [|d [|]]]]]; try discriminate.
    rewrite !list.Forall_cons in Hb4. destruct Hb4 as (? & ? & ? & ? & _).
    rewrite ntohl_load by done. split; [|done]. unfold be_val, is_u32; cbn. unfold is_u8 in *. lia. }
  set (len := be_val (take 4 (drop 4 buf))) in *. cbv zeta. unfold is_u32 in Hu.
  assert (forall k, BUF_SIZE < k -> rd_bytes buf (8 + 4) k = Fault OutOfBounds) as Hover.
  { intros k Hk. unfold rd_bytes. rewrite (proj2 (Z.leb_gt (8 + 4 + k) (Z.of_nat (length buf))));
      [by rewrite andb_false_r|unfold zlen, BUF_SIZE in *; lia]. }
  rewrite shown_size by (unfold is_u32, BUF_SIZE in *; lia). cbv zeta.
  destruct (Z.leb_spec (if size_bits =? 32 then 0x7FFFFFF8 else 0xFFFFFFF8) len) as [Hbig|Hsmall].
  - assert (0x7FFFFFF8 <= len) by (destruct (size_bits =? 32); lia).
    rewrite (proj2 (Z.leb_le 5 len)) by lia. cbn [andb orb].
    rewrite u32_small by (unfold is_u32; lia). rewrite Hover by (unfold BUF_SIZE; lia). done.
  - cbn [orb]. destruct (Z.leb_spec (8 + len) n), (Z.leb_spec 5 len); cbn [andb]; try done.
    rewrite u32_small by (unfold is_u32; lia).
    rewrite rd_bytes_ok by (rewrite ?Hl; unfold BUF_SIZE in *; lia). done.
Qed.

(** A 9-byte answer that announces [2^32 - 1] bytes. *)
Lemma doip_client_response_witness :
  uds_response (T:=x86_64) ([0x02; 0xFD; 0x80; 0x01; 0xFF; 0xFF; 0xFF; 0xFF; 0x00] ++ replicate 4087 0) 9
  = Fault OutOfBounds.
Proof.
  rewrite (doip_client_response (T:=x86_64)); [vm_compute; reflexivity| | |unfold BUF_SIZE; lia].
  - apply Forall_app_2; [closed_bytes|]. apply Forall_replicate. unfold is_u8. lia.
  - vm_compute; reflexivity.
Defined.

End properties.
