(* ===== verification/Floats.v ===== *)
(** * IEEE 754 numbers as the code uses them

    [double] and [float] are the standard library's [spec_float] at
    precision 53 and 24; arithmetic is its round-to-nearest-even
    specification.  A NaN carries no payload in this model: the one written
    to memory is the canonical quiet NaN.  The lemmas show that every
    rounding yields a well-formed number, that comparison is a total order
    away from NaN, and that a [float] survives being stored as 32 bits. *)

From Stdlib Require Import SpecFloat.
From S2P Require Import Prelude.

Abbreviation double := spec_float.
Abbreviation float := spec_float.

(** ** [double] *)
Definition d_of_int (z : Z) : double := binary_normalize 53 1024 z 0 false.
Definition d_mul : double -> double -> double := SFmul 53 1024.
Definition d_add : double -> double -> double := SFadd 53 1024.
Definition d_div : double -> double -> double := SFdiv 53 1024.
Definition d_sub : double -> double -> double := SFsub 53 1024.
(** The literal for [a / b]: the nearest number. *)
Definition quotient (a b : Z) : double := d_div (d_of_int a) (d_of_int b).
Definition d_lt : double -> double -> bool := SFltb.
Definition d_valid (d : double) : bool := valid_binary 53 1024 d.
Definition is_nan (d : spec_float) : bool :=
  match d with S754_nan => true | _ => false end.

(** [std::max(a, b)] is [(a < b) ? b : a], [std::min(a, b)] is
    [(b < a) ? b : a]; a NaN compares false. *)
Definition d_max (a b : double) : double := if d_lt a b then b else a.
Definition d_min (a b : double) : double := if d_lt b a then b else a.

(** [static_cast] of a [double] to an unsigned type of [bits] bits:
    truncation (a negative [shiftl] is a shift to the right); outside the
    range of the type it is undefined. *)
Definition d_trunc (d : double) : option Z :=
  match d with
  | S754_zero _ => Some 0
  | S754_finite s m e =>
      let a := Z.shiftl (Zpos m) e in
      Some (if s then - a else a)
  | _ => None
  end.
Definition unsigned_of_double (bits : Z) (d : double) : checked Z :=
  match d_trunc d with
  | Some v => if (0 <=? v) && (v <? 2 ^ bits) then Ok v else Fault BadConversion
  | None => Fault BadConversion
  end.

Definition int_of_double (d : double) : checked Z :=
  match d_trunc d with
  | Some v => if (- 2 ^ 31 <=? v) && (v <? 2 ^ 31) then Ok v else Fault BadConversion
  | None => Fault BadConversion
  end.

(** [static_cast<float>] of a [double]; values beyond the range of [float]
    become infinities, as IEEE 754 conversion has it. *)
Definition f_of_double (d : double) : float :=
  match d with
  | S754_finite s m e => binary_round 24 128 s m e
  | _ => d
  end.
Definition f_valid (f : float) : bool := valid_binary 24 128 f.

(** ** The 32 bits of a [float] *)
Definition f_sign (s : bool) : Z := if s then 0x80000000 else 0.

Definition f_bits (f : float) : Z :=
  match f with
  | S754_zero s => f_sign s
  | S754_infinity s => f_sign s + 0x7F800000
  | S754_nan => 0x7FC00000
  | S754_finite s m e =>
      if Zpos m <? 0x800000 then f_sign s + Zpos m
      else f_sign s + (e + 150) * 0x800000 + (Zpos m - 0x800000)
  end.

Definition f_of_bits (b : Z) : float :=
  let s := 0x80000000 <=? b in
  let field := (b / 0x800000) mod 256 in
  let frac := b mod 0x800000 in
  if field =? 255 then if frac =? 0 then S754_infinity s else S754_nan
  else if field =? 0 then
    match frac with Zpos m => S754_finite s m (-149) | _ => S754_zero s end
  else
    match frac + 0x800000 with
    | Zpos m => S754_finite s m (field - 150)
    | _ => S754_nan
    end.

(** ** Lemmas: rounding *)
Section rounding.
Context (prec emax : Z) (Hprec : 0 < prec) (Hmax : prec < emax).

Local Abbreviation f := (fexp prec emax).

Lemma fexp_step x : f x <= f (x + 1) <= f x + 1.
Proof. unfold fexp. lia. Qed.

Lemma digits_log2 p : Zpos (digits2_pos p) = Z.log2 (Zpos p) + 1.
Proof.
  assert (digits2_pos p = Pos.size p) as -> by (by induction p; cbn; rewrite ?IHp).
  destruct p; cbn; lia.
Qed.

Lemma Zdigits_log2 m : 0 < m -> Zdigits2 m = Z.log2 m + 1.
Proof. destruct m; try lia. intros _. apply digits_log2. Qed.

Lemma iter_pos_nat {A} (g : A -> A) p x : SpecFloat.iter_pos g p x = Nat.iter (Pos.to_nat p) g x.
Proof.
  revert x. induction p as [p IH|p IH|]; intros x; cbn [SpecFloat.iter_pos].
  - rewrite !IH, <- Nat.iter_add, <- Nat.iter_succ_r. f_equal. lia.
  - rewrite !IH, <- Nat.iter_add. f_equal. lia.
  - done.
Qed.

Lemma shr_1_half r : 0 <= shr_m r -> shr_m (shr_1 r) = shr_m r / 2.
Proof.
  destruct r as [m r s]; cbn [shr_m shr_1]. intros Hm.
  destruct m as [|[p|p|]|]; try done; cbn [shr_m].
  - rewrite (Pos2Z.inj_xI p). zlia.
  - rewrite (Pos2Z.inj_xO p). zlia.
Qed.

Lemma shr_div r e n :
  0 <= shr_m r -> 0 <= n -> shr_m (shr r e n).1 = shr_m r / 2 ^ n /\ (shr r e n).2 = e + n.
Proof.
  intros Hr Hn. destruct n as [|p|]; [cbn; rewrite Z.div_1_r; lia| |lia].
  cbn [shr fst snd]. split; [|done]. rewrite iter_pos_nat.
  replace (Zpos p) with (Z.of_nat (Pos.to_nat p)) by lia.
  induction (Pos.to_nat p) as [|k IH]; [cbn; by rewrite Z.div_1_r|]. rewrite Nat.iter_succ.
  rewrite shr_1_half by (rewrite IH; apply Z.div_pos; lia).
  rewrite IH, Nat2Z.inj_succ, Z.pow_succ_r, Z.mul_comm, Z.div_div by lia. done.
Qed.

Lemma shr_neg r e n : n <= 0 -> shr r e n = (r, e).
Proof. destruct n; [done|lia|done]. Qed.

Lemma shr_of_loc m l : shr_m (shr_record_of_loc m l) = m.
Proof. by destruct l as [|[]]. Qed.

Lemma round_near m l : round_nearest_even m l = m \/ round_nearest_even m l = m + 1.
Proof. destruct l as [|[]]; cbn; auto. destruct (Z.even m); auto. Qed.

(** The second normalisation of a rounded mantissa. *)
Lemma renormalise s m e :
  0 <= m ->
  (m = 0 -> e >= emin prec emax) ->
  (0 < m -> f (Z.log2 m + 1 + e) = e
            \/ (f (Z.log2 m + 1 + e) = e + 1 /\ m = 2 ^ Z.log2 m /\ 0 < Z.log2 m)) ->
  valid_binary prec emax
    (let '(r, e2) := shr_fexp prec emax m e loc_Exact in
     match shr_m r with
     | Z0 => S754_zero s
     | Zpos m => if Z.leb e2 (Z.sub emax prec) then S754_finite s m e2 else S754_infinity s
     | _ => S754_nan
     end) = true.
Proof.
  intros Hm H0 Hpos. unfold shr_fexp. cbn [shr_record_of_loc].
  destruct (decide (m = 0)) as [->|Hne].
  { specialize (H0 eq_refl). rewrite shr_neg; [done|]. cbn. unfold fexp. lia. }
  specialize (Hpos ltac:(lia)). rewrite Zdigits_log2 by lia.
  assert (forall m' e', 0 < m' -> f (Z.log2 m' + 1 + e') = e' ->
    valid_binary prec emax
      match m' with
      | Z0 => S754_zero s
      | Zpos m => if Z.leb e' (Z.sub emax prec) then S754_finite s m e' else S754_infinity s
      | _ => S754_nan
      end = true) as Hok.
  { intros [|p|p] e' Hp' He'; try lia. destruct (Z.leb_spec e' (emax - prec)); [|done].
    cbn. unfold bounded, canonical_mantissa. rewrite digits_log2. rewrite andb_true_iff.
    rewrite Z.eqb_eq, Z.leb_le. done. }
  destruct Hpos as [He | (He & Hpow & Hlog)]; rewrite He.
  - rewrite shr_neg by lia. cbn [shr_m]. apply Hok; [lia|done].
  - replace (e + 1 - e) with 1 by lia. cbn [shr SpecFloat.iter_pos].
    rewrite shr_1_half by (cbn; lia). cbn [shr_m].
    assert (m / 2 = 2 ^ (Z.log2 m - 1)) as Hhalf.
    { rewrite Hpow at 1. replace (Z.log2 m) with (Z.succ (Z.log2 m - 1)) at 1 by lia.
      rewrite Z.pow_succ_r, Z.mul_comm, Z.div_mul by lia. done. }
    rewrite Hhalf. apply Hok; [apply Z.pow_pos_nonneg; lia|].
    rewrite Z.log2_pow2 by lia. rewrite <- He at 2. f_equal. lia.
Qed.

Lemma log2_div_pow2 m n : 0 <= n -> 2 ^ n <= m -> Z.log2 (m / 2 ^ n) = Z.log2 m - n.
Proof.
  intros Hn Hm. rewrite <- Z.shiftr_div_pow2 by done.
  assert (0 < 2 ^ n) by (apply Z.pow_pos_nonneg; lia).
  rewrite Z.log2_shiftr by lia. apply Z.max_r.
  apply Z.log2_le_mono in Hm. rewrite Z.log2_pow2 in Hm by done. lia.
Qed.

(** The exponent a rounded mantissa calls for: its own, or the next one
    when rounding carried to a power of two. *)
Lemma rounded_exponent m e l n :
  0 < m -> n = f (Z.log2 m + 1 + e) - e -> 0 <= n ->
  let m' := round_nearest_even (m / 2 ^ n) l in
  0 < m' ->
  f (Z.log2 m' + 1 + (e + n)) = e + n
  \/ (f (Z.log2 m' + 1 + (e + n)) = e + n + 1 /\ m' = 2 ^ Z.log2 m' /\ 0 < Z.log2 m').
Proof.
  intros Hm Hn0 Hn. cbv zeta. set (d := Z.log2 m + 1) in *.
  assert (emin prec emax <= e + n) as Hemin by (subst n; unfold fexp; lia).
  assert (0 < 2 ^ n) as Hpow by (apply Z.pow_pos_nonneg; lia).
  assert (0 <= m / 2 ^ n) as Hq by (apply Z.div_pos; lia).
  destruct (Z.log2_spec m Hm) as [Hlo Hhi].
  intros Hpos. destruct (Z.le_gt_cases (2 ^ n) m) as [Hbig|Hsmall].
  - (* the mantissa keeps at least one bit *)
    pose proof (log2_div_pow2 m n ltac:(lia) Hbig) as Hlog.
    assert (n <= Z.log2 m) as Hnl.
    { apply Z.log2_le_mono in Hbig. rewrite Z.log2_pow2 in Hbig; lia. }
    assert (0 < m / 2 ^ n) as Hq1 by (apply Z.div_str_pos; lia).
    destruct (round_near (m / 2 ^ n) l) as [-> | ->].
    + left. rewrite Hlog. replace (Z.log2 m - n + 1 + (e + n)) with (d + e) by lia. lia.
    + destruct (Z.log2_spec (m / 2 ^ n) Hq1) as [Hlo' Hhi'].
      destruct (Z.eq_dec (m / 2 ^ n + 1) (2 ^ Z.succ (Z.log2 (m / 2 ^ n)))) as [Heq|Hneq].
      * rewrite Heq, Z.log2_pow2 by lia. rewrite Hlog.
        pose proof (fexp_step (d + e)) as Hstep.
        replace (Z.succ (Z.log2 m - n) + 1 + (e + n)) with (d + e + 1) by lia.
        destruct (Z.eq_dec (f (d + e + 1)) (e + n)) as [E|E]; [by left|right].
        split; [lia|]. split; [done|lia].
      * left. assert (Z.log2 (m / 2 ^ n + 1) = Z.log2 (m / 2 ^ n)) as ->.
        { apply Z.log2_unique; [apply Z.log2_nonneg|]. lia. }
        rewrite Hlog. replace (Z.log2 m - n + 1 + (e + n)) with (d + e) by lia. lia.
  - (* everything is shifted out: the result is 0 or the smallest subnormal *)
    rewrite Z.div_small in * by lia.
    assert (d <= n) as Hdn.
    { unfold d. destruct (Z.le_gt_cases (Z.log2 m + 1) n); [done|].
      assert (2 ^ n <= 2 ^ Z.log2 m) by (apply Z.pow_le_mono_r; lia). lia. }
    destruct (round_near 0 l) as [E | E]; rewrite E in *; [lia|].
    left. change (Z.log2 (0 + 1)) with 0. unfold fexp in *. lia.
Qed.

Lemma binary_round_aux_valid s m e l :
  0 < m -> e <= f (Z.log2 m + 1 + e) ->
  valid_binary prec emax (binary_round_aux prec emax s m e l) = true.
Proof.
  intros Hm He. unfold binary_round_aux. unfold shr_fexp at 1.
  rewrite Zdigits_log2 by done. set (n := f (Z.log2 m + 1 + e) - e).
  pose proof (shr_div (shr_record_of_loc m l) e n ltac:(rewrite shr_of_loc; lia) ltac:(lia)) as [Hs1 Hs2].
  destruct (shr _ _ _) as [r e1]. cbn [fst snd] in Hs1, Hs2. rewrite shr_of_loc in Hs1. subst e1.
  assert (0 <= m / 2 ^ n) as Hq by (apply Z.div_pos; [lia|apply Z.pow_pos_nonneg; lia]).
  rewrite Hs1. apply renormalise.
  - destruct (round_near (m / 2 ^ n) (loc_of_shr_record r)) as [-> | ->]; lia.
  - intros _. unfold n, fexp. lia.
  - intros Hpos. by apply rounded_exponent; [done|done|lia|].
Qed.

Lemma log2_shift_pos p k : Z.log2 (Zpos (Pos.iter xO p k)) = Z.log2 (Zpos p) + Zpos k.
Proof.
  assert (Zpos (Pos.iter xO p k) = Zpos p * 2 ^ Zpos k) as ->.
  { rewrite <- Z.shiftl_mul_pow2 by lia. cbn. by apply Pos.iter_swap_gen. }
  rewrite Z.log2_mul_pow2 by lia. lia.
Qed.

Lemma binary_round_valid s m e : valid_binary prec emax (binary_round prec emax s m e) = true.
Proof.
  unfold binary_round, shl_align. rewrite digits_log2.
  set (k := f (Z.log2 (Zpos m) + 1 + e)).
  destruct (k - e) as [|p|p] eqn:Ek.
  - apply binary_round_aux_valid; [lia|]. fold k. lia.
  - apply binary_round_aux_valid; [lia|]. fold k. lia.
  - apply binary_round_aux_valid; [lia|]. rewrite log2_shift_pos.
    replace (Z.log2 (Zpos m) + Zpos p + 1 + k) with (Z.log2 (Zpos m) + 1 + e) by lia. done.
Qed.

Lemma binary_normalize_valid z e s :
  valid_binary prec emax (binary_normalize prec emax z e s) = true.
Proof. destruct z; [done|apply binary_round_valid..]. Qed.

End rounding.

(** What well-formedness says of a finite number. *)
Lemma bounded_spec prec emax m e :
  bounded prec emax m e = true <->
  fexp prec emax (Z.log2 (Zpos m) + 1 + e) = e /\ e <= emax - prec.
Proof.
  unfold bounded, canonical_mantissa. by rewrite digits_log2, andb_true_iff, Z.eqb_eq, Z.leb_le.
Qed.

Lemma SFmul_valid prec emax x y :
  0 < prec -> prec < emax -> 3 <= emax ->
  valid_binary prec emax x = true -> valid_binary prec emax y = true ->
  valid_binary prec emax (SFmul prec emax x y) = true.
Proof.
  intros Hp Hm H3 Hx Hy. destruct x as [sx|sx| |sx mx ex], y as [sy|sy| |sy my ey]; try done.
  cbn [valid_binary] in Hx, Hy. apply bounded_spec in Hx as [Hx _], Hy as [Hy _].
  cbn [SFmul]. apply binary_round_aux_valid; [lia..|].
  pose proof (Z.log2_mul_below (Zpos mx) (Zpos my) ltac:(lia) ltac:(lia)) as Hl.
  change (Zpos mx * Zpos my) with (Zpos (mx * my)) in Hl.
  pose proof (Z.log2_nonneg (Zpos mx)). pose proof (Z.log2_nonneg (Zpos my)).
  unfold fexp, emin in *. lia.
Qed.

Lemma SFadd_valid prec emax x y :
  0 < prec -> prec < emax ->
  valid_binary prec emax x = true -> valid_binary prec emax y = true ->
  valid_binary prec emax (SFadd prec emax x y) = true.
Proof.
  intros Hp Hm Hx Hy. destruct x as [sx|sx| |sx mx ex], y as [sy|sy| |sy my ey]; try done;
    try (by destruct sx, sy). cbn [SFadd]. by apply binary_normalize_valid.
Qed.

Lemma d_mul_valid x y : d_valid x = true -> d_valid y = true -> d_valid (d_mul x y) = true.
Proof. apply SFmul_valid; lia. Qed.
Lemma d_add_valid x y : d_valid x = true -> d_valid y = true -> d_valid (d_add x y) = true.
Proof. apply SFadd_valid; lia. Qed.
Lemma SFsub_opp prec emax x y : SFsub prec emax x y = SFadd prec emax x (SFopp y).
Proof.
  destruct x as [sx|sx| |sx mx ex], y as [sy|sy| |sy my ey]; try done; by destruct sx, sy.
Qed.
Lemma SFopp_valid prec emax x : valid_binary prec emax (SFopp x) = valid_binary prec emax x.
Proof. by destruct x. Qed.
Lemma d_sub_valid x y : d_valid x = true -> d_valid y = true -> d_valid (d_sub x y) = true.
Proof.
  intros. unfold d_sub. rewrite SFsub_opp. apply d_add_valid; [done|]. unfold d_valid. by rewrite SFopp_valid.
Qed.
Lemma d_of_int_valid z : d_valid (d_of_int z) = true.
Proof. apply binary_normalize_valid; lia. Qed.
Lemma d_max_valid x y : d_valid x = true -> d_valid y = true -> d_valid (d_max x y) = true.
Proof. unfold d_max. by destruct (d_lt x y). Qed.
Lemma d_min_valid x y : d_valid x = true -> d_valid y = true -> d_valid (d_min x y) = true.
Proof. unfold d_min. by destruct (d_lt y x). Qed.
Lemma f_of_double_valid d : f_valid (f_of_double d) = true.
Proof. destruct d; try done. by apply binary_round_valid. Qed.
#[export] Hint Resolve d_mul_valid d_add_valid d_sub_valid d_of_int_valid d_max_valid d_min_valid
  f_of_double_valid : gw.

(** ** Lemmas: comparison *)
Definition d_le (a b : double) : bool := SFleb a b.

Lemma SFcompare_opp x y : SFcompare y x = option_map CompOpp (SFcompare x y).
Proof.
  destruct x as [sx|sx| |sx mx ex], y as [sy|sy| |sy my ey]; try done;
    try (by destruct sx, sy); try (by destruct sx); try (by destruct sy).
  cbn [SFcompare option_map]. rewrite (Z.compare_antisym ex ey). f_equal.
  change (Pos.compare_cont Eq my mx) with (Pos.compare my mx).
  change (Pos.compare_cont Eq mx my) with (Pos.compare mx my).
  rewrite (Pos.compare_antisym mx my).
  destruct sx, sy; try done; destruct (ex ?= ey); try done;
    by rewrite ?CompOpp_involutive.
Qed.

Lemma SFcompare_nan x y : SFcompare x y = None <-> is_nan x = true \/ is_nan y = true.
Proof.
  destruct x as [sx|sx| |sx mx ex], y as [sy|sy| |sy my ey]; split; cbn; intros;
    destruct_or?; auto; done.
Qed.

Lemma SFcompare_refl x : is_nan x = false -> SFcompare x x = Some Eq.
Proof.
  destruct x as [sx|sx| |sx mx ex]; [by destruct sx..|done|]. intros _.
  cbn [SFcompare]. rewrite Z.compare_refl. change (Pos.compare_cont Eq mx mx) with (Pos.compare mx mx).
  rewrite Pos.compare_refl. by destruct sx.
Qed.

Lemma d_le_refl x : is_nan x = false -> d_le x x = true.
Proof. intros H. unfold d_le, SFleb. by rewrite SFcompare_refl. Qed.

Lemma d_lt_le x y : d_lt x y = true -> d_le x y = true.
Proof. unfold d_lt, d_le, SFltb, SFleb. by destruct (SFcompare x y) as [[]|]. Qed.

Lemma d_lt_not_le x y :
  is_nan x = false -> is_nan y = false -> d_lt x y = negb (d_le y x).
Proof.
  intros Hx Hy. unfold d_lt, d_le, SFltb, SFleb. rewrite (SFcompare_opp x y).
  destruct (SFcompare x y) as [c|] eqn:E; [by destruct c|].
  apply SFcompare_nan in E. destruct E; congruence.
Qed.

Lemma d_le_not_nan x y : d_le x y = true -> is_nan x = false /\ is_nan y = false.
Proof.
  unfold d_le, SFleb. destruct (SFcompare x y) eqn:E; [|done]. intros _.
  destruct (is_nan x) eqn:Ex, (is_nan y) eqn:Ey; try done;
    assert (SFcompare x y = None) by (apply SFcompare_nan; auto); congruence.
Qed.

Lemma d_lt_nan x y : is_nan x = true \/ is_nan y = true -> d_lt x y = false.
Proof. intros H. unfold d_lt, SFltb. by rewrite (proj2 (SFcompare_nan x y) H). Qed.

(** [max(lo, min(hi, x))] lies between the bounds whatever [x] is, a NaN
    included, and is [x] when [x] does. *)
Lemma clamp_spec lo hi x :
  d_le lo hi = true ->
  let c := d_max lo (d_min hi x) in
  d_le lo c = true /\ d_le c hi = true /\ (c = lo \/ c = hi \/ c = x)
  /\ (d_lt lo x = true -> d_lt x hi = true -> c = x).
Proof.
  intros Hlh. destruct (d_le_not_nan lo hi Hlh) as [Hnl Hnh].
  pose proof (d_le_refl lo Hnl). pose proof (d_le_refl hi Hnh).
  cbn. unfold d_max, d_min. destruct (d_lt x hi) eqn:Exh.
  - pose proof (d_lt_le _ _ Exh). destruct (d_lt lo x) eqn:Elx.
    + pose proof (d_lt_le _ _ Elx). auto 10.
    + split_and!; auto. done.
  - destruct (d_lt lo hi) eqn:Elh; split_and!; auto; done.
Qed.

(** ** Lemmas: the 32 bits *)
Lemma f_valid_finite s m e :
  f_valid (S754_finite s m e) = true ->
  -149 <= e <= 104 /\ Zpos m < 0x1000000 /\ (Zpos m < 0x800000 -> e = -149).
Proof.
  intros Hv. apply bounded_spec in Hv as [Hv He]. unfold fexp, emin in Hv.
  pose proof (Z.log2_spec (Zpos m) ltac:(lia)) as [Hlo Hhi].
  assert (Z.log2 (Zpos m) <= 23) as Hl by lia.
  assert (2 ^ Z.succ (Z.log2 (Zpos m)) <= 2 ^ 24) by (apply Z.pow_le_mono_r; lia).
  split_and!; [lia|lia|lia|].
  intros Hs. destruct (Z.eq_dec (Z.log2 (Zpos m)) 23) as [E|]; [rewrite E in Hlo; lia|lia].
Qed.

Lemma f_bits_range f : f_valid f = true -> is_u32 (f_bits f).
Proof.
  destruct f as [s|s| |s m e]; intros Hv; [by destruct s..|done|].
  apply f_valid_finite in Hv as (He & Hm & Hs). unfold f_bits, f_sign, is_u32.
  destruct (Z.ltb_spec (Zpos m) 0x800000), s; lia.
Qed.

Lemma f_bits_roundtrip f : f_valid f = true -> f_of_bits (f_bits f) = f.
Proof.
  destruct f as [s|s| |s m e]; intros Hv; [by destruct s..|done|].
  apply f_valid_finite in Hv as (He & Hm & Hs). unfold f_of_bits, f_bits.
  destruct (Z.ltb_spec (Zpos m) 0x800000) as [Hsub|Hnorm].
  - rewrite (Hs Hsub). set (b := f_sign s + Zpos m).
    assert ((0x80000000 <=? b) = s) as -> by (unfold b, f_sign; destruct s; lia).
    assert (b / 0x800000 mod 256 = 0) as -> by (unfold b, f_sign; destruct s; zlia).
    assert (b mod 0x800000 = Zpos m) as -> by (unfold b, f_sign; destruct s; zlia).
    done.
  - set (b := f_sign s + (e + 150) * 0x800000 + (Zpos m - 0x800000)).
    assert ((0x80000000 <=? b) = s) as -> by (unfold b, f_sign; destruct s; lia).
    assert (b / 0x800000 mod 256 = e + 150) as -> by (unfold b, f_sign; destruct s; zlia).
    assert (b mod 0x800000 = Zpos m - 0x800000) as -> by (unfold b, f_sign; destruct s; zlia).
    rewrite (proj2 (Z.eqb_neq _ _)), (proj2 (Z.eqb_neq _ _)) by lia.
    replace (Zpos m - 0x800000 + 0x800000) with (Zpos m) by lia. f_equal. lia.
Qed.
