(* ===== verification/Rounding.v ===== *)
(** * The error of IEEE 754 arithmetic

    What the operations of [Floats] compute, in terms of exact arithmetic on
    the rationals: [rounds x y] says that the number [y] is a rounding of the
    rational [x] - between any two representable numbers that [x] is between,
    and within half a unit in the last place of it.  Multiplication,
    addition, division and the conversions round the exact result. *)

From Stdlib Require Import SpecFloat QArith Qpower Qabs Qminmax Lqa.
From S2P Require Import Prelude Floats.
#[local] Open Scope Q_scope.

(** [lra] where integer numerals are injected. *)
Ltac qlra :=
  repeat match goal with
  | |- context [inject_Z (Zpos ?p)] => change (inject_Z (Zpos p)) with (Zpos p # 1)
  | |- context [inject_Z (Zneg ?p)] => change (inject_Z (Zneg p)) with (Zneg p # 1)
  | |- context [inject_Z Z0] => change (inject_Z Z0) with 0
  | H : context [inject_Z (Zpos ?p)] |- _ => change (inject_Z (Zpos p)) with (Zpos p # 1) in H
  | H : context [inject_Z (Zneg ?p)] |- _ => change (inject_Z (Zneg p)) with (Zneg p # 1) in H
  | H : context [inject_Z Z0] |- _ => change (inject_Z Z0) with 0 in H
  end; lra.

(** ** Values *)
Definition pow2 (e : Z) : Q := 2 ^ e.
Definition dyadic (m e : Z) : Q := inject_Z m * pow2 e.

Definition val (x : spec_float) : Q :=
  match x with
  | S754_finite s m e => dyadic (if s then Zneg m else Zpos m) e
  | _ => 0
  end.

Definition is_finite (x : spec_float) : bool :=
  match x with
  | S754_zero _ | S754_finite _ _ _ => true
  | _ => false
  end.

(** A number of [prec] bits whose exponent is not below [emin]. *)
Definition representable (prec emax : Z) (h : Q) : Prop :=
  exists m e : Z, (Z.abs m < 2 ^ prec)%Z /\ (emin prec emax <= e)%Z /\ h == dyadic m e.

Record rounds (prec emax : Z) (x : Q) (y : spec_float) : Prop := mk_rounds {
  rounds_finite : is_finite y = true;
  rounds_le h : representable prec emax h -> x <= h -> val y <= h;
  rounds_ge h : representable prec emax h -> h <= x -> h <= val y;
  rounds_error : Qabs (val y - x) <= Qabs x * pow2 (- prec) + pow2 (emin prec emax - 1)
}.

(** ** Lemmas: dyadic numbers *)
Lemma pow2_pos e : 0 < pow2 e.
Proof. by apply Qpower_0_lt. Qed.

Lemma pow2_add a b : pow2 (a + b) == pow2 a * pow2 b.
Proof. by apply Qpower_plus. Qed.

Lemma pow2_le a b : (a <= b)%Z -> pow2 a <= pow2 b.
Proof. intros. by apply Qpower_le_compat_l. Qed.

Lemma pow2_Z n : (0 <= n)%Z -> inject_Z (2 ^ n) == pow2 n.
Proof. intros. by rewrite Zpower_Qpower. Qed.

Lemma pow2_succ e : pow2 (e + 1) == 2 * pow2 e.
Proof. rewrite pow2_add. change (pow2 1) with 2. ring. Qed.

Lemma pow2_pred e : pow2 e == 2 * pow2 (e - 1).
Proof. rewrite <- pow2_succ. by replace (e - 1 + 1)%Z with e by lia. Qed.

Lemma dyadic_shift m e n : (0 <= n)%Z -> dyadic (m * 2 ^ n) e == dyadic m (e + n).
Proof. intros. unfold dyadic. rewrite inject_Z_mult, pow2_Z, pow2_add by done. ring. Qed.

Lemma dyadic_le m n e : (m <= n)%Z -> dyadic m e <= dyadic n e.
Proof.
  intros H. rewrite Zle_Qle in H. unfold dyadic. apply Qmult_le_compat_r; [done|].
  apply Qlt_le_weak, pow2_pos.
Qed.

Lemma dyadic_lt_inv m n e : dyadic m e < dyadic n e -> (m < n)%Z.
Proof.
  intros H. destruct (Z.lt_ge_cases m n) as [|Hge]; [done|].
  apply (dyadic_le _ _ e) in Hge. lra.
Qed.

Lemma dyadic_succ m e : dyadic (m + 1) e == dyadic m e + pow2 e.
Proof. unfold dyadic. rewrite inject_Z_plus. ring. Qed.

Lemma dyadic_le_inv m n e : dyadic m e <= dyadic n e -> (m <= n)%Z.
Proof.
  intros H. destruct (Z.le_gt_cases m n) as [|Hgt]; [done|].
  assert (dyadic (n + 1) e <= dyadic m e) by (apply dyadic_le; lia).
  pose proof (dyadic_succ n e). pose proof (pow2_pos e). lra.
Qed.

Lemma dyadic_opp m e : dyadic (- m) e == - dyadic m e.
Proof. unfold dyadic. rewrite inject_Z_opp. ring. Qed.

Lemma dyadic_mul m e n k : dyadic m e * dyadic n k == dyadic (m * n) (e + k).
Proof. unfold dyadic. rewrite inject_Z_mult, pow2_add. ring. Qed.

Lemma dyadic_log2 m e :
  (0 < m)%Z -> pow2 (Z.log2 m + e) <= dyadic m e /\ dyadic m e < pow2 (Z.log2 m + 1 + e).
Proof.
  intros Hm. destruct (Z.log2_spec m Hm) as [Hlo Hhi]. pose proof (Z.log2_nonneg m).
  pose proof (pow2_pos e). pose proof (pow2_Z (Z.log2 m) ltac:(lia)) as H1.
  pose proof (pow2_Z (Z.log2 m + 1) ltac:(lia)) as H2.
  rewrite Zle_Qle, H1 in Hlo. rewrite Zlt_Qlt in Hhi. change (Z.succ (Z.log2 m)) with (Z.log2 m + 1)%Z in Hhi.
  rewrite H2 in Hhi. rewrite !(pow2_add _ e). unfold dyadic. split.
  - apply Qmult_le_compat_r; [done|lra].
  - by apply Qmult_lt_compat_r.
Qed.

(** ** Lemmas: what is shifted out *)

(** [x] lies on the side [c] of [y]. *)
Definition side (c : comparison) (x y : Q) : Prop :=
  match c with Lt => x < y | Eq => x == y | Gt => y < x end.

(** [x] is the truncation [m * 2^e] with the rest located by [l]. *)
Definition inbetween (m e : Z) (x : Q) (l : location) : Prop :=
  match l with
  | loc_Exact => x == dyadic m e
  | loc_Inexact c => dyadic m e < x /\ x < dyadic (m + 1) e /\ side c x (dyadic (2 * m + 1) (e - 1))
  end.

Lemma inbetween_range m e x l :
  inbetween m e x l -> dyadic m e <= x /\ x < dyadic (m + 1) e.
Proof.
  rewrite dyadic_succ. pose proof (pow2_pos e). destruct l as [|c]; cbn.
  - intros. split; lra.
  - rewrite dyadic_succ. intros (? & ? & _). split; lra.
Qed.

(** Everything in units of half the place. *)
Lemma dyadic_half m e : dyadic m e == 2 * (inject_Z m * pow2 (e - 1)).
Proof. unfold dyadic. rewrite pow2_pred. ring. Qed.

Lemma dyadic_odd m e : dyadic (2 * m + 1) e == 2 * (inject_Z m * pow2 e) + pow2 e.
Proof. rewrite dyadic_succ. unfold dyadic. rewrite inject_Z_mult. change (inject_Z 2) with 2. ring. Qed.

Lemma shr_1_inbetween r e x :
  (0 <= shr_m r)%Z ->
  inbetween (shr_m r) e x (loc_of_shr_record r) ->
  inbetween (shr_m (shr_1 r)) (e + 1) x (loc_of_shr_record (shr_1 r)).
Proof.
  intros Hm Hx.
  assert (exists k b c, shr_m r = (2 * k + (if b : bool then 1 else 0))%Z
    /\ shr_1 r = Build_shr_record k b c /\ c = shr_r r || shr_s r) as (k & b & c & Hk & Hr & Hc).
  { destruct r as [m r s]; cbn in *.
    destruct m as [|[p|p|]|]; [exists 0%Z, false|exists (Zpos p), true|exists (Zpos p), false|exists 0%Z, true|lia];
      eexists; split_and!; try done; lia. }
  rewrite Hr. rewrite Hk in Hx. clear Hk Hr Hm. destruct r as [m r s]; cbn [shr_m shr_r shr_s] in *.
  set (p := pow2 (e - 1)). assert (0 < p) by apply pow2_pos.
  assert (pow2 e == 2 * p) as P1 by apply pow2_pred.
  assert (pow2 (e + 1) == 4 * p) as P2 by (rewrite pow2_succ; lra).
  set (q := inject_Z k * p).
  assert (dyadic k (e + 1) == 4 * q) as D1 by (unfold dyadic; rewrite P2; unfold q; ring).
  assert (dyadic (k + 1) (e + 1) == 4 * q + 4 * p) as D2 by (rewrite dyadic_succ; lra).
  assert (dyadic (2 * k) e == 4 * q) as D3
    by (unfold dyadic; rewrite inject_Z_mult, P1; unfold q; change (inject_Z 2) with 2; ring).
  assert (dyadic (2 * k + 1) e == 4 * q + 2 * p) as D4 by (rewrite dyadic_succ; lra).
  assert (dyadic (2 * k + 1 + 1) e == 4 * q + 4 * p) as D5 by (rewrite dyadic_succ; lra).
  assert (dyadic (2 * (2 * k)) (e - 1) == 4 * q) as D6
    by (unfold dyadic; rewrite !inject_Z_mult; change (pow2 (e - 1)) with p; unfold q; change (inject_Z 2) with 2; ring).
  assert (dyadic (2 * (2 * k) + 1) (e - 1) == 4 * q + p) as D7 by (rewrite dyadic_succ; change (pow2 (e - 1)) with p; lra).
  assert (dyadic (2 * (2 * k + 1) + 1) (e - 1) == 4 * q + 3 * p) as D8.
  { replace (2 * (2 * k + 1) + 1)%Z with (2 * (2 * k) + 1 + 1 + 1)%Z by lia.
    rewrite !dyadic_succ; change (pow2 (e - 1)) with p. lra. }
  assert (dyadic (2 * k + 1) (e + 1 - 1) == 4 * q + 2 * p) as D9
    by (by replace (e + 1 - 1)%Z with e by lia).
  rewrite Hc. destruct b, r, s; cbn [orb loc_of_shr_record inbetween side] in *;
    rewrite ?Z.add_0_r in Hx; destruct_and?; split_and?; lra.
Qed.

Lemma shr_inbetween r e x n :
  (0 <= shr_m r)%Z -> (0 <= n)%Z ->
  inbetween (shr_m r) e x (loc_of_shr_record r) ->
  inbetween (shr_m (shr r e n).1) (e + n) x (loc_of_shr_record (shr r e n).1).
Proof.
  intros Hr Hn Hx. destruct n as [|p|p]; [by rewrite Z.add_0_r| |lia].
  cbn [shr fst]. rewrite iter_pos_nat. replace (Zpos p) with (Z.of_nat (Pos.to_nat p)) by lia.
  assert ((0 <= shr_m (Nat.iter (Pos.to_nat p) shr_1 r))%Z
    /\ inbetween (shr_m (Nat.iter (Pos.to_nat p) shr_1 r)) (e + Z.of_nat (Pos.to_nat p)) x
         (loc_of_shr_record (Nat.iter (Pos.to_nat p) shr_1 r))) as [_ ?]; [|done].
  induction (Pos.to_nat p) as [|k [IH1 IH2]]; [by rewrite Z.add_0_r|]. rewrite Nat.iter_succ. split.
  - rewrite shr_1_half by done. apply Z.div_pos; lia.
  - replace (e + Z.of_nat (S k))%Z with (e + Z.of_nat k + 1)%Z by lia. by apply shr_1_inbetween.
Qed.

Lemma loc_of_record_of_loc m l : loc_of_shr_record (shr_record_of_loc m l) = l.
Proof. by destruct l as [|[]]. Qed.

(** The nearest integer is within half a place, and both it and [x] are
    between [m] and [m + 1] places. *)
Lemma nearest m e x l :
  inbetween m e x l ->
  let m' := round_nearest_even m l in
  Qabs (dyadic m' e - x) <= pow2 (e - 1).
Proof.
  intros Hx. cbv zeta. pose proof (pow2_pos (e - 1)). pose proof (pow2_pred e).
  pose proof (dyadic_succ m e).
  assert (dyadic (2 * m + 1) (e - 1) == dyadic m e + pow2 (e - 1)) as Hmid.
  { rewrite dyadic_succ. replace (2 * m)%Z with (m * 2 ^ 1)%Z by lia. rewrite dyadic_shift by lia.
    by replace (e - 1 + 1)%Z with e by lia. }
  apply Qabs_Qle_condition. destruct l as [|[]]; cbn [inbetween side round_nearest_even] in *;
    try (destruct (Z.even m)); destruct_and?; split; lra.
Qed.

Lemma nearest_le m e x l n :
  inbetween m e x l -> x <= dyadic n e -> (round_nearest_even m l <= n)%Z.
Proof.
  intros Hx Hn. destruct l as [|c]; cbn [inbetween] in Hx.
  - cbn. apply (dyadic_le_inv _ _ e). lra.
  - destruct Hx as (Hlo & _). assert (m < n)%Z by (apply (dyadic_lt_inv _ _ e); lra).
    destruct (round_near m (loc_Inexact c)); lia.
Qed.

Lemma nearest_ge m e x l n :
  inbetween m e x l -> dyadic n e <= x -> (n <= round_nearest_even m l)%Z.
Proof.
  intros Hx%inbetween_range Hn.
  assert (n < m + 1)%Z by (apply (dyadic_lt_inv _ _ e); lra).
  destruct (round_near m l); lia.
Qed.

(** ** Lemmas: rounding *)
Definition sgn (s : bool) : Q := if s then -1 else 1.

Lemma pow2_lt_inv a b : pow2 a < pow2 b -> (a < b)%Z.
Proof.
  intros H. destruct (Z.lt_ge_cases a b) as [|Hge]; [done|]. apply pow2_le in Hge. lra.
Qed.

Lemma pow2_le_inv a b : pow2 a <= pow2 b -> (a <= b)%Z.
Proof.
  intros H. destruct (Z.le_gt_cases a b) as [|Hgt]; [done|].
  pose proof (pow2_succ b). pose proof (pow2_pos b).
  assert (pow2 (b + 1) <= pow2 a) by (apply pow2_le; lia). lra.
Qed.

Lemma dyadic_pow2 n e : (0 <= n)%Z -> dyadic (2 ^ n) e == pow2 (n + e).
Proof. intros. unfold dyadic. by rewrite pow2_Z, pow2_add. Qed.

Lemma dyadic_pos m e : (0 < m)%Z -> 0 < dyadic m e.
Proof. intros Hm. pose proof (pow2_pos (Z.log2 m + e)). destruct (dyadic_log2 m e Hm). lra. Qed.

Lemma dyadic_0 e : dyadic 0 e == 0.
Proof. unfold dyadic. change (inject_Z 0) with 0. ring. Qed.

Lemma dyadic_nonneg m e : (0 <= m)%Z -> 0 <= dyadic m e.
Proof. intros Hm. apply (dyadic_le _ _ e) in Hm. rewrite dyadic_0 in Hm. done. Qed.

Lemma val_finite s m e : val (S754_finite s m e) == sgn s * dyadic (Zpos m) e.
Proof. destruct s; cbn [val sgn]; [change (Zneg m) with (- Zpos m)%Z; rewrite dyadic_opp|]; lra. Qed.

Section rounding.
Context (prec emax : Z) (Hprec : (0 < prec)%Z) (Hmax : (prec < emax)%Z) (H2 : (2 <= emax)%Z).

Local Abbreviation f := (fexp prec emax).

(** The second normalisation does not change the value. *)
Lemma renormalise_val s m e :
  (0 <= m)%Z -> (m = 0 -> emin prec emax <= e)%Z ->
  (0 < m -> f (Z.log2 m + 1 + e) = e
     \/ (f (Z.log2 m + 1 + e) = e + 1 /\ m = 2 ^ Z.log2 m /\ 0 < Z.log2 m))%Z ->
  (0 < m -> f (Z.log2 m + 1 + e) <= emax - prec)%Z ->
  let y :=
    let '(r, e2) := shr_fexp prec emax m e loc_Exact in
    match shr_m r with
    | Z0 => S754_zero s
    | Zpos m => if Z.leb e2 (Z.sub emax prec) then S754_finite s m e2 else S754_infinity s
    | _ => S754_nan
    end in
  is_finite y = true /\ val y == sgn s * dyadic m e.
Proof.
  intros Hm H0 Hpos Hb. cbv zeta. unfold shr_fexp. cbn [shr_record_of_loc].
  destruct (decide (m = 0)%Z) as [->|Hne].
  { specialize (H0 eq_refl). rewrite shr_neg by (cbn; unfold fexp; lia). cbn [shr_m is_finite val].
    split; [done|]. rewrite dyadic_0. lra. }
  specialize (Hpos ltac:(lia)). specialize (Hb ltac:(lia)). rewrite Zdigits_log2 by lia.
  assert (forall m' e', (0 < m')%Z -> (e' <= emax - prec)%Z ->
    is_finite match m' with
      | Z0 => S754_zero s
      | Zpos m => if Z.leb e' (Z.sub emax prec) then S754_finite s m e' else S754_infinity s
      | _ => S754_nan
      end = true
    /\ val match m' with
      | Z0 => S754_zero s
      | Zpos m => if Z.leb e' (Z.sub emax prec) then S754_finite s m e' else S754_infinity s
      | _ => S754_nan
      end == sgn s * dyadic m' e') as Hok.
  { intros [|p|p] e' Hp' He'; try lia. rewrite (proj2 (Z.leb_le _ _)) by done.
    split; [done|]. apply val_finite. }
  destruct Hpos as [He | (He & Hpow & Hlog)]; rewrite He in *.
  - rewrite shr_neg by lia. cbn [shr_m]. apply Hok; lia.
  - replace (e + 1 - e)%Z with 1%Z by lia. cbn [shr SpecFloat.iter_pos].
    rewrite shr_1_half by (cbn; lia). cbn [shr_m].
    assert (m = m / 2 * 2 ^ 1)%Z as Hhalf.
    { assert (m mod 2 = 0)%Z by (rewrite Hpow; replace (Z.log2 m) with (Z.succ (Z.log2 m - 1)) by lia;
        rewrite Z.pow_succ_r, Z.mul_comm by lia; apply Z.mod_mul; lia). zlia. }
    assert (dyadic m e == dyadic (m / 2) (e + 1)) as -> by (by rewrite <- dyadic_shift, <- Hhalf by lia).
    apply Hok; lia.
Qed.

Lemma representable_opp h : representable prec emax h -> representable prec emax (- h).
Proof.
  intros (m & e & Hm & He & Hh). exists (- m)%Z, e. rewrite Z.abs_opp.
  split_and!; [done..|]. rewrite dyadic_opp. lra.
Qed.

Lemma dyadic_grid m e e' : (e' <= e)%Z -> dyadic m e == dyadic (m * 2 ^ (e - e')) e'.
Proof. intros. rewrite dyadic_shift by lia. by replace (e' + (e - e'))%Z with e by lia. Qed.

Lemma dyadic_bound m e : (Z.abs m < 2 ^ prec)%Z -> dyadic m e < pow2 (prec + e).
Proof.
  intros Hm. rewrite <- dyadic_pow2 by lia. pose proof (dyadic_succ m e). pose proof (pow2_pos e).
  assert (dyadic (m + 1) e <= dyadic (2 ^ prec) e) by (apply dyadic_le; lia). lra.
Qed.

Lemma dyadic_pos_inv m e : 0 < dyadic m e -> (0 < m)%Z.
Proof. intros H. apply (dyadic_lt_inv _ _ e). by rewrite dyadic_0. Qed.

(** Rounding to a multiple of [pow2 e1] passes no representable number, when
    [e1] is the exponent for a number of at least [pow2 d]. *)
Lemma nearest_representable k e1 x l d :
  inbetween k e1 x l -> pow2 d <= x -> e1 = Z.max (d + 1 - prec) (emin prec emax) ->
  (forall h, representable prec emax h -> x <= h -> dyadic (round_nearest_even k l) e1 <= h)
  /\ (forall h, representable prec emax h -> h <= x -> h <= dyadic (round_nearest_even k l) e1).
Proof.
  intros Hin Hdx He1. assert (emin prec emax = 3 - emax - prec)%Z as Hemin by done.
  split; intros h (mh & eh & Hmh & Heh & Hh) Hxh.
  - pose proof (dyadic_bound mh eh Hmh). assert (d < prec + eh)%Z by (apply pow2_lt_inv; lra).
    rewrite (dyadic_grid mh eh e1) in Hh by lia. rewrite Hh.
    apply dyadic_le, (nearest_le k e1 x); [done|lra].
  - destruct (Z.le_gt_cases e1 eh).
    + rewrite (dyadic_grid mh eh e1) in Hh by lia. rewrite Hh.
      apply dyadic_le, (nearest_ge k e1 x); [done|lra].
    + pose proof (dyadic_bound mh eh Hmh).
      assert (pow2 (prec + eh) <= pow2 (prec - 1 + e1)) by (apply pow2_le; lia).
      rewrite <- (dyadic_pow2 (prec - 1) e1) in * by lia.
      assert (dyadic (2 ^ (prec - 1)) e1 <= dyadic (round_nearest_even k l) e1); [|lra].
      apply dyadic_le, (nearest_ge k e1 x); [done|].
      rewrite dyadic_pow2 by lia. by replace (prec - 1 + e1)%Z with d by lia.
Qed.

(** Rounding a positive number. *)
Lemma binary_round_aux_pos s m e l x :
  (0 < m)%Z -> (e <= f (Z.log2 m + 1 + e))%Z -> inbetween m e x l -> x <= pow2 (emax - 1) ->
  exists v,
    is_finite (binary_round_aux prec emax s m e l) = true
    /\ val (binary_round_aux prec emax s m e l) == sgn s * v
    /\ (forall h, representable prec emax h -> x <= h -> v <= h)
    /\ (forall h, representable prec emax h -> h <= x -> h <= v)
    /\ Qabs (v - x) <= x * pow2 (- prec) + pow2 (emin prec emax - 1).
Proof.
  intros Hm He Hx Hov. destruct (inbetween_range m e x l Hx) as [Hxlo Hxhi].
  destruct (dyadic_log2 m e Hm) as [Hlo Hhi]. set (d := (Z.log2 m)%Z) in *.
  assert (pow2 (d + e) <= x) as Hdx by lra.
  assert (d + e <= emax - 1)%Z as Hde by (apply pow2_le_inv; lra).
  set (y := binary_round_aux prec emax s m e l). assert (y = binary_round_aux prec emax s m e l) as Hy by done.
  clearbody y. unfold binary_round_aux in Hy. unfold shr_fexp at 1 in Hy.
  rewrite Zdigits_log2 in Hy by done. fold d in Hy.
  set (n := (f (d + 1 + e) - e)%Z) in *.
  pose proof (shr_div (shr_record_of_loc m l) e n ltac:(rewrite shr_of_loc; lia) ltac:(lia)) as [Hs1 Hs2].
  pose proof (shr_inbetween (shr_record_of_loc m l) e x n) as Hs3.
  rewrite shr_of_loc, loc_of_record_of_loc in Hs3. specialize (Hs3 ltac:(lia) ltac:(lia) Hx).
  destruct (shr _ _ _) as [r e1]. cbn [fst snd] in Hs1, Hs2, Hs3. rewrite shr_of_loc in Hs1. subst e1.
  rewrite Hs1 in Hs3, Hy. set (k := (m / 2 ^ n)%Z) in *. set (l' := loc_of_shr_record r) in *.
  set (e1 := (e + n)%Z) in *.
  assert (e1 = Z.max (d + 1 + e - prec) (emin prec emax)) as He1 by (unfold e1, n, fexp; lia).
  assert (emin prec emax = 3 - emax - prec)%Z as Hemin by done.
  pose proof (nearest k e1 x l' Hs3) as Herr. set (m' := round_nearest_even k l') in *.
  destruct (nearest_representable k e1 x l' (d + e) Hs3 Hdx) as [Hle Hge]; [lia|]. fold m' in Hle, Hge.
  exists (dyadic m' e1). apply and_assoc. split; [|split_and!; [done|done|]].
  - rewrite Hy. apply renormalise_val.
    + unfold m', k. destruct (round_near (m / 2 ^ n) l') as [-> | ->];
        assert (0 <= m / 2 ^ n)%Z by (apply Z.div_pos; [lia|apply Z.pow_pos_nonneg; lia]); lia.
    + lia.
    + intros Hpos. apply rounded_exponent; [lia|done|done|unfold n; lia|done].
    + intros Hpos. assert (dyadic m' e1 <= pow2 (emax - 1)) as Hb.
      { apply Hle; [|done]. exists 1%Z, (emax - 1)%Z. split_and!; [|lia|unfold dyadic; change (inject_Z 1) with 1; lra].
        apply (Z.pow_gt_1 2 prec); lia. }
      destruct (dyadic_log2 m' e1 Hpos) as [Hlo' _].
      assert (Z.log2 m' + e1 <= emax - 1)%Z by (apply pow2_le_inv; lra). unfold fexp. lia.
  - eapply Qle_trans; [exact Herr|].
    pose proof (pow2_pos (emin prec emax - 1)). pose proof (pow2_pos (- prec)). pose proof (pow2_pos (d + e)).
    destruct (Z.max_spec (d + 1 + e - prec) (emin prec emax)) as [[_ E]|[_ E]]; rewrite E in He1; rewrite He1.
    + assert (0 <= x * pow2 (- prec)) by (apply Qmult_le_0_compat; lra). lra.
    + replace (d + 1 + e - prec - 1)%Z with (d + e + - prec)%Z by lia. rewrite pow2_add.
      assert (pow2 (d + e) * pow2 (- prec) <= x * pow2 (- prec)) by (apply Qmult_le_compat_r; lra). lra.
Qed.

Lemma sgn_abs s v : Qabs (sgn s * v) == Qabs v.
Proof. destruct s; cbn [sgn]; rewrite Qabs_Qmult; change (Qabs (-1)) with 1; change (Qabs 1) with 1; ring. Qed.

#[global] Instance rounds_proper : Proper (Qeq ==> eq ==> iff) (rounds prec emax).
Proof.
  assert (forall x x' y, x == x' -> rounds prec emax x y -> rounds prec emax x' y) as Hone.
  { intros x x' y E [Hf Hle Hge He]. split; [done| | |by rewrite <- E].
    - intros h Hh Hx. apply Hle; [done|by rewrite E].
    - intros h Hh Hx. apply Hge; [done|by rewrite E]. }
  intros x x' E y y' <-. split; apply Hone; [done|by symmetry].
Qed.

Lemma binary_round_aux_rounds s m e l x :
  (0 < m)%Z -> (e <= f (Z.log2 m + 1 + e))%Z -> inbetween m e x l -> x <= pow2 (emax - 1) ->
  rounds prec emax (sgn s * x) (binary_round_aux prec emax s m e l).
Proof.
  intros Hm He Hx Hov.
  destruct (binary_round_aux_pos s m e l x Hm He Hx Hov) as (v & Hfin & Hv & Hle & Hge & Herr).
  assert (0 < x) by (pose proof (dyadic_pos m e Hm); apply inbetween_range in Hx; lra).
  split; [done| | |].
  - intros h Hh Hxh. rewrite Hv. destruct s; cbn [sgn] in *.
    + specialize (Hge (- h) (representable_opp h Hh) ltac:(lra)). lra.
    + specialize (Hle h Hh ltac:(lra)). lra.
  - intros h Hh Hxh. rewrite Hv. destruct s; cbn [sgn] in *.
    + specialize (Hle (- h) (representable_opp h Hh) ltac:(lra)). lra.
    + specialize (Hge h Hh ltac:(lra)). lra.
  - rewrite Hv, sgn_abs, (Qabs_pos x) by lra.
    assert (sgn s * v - sgn s * x == sgn s * (v - x)) as -> by ring. by rewrite sgn_abs.
Qed.

Lemma rounds_zero s : rounds prec emax 0 (S754_zero s).
Proof.
  split; cbn [is_finite val]; [done|done|done|].
  change (Qabs (0 - 0)) with 0. change (Qabs 0) with 0. pose proof (pow2_pos (emin prec emax - 1)). lra.
Qed.

(** ** Lemmas: the operations *)
Lemma binary_round_rounds s m e :
  dyadic (Zpos m) e <= pow2 (emax - 1) ->
  rounds prec emax (sgn s * dyadic (Zpos m) e) (binary_round prec emax s m e).
Proof.
  intros Hov. unfold binary_round, shl_align. rewrite digits_log2.
  set (k := f (Z.log2 (Zpos m) + 1 + e)).
  destruct (k - e)%Z as [|p|p] eqn:Ek; [apply binary_round_aux_rounds; fold k; lia || done..|].
  assert (Zpos (Pos.iter xO m p) = Zpos m * 2 ^ Zpos p)%Z as Hsh.
  { rewrite <- Z.shiftl_mul_pow2 by lia. cbn. by apply Pos.iter_swap_gen. }
  apply binary_round_aux_rounds; [lia| | |done].
  - rewrite log2_shift_pos.
    replace (Z.log2 (Zpos m) + Zpos p + 1 + k)%Z with (Z.log2 (Zpos m) + 1 + e)%Z by lia. done.
  - cbn [inbetween]. rewrite Hsh, dyadic_shift by lia. by replace (k + Zpos p)%Z with e by lia.
Qed.

Lemma binary_normalize_rounds z e s :
  Qabs (dyadic z e) <= pow2 (emax - 1) ->
  rounds prec emax (dyadic z e) (binary_normalize prec emax z e s).
Proof.
  intros Hov. destruct z as [|m|m].
  - rewrite dyadic_0. apply rounds_zero.
  - rewrite Qabs_pos in Hov by (apply dyadic_nonneg; lia).
    rewrite <- (Qmult_1_l (dyadic _ _)). by apply (binary_round_rounds false).
  - change (Zneg m) with (- Zpos m)%Z in *. rewrite dyadic_opp, Qabs_opp, Qabs_pos in Hov by (apply dyadic_nonneg; lia).
    assert (dyadic (- Zpos m) e == -1 * dyadic (Zpos m) e) as -> by (rewrite dyadic_opp; ring).
    by apply (binary_round_rounds true).
Qed.

End rounding.

Section operations.
Context (prec emax : Z) (Hprec : (0 < prec)%Z) (Hmax : (prec < emax)%Z) (H3 : (3 <= emax)%Z).

Local Abbreviation f := (fexp prec emax).

Lemma val_representable y :
  valid_binary prec emax y = true -> is_finite y = true -> representable prec emax (val y).
Proof.
  intros Hv Hf. destruct y as [s|s| |s m e]; try done.
  - exists 0%Z, (emin prec emax). split_and!; [|lia|by rewrite dyadic_0]. cbn. lia.
  - cbn [valid_binary] in Hv. apply bounded_spec in Hv as [Hv _].
    exists (if s then Zneg m else Zpos m), e. split_and!; [|unfold fexp in Hv; lia|done].
    assert (Zpos m < 2 ^ prec)%Z by (apply Z.log2_lt_pow2; unfold fexp in Hv; lia).
    by destruct s.
Qed.

Lemma rounds_val y :
  valid_binary prec emax y = true -> is_finite y = true -> rounds prec emax (val y) y.
Proof.
  intros Hv Hf. split; [done|done|done|].
  assert (val y - val y == 0) as -> by ring. change (Qabs 0) with 0.
  pose proof (pow2_pos (emin prec emax - 1)). pose proof (pow2_pos (- prec)).
  pose proof (Qabs_nonneg (val y)).
  assert (0 <= Qabs (val y) * pow2 (- prec)) by (apply Qmult_le_0_compat; lra). lra.
Qed.

(** A representable number is rounded to itself. *)
Lemma rounds_exact x y : rounds prec emax x y -> representable prec emax x -> val y == x.
Proof. intros [_ Hle Hge _] Hx. specialize (Hle x Hx). specialize (Hge x Hx). lra. Qed.

Lemma sgn_xorb a b : sgn (xorb a b) == sgn a * sgn b.
Proof. by destruct a, b. Qed.

Lemma sgn_dyadic s m e : Qabs (sgn s * dyadic (Zpos m) e) == dyadic (Zpos m) e.
Proof. rewrite sgn_abs. apply Qabs_pos, dyadic_nonneg. lia. Qed.

Lemma SFmul_rounds x y :
  valid_binary prec emax x = true -> valid_binary prec emax y = true ->
  is_finite x = true -> is_finite y = true ->
  Qabs (val x * val y) <= pow2 (emax - 1) ->
  rounds prec emax (val x * val y) (SFmul prec emax x y).
Proof.
  intros Hvx Hvy Hx Hy Hov.
  destruct x as [sx|sx| |sx mx ex], y as [sy|sy| |sy my ey]; try done; cbn [SFmul];
    try (cbn [val]; rewrite ?Qmult_0_l, ?Qmult_0_r; apply rounds_zero).
  assert (val (S754_finite sx mx ex) * val (S754_finite sy my ey)
          == sgn (xorb sx sy) * dyadic (Zpos (mx * my)) (ex + ey)) as E.
  { rewrite !val_finite, sgn_xorb, Pos2Z.inj_mul, <- dyadic_mul. ring. }
  rewrite E in *. rewrite sgn_dyadic in Hov.
  apply binary_round_aux_rounds; try lia; try done.
  cbn [valid_binary] in Hvx, Hvy. apply bounded_spec in Hvx as [Hx' _], Hvy as [Hy' _].
  pose proof (Z.log2_mul_below (Zpos mx) (Zpos my) ltac:(lia) ltac:(lia)) as Hl.
  change (Zpos mx * Zpos my)%Z with (Zpos (mx * my)) in Hl.
  pose proof (Z.log2_nonneg (Zpos mx)). pose proof (Z.log2_nonneg (Zpos my)).
  unfold fexp, emin in *. lia.
Qed.

Lemma shl_align_val m e e' :
  (e' <= e)%Z -> dyadic (Zpos (shl_align m e e').1) e' == dyadic (Zpos m) e.
Proof.
  intros He. unfold shl_align. destruct (e' - e)%Z as [|p|p] eqn:Ep; [|lia|]; cbn [fst].
  - by replace e' with e by lia.
  - assert (Zpos (Pos.iter xO m p) = Zpos m * 2 ^ Zpos p)%Z as ->.
    { rewrite <- Z.shiftl_mul_pow2 by lia. cbn. by apply Pos.iter_swap_gen. }
    rewrite dyadic_shift by lia. by replace (e' + Zpos p)%Z with e by lia.
Qed.

Lemma cond_Zopp_val s z e : dyadic (cond_Zopp s z) e == sgn s * dyadic z e.
Proof. destruct s; cbn [cond_Zopp sgn]; rewrite ?dyadic_opp; ring. Qed.

Lemma dyadic_add m n e : dyadic (m + n) e == dyadic m e + dyadic n e.
Proof. unfold dyadic. rewrite inject_Z_plus. ring. Qed.

Lemma SFadd_rounds x y :
  valid_binary prec emax x = true -> valid_binary prec emax y = true ->
  is_finite x = true -> is_finite y = true ->
  Qabs (val x + val y) <= pow2 (emax - 1) ->
  rounds prec emax (val x + val y) (SFadd prec emax x y).
Proof.
  intros Hvx Hvy Hx Hy Hov.
  destruct x as [sx|sx| |sx mx ex], y as [sy|sy| |sy my ey]; try done; cbn [SFadd].
  - cbn [val]. rewrite Qplus_0_l. destruct sx, sy; apply rounds_zero.
  - cbn [val]. rewrite Qplus_0_l. by apply (rounds_val (S754_finite sy my ey)).
  - cbn [val]. rewrite Qplus_0_r. by apply (rounds_val (S754_finite sx mx ex)).
  - set (ez := (ex `min` ey)%Z).
    assert (val (S754_finite sx mx ex) + val (S754_finite sy my ey)
      == dyadic (cond_Zopp sx (Zpos (shl_align mx ex ez).1) + cond_Zopp sy (Zpos (shl_align my ey ez).1)) ez) as E.
    { rewrite dyadic_add, !cond_Zopp_val, !shl_align_val, !val_finite by lia. done. }
    rewrite E in *. apply binary_normalize_rounds; [done|done|lia|done].
Qed.

(** *** Division *)
Lemma new_location_compare n r :
  (0 <= r < n)%Z ->
  new_location n r = if (r =? 0)%Z then loc_Exact else loc_Inexact (2 * r ?= n)%Z.
Proof.
  intros Hr. unfold new_location, new_location_even, new_location_odd.
  destruct (Z.even n) eqn:En; [done|]. destruct (Z.eqb_spec r 0); [done|]. f_equal.
  assert (n mod 2 = 1)%Z by (rewrite Zmod_even, En; done).
  destruct (Z.compare_spec (2 * r + 1) n), (Z.compare_spec (2 * r) n); try done; zlia.
Qed.

(** A quotient and remainder locate the exact quotient [x]. *)
Lemma quotient_inbetween a b e x :
  (0 <= a)%Z -> (0 < b)%Z -> x * inject_Z b == dyadic a e ->
  inbetween (a / b) e x (new_location b (a mod b)).
Proof.
  intros Ha Hb Hx. set (q := (a / b)%Z). set (r := (a mod b)%Z).
  assert (a = b * q + r)%Z as Ediv by (apply Z_div_mod_eq_full).
  assert (0 <= r < b)%Z as Hr by (by apply Z.mod_pos_bound).
  rewrite new_location_compare by done.
  set (p := pow2 e) in *. assert (0 < p) by apply pow2_pos.
  assert (p == 2 * pow2 (e - 1)) as Hp by apply pow2_pred.
  set (B := inject_Z b) in *. set (R := inject_Z r). set (u := x - dyadic q e).
  assert (0 < B) as HB by (change 0 with (inject_Z 0); unfold B; by rewrite <- Zlt_Qlt).
  assert (u * B == R * p) as Hu.
  { unfold u, dyadic in *. fold p in Hx |- *. rewrite Ediv, inject_Z_plus, inject_Z_mult in Hx.
    fold B R in Hx. assert ((x - inject_Z q * p) * B == x * B - inject_Z q * p * B) as -> by ring.
    rewrite Hx. ring. }
  assert (dyadic (2 * q + 1) (e - 1) == dyadic q e + pow2 (e - 1)) as Hmid.
  { rewrite dyadic_succ. replace (2 * q)%Z with (q * 2 ^ 1)%Z by lia. rewrite dyadic_shift by lia.
    by replace (e - 1 + 1)%Z with e by lia. }
  assert (x == dyadic q e + u) as Hxu by (unfold u; ring).
  destruct (Z.eqb_spec r 0) as [Hr0|Hr0]; cbn [inbetween].
  - assert (R == 0) as HR by (unfold R; by rewrite Hr0). rewrite HR in Hu. assert (u == 0) by nra. lra.
  - assert (0 < R) as HR by (change 0 with (inject_Z 0); unfold R; rewrite <- Zlt_Qlt; lia).
    assert (R < B) as HRB by (unfold R, B; rewrite <- Zlt_Qlt; lia).
    rewrite dyadic_succ. fold p. split; [|split]; [nra|nra|].
    destruct (Z.compare_spec (2 * r) b) as [Hc|Hc|Hc]; cbn [side].
    + assert (2 * R == B) by (unfold R, B; rewrite <- Hc, inject_Z_mult; reflexivity). nra.
    + assert (2 * R < B) by (unfold R, B; change 2 with (inject_Z 2); rewrite <- inject_Z_mult, <- Zlt_Qlt; done). nra.
    + assert (B < 2 * R) by (unfold R, B; change 2 with (inject_Z 2); rewrite <- inject_Z_mult, <- Zlt_Qlt; done). nra.
Qed.

(** The integer quotient of significands, shifted by [s], keeps enough bits. *)
Lemma quotient_bits (m1 m2 s : Z) :
  (0 < m1 -> 0 < m2 -> 0 <= s -> 0 < prec -> prec <= Z.log2 m1 - Z.log2 m2 + s ->
   2 ^ (Z.log2 m1 - Z.log2 m2 + s - 1) <= m1 * 2 ^ s / m2)%Z.
Proof.
  intros H1 Hm2 Hs Hp Hb. apply Z.div_le_lower_bound; [lia|].
  destruct (Z.log2_spec m1) as [Hlo1 _]; [lia|]. destruct (Z.log2_spec m2) as [_ Hhi2]; [lia|].
  pose proof (Z.log2_nonneg m1). pose proof (Z.log2_nonneg m2).
  set (d1 := Z.log2 m1) in *. set (d2 := Z.log2 m2) in *.
  assert (2 ^ d1 * 2 ^ s <= m1 * 2 ^ s)%Z by (apply Z.mul_le_mono_nonneg_r; lia).
  rewrite <- Z.pow_add_r in * by lia.
  replace (d1 + s)%Z with (Z.succ d2 + (d1 - d2 + s - 1))%Z in * by lia.
  rewrite Z.pow_add_r in * by lia. nia.
Qed.

(** The integer quotient with its remainder locates the exact one. *)
Lemma scaled_quotient m1 m2 e1 e2 s :
  (0 < m1)%Z -> (0 < m2)%Z -> (0 <= s)%Z ->
  inbetween (m1 * 2 ^ s / m2) (e1 - e2 - s) (dyadic m1 e1 / dyadic m2 e2)
    (new_location m2 ((m1 * 2 ^ s) mod m2)).
Proof.
  intros H1 Hm2 Hs. pose proof (Z.pow_pos_nonneg 2 s). assert (0 < dyadic m2 e2) as Hb by (by apply dyadic_pos).
  apply quotient_inbetween; [nia|done|]. rewrite dyadic_shift by lia.
  replace (e1 - e2 - s + s)%Z with (e1 - e2)%Z by lia.
  assert (dyadic m1 e1 == dyadic m1 (e1 - e2) * pow2 e2) as ->.
  { unfold dyadic. rewrite <- Qmult_assoc, <- pow2_add. by replace (e1 - e2 + e2)%Z with e1 by lia. }
  unfold dyadic in *. pose proof (pow2_pos e2). field. split; [lra|].
  intros E. rewrite E in Hb. lra.
Qed.

Lemma SFdiv_rounds x y :
  is_finite x = true -> is_finite y = true -> ~ val y == 0 ->
  pow2 (emin prec emax) <= Qabs (val x / val y) -> Qabs (val x / val y) <= pow2 (emax - 1) ->
  rounds prec emax (val x / val y) (SFdiv prec emax x y).
Proof.
  intros Hx Hy Hy0 Hund Hov.
  destruct y as [sy|sy| |sy m2 e2]; try done.
  destruct x as [sx|sx| |sx m1 e1]; try done.
  { exfalso. pose proof (pow2_pos (emin prec emax)). cbn [val] in Hund. unfold Qdiv in Hund.
    rewrite Qmult_0_l in Hund. change (Qabs 0) with 0 in Hund. lra. }
  set (a := dyadic (Zpos m1) e1). set (b := dyadic (Zpos m2) e2).
  assert (0 < a) by (apply dyadic_pos; lia). assert (0 < b) by (apply dyadic_pos; lia).
  assert (val (S754_finite sx m1 e1) / val (S754_finite sy m2 e2) == sgn (xorb sx sy) * (a / b)) as E.
  { rewrite !val_finite, sgn_xorb. fold a b. destruct sx, sy; cbn [sgn]; field; lra. }
  rewrite E in *. assert (0 < a / b) by (by apply Qlt_shift_div_l; lra).
  rewrite sgn_abs, Qabs_pos in Hund, Hov by lra.
  cbn [SFdiv]. unfold SFdiv_core_binary.
  rewrite !Zdigits_log2 by lia. set (d1 := Z.log2 (Zpos m1)). set (d2 := Z.log2 (Zpos m2)).
  set (e' := Z.min (f (d1 + 1 + e1 - (d2 + 1 + e2))) (e1 - e2)). set (s := (e1 - e2 - e')%Z).
  assert (0 <= s)%Z as Hs by (unfold s; lia).
  assert (match s with Zpos _ => Z.shiftl (Zpos m1) s | Z0 => Zpos m1 | Zneg _ => Z0 end
          = Zpos m1 * 2 ^ s)%Z as ->.
  { destruct s eqn:Es; [lia| |lia]. rewrite Z.shiftl_mul_pow2 by lia. done. }
  set (m' := (Zpos m1 * 2 ^ s)%Z). assert (0 < m')%Z by (unfold m'; pose proof (Z.pow_pos_nonneg 2 s); lia).
  rewrite (surjective_pairing (Z.div_eucl m' (Zpos m2))).
  change (Z.div_eucl m' (Zpos m2)).1 with (m' / Zpos m2)%Z.
  change (Z.div_eucl m' (Zpos m2)).2 with (m' mod Zpos m2)%Z.
  assert (inbetween (m' / Zpos m2) e' (a / b) (new_location (Zpos m2) (m' mod Zpos m2))) as Hin.
  { replace e' with (e1 - e2 - s)%Z by (unfold s; lia). by apply scaled_quotient. }
  assert (e' <= emin prec emax \/ (emin prec emax < e' /\ prec <= d1 - d2 + s /\ 2 ^ (d1 - d2 + s - 1) <= m' / Zpos m2))%Z as He.
  { destruct (Z.le_gt_cases e' (emin prec emax)); [by left|right].
    assert (prec <= d1 - d2 + s)%Z by (unfold s, e', fexp in *; lia).
    split_and!; [lia..|]. by apply quotient_bits. }
  assert (0 < m' / Zpos m2)%Z as Hq.
  { destruct He as [He|(_ & He & He2)]; [|pose proof (Z.pow_pos_nonneg 2 (d1 - d2 + s - 1)); lia].
    destruct (inbetween_range _ _ _ _ Hin) as [_ Hhi]. apply pow2_le in He.
    assert (dyadic 1 e' < dyadic (m' / Zpos m2 + 1) e') as Hlt%dyadic_lt_inv; [|lia].
    unfold dyadic at 1. change (inject_Z 1) with 1. lra. }
  apply binary_round_aux_rounds; try lia; try done.
  destruct He as [He|(_ & He & He2)]; [unfold fexp; lia|].
  apply Z.log2_le_mono in He2. rewrite Z.log2_pow2 in He2 by lia. unfold e' at 1. unfold fexp.
  unfold s in *. lia.
Qed.

End operations.

(** ** Lemmas: [double] and [float] *)
Lemma Qcompare_opp a b : (- a ?= - b) = CompOpp (a ?= b).
Proof.
  destruct (Qcompare_spec a b); cbn [CompOpp];
    [rewrite <- Qeq_alt|rewrite <- Qgt_alt|rewrite <- Qlt_alt]; lra.
Qed.

Lemma SFcompare_val prec emax x y :
  (0 < prec)%Z -> valid_binary prec emax x = true -> valid_binary prec emax y = true ->
  is_finite x = true -> is_finite y = true ->
  SFcompare x y = Some (val x ?= val y).
Proof.
  intros Hp Hvx Hvy Hx Hy.
  assert (forall m e m' e', bounded prec emax m e = true -> bounded prec emax m' e' = true ->
    (e < e')%Z -> dyadic (Zpos m) e < dyadic (Zpos m') e') as Hexp.
  { intros m e m' e' Hb%bounded_spec Hb'%bounded_spec Hlt.
    destruct Hb as [Hb _], Hb' as [Hb' _]. unfold fexp in *.
    destruct (dyadic_log2 (Zpos m) e ltac:(lia)) as [_ Hhi].
    destruct (dyadic_log2 (Zpos m') e' ltac:(lia)) as [Hlo _].
    assert (pow2 (Z.log2 (Zpos m) + 1 + e) <= pow2 (Z.log2 (Zpos m') + e')) by (apply pow2_le; lia). lra. }
  assert (forall m e m' e', bounded prec emax m e = true -> bounded prec emax m' e' = true ->
    (dyadic (Zpos m) e ?= dyadic (Zpos m') e')
    = match (e ?= e')%Z with Lt => Lt | Gt => Gt | Eq => Pos.compare m m' end) as Hpos.
  { intros m e m' e' Hb Hb'. destruct (Z.compare_spec e e') as [->|Hlt|Hlt].
    - destruct (Pos.compare_spec m m') as [->|Hm|Hm].
      + by rewrite <- Qeq_alt.
      + rewrite <- Qlt_alt. unfold dyadic. apply Qmult_lt_compat_r; [apply pow2_pos|].
        rewrite <- Zlt_Qlt. lia.
      + rewrite <- Qgt_alt. unfold dyadic. apply Qmult_lt_compat_r; [apply pow2_pos|].
        rewrite <- Zlt_Qlt. lia.
    - rewrite <- Qlt_alt. by apply Hexp.
    - rewrite <- Qgt_alt. by apply Hexp. }
  assert (forall m e, 0 < dyadic (Zpos m) e) as H0 by (intros; apply dyadic_pos; lia).
  assert (forall m e, dyadic (Zneg m) e < 0) as H1.
  { intros m e. change (Zneg m) with (- Zpos m)%Z. rewrite dyadic_opp. pose proof (H0 m e). lra. }
  destruct x as [sx|sx| |sx mx ex], y as [sy|sy| |sy my ey]; try done; cbn [SFcompare val]; symmetry; f_equal.
  - destruct sy; [apply Qgt_alt, H1|apply Qlt_alt, H0].
  - destruct sx; [apply Qlt_alt, H1|apply Qgt_alt, H0].
  - destruct sx, sy.
    + change (Zneg mx) with (- Zpos mx)%Z. change (Zneg my) with (- Zpos my)%Z.
      rewrite !dyadic_opp, Qcompare_opp, Hpos by done.
      change (Pos.compare_cont Eq mx my) with (Pos.compare mx my). by destruct (ex ?= ey)%Z.
    + rewrite <- Qlt_alt. pose proof (H1 mx ex). pose proof (H0 my ey). lra.
    + rewrite <- Qgt_alt. pose proof (H0 mx ex). pose proof (H1 my ey). lra.
    + by rewrite Hpos.
Qed.

Lemma d_lt_val x y :
  d_valid x = true -> d_valid y = true -> is_finite x = true -> is_finite y = true ->
  d_lt x y = true <-> val x < val y.
Proof.
  intros Hvx Hvy Hx Hy. unfold d_lt, SFltb. rewrite (SFcompare_val 53 1024) by done.
  destruct (Qcompare_spec (val x) (val y)); split; intros; try done; exfalso; lra.
Qed.

Definition Qclamp (lo hi x : Q) : Q := Qmax lo (Qmin hi x).

#[export] Instance Qclamp_proper : Proper (Qeq ==> Qeq ==> Qeq ==> Qeq) Qclamp.
Proof. intros a a' Ha b b' Hb x x' Hx. unfold Qclamp. by rewrite Ha, Hb, Hx. Qed.

Lemma d_max_val x y :
  d_valid x = true -> d_valid y = true -> is_finite x = true -> is_finite y = true ->
  is_finite (d_max x y) = true /\ val (d_max x y) == Qmax (val x) (val y).
Proof.
  intros Hvx Hvy Hx Hy. pose proof (d_lt_val x y Hvx Hvy Hx Hy) as Hlt. unfold d_max.
  destruct (d_lt x y).
  - split; [done|]. symmetry. apply Q.max_r. apply Qlt_le_weak. by apply Hlt.
  - split; [done|]. symmetry. apply Q.max_l. apply Qnot_lt_le. intros H%Hlt. done.
Qed.

Lemma d_min_val x y :
  d_valid x = true -> d_valid y = true -> is_finite x = true -> is_finite y = true ->
  is_finite (d_min x y) = true /\ val (d_min x y) == Qmin (val x) (val y).
Proof.
  intros Hvx Hvy Hx Hy. pose proof (d_lt_val y x Hvy Hvx Hy Hx) as Hlt. unfold d_min.
  destruct (d_lt y x).
  - split; [done|]. symmetry. apply Q.min_r. apply Qlt_le_weak. by apply Hlt.
  - split; [done|]. symmetry. apply Q.min_l. apply Qnot_lt_le. intros H%Hlt. done.
Qed.

Lemma Qclamp_close lo hi x y d : Qabs (x - y) <= d -> Qabs (Qclamp lo hi x - Qclamp lo hi y) <= d.
Proof.
  rewrite !Qabs_Qle_condition. unfold Qclamp.
  destruct (Q.min_spec hi x) as [[? ->]|[? ->]], (Q.min_spec hi y) as [[? ->]|[? ->]];
    repeat match goal with |- context [Qmax ?a ?b] => destruct (Q.max_spec a b) as [[? ->]|[? ->]] end;
    intros []; split; lra.
Qed.

Lemma d_of_int_val z : (Z.abs z < 2 ^ 53)%Z -> is_finite (d_of_int z) = true /\ val (d_of_int z) == inject_Z z.
Proof.
  intros Hz. assert (dyadic z 0 == inject_Z z) as E by (unfold dyadic; change (pow2 0) with 1; ring).
  assert (rounds 53 1024 (dyadic z 0) (d_of_int z)) as Hr.
  { apply binary_normalize_rounds; [lia..|].
    assert (Qabs (dyadic z 0) <= pow2 53) as Hb.
    { rewrite E. apply Qabs_Qle_condition. rewrite <- (pow2_Z 53), <- inject_Z_opp, <- !Zle_Qle by lia. lia. }
    pose proof (pow2_le 53 1023 ltac:(lia)). change (1024 - 1)%Z with 1023%Z. lra. }
  split; [apply Hr|]. rewrite <- E. apply (rounds_exact 53 1024); [done|].
  exists z, 0%Z. split_and!; [done|done|done].
Qed.

Lemma f_of_double_rounds d :
  is_finite d = true -> Qabs (val d) <= pow2 127 -> rounds 24 128 (val d) (f_of_double d).
Proof.
  intros Hf Hov. destruct d as [s|s| |s m e]; try discriminate Hf; cbn [f_of_double].
  - apply rounds_zero.
  - rewrite val_finite in *. rewrite sgn_dyadic in Hov. by apply binary_round_rounds.
Qed.

Lemma d_trunc_val d :
  is_finite d = true -> 0 <= val d ->
  exists z, d_trunc d = Some z /\ (0 <= z)%Z /\ inject_Z z <= val d /\ val d < inject_Z z + 1.
Proof.
  intros Hf Hd. destruct d as [s|s| |s m e]; try done; cbn [d_trunc].
  - exists 0%Z. split_and!; [done|done|done|done].
  - assert (s = false) as ->.
    { destruct s; [|done]. pose proof (dyadic_pos (Zpos m) e ltac:(lia)). rewrite val_finite in Hd.
      cbn [sgn] in Hd. lra. }
    eexists. split; [done|]. cbn [val]. destruct (Z.le_gt_cases 0 e) as [He|He].
    + rewrite Z.shiftl_mul_pow2 by done. split; [pose proof (Z.pow_pos_nonneg 2 e); lia|].
      rewrite inject_Z_mult, pow2_Z by done. unfold dyadic. split; lra.
    + assert (Z.shiftl (Zpos m) e = Zpos m / 2 ^ (- e))%Z as ->
        by (by rewrite <- Z.shiftr_div_pow2, Z.shiftr_opp_r by lia).
      set (b := (2 ^ (- e))%Z). assert (0 < b)%Z by (apply Z.pow_pos_nonneg; lia).
      pose proof (Z_div_mod_eq_full (Zpos m) b) as Hdiv. pose proof (Z.mod_pos_bound (Zpos m) b ltac:(lia)) as Hmod.
      split; [apply Z.div_pos; lia|]. set (q := (Zpos m / b)%Z) in *.
      assert (pow2 e * inject_Z b == 1) as Hpb.
      { unfold b. rewrite pow2_Z, <- pow2_add by lia. by replace (e + - e)%Z with 0%Z by lia. }
      pose proof (pow2_pos e) as Hp0. unfold dyadic.
      assert (inject_Z (Zpos m) == inject_Z b * inject_Z q + inject_Z (Zpos m mod b)) as ->
        by (by rewrite <- inject_Z_mult, <- inject_Z_plus, <- Hdiv).
      assert ((inject_Z b * inject_Z q + inject_Z (Zpos m mod b)) * pow2 e
              == inject_Z q + inject_Z (Zpos m mod b) * pow2 e) as ->.
      { rewrite Qmult_plus_distr_l. rewrite (Qmult_comm (inject_Z b)), <- Qmult_assoc, (Qmult_comm (inject_Z b)), Hpb. ring. }
      assert (0 <= inject_Z (Zpos m mod b)) by (change 0 with (inject_Z 0); rewrite <- Zle_Qle; lia).
      assert (inject_Z (Zpos m mod b) < inject_Z b) by (rewrite <- Zlt_Qlt; lia).
      assert (0 <= inject_Z (Zpos m mod b) * pow2 e) by (apply Qmult_le_0_compat; lra).
      assert (inject_Z (Zpos m mod b) * pow2 e < inject_Z b * pow2 e) by (by apply Qmult_lt_compat_r).
      assert (inject_Z b * pow2 e == 1) by (by rewrite Qmult_comm). split; lra.
Qed.

Lemma unsigned_of_double_val bits d n :
  is_finite d = true -> 0 <= val d -> val d < inject_Z n -> (n <= 2 ^ bits)%Z ->
  exists z, unsigned_of_double bits d = Ok z /\ (0 <= z < n)%Z /\ inject_Z z <= val d /\ val d < inject_Z z + 1.
Proof.
  intros Hf Hd Hn Hb. destruct (d_trunc_val d Hf Hd) as (z & Ht & Hz & Hlo & Hhi).
  assert (z < n)%Z by (rewrite Zlt_Qlt; lra). exists z. unfold unsigned_of_double. rewrite Ht.
  rewrite (proj2 (Z.leb_le _ _)), (proj2 (Z.ltb_lt _ _)) by lia. done.
Qed.

(** *** Error bounds *)
Lemma Qabs_le x d : Qabs x <= d <-> - d <= x /\ x <= d.
Proof. apply Qabs_Qle_condition. Qed.

(** What a rounding in [double] or [float] costs. *)
Lemma d_rounds_error x y B :
  rounds 53 1024 x y -> Qabs x <= B -> Qabs (val y - x) <= B * pow2 (-53) + pow2 (-1075).
Proof.
  intros [_ _ _ He] HB. change (emin 53 1024 - 1)%Z with (-1075)%Z in He.
  pose proof (pow2_pos (-53)). change (- (53))%Z with (-53)%Z in He.
  assert (Qabs x * pow2 (-53) <= B * pow2 (-53)) by (apply Qmult_le_compat_r; lra). lra.
Qed.

Lemma f_rounds_error x y B :
  rounds 24 128 x y -> Qabs x <= B -> Qabs (val y - x) <= B * pow2 (-24) + pow2 (-150).
Proof.
  intros [_ _ _ He] HB. change (emin 24 128 - 1)%Z with (-150)%Z in He.
  pose proof (pow2_pos (-24)). change (- (24))%Z with (-24)%Z in He.
  assert (Qabs x * pow2 (-24) <= B * pow2 (-24)) by (apply Qmult_le_compat_r; lra). lra.
Qed.

Lemma d_mul_rounds x y :
  d_valid x = true -> d_valid y = true -> is_finite x = true -> is_finite y = true ->
  Qabs (val x * val y) <= pow2 1000 -> rounds 53 1024 (val x * val y) (d_mul x y).
Proof.
  intros. apply SFmul_rounds; try done; try lia.
  pose proof (pow2_le 1000 1023 ltac:(lia)). change (1024 - 1)%Z with 1023%Z. lra.
Qed.

Lemma d_add_rounds x y :
  d_valid x = true -> d_valid y = true -> is_finite x = true -> is_finite y = true ->
  Qabs (val x + val y) <= pow2 1000 -> rounds 53 1024 (val x + val y) (d_add x y).
Proof.
  intros. apply SFadd_rounds; try done; try lia.
  pose proof (pow2_le 1000 1023 ltac:(lia)). change (1024 - 1)%Z with 1023%Z. lra.
Qed.

Lemma d_div_rounds x y :
  is_finite x = true -> is_finite y = true -> ~ val y == 0 ->
  pow2 (-1000) <= Qabs (val x / val y) -> Qabs (val x / val y) <= pow2 1000 ->
  rounds 53 1024 (val x / val y) (d_div x y).
Proof.
  intros. apply SFdiv_rounds; try done; try lia.
  - pose proof (pow2_le (emin 53 1024) (-1000) ltac:(by vm_compute)). lra.
  - pose proof (pow2_le 1000 1023 ltac:(lia)). change (1024 - 1)%Z with 1023%Z. lra.
Qed.

Lemma val_opp x : val (SFopp x) == - val x.
Proof.
  destruct x as [s|s| |s m e]; try reflexivity.
  change (SFopp (S754_finite s m e)) with (S754_finite (negb s) m e). rewrite !val_finite.
  destruct s; cbn [negb sgn]; ring.
Qed.

Lemma is_finite_opp x : is_finite (SFopp x) = is_finite x.
Proof. by destruct x. Qed.

Lemma d_sub_rounds x y :
  d_valid x = true -> d_valid y = true -> is_finite x = true -> is_finite y = true ->
  Qabs (val x - val y) <= pow2 1000 -> rounds 53 1024 (val x - val y) (d_sub x y).
Proof.
  intros Hvx Hvy Hx Hy Hov. unfold d_sub. rewrite SFsub_opp.
  assert (val x - val y == val x + val (SFopp y)) as E by (rewrite val_opp; ring). rewrite E in *.
  apply (d_add_rounds x (SFopp y)); [done| |done| |done].
  - unfold d_valid. by rewrite SFopp_valid.
  - by rewrite is_finite_opp.
Qed.

Lemma int_representable z : (Z.abs z < 2 ^ 53)%Z -> representable 53 1024 (inject_Z z).
Proof.
  intros Hz. exists z, 0%Z. split_and!; [done|done|]. unfold dyadic. change (pow2 0) with 1. ring.
Qed.

(** Rounding keeps integer bounds. *)
Lemma d_rounds_between a b x y :
  rounds 53 1024 x y -> (Z.abs a < 2 ^ 53)%Z -> (Z.abs b < 2 ^ 53)%Z ->
  inject_Z a <= x -> x <= inject_Z b -> inject_Z a <= val y /\ val y <= inject_Z b.
Proof.
  intros Hr Ha Hb Hax Hxb. split.
  - apply (rounds_ge _ _ _ _ Hr); [by apply int_representable|done].
  - apply (rounds_le _ _ _ _ Hr); [by apply int_representable|done].
Qed.

Lemma int_of_double_val d :
  is_finite d = true -> 0 <= val d -> val d < inject_Z (2 ^ 31) ->
  exists z, int_of_double d = Ok z /\ (0 <= z)%Z /\ inject_Z z <= val d /\ val d < inject_Z z + 1.
Proof.
  intros Hf Hd Hn. destruct (d_trunc_val d Hf Hd) as (z & Ht & Hz & Hlo & Hhi).
  assert (z < 2 ^ 31)%Z by (rewrite Zlt_Qlt; lra). exists z. unfold int_of_double. rewrite Ht.
  rewrite (proj2 (Z.leb_le _ _)), (proj2 (Z.ltb_lt _ _)) by lia. done.
Qed.
