(* ===== verification/CppString.v ===== *)
(** * The parts of the C++ standard library the parsers use

    [std::string] is [string]; [std::getline], formatted extraction from an
    [std::istringstream] ([>>] into a string, an [unsigned int] or an
    [int]), [std::stoi], [std::stoul] and [std::stod], in the C locale.  A
    failed extraction and a thrown exception are [None]; extraction returns
    the rest of the stream. *)

From Stdlib Require Import SpecFloat Ascii.
From S2P Require Import Prelude Floats.

#[local] Open Scope string_scope.
#[local] Open Scope Z_scope.

Definition chr (n : nat) : ascii := ascii_of_nat n.
Definition ord (c : ascii) : Z := Z.of_nat (nat_of_ascii c).

Definition in_range (lo hi : Z) (c : ascii) : bool := (lo <=? ord c) && (ord c <=? hi).

(** [isspace], [isdigit], [isxdigit] in the C locale. *)
Definition is_space (c : ascii) : bool := in_range 9 13 c || (ord c =? 32).
Definition is_digit : ascii -> bool := in_range 48 57.
Definition is_xdigit (c : ascii) : bool :=
  is_digit c || in_range 65 70 c || in_range 97 102 c.

Definition digit_value (c : ascii) : Z :=
  if is_digit c then ord c - 48
  else if in_range 65 70 c then ord c - 55 else ord c - 87.

(** ** [std::string] members *)

(** The longest prefix whose characters satisfy [p], and the rest. *)
Fixpoint span (p : ascii -> bool) (s : string) : string * string :=
  match s with
  | EmptyString => ("", "")
  | String c s' => if p c then let '(a, b) := span p s' in (String c a, b) else ("", s)
  end.

Fixpoint sdrop (n : nat) (s : string) : string :=
  match n, s with
  | S n, String _ s => sdrop n s
  | _, _ => s
  end.

Fixpoint stake (n : nat) (s : string) : string :=
  match n, s with
  | S n, String c s => String c (stake n s)
  | _, _ => ""
  end.

(** [s.find(c)] *)
Fixpoint find_char (c : ascii) (s : string) : option nat :=
  match s with
  | EmptyString => None
  | String c' s' => if Ascii.eqb c c' then Some O else n ← find_char c s'; Some (S n)
  end.

(** [s.find_first_not_of(set)] *)
Fixpoint find_first_not_of (set s : string) : option nat :=
  match s with
  | EmptyString => None
  | String c s' =>
      match find_char c set with
      | None => Some O
      | Some _ => n ← find_first_not_of set s'; Some (S n)
      end
  end.

(** [s.back()] of a non-empty string, and [s.pop_back()]. *)
Fixpoint back (s : string) : option ascii :=
  match s with
  | EmptyString => None
  | String c "" => Some c
  | String _ s' => back s'
  end.

Fixpoint pop_back (s : string) : string :=
  match s with
  | EmptyString => ""
  | String _ "" => ""
  | String c s' => String c (pop_back s')
  end.

Definition front (s : string) : option ascii :=
  match s with EmptyString => None | String c _ => Some c end.

Definition has_back (c : ascii) (s : string) : bool :=
  match back s with Some c' => Ascii.eqb c' c | None => false end.
Definition has_front (c : ascii) (s : string) : bool :=
  match front s with Some c' => Ascii.eqb c' c | None => false end.

(** ** [std::getline]

    The lines of a file, without their newline; a file that ends in a
    newline has no further, empty line.  [split_lines] is the line that
    starts at the current position, if the file is not at its end, and the
    lines after it. *)
Definition newline : ascii := chr 10.

Fixpoint split_lines (s : string) : option string * list string :=
  match s with
  | EmptyString => (None, [])
  | String c s' =>
      let '(l, ls) := split_lines s' in
      if Ascii.eqb c newline
      then (Some "", match l with Some l => l :: ls | None => ls end)
      else (Some (String c (match l with Some l => l | None => "" end)), ls)
  end.

Definition getlines (s : string) : list string :=
  match split_lines s with (Some l, ls) => l :: ls | (None, ls) => ls end.

(** ** Extraction from a stream *)
Definition skip_ws (s : string) : string := (span is_space s).2.

(** [ss >> token] *)
Definition read_token (s : string) : option (string * string) :=
  match span (fun c => negb (is_space c)) (skip_ws s) with
  | (EmptyString, _) => None
  | r => Some r
  end.

(** An optional sign. *)
Definition read_sign (s : string) : bool * string :=
  match s with
  | String c s' =>
      if Ascii.eqb c "-"%char then (true, s') else if Ascii.eqb c "+"%char then (false, s') else (false, s)
  | EmptyString => (false, s)
  end.

(** The value of a string of digits. *)
Fixpoint digits_value (base acc : Z) (s : string) : Z :=
  match s with
  | EmptyString => acc
  | String c s' => digits_value base (acc * base + digit_value c) s'
  end.

(** [ss >> x] for an [unsigned int] and for an [int]. *)
Definition read_uint (s : string) : option (Z * string) :=
  let '(neg, s1) := read_sign (skip_ws s) in
  match span is_digit s1 with
  | (EmptyString, _) => None
  | (ds, rest) =>
      let v := digits_value 10 0 ds in
      if v <=? 4294967295 then Some (if neg then u32 (- v) else v, rest) else None
  end.

Definition read_int (s : string) : option (Z * string) :=
  let '(neg, s1) := read_sign (skip_ws s) in
  match span is_digit s1 with
  | (EmptyString, _) => None
  | (ds, rest) =>
      let v := if neg then - digits_value 10 0 ds else digits_value 10 0 ds in
      if (-2147483648 <=? v) && (v <=? 2147483647) then Some (v, rest) else None
  end.

(** ** [std::stoi], [std::stoul] with base 16

    Both read the longest prefix that is a number; [stoi] is the extraction
    of an [int] without the rest. *)
Definition stoi (s : string) : option Z := fst <$> read_int s.

(** A [0x] prefix counts only before a hexadecimal digit. *)
Definition skip_0x (s : string) : string :=
  match s with
  | String z (String x (String c s')) =>
      if Ascii.eqb z "0"%char && (Ascii.eqb x "x"%char || Ascii.eqb x "X"%char) && is_xdigit c
      then String c s' else s
  | _ => s
  end.

Definition stoul16 `{Target} (s : string) : option Z :=
  let '(neg, s1) := read_sign (skip_ws s) in
  match span is_xdigit (skip_0x s1) with
  | (EmptyString, _) => None
  | (ds, _) =>
      let v := digits_value 16 0 ds in
      if v <? 2 ^ size_bits then Some (if neg then sz (- v) else v) else None
  end.

(** ** [std::stod] *)

(** The double nearest to [num / den], ties to even: the quotient is taken
    to at least 60 bits with a sticky bit for the remainder. *)
Definition d_of_ratio (sign : bool) (num den : Z) : double :=
  if num <=? 0 then S754_zero sign
  else
    let k := 60 + Z.log2 den - Z.log2 num in
    let n := num * 2 ^ Z.max k 0 in
    let d := den * 2 ^ Z.max (- k) 0 in
    match 2 * (n / d) + (if n mod d =? 0 then 0 else 1) with
    | Zpos m => binary_round 53 1024 sign m (- k - 1)
    | _ => S754_zero sign
    end.

(** Whether that double is exactly [num / den]. *)
Definition d_exact (num den : Z) (d : double) : bool :=
  match d with
  | S754_zero _ => num =? 0
  | S754_finite _ m e =>
      if 0 <=? e then Zpos m * 2 ^ e * den =? num else Zpos m * den =? num * 2 ^ (- e)
  | _ => false
  end.

(** [ERANGE]: the result overflows, or it is below the normal range and not
    exact. *)
Definition d_range_error (num den : Z) (d : double) : bool :=
  match d with
  | S754_infinity _ => true
  | S754_zero _ => negb (num =? 0)
  | S754_finite _ m e => (Zpos m <? 2 ^ 52) && negb (d_exact num den d)
  | S754_nan => false
  end.

(** Digits with an optional point, in a base: the digits' value and the
    number of digits after the point. *)
Definition read_mantissa (digit : ascii -> bool) (base : Z) (s : string)
  : option (Z * Z * string) :=
  let '(ip, s1) := span digit s in
  let '(fp, s2) :=
    match s1 with
    | String c s1' => if Ascii.eqb c "."%char then span digit s1' else ("", s1)
    | EmptyString => ("", s1)
    end in
  match ip ++ fp with
  | EmptyString => None
  | ds => Some (digits_value base 0 ds, Z.of_nat (String.length fp), s2)
  end.

(** An exponent after one of the two letters given; without digits it does
    not count. *)
Definition read_exponent (lower upper : ascii) (s : string) : Z :=
  match s with
  | String c s' =>
      if Ascii.eqb c lower || Ascii.eqb c upper then
        let '(neg, s1) := read_sign s' in
        match span is_digit s1 with
        | (EmptyString, _) => 0
        | (ds, _) => if neg then - digits_value 10 0 ds else digits_value 10 0 ds
        end
      else 0
  | EmptyString => 0
  end.

Definition finish (sign : bool) (m base e : Z) : option double :=
  let num := if 0 <=? e then m * base ^ e else m in
  let den := if 0 <=? e then 1 else base ^ (- e) in
  let d := d_of_ratio sign num den in
  if d_range_error num den d then None else Some d.

Definition to_lower (c : ascii) : ascii :=
  if in_range 65 90 c then chr (Z.to_nat (ord c + 32)) else c.

(** Whether [s] starts with the lower-case word [w] in any case. *)
Fixpoint starts_with_nocase (w s : string) : bool :=
  match w, s with
  | EmptyString, _ => true
  | String a w, String b s => Ascii.eqb a (to_lower b) && starts_with_nocase w s
  | _, EmptyString => false
  end.

Definition stod (s : string) : option double :=
  let '(neg, s1) := read_sign (skip_ws s) in
  if starts_with_nocase "inf" s1 then Some (S754_infinity neg)
  else if starts_with_nocase "nan" s1 then Some S754_nan
  else
    let hex :=
      if starts_with_nocase "0x" s1 then read_mantissa is_xdigit 16 (sdrop 2 s1) else None in
    match hex with
    | Some (m, frac, rest) => finish neg m 2 (read_exponent "p"%char "P"%char rest - 4 * frac)
    | None =>
        '(m, frac, rest) ← read_mantissa is_digit 10 s1;
        finish neg m 10 (read_exponent "e"%char "E"%char rest - frac)
    end.

(** ** Printing numbers

    The texts a generator of configuration and database files writes:
    decimal numbers and four hexadecimal digits after [0x]. *)
Definition digit_char (d : Z) : ascii :=
  if d <? 10 then chr (Z.to_nat (48 + d)) else chr (Z.to_nat (87 + d)).

Fixpoint print_acc (fuel : nat) (base n : Z) (acc : string) : string :=
  match fuel with
  | O => acc
  | S fuel =>
      if n <? base then String (digit_char n) acc
      else print_acc fuel base (n / base) (String (digit_char (n mod base)) acc)
  end.

(** Enough for any number below [10 ^ 20]. *)
Definition print_dec (n : Z) : string := print_acc 20 10 n "".

Definition print_hex4 (n : Z) : string :=
  String "0"%char (String "x"%char
    (String (digit_char (n / 4096 mod 16)) (String (digit_char (n / 256 mod 16))
      (String (digit_char (n / 16 mod 16)) (String (digit_char (n mod 16)) ""))))).

(** ** Lemmas *)
Module CppStringFacts.
#[local] Arguments String.append : simpl nomatch.

Fixpoint all (p : ascii -> bool) (s : string) : bool :=
  match s with EmptyString => true | String c s => p c && all p s end.

Definition stops (p : ascii -> bool) (s : string) : Prop :=
  match s with EmptyString => True | String c _ => p c = false end.

Lemma span_app p a s : all p a = true -> stops p s -> span p (a ++ s) = (a, s).
Proof.
  intros Ha Hs. induction a as [|c a IH]; cbn in *.
  - destruct s as [|c s]; [done|]. cbn in *. by rewrite Hs.
  - apply andb_true_iff in Ha as [-> Ha]. by rewrite IH.
Qed.

Lemma all_app p a b : all p (a ++ b) = all p a && all p b.
Proof. induction a as [|c a IH]; [done|]. cbn. by rewrite IH, andb_assoc. Qed.

Lemma all_mono (p q : ascii -> bool) s :
  (forall c, p c = true -> q c = true) -> all p s = true -> all q s = true.
Proof.
  intros H. induction s as [|c s IH]; [done|]. cbn. rewrite !andb_true_iff. naive_solver.
Qed.

Lemma string_app_assoc a b c : (a ++ b) ++ c = a ++ (b ++ c).
Proof. induction a as [|x a IH]; [done|]. cbn. by rewrite IH. Qed.
Lemma string_app_nil s : s ++ "" = s.
Proof. induction s as [|c s IH]; [done|]. cbn. by rewrite IH. Qed.

Lemma digits_value_app base acc a b :
  digits_value base acc (a ++ b) = digits_value base (digits_value base acc a) b.
Proof. revert acc. induction a as [|c a IH]; intros acc; [done|]. cbn. apply IH. Qed.

(** A property of sixteen digits, by cases. *)
Lemma digit_cases (P : Z -> Prop) d :
  0 <= d < 16 -> Forall P [0;1;2;3;4;5;6;7;8;9;10;11;12;13;14;15] -> P d.
Proof.
  intros Hd Hall. rewrite List.Forall_forall in Hall. apply Hall. cbn. lia.
Qed.

Ltac by_digits := apply digit_cases; [lia|]; repeat constructor.

Lemma digit_char_value d : 0 <= d < 16 -> digit_value (digit_char d) = d.
Proof. intros Hd. revert d Hd. intros d Hd. pattern d. by_digits. Qed.
Lemma digit_char_xdigit d : 0 <= d < 16 -> is_xdigit (digit_char d) = true.
Proof. intros Hd. pattern d. by_digits. Qed.

Lemma digit_char_digit d : 0 <= d < 10 -> is_digit (digit_char d) = true.
Proof.
  intros Hd. assert (d < 10 -> is_digit (digit_char d) = true) as H; [|apply H; lia].
  pattern d. apply digit_cases; [lia|].
  repeat (apply Forall_cons_2; [first [intros _; reflexivity | intros Hx; exfalso; lia]|]).
  apply Forall_nil_2.
Qed.

Lemma print_acc_value fuel : forall base n acc,
  1 < base <= 16 -> 0 <= n < base ^ Z.of_nat fuel ->
  digits_value base 0 (print_acc fuel base n acc) = digits_value base n acc.
Proof.
  induction fuel as [|fuel IH]; intros base n acc Hb Hn; cbn [print_acc].
  - cbn in Hn. by replace n with 0 by lia.
  - destruct (Z.ltb_spec n base) as [Hs|Hs].
    + cbn. by rewrite digit_char_value by lia.
    + pose proof (Z.mod_pos_bound n base ltac:(lia)).
      assert (0 <= n / base < base ^ Z.of_nat fuel).
      { split; [apply Z.div_pos; lia|]. apply Z.div_lt_upper_bound; [lia|].
        rewrite Nat2Z.inj_succ, Z.pow_succ_r in Hn by lia. lia. }
      rewrite IH by done. cbn. rewrite digit_char_value by lia.
      f_equal. pose proof (Z.div_mod n base ltac:(lia)). lia.
Qed.

Lemma print_acc_digits fuel : forall n acc,
  0 <= n -> all is_digit acc = true -> all is_digit (print_acc fuel 10 n acc) = true.
Proof.
  induction fuel as [|fuel IH]; intros n acc Hn Ha; [done|]. cbn [print_acc].
  destruct (Z.ltb_spec n 10).
  - cbn. by rewrite digit_char_digit by lia.
  - apply IH; [apply Z.div_pos; lia|]. cbn. rewrite digit_char_digit by zlia. done.
Qed.

Lemma print_acc_nonempty fuel base n acc :
  (0 < fuel)%nat -> print_acc fuel base n acc <> "".
Proof.
  assert (forall fuel n acc, acc <> "" -> print_acc fuel base n acc <> "") as H.
  { clear. induction fuel as [|fuel IH]; intros n acc Ha; [done|]. cbn.
    destruct (n <? base); [done|]. by apply IH. }
  destruct fuel as [|fuel]; [lia|]. intros _. cbn. destruct (n <? base); [done|]. by apply H.
Qed.

Lemma print_dec_value n : 0 <= n < 10 ^ 20 -> digits_value 10 0 (print_dec n) = n.
Proof. intros Hn. unfold print_dec. by rewrite print_acc_value by (cbn; lia). Qed.
Lemma print_dec_digits n : 0 <= n -> all is_digit (print_dec n) = true.
Proof. intros Hn. by apply print_acc_digits. Qed.

Lemma print_dec_cons n : 0 <= n -> exists c s, print_dec n = String c s /\ is_digit c = true.
Proof.
  intros Hn. pose proof (print_dec_digits n Hn) as Hd.
  pose proof (print_acc_nonempty 20 10 n "" ltac:(lia)) as Hne. fold (print_dec n) in Hne.
  destruct (print_dec n) as [|c s]; [done|]. apply andb_true_iff in Hd as [Hc _]. by exists c, s.
Qed.

Lemma digit_plain c :
  is_digit c = true ->
  is_space c = false /\ Ascii.eqb c "-"%char = false /\ Ascii.eqb c "+"%char = false.
Proof. destruct c as [[] [] [] [] [] [] [] []]; intros; (discriminate || done). Qed.

(** Reading a printed number, whatever follows that is not a digit. *)
Lemma skip_ws_plain c s : is_space c = false -> skip_ws (String c s) = String c s.
Proof. intros H. unfold skip_ws. cbn. by rewrite H. Qed.

Lemma skip_ws_space c s : is_space c = true -> skip_ws (String c s) = skip_ws s.
Proof. intros H. unfold skip_ws. cbn. rewrite H. by destruct (span is_space s). Qed.

Lemma read_sign_plain c s : is_digit c = true -> read_sign (String c s) = (false, String c s).
Proof. intros H. apply digit_plain in H as (_ & H1 & H2). cbn. by rewrite H1, H2. Qed.

Lemma read_number n s :
  0 <= n < 10 ^ 20 -> stops is_digit s ->
  exists c ds, print_dec n ++ s = String c (ds ++ s)
    /\ read_sign (skip_ws (print_dec n ++ s)) = (false, String c (ds ++ s))
    /\ span is_digit (String c (ds ++ s)) = (String c ds, s)
    /\ digits_value 10 0 (String c ds) = n.
Proof.
  intros Hn Hs. destruct (print_dec_cons n ltac:(lia)) as (c & ds & E & Hc).
  pose proof (print_dec_value n Hn) as Hv. pose proof (print_dec_digits n ltac:(lia)) as Hd.
  rewrite E in *. exists c, ds. cbn [String.append]. split; [done|]. split.
  - rewrite skip_ws_plain, read_sign_plain by (try done; by apply digit_plain). done.
  - split; [|done]. by apply (span_app is_digit (String c ds)).
Qed.

Lemma read_uint_print n s :
  is_u32 n -> stops is_digit s -> read_uint (print_dec n ++ s) = Some (n, s).
Proof.
  intros Hn Hs. unfold is_u32 in Hn. unfold read_uint.
  destruct (read_number n s ltac:(lia) Hs) as (c & ds & _ & -> & -> & ->).
  by guards.
Qed.

Lemma read_int_print n s :
  0 <= n <= 2147483647 -> stops is_digit s -> read_int (print_dec n ++ s) = Some (n, s).
Proof.
  intros Hn Hs. unfold read_int.
  destruct (read_number n s ltac:(lia) Hs) as (c & ds & _ & -> & -> & ->).
  by guards.
Qed.

Lemma stoi_print n s :
  0 <= n <= 2147483647 -> stops is_digit s -> stoi (print_dec n ++ s) = Some n.
Proof. intros. unfold stoi. by rewrite read_int_print. Qed.

Lemma hex4_value n :
  is_u16 n ->
  digits_value 16 0 (sdrop 2 (print_hex4 n)) = n /\ all is_xdigit (sdrop 2 (print_hex4 n)) = true.
Proof.
  intros Hn. unfold is_u16 in Hn. unfold print_hex4. cbn [sdrop digits_value all].
  rewrite !digit_char_value, !digit_char_xdigit by (apply Z.mod_pos_bound; lia).
  split; [zlia|done].
Qed.

Lemma stoul16_print `{Target} n : is_u16 n -> stoul16 (print_hex4 n) = Some n.
Proof.
  intros Hn. destruct (hex4_value n Hn) as [Hv Ha]. unfold stoul16.
  change (read_sign (skip_ws (print_hex4 n))) with (false, print_hex4 n).
  cbv beta iota.
  assert (skip_0x (print_hex4 n) = sdrop 2 (print_hex4 n)) as ->.
  { unfold print_hex4, skip_0x. by rewrite digit_char_xdigit by (apply Z.mod_pos_bound; lia). }
  rewrite <- (string_app_nil (sdrop 2 _)), span_app by done.
  destruct (sdrop 2 (print_hex4 n)) as [|c ds] eqn:E; [discriminate E|].
  rewrite Hv. unfold is_u16 in Hn.
  rewrite (proj2 (Z.ltb_lt _ _)); [done|]. destruct size_bits_ok as [-> | ->]; lia.
Qed.

(** A token is read up to the next white space. *)
Lemma read_token_app c a s :
  is_space c = false -> all (fun c => negb (is_space c)) a = true ->
  stops (fun c => negb (is_space c)) s ->
  read_token (String c a ++ s) = Some (String c a, s).
Proof.
  intros Hc Ha Hs. unfold read_token. cbn [String.append]. rewrite skip_ws_plain by done.
  rewrite (span_app _ (String c a) s); [done| |done]. cbn. by rewrite Hc.
Qed.

Lemma read_token_space c s : is_space c = true -> read_token (String c s) = read_token s.
Proof. intros H. unfold read_token. by rewrite skip_ws_space. Qed.
Lemma read_uint_space c s : is_space c = true -> read_uint (String c s) = read_uint s.
Proof. intros H. unfold read_uint. by rewrite skip_ws_space. Qed.
Lemma read_int_space c s : is_space c = true -> read_int (String c s) = read_int s.
Proof. intros H. unfold read_int. by rewrite skip_ws_space. Qed.

(** Every number [stod] returns is a well-formed double. *)
Lemma d_of_ratio_valid s num den : d_valid (d_of_ratio s num den) = true.
Proof.
  unfold d_of_ratio. destruct (num <=? 0); [done|].
  destruct (_ + _); [done|by apply binary_round_valid|done].
Qed.

Lemma finish_valid s m base e d : finish s m base e = Some d -> d_valid d = true.
Proof.
  unfold finish. destruct (d_range_error _ _ _); [done|]. intros [= <-]. apply d_of_ratio_valid.
Qed.

Lemma stod_valid s d : stod s = Some d -> d_valid d = true.
Proof.
  unfold stod. destruct (read_sign _) as [neg s1]. destruct (starts_with_nocase "inf" s1).
  { by intros [= <-]. }
  destruct (starts_with_nocase "nan" s1); [by intros [= <-]|].
  destruct (if starts_with_nocase "0x" s1 then _ else None) as [[[m fr] rest]|];
    [apply finish_valid|].
  destruct (read_mantissa is_digit 10 s1) as [[[m fr] rest]|]; [apply finish_valid|done].
Qed.

End CppStringFacts.
