(* ===== verification/Types.v ===== *)
(** * Data shared between the layers

    The decoded signal of [src/include/gateway/types.hpp], the signal and
    message definitions of [src/src/can/dbc_parser.hpp], the kernel's
    [can_frame], and the calls on UDP sockets that the SOME/IP components
    log. *)

From Stdlib Require Import SpecFloat.
From S2P Require Import Prelude Floats.

(** A decoded CAN signal. *)
Record DecodedSignal := mk_decoded { ds_name : string; ds_value : double; ds_unit : string }.

(** An IPv4 socket address: [s_addr] as [inet_addr] returns it (the integer
    whose bytes in memory are the address) and the port in host order. *)
Record sockaddr_in := mk_sockaddr { sin_addr : Z; sin_port : Z }.

(** [sendto(fd, data, ...)] to an address, [close(fd)], and [add_reader] on
    the event loop. *)
Variant net_action :=
| SendTo (fd : Z) (data : list Z) (dest : sockaddr_in)
| CloseSocket (fd : Z)
| WatchSocket (fd : Z).

(** What [SendTo] carries. *)
Definition datagram (a : net_action) : option (list Z) :=
  match a with SendTo _ data _ => Some data | _ => None end.

(** [struct can_frame] of [linux/can.h]: the identifier with its flag bits,
    the length code and the eight data bytes. *)
Record can_frame := mk_frame { can_id : Z; can_dlc : Z; frame_data : list Z }.

(** [CAN_EFF_MASK] of [linux/can.h]: the identifier without flag bits. *)
Definition CAN_EFF_MASK : Z := 0x1FFFFFFF.

Definition frame_ok (f : can_frame) : Prop :=
  is_u32 (can_id f) /\ bytes (frame_data f) /\ length (frame_data f) = 8%nat.

(** One signal of a message and one message of the database. *)
Record SignalDef := mk_signal {
  sg_name : string;
  sg_start_bit : Z;
  sg_length : Z;
  sg_is_signed : bool;
  sg_is_little_endian : bool;
  sg_scale : double;
  sg_offset : double;
  sg_min_val : double;
  sg_max_val : double;
  sg_unit : string
}.

Record MessageDef := mk_message {
  md_can_id : Z;
  md_name : string;
  md_length : Z;
  md_signals : list SignalDef
}.

(** The fields the parser stores are in the range of their types. *)
Definition signal_ok (s : SignalDef) : Prop :=
  is_u8 (sg_start_bit s) /\ is_u8 (sg_length s)
  /\ d_valid (sg_scale s) = true /\ d_valid (sg_offset s) = true
  /\ d_valid (sg_min_val s) = true /\ d_valid (sg_max_val s) = true.

Definition message_ok (m : MessageDef) : Prop :=
  is_u32 (md_can_id m) /\ is_u8 (md_length m) /\ Forall signal_ok (md_signals m).
