(* ===== verification/SomeIpMessage.v ===== *)
(** * SOME/IP messages ([src/src/someip/someip_message.hpp], [.cpp])

    [Module SomeIpMessage] is the class: the three constructors of a
    notification and the two serialisers.  [packet] is the datagram the
    protocol prescribes, [parse_packet] a receiver that reads it back, and
    [print_someip] and [decode_notification] the two receivers of
    [src/tools/]. *)

From Stdlib Require Import SpecFloat.
From S2P Require Import Prelude Floats.

Definition SOMEIP_MSG_NOTIFICATION : Z := 0x02.
Definition SOMEIP_RET_OK : Z := 0x00.
Definition SOMEIP_HEADER_SIZE : Z := 16.
Definition SOMEIP_MAX_SIZE : Z := 1500.

(** ** The class *)
Module SomeIpMessage.

Record t := mk {
  service_id : Z;
  method_id : Z;
  client_id : Z;
  session_id : Z;
  msg_type : Z;
  return_code : Z;
  payload : list Z
}.

Definition make_notification (service_id method_id session_id : Z)
    (payload : list Z) (payload_len : Z) : checked t :=
  assigned ← rd_bytes payload 0 payload_len;
  Ok (mk service_id method_id 0x0000 session_id
        SOMEIP_MSG_NOTIFICATION SOMEIP_RET_OK assigned).

Section code.
Context {T : Target}.

(** [memcpy(&raw, &value, sizeof(float))] makes [raw] the number whose bits
    are those of [value]. *)
Definition make_float_notification (service_id method_id session_id : Z)
    (value : float) : checked t :=
  let raw := htonl (f_bits value) in
  make_notification service_id method_id session_id (mem32 raw) 4.

Definition make_uint32_notification (service_id method_id session_id value : Z)
  : checked t :=
  let net := htonl value in
  make_notification service_id method_id session_id (mem32 net) 4.

(** [serialize_into]: the returned count and the caller's buffer after the
    call; [buf] is the memory at the pointer. *)
Definition serialize_into (msg : t) (buf : list Z) (buf_len : Z)
  : checked (Z * list Z) :=
  let total := sz (SOMEIP_HEADER_SIZE + zlen (payload msg)) in
  if buf_len <? total then Ok (0, buf)
  else
    buf ← wr buf 0 (Z.land (Z.shiftr (service_id msg) 8) 0xFF);
    buf ← wr buf 1 (Z.land (service_id msg) 0xFF);
    buf ← wr buf 2 (Z.land (Z.shiftr (method_id msg) 8) 0xFF);
    buf ← wr buf 3 (Z.land (method_id msg) 0xFF);
    let length := u32 (zlen (payload msg) + 8) in
    buf ← wr buf 4 (Z.land (Z.shiftr length 24) 0xFF);
    buf ← wr buf 5 (Z.land (Z.shiftr length 16) 0xFF);
    buf ← wr buf 6 (Z.land (Z.shiftr length 8) 0xFF);
    buf ← wr buf 7 (Z.land length 0xFF);
    buf ← wr buf 8 (Z.land (Z.shiftr (client_id msg) 8) 0xFF);
    buf ← wr buf 9 (Z.land (client_id msg) 0xFF);
    buf ← wr buf 10 (Z.land (Z.shiftr (session_id msg) 8) 0xFF);
    buf ← wr buf 11 (Z.land (session_id msg) 0xFF);
    buf ← wr buf 12 0x01;
    buf ← wr buf 13 0x01;
    buf ← wr buf 14 (msg_type msg);
    buf ← wr buf 15 (return_code msg);
    buf ← (match payload msg with
           | [] => Ok buf
           | _ => wr_bytes buf SOMEIP_HEADER_SIZE (payload msg)
           end);
    Ok (total, buf).

Definition serialize (msg : t) : checked (list Z) :=
  let buf := replicate (Z.to_nat (sz (SOMEIP_HEADER_SIZE + zlen (payload msg)))) 0 in
  r ← serialize_into msg buf (zlen buf);
  Ok r.2.

End code.
End SomeIpMessage.

(** ** The datagram of the protocol *)
Definition packet (m : SomeIpMessage.t) : list Z :=
  be16 (SomeIpMessage.service_id m) ++ be16 (SomeIpMessage.method_id m)
  ++ be32 (zlen (SomeIpMessage.payload m) + 8)
  ++ be16 (SomeIpMessage.client_id m) ++ be16 (SomeIpMessage.session_id m)
  ++ [0x01; 0x01; SomeIpMessage.msg_type m; SomeIpMessage.return_code m]
  ++ SomeIpMessage.payload m.

(** A receiver that checks the versions and the length field. *)
Definition parse_packet (l : list Z) : option SomeIpMessage.t :=
  match l with
  | s1 :: s0 :: m1 :: m0 :: l3 :: l2 :: l1 :: l0 :: c1 :: c0 :: e1 :: e0
      :: pv :: iv :: ty :: rc :: p =>
      if (pv =? 1) && (iv =? 1) && (be_val [l3; l2; l1; l0] =? zlen p + 8)
      then Some (SomeIpMessage.mk (be_val [s1; s0]) (be_val [m1; m0])
                   (be_val [c1; c0]) (be_val [e1; e0]) ty rc p)
      else None
  | _ => None
  end.

(** ** The receivers of [src/tools/] *)

(** What [print_someip] of [someip_subscriber.cpp] prints of a datagram. *)
Record printed := mk_printed {
  pr_service : Z; pr_method : Z; pr_length : Z; pr_client : Z; pr_session : Z;
  pr_proto : Z; pr_iface : Z; pr_type : Z; pr_ret : Z;
  pr_payload : float + Z
}.

Section receivers.
Context {T : Target}.

(** [None] is the "Packet too short" line; [buf] has [len] bytes. *)
Definition print_someip (buf : list Z) (len : Z) : checked (option printed) :=
  if len <? SOMEIP_HEADER_SIZE then Ok None
  else
    b0 ← rd buf 0; b1 ← rd buf 1; b2 ← rd buf 2; b3 ← rd buf 3;
    b4 ← rd buf 4; b5 ← rd buf 5; b6 ← rd buf 6; b7 ← rd buf 7;
    b8 ← rd buf 8; b9 ← rd buf 9; b10 ← rd buf 10; b11 ← rd buf 11;
    proto_ver ← rd buf 12; iface_ver ← rd buf 13;
    msg_type ← rd buf 14; ret_code ← rd buf 15;
    let payload_len := sz (len - SOMEIP_HEADER_SIZE) in
    payload ←
      (if payload_len =? 4 then
         b16 ← rd buf 16; b17 ← rd buf 17; b18 ← rd buf 18; b19 ← rd buf 19;
         let raw := u32 (Z.lor (Z.lor (Z.lor (i32 (Z.shiftl b16 24)) (Z.shiftl b17 16))
                                      (Z.shiftl b18 8)) b19) in
         let host_raw := htonl raw in
         Ok (inl (f_of_bits host_raw))
       else Ok (inr payload_len));
    Ok (Some (mk_printed
      (u16 (Z.lor (Z.shiftl b0 8) b1)) (u16 (Z.lor (Z.shiftl b2 8) b3))
      (u32 (Z.lor (Z.lor (Z.lor (i32 (Z.shiftl b4 24)) (Z.shiftl b5 16))
                         (Z.shiftl b6 8)) b7))
      (u16 (Z.lor (Z.shiftl b8 8) b9)) (u16 (Z.lor (Z.shiftl b10 8) b11))
      proto_ver iface_ver msg_type ret_code payload)).

(** The body of the receive loop of [someip_sd_subscriber.cpp]: what it
    prints of a datagram of [n] bytes in its 1500-byte buffer (service,
    method, session and value), [None] where it skips the datagram. *)
Definition decode_notification (buf : list Z) (n : Z)
  : checked (option (Z * Z * Z * float)) :=
  if n <? 16 then Ok None
  else
    b0 ← rd buf 0; b1 ← rd buf 1; b2 ← rd buf 2; b3 ← rd buf 3;
    b10 ← rd buf 10; b11 ← rd buf 11; msg_type ← rd buf 14;
    let svc_id := u16 (Z.lor (Z.shiftl b0 8) b1) in
    let met_id := u16 (Z.lor (Z.shiftl b2 8) b3) in
    let ses_id := u16 (Z.lor (Z.shiftl b10 8) b11) in
    if svc_id =? 0xFFFF then Ok None
    else if negb (msg_type =? 0x02) then Ok None
    else if n <? 20 then Ok None
    else
      bs ← rd_bytes buf 16 4;
      let raw := htonl (load bs) in
      Ok (Some (svc_id, met_id, ses_id, f_of_bits raw)).

End receivers.

(** The name it prints for a service and a method. *)
Definition signal_name (svc_id met_id : Z) : string :=
  let ids s m := (svc_id =? s) && (met_id =? m) in
  if ids 0x0101 0x8001 then "EngineRPM"%string
  else if ids 0x0101 0x8002 then "EngineTemp"%string
  else if ids 0x0101 0x8003 then "ThrottlePos"%string
  else if ids 0x0102 0x8001 then "VehicleSpeed"%string
  else if ids 0x0102 0x8002 then "WheelSpeed_FL"%string
  else if ids 0x0102 0x8003 then "WheelSpeed_FR"%string
  else if ids 0x0103 0x8001 then "BrakePressure"%string
  else if ids 0x0103 0x8002 then "BrakeActive"%string
  else "Unknown"%string.

(** ** Lemmas *)
Module SomeIpMessageFacts.
Import SomeIpMessage.

Definition wf (m : t) : Prop :=
  is_u16 (service_id m) /\ is_u16 (method_id m) /\ is_u16 (client_id m)
  /\ is_u16 (session_id m) /\ is_u8 (msg_type m) /\ is_u8 (return_code m)
  /\ bytes (payload m) /\ zlen (payload m) < 4294967272.

Definition notification (sid mid sess : Z) (p : list Z) : t :=
  mk sid mid 0 sess SOMEIP_MSG_NOTIFICATION SOMEIP_RET_OK p.

Lemma notification_wf sid mid sess p :
  is_u16 sid -> is_u16 mid -> is_u16 sess -> bytes p -> zlen p < 4294967272 ->
  wf (notification sid mid sess p).
Proof. intros. unfold wf, notification. cbn. split_and!; try done; unfold_ints; lia. Qed.

Lemma make_notification_ok sid mid sess p n :
  0 <= n <= zlen p ->
  make_notification sid mid sess p n = Ok (notification sid mid sess (take (Z.to_nat n) p)).
Proof. intros. unfold make_notification. rewrite rd_bytes_ok by lia. done. Qed.

Lemma packet_length m : zlen (packet m) = 16 + zlen (payload m).
Proof. unfold packet. autorewrite with zlen. lia. Qed.

Section code.
Context {T : Target}.

Lemma make_float_ok sid mid sess v :
  make_float_notification sid mid sess v = Ok (notification sid mid sess (be32 (f_bits v))).
Proof.
  unfold make_float_notification. rewrite memcpy_htonl.
  by rewrite make_notification_ok by (rewrite zlen_be32; lia).
Qed.

Lemma make_uint32_ok sid mid sess v :
  make_uint32_notification sid mid sess v = Ok (notification sid mid sess (be32 v)).
Proof.
  unfold make_uint32_notification. rewrite memcpy_htonl.
  by rewrite make_notification_ok by (rewrite zlen_be32; lia).
Qed.

(** The sixteen header writes over any sixteen bytes. *)
Lemma write_packet m (hdr body rest : list Z) :
  zlen (payload m) < 4294967272 ->
  length hdr = 16%nat -> length body = length (payload m) ->
  serialize_into m (hdr ++ body ++ rest) (zlen (hdr ++ body ++ rest))
  = Ok (16 + zlen (payload m), packet m ++ rest).
Proof.
  intros Hm Hh Hb. unfold serialize_into, SOMEIP_HEADER_SIZE.
  rewrite sz_small by (pose proof (zlen_nonneg (payload m)); lia).
  rewrite (proj2 (Z.ltb_ge _ _))
    by (autorewrite with zlen; unfold zlen; rewrite Hb, Hh; lia).
  do 16 (destruct hdr as [|? hdr]; [discriminate Hh|]). destruct hdr; [|discriminate Hh].
  cbn [app]. mem_red. unfold packet, be16, be32, byte_at.
  rewrite !Z.shiftr_0_r, u32_small by (pose proof (zlen_nonneg (payload m)); unfold is_u32; lia).
  destruct (payload m) as [|b p] eqn:Ep; [by destruct body|].
  match goal with |- context [wr_bytes ?l 16 _] =>
    change l with (take 16 l ++ body ++ rest) end.
  by rewrite wr_bytes_app by done.
Qed.

Lemma serialize_into_ok m buf :
  zlen (payload m) < 4294967272 ->
  serialize_into m buf (zlen buf)
  = if zlen buf <? 16 + zlen (payload m) then Ok (0, buf)
    else Ok (16 + zlen (payload m), packet m ++ (buf +! (16 + zlen (payload m)))).
Proof.
  intros Hm. pose proof (zlen_nonneg (payload m)). destruct (Z.ltb_spec (zlen buf) (16 + zlen (payload m))).
  - unfold serialize_into, SOMEIP_HEADER_SIZE. rewrite sz_small by lia.
    by guards.
  - assert (buf = take 16 buf ++ take (length (payload m)) (drop 16 buf)
                  ++ (buf +! (16 + zlen (payload m)))) as Hs.
    { replace (Z.to_nat (16 + zlen (payload m))) with (16 + length (payload m))%nat
        by (unfold zlen; lia).
      by rewrite <- drop_drop, !take_drop. }
    rewrite Hs at 1 2. apply write_packet; [done|..];
      rewrite length_take, ?length_drop; unfold zlen in *; lia.
Qed.

Lemma serialize_ok m :
  zlen (payload m) < 4294967272 -> serialize m = Ok (packet m).
Proof.
  intros Hm. unfold serialize, SOMEIP_HEADER_SIZE. pose proof (zlen_nonneg (payload m)).
  rewrite sz_small, serialize_into_ok by lia.
  assert (zlen (replicate (Z.to_nat (16 + zlen (payload m))) 0) = 16 + zlen (payload m)) as Hl.
  { unfold zlen at 1. rewrite length_replicate. lia. }
  rewrite Hl, Z.ltb_irrefl. cbn [mbind checked_bind snd].
  rewrite drop_ge, app_nil_r; [done|]. rewrite length_replicate. lia.
Qed.

End code.

Lemma be16_two x : be16 x = [byte_at 1 x; byte_at 0 x].
Proof. done. Qed.

Lemma parse_packet_ok m : wf m -> parse_packet (packet m) = Some m.
Proof.
  intros (? & ? & ? & ? & ? & ? & ? & ?). pose proof (zlen_nonneg (payload m)).
  unfold packet, be16, be32. cbn [app]. unfold parse_packet.
  fold (be32 (zlen (payload m) + 8)).
  rewrite be32_val, u32_small by (unfold is_u32; lia). rewrite !Z.eqb_refl. cbn [andb].
  fold (be16 (service_id m)) (be16 (method_id m)) (be16 (client_id m)) (be16 (session_id m)).
  rewrite !be16_val, !u16_small by done. by destruct m.
Qed.

(** What a receiver's [(b[i] << 8) | b[i+1]] makes of two bytes sent. *)
Lemma or16_be16 x : is_u16 x -> u16 (Z.lor (Z.shiftl (byte_at 1 x) 8) (byte_at 0 x)) = x.
Proof.
  intros Hx. rewrite or16_be_val by apply byte_at_u8.
  change [byte_at 1 x; byte_at 0 x] with (be16 x). rewrite be16_val, (u16_small x) by done.
  by apply u16_small.
Qed.

Lemma or32_be32 x :
  is_u32 x ->
  u32 (Z.lor (Z.lor (Z.lor (i32 (Z.shiftl (byte_at 3 x) 24)) (Z.shiftl (byte_at 2 x) 16))
                    (Z.shiftl (byte_at 1 x) 8)) (byte_at 0 x)) = x.
Proof.
  intros Hx. rewrite or32_int_be_val by apply byte_at_u8.
  change [byte_at 3 x; _; _; _] with (be32 x). rewrite be32_val. by apply u32_small.
Qed.

Section receivers.
Context {T : Target}.

Lemma decode_packet sid mid sess x rest :
  is_u16 sid -> is_u16 mid -> is_u16 sess -> sid <> 0xFFFF ->
  decode_notification (packet (notification sid mid sess (be32 x)) ++ rest) 20
  = Ok (Some (sid, mid, sess, f_of_bits (u32 x))).
Proof.
  intros Hs Hm He Hne. unfold decode_notification, packet, be16.
  cbn [notification service_id method_id client_id session_id msg_type return_code payload].
  cbn [be32 app]. change (20 <? 16) with false. change (20 <? 20) with false. cbv iota. mem_red.
  rewrite !or16_be16 by done. rewrite (proj2 (Z.eqb_neq _ _)) by done.
  change (negb (SOMEIP_MSG_NOTIFICATION =? 2)) with false. cbv iota.
  rewrite rd_bytes_ok by (autorewrite with zlen; pose proof (zlen_nonneg rest); lia).
  cbn [mbind checked_bind].
  change (take (Z.to_nat 4) _) with (be32 x). unfold be32.
  rewrite ntohl_load by apply byte_at_u8.
  change [byte_at 3 x; _; _; _] with (be32 x). by rewrite be32_val.
Qed.

Lemma print_packet sid mid sess x rest :
  is_u16 sid -> is_u16 mid -> is_u16 sess -> is_u32 x ->
  print_someip (packet (notification sid mid sess (be32 x)) ++ rest) 20
  = Ok (Some (mk_printed sid mid 12 0 sess 1 1 SOMEIP_MSG_NOTIFICATION SOMEIP_RET_OK
                (inl (f_of_bits (htonl x))))).
Proof.
  intros Hs Hm He Hx. unfold print_someip, packet, be16, SOMEIP_HEADER_SIZE.
  cbn [notification service_id method_id client_id session_id msg_type return_code payload].
  change (zlen (be32 x) + 8) with 12.
  cbn [be32 app]. change (20 <? 16) with false. cbv iota. mem_red.
  change (20 - 16) with 4. rewrite (sz_small 4) by lia. change (4 =? 4) with true. cbv iota.
  mem_red. rewrite !or16_be16, !or32_be32 by (done || (unfold is_u32; lia)).
  done.
Qed.

End receivers.
End SomeIpMessageFacts.

(** ** Properties *)
Section properties.
Import SomeIpMessage SomeIpMessageFacts.

(** C14: for every message and every caller's buffer, [serialize_into] either
    reports 0 and touches nothing, exactly when the buffer is smaller than
    the sixteen header bytes plus the payload, or writes the datagram the
    protocol prescribes at the front, leaves the rest of the buffer alone
    and reports its length; it never leaves the buffer.  A receiver that
    checks versions and length reads the same message back. *)
Theorem someip_serialize_roundtrip {T : Target} m buf :
  wf m ->
  serialize_into m buf (zlen buf)
  = (if zlen buf <? 16 + zlen (payload m) then Ok (0, buf)
     else Ok (zlen (packet m), packet m ++ (buf +! zlen (packet m))))
  /\ serialize m = Ok (packet m)
  /\ parse_packet (packet m) = Some m.
Proof.
  intros Hwf. pose proof Hwf as (_ & _ & _ & _ & _ & _ & _ & Hl). rewrite packet_length.
  split; [by apply serialize_into_ok|]. split; [by apply serialize_ok|by apply parse_packet_ok].
Qed.

Lemma someip_serialize_roundtrip_witness :
  let m := mk 0x0101 0x8001 0 7 2 0 [1; 2; 3] in
  wf m
  /\ serialize_into (T:=x86_64) m (replicate 20 0xEE) 20
     = Ok (19, [1; 1; 0x80; 1; 0; 0; 0; 11; 0; 0; 0; 7; 1; 1; 2; 0; 1; 2; 3; 0xEE])
  /\ parse_packet (packet m) = Some m.
Proof.
  intros m. assert (wf m) as Hwf by (unfold wf; cbn; split_and!; first [closed_bytes | unfold_ints; cbn; lia]).
  destruct (someip_serialize_roundtrip (T:=x86_64) m (replicate 20 0xEE) Hwf) as (H1 & _ & H3).
  split; [exact Hwf|]. split; [|exact H3].
  change 20 with (zlen (replicate 20 0xEE)). rewrite H1. reflexivity.
Defined.

(** A [float] survives the wire: a notification made from any
    well-formed [float], infinities, subnormals and NaN included, serialised
    by the gateway and decoded by the service-discovery subscriber from
    its receive buffer gives the service, the method, the session number
    and the same [float]; on either byte order. *)
Theorem someip_float_roundtrip {T : Target} sid mid sess v rest :
  is_u16 sid -> is_u16 mid -> is_u16 sess -> sid <> 0xFFFF -> f_valid v = true ->
  exists m pkt,
    make_float_notification sid mid sess v = Ok m
    /\ serialize m = Ok pkt
    /\ zlen pkt = 20
    /\ decode_notification (pkt ++ rest) (zlen pkt) = Ok (Some (sid, mid, sess, v)).
Proof.
  intros Hs Hm He Hne Hv. do 2 eexists. split; [apply make_float_ok|].
  split; [by apply serialize_ok|]. split; [done|].
  rewrite packet_length. change (16 + zlen _) with 20. rewrite decode_packet by done.
  rewrite u32_small by (by apply f_bits_range). by rewrite f_bits_roundtrip.
Qed.

Lemma someip_float_roundtrip_witness :
  exists m pkt,
    make_float_notification (T:=armv7) 0x0101 0x8001 42 (S754_finite false 0xA28000 (-12)) = Ok m
    /\ serialize (T:=armv7) m = Ok pkt
    /\ decode_notification (T:=armv7) (pkt ++ replicate 1480 0) 20
       = Ok (Some (0x0101, 0x8001, 42, S754_finite false 0xA28000 (-12)))
    /\ drop 16 pkt = [0x45; 0x22; 0x80; 0x00].
Proof.
  destruct (someip_float_roundtrip (T:=armv7) 0x0101 0x8001 42 (S754_finite false 0xA28000 (-12))
              (replicate 1480 0)) as (m & pkt & H1 & H2 & H3 & H4);
    [unfold is_u16; lia.. | lia | reflexivity |].
  exists m, pkt. split; [exact H1|]. split; [exact H2|]. rewrite H3 in H4. split; [exact H4|].
  injection H1 as <-. vm_compute in H2. by injection H2 as <-.
Defined.

(** The plain subscriber prints the header of a float notification as it
    was sent, but byte-swaps the value: its shifts already give the number
    in host order, and it applies [ntohl] once more, so that on a
    little-endian host it prints the number whose bits are those of the
    value sent in reverse order (2600.0 comes out below 1e-38). *)
Theorem someip_subscriber_swaps {T : Target} sid mid sess v rest :
  is_u16 sid -> is_u16 mid -> is_u16 sess -> f_valid v = true ->
  exists m pkt,
    make_float_notification sid mid sess v = Ok m
    /\ serialize m = Ok pkt
    /\ print_someip (pkt ++ rest) (zlen pkt)
       = Ok (Some (mk_printed sid mid 12 0 sess 1 1 2 0
               (inl match order with
                    | Little => f_of_bits (bswap32 (f_bits v))
                    | Big => v
                    end))).
Proof.
  intros Hs Hm He Hv. do 2 eexists. split; [apply make_float_ok|].
  split; [by apply serialize_ok|].
  rewrite packet_length. change (16 + zlen _) with 20.
  rewrite print_packet by (done || by apply f_bits_range).
  unfold htonl. destruct order; [done|]. by rewrite f_bits_roundtrip.
Qed.

Lemma someip_subscriber_swaps_witness :
  exists m pkt,
    make_float_notification (T:=x86_64) 0x0101 0x8001 1 (S754_finite false 0xA28000 (-12)) = Ok m
    /\ serialize (T:=x86_64) m = Ok pkt
    /\ print_someip (T:=x86_64) pkt 20
       = Ok (Some (mk_printed 0x0101 0x8001 12 0 1 1 1 2 0 (inl (S754_finite false 0x802245 (-149)))))
    /\ bswap32 0x45228000 = 0x00802245.
Proof.
  destruct (someip_subscriber_swaps (T:=x86_64) 0x0101 0x8001 1 (S754_finite false 0xA28000 (-12)) [])
    as (m & pkt & H1 & H2 & H3); [unfold is_u16; lia.. | reflexivity |].
  exists m, pkt. split; [exact H1|]. split; [exact H2|].
  injection H1 as <-. vm_compute in H2. injection H2 as <-.
  rewrite app_nil_r in H3. split; [exact H3|reflexivity].
Defined.

End properties.
