(* ===== verification/SomeIpPublisher.v ===== *)
(** * SOME/IP publisher ([src/src/someip/someip_publisher.hpp], [.cpp])

    [Module SomeIpPublisher] is the class.  The address of the multicast
    group is what [inet_addr] made of the text; the 1500-byte buffer on the
    stack holds arbitrary bytes before it is written.  [Module
    PublisherSpec] says what a run of [publish] calls puts on the wire. *)

From Stdlib Require Import SpecFloat.
From S2P Require Import Prelude Floats Types SomeIpMessage.

Module SomeIpPublisher.

Record t := mk {
  sock_fd : Z;
  port : Z;
  session : Z;
  dest_addr : sockaddr_in;
  signal_map : gmap string (Z * Z)
}.

(** The constructor: [group] is [inet_addr(multicast_addr.c_str())]. *)
Definition construct (group port_ sock_res : Z) : t + string :=
  if sock_res <? 0 then inr "socket(UDP) failed: "%string
  else inl (mk sock_res port_ 1 (mk_sockaddr group port_) ∅).

Definition destroy (pub : t) : list net_action :=
  if 0 <=? sock_fd pub then [CloseSocket (sock_fd pub)] else [].

Definition register_signal (pub : t) (signal_name : string) (service_id method_id : Z) : t :=
  mk (sock_fd pub) (port pub) (session pub) (dest_addr pub)
    (<[signal_name := (service_id, method_id)]> (signal_map pub)).

(** [session_++]: the old value and the object after it. *)
Definition next_session (pub : t) : Z * t :=
  (session pub,
   mk (sock_fd pub) (port pub) (u16 (session pub + 1)) (dest_addr pub) (signal_map pub)).

Section code.
Context {T : Target} (stack : list Z).

(** [stack]: what the buffer holds when [send_message] is entered. *)
Definition send_message (pub : t) (msg : SomeIpMessage.t) : checked (list net_action) :=
  r ← SomeIpMessage.serialize_into msg stack SOMEIP_MAX_SIZE;
  let '(len, buf) := r in
  if len =? 0 then Ok []
  else
    data ← rd_bytes buf 0 len;
    Ok [SendTo (sock_fd pub) data (dest_addr pub)].

Definition publish_float (pub : t) (service_id method_id : Z) (value : float)
  : checked (t * list net_action) :=
  let '(sess, pub) := next_session pub in
  msg ← SomeIpMessage.make_float_notification service_id method_id sess value;
  acts ← send_message pub msg;
  Ok (pub, acts).

Definition publish (pub : t) (signal : DecodedSignal) : checked (t * list net_action) :=
  match signal_map pub !! ds_name signal with
  | None => Ok (pub, [])
  | Some (service_id, method_id) =>
      let '(sess, pub) := next_session pub in
      msg ← SomeIpMessage.make_float_notification service_id method_id sess
              (f_of_double (ds_value signal));
      acts ← send_message pub msg;
      Ok (pub, acts)
  end.

(** The caller's loop over the decoded signals of a frame. *)
Fixpoint publish_all (pub : t) (signals : list DecodedSignal) : checked (t * list net_action) :=
  match signals with
  | [] => Ok (pub, [])
  | sig :: signals =>
      r ← publish pub sig;
      rs ← publish_all r.1 signals;
      Ok (rs.1, r.2 ++ rs.2)
  end.

End code.
End SomeIpPublisher.

(** ** What is sent *)
Module PublisherSpec.
Import SomeIpPublisher SomeIpMessageFacts.

(** The datagram for one signal under its route. *)
Definition signal_packet (route : Z * Z) (sess : Z) (value : double) : list Z :=
  packet (notification route.1 route.2 sess (be32 (f_bits (f_of_double value)))).

(** The registered signals of a list, with their routes. *)
Definition routed (m : gmap string (Z * Z)) (signals : list DecodedSignal)
  : list ((Z * Z) * double) :=
  signals ≫= fun s =>
    match m !! ds_name s with Some r => [(r, ds_value s)] | None => [] end.

(** The datagrams for routed signals, numbered from [sess]. *)
Fixpoint packets (sess : Z) (l : list ((Z * Z) * double)) : list (list Z) :=
  match l with
  | [] => []
  | (r, v) :: l => signal_packet r sess v :: packets (u16 (sess + 1)) l
  end.

Definition routes_ok (m : gmap string (Z * Z)) : Prop :=
  map_Forall (fun _ r => is_u16 r.1 /\ is_u16 r.2) m.

End PublisherSpec.

(** ** Lemmas *)
Module PublisherFacts.
Import SomeIpPublisher SomeIpMessageFacts PublisherSpec.

Definition with_session (pub : t) (s : Z) : t :=
  mk (sock_fd pub) (port pub) s (dest_addr pub) (signal_map pub).

Definition sent (pub : t) (data : list Z) : net_action :=
  SendTo (sock_fd pub) data (dest_addr pub).

Section facts.
Context {T : Target} (stack : list Z) (Hstack : zlen stack = SOMEIP_MAX_SIZE).

Lemma send_message_ok pub m :
  zlen (SomeIpMessage.payload m) < 4294967272 ->
  send_message stack pub m
  = Ok (if SOMEIP_MAX_SIZE <? zlen (packet m) then [] else [sent pub (packet m)]).
Proof using Hstack.
  intros Hm. unfold send_message. rewrite <- Hstack, serialize_into_ok, packet_length by done.
  pose proof (zlen_nonneg (SomeIpMessage.payload m)).
  destruct (Z.ltb_spec (zlen stack) (16 + zlen (SomeIpMessage.payload m))); [done|].
  cbn [mbind checked_bind]. guards.
  rewrite <- packet_length. pose proof (zlen_nonneg (stack +! zlen (packet m))).
  rewrite rd_bytes_ok by (first [apply zlen_nonneg | rewrite ?zlen_app; lia]).
  cbn [mbind checked_bind]. rewrite drop_0, take_app_le by (unfold zlen; lia).
  by rewrite take_zlen.
Qed.

Lemma send_small pub m :
  zlen (SomeIpMessage.payload m) <= 1484 ->
  send_message stack pub m = Ok [sent pub (packet m)].
Proof using Hstack.
  intros Hm. rewrite send_message_ok by lia. rewrite packet_length.
  unfold SOMEIP_MAX_SIZE. by guards.
Qed.

Lemma publish_ok pub sig :
  publish stack pub sig
  = Ok (match signal_map pub !! ds_name sig with
        | None => (pub, [])
        | Some r => (with_session pub (u16 (session pub + 1)),
                     [sent pub (signal_packet r (session pub) (ds_value sig))])
        end).
Proof using Hstack.
  unfold publish. destruct (signal_map pub !! ds_name sig) as [[sid mid]|]; [|done].
  unfold next_session. rewrite make_float_ok. cbn [mbind checked_bind].
  rewrite send_small; [done|]. cbn. unfold zlen; cbn; lia.
Qed.

Lemma publish_all_ok pub sigs :
  let l := routed (signal_map pub) sigs in
  publish_all stack pub sigs
  = Ok (with_session pub (match l with [] => session pub | _ => u16 (session pub + zlen l) end),
        map (sent pub) (packets (session pub) l)).
Proof using Hstack.
  cbv zeta. revert pub. induction sigs as [|sig sigs IH]; intros pub; [by destruct pub|].
  cbn [publish_all]. rewrite publish_ok. cbn [mbind checked_bind].
  unfold routed. rewrite bind_cons. fold (routed (signal_map pub) sigs).
  destruct (signal_map pub !! ds_name sig) as [r|] eqn:E; cbn [fst snd]; rewrite IH.
  - cbn [mbind checked_bind fst snd with_session signal_map session sock_fd port dest_addr].
    cbn [app packets map]. do 3 f_equal. unfold with_session. cbn. f_equal.
    destruct (routed (signal_map pub) sigs) as [|x l]; [by rewrite zlen_cons|].
    rewrite (zlen_cons (r, _)). zlia.
  - done.
Qed.

End facts.

Lemma packets_length sess l : length (packets sess l) = length l.
Proof. revert sess. induction l as [|[r v] l IH]; intros; cbn; auto. Qed.

Lemma packets_lookup sess l k r v :
  is_u16 sess -> l !! k = Some (r, v) ->
  packets sess l !! k = Some (signal_packet r (u16 (sess + Z.of_nat k)) v).
Proof.
  revert sess k. induction l as [|[r' v'] l IH]; intros sess k Hs Hk; [done|].
  destruct k as [|k]; cbn in Hk |- *.
  - injection Hk as -> ->. by rewrite Z.add_0_r, u16_small.
  - rewrite (IH _ _ (u16_range _) Hk).
    by replace (u16 (sess + Z.of_nat (S k))) with (u16 (u16 (sess + 1) + Z.of_nat k)) by zlia.
Qed.

Lemma register_routes_ok m n s i :
  routes_ok m -> is_u16 s -> is_u16 i -> routes_ok (<[n := (s, i)]> m).
Proof. intros. by apply map_Forall_insert_2. Qed.

(** A receiver reads a signal's datagram back. *)
Lemma parse_signal_packet r sess v :
  is_u16 r.1 /\ is_u16 r.2 ->
  parse_packet (signal_packet r (u16 sess) v)
  = Some (notification r.1 r.2 (u16 sess) (be32 (f_bits (f_of_double v)))).
Proof. intros [Hr1 Hr2]. apply parse_packet_ok. apply notification_wf; auto with gw. done. Qed.

Lemma routed_ok m sigs r v :
  routes_ok m -> (r, v) ∈ routed m sigs -> is_u16 r.1 /\ is_u16 r.2.
Proof.
  intros Hm Hk. unfold routed in Hk. apply list_elem_of_bind in Hk as (s & Hk & _).
  destruct (m !! ds_name s) as [r'|] eqn:E; [|by apply not_elem_of_nil in Hk].
  apply list_elem_of_singleton in Hk. injection Hk as -> _. by eapply Hm.
Qed.

End PublisherFacts.

(** ** Properties *)
Section properties.
Import SomeIpPublisher SomeIpMessageFacts PublisherSpec PublisherFacts.

(** C13: publishing the decoded signals of a frame never leaves the stack
    buffer and sends exactly one datagram per signal that has a route, in
    order: the route's service and method, the next session number, the
    value rounded to [float].  The k-th datagram carries the session
    number plus k modulo 65536; unregistered signals send nothing and use
    no session number; a receiver reads back each of them. *)
Theorem publisher_publish_correct {T : Target} stack pub sigs :
  zlen stack = SOMEIP_MAX_SIZE -> is_u16 (session pub) -> routes_ok (signal_map pub) ->
  let l := routed (signal_map pub) sigs in
  exists pub' pkts,
    publish_all stack pub sigs
    = Ok (pub', map (fun data => SendTo (sock_fd pub) data (dest_addr pub)) pkts)
    /\ length pkts = length l
    /\ session pub' = u16 (session pub + zlen l)
    /\ signal_map pub' = signal_map pub
    /\ forall k r v, l !! k = Some (r, v) ->
        pkts !! k = Some (signal_packet r (u16 (session pub + Z.of_nat k)) v)
        /\ parse_packet (signal_packet r (u16 (session pub + Z.of_nat k)) v)
           = Some (notification r.1 r.2 (u16 (session pub + Z.of_nat k))
                     (be32 (f_bits (f_of_double v)))).
Proof.
  intros Hst Hs Hr l. eexists _, (packets (session pub) l).
  rewrite (publish_all_ok stack Hst). split; [reflexivity|].
  split; [apply packets_length|]. split.
  { fold l. destruct l; cbn [with_session session]; [|done].
    change (zlen []) with 0. by rewrite Z.add_0_r, u16_small. }
  split; [done|]. intros k r v Hk. split; [by apply packets_lookup|].
  apply parse_signal_packet. eapply routed_ok; [done|]. by eapply list_elem_of_lookup_2.
Qed.

Definition demo_publisher : t :=
  register_signal (register_signal (mk 5 30490 65535 (mk_sockaddr 0x010000EF 30490) ∅)
    "EngineRPM" 0x0101 0x8001) "EngineTemp" 0x0101 0x8002.

Lemma demo_routes_ok : routes_ok (signal_map demo_publisher).
Proof. apply register_routes_ok; [apply register_routes_ok; [apply map_Forall_empty|..]|..]; unfold_ints; lia. Qed.

Lemma publisher_publish_correct_witness :
  exists pub' pkts,
    publish_all (T:=x86_64) (replicate 1500 0xAA) demo_publisher
      [mk_decoded "EngineTemp" (d_of_int 85) "degC"; mk_decoded "Oil" (d_of_int 3) "bar";
       mk_decoded "EngineRPM" (d_of_int 2600) "rpm"]
    = Ok (pub', map (fun data => SendTo 5 data (mk_sockaddr 0x010000EF 30490)) pkts)
    /\ length pkts = 2%nat /\ session pub' = 1
    /\ pkts !! 1%nat = Some [1; 1; 0x80; 1; 0; 0; 0; 12; 0; 0; 0; 0; 1; 1; 2; 0; 0x45; 0x22; 0x80; 0].
Proof.
  destruct (publisher_publish_correct (T:=x86_64) (replicate 1500 0xAA) demo_publisher
    [mk_decoded "EngineTemp" (d_of_int 85) "degC"; mk_decoded "Oil" (d_of_int 3) "bar";
     mk_decoded "EngineRPM" (d_of_int 2600) "rpm"]) as (pub' & pkts & H1 & H2 & H3 & _ & H4);
    [reflexivity | unfold is_u16; cbn; lia | exact demo_routes_ok |].
  exists pub', pkts. split; [exact H1|]. split; [exact H2|].
  split; [rewrite H3; vm_compute; reflexivity|].
  destruct (H4 1%nat (0x0101, 0x8001) (d_of_int 2600)) as [H5 _]; [vm_compute; reflexivity|].
  rewrite H5. vm_compute. reflexivity.
Defined.

End properties.
