(* ===== verification/SomeIpSd.v ===== *)
(** * SOME/IP service discovery messages ([src/src/someip/someip_sd.hpp], [.cpp])

    [SdEntry], [SdOptionIpv4] and [Module SomeIpSdMessage] are the code;
    [sd_packet] is the datagram of the protocol and [parse_sd] and
    [resolve_offers] what a receiver reads from it: the entries, the
    options, and the endpoint each offer refers to. *)

From S2P Require Import Prelude.

Definition SOMEIP_SD_PORT : Z := 30490.
Definition SD_ENTRY_FIND_SERVICE : Z := 0x00.
Definition SD_ENTRY_OFFER_SERVICE : Z := 0x01.
Definition SD_ENTRY_SUBSCRIBE_EVENTGRP : Z := 0x06.
Definition SD_ENTRY_SUBSCRIBE_ACK : Z := 0x07.
Definition SD_OPT_IPV4_ENDPOINT : Z := 0x04.
Definition SD_OPT_IPV4_MULTICAST : Z := 0x14.

(** A call [f(p + pos)] that writes through its pointer: the callee sees the
    suffix of the object. *)
Definition at_offset {A} (buf : list Z) (pos : Z) (f : list Z -> checked (list Z))
    (k : list Z -> checked A) : checked A :=
  if (0 <=? pos) && (pos <=? zlen buf)
  then sub ← f (buf +! pos); k (take (Z.to_nat pos) buf ++ sub)
  else Fault OutOfBounds.

(** ** One entry, 16 bytes *)
Module SdEntry.

Record t := mk {
  type : Z;
  index_first : Z;
  num_opts : Z;
  service_id : Z;
  instance_id : Z;
  major_version : Z;
  ttl : Z;
  minor_version : Z;
  eventgroup_id : Z
}.

(** The default member initialisers. *)
Definition default : t := mk 0 0 0 0 0xFFFF 0x01 3 0 0.

Definition serialize `{Target} (e : t) (buf : list Z) : checked (list Z) :=
  buf ← wr buf 0 (type e);
  buf ← wr buf 1 (index_first e);
  buf ← wr buf 2 (u8 (Z.shiftl (num_opts e) 4));
  buf ← wr buf 3 0;
  buf ← wr_bytes buf 4 (mem16 (htons (service_id e)));
  buf ← wr_bytes buf 6 (mem16 (htons (instance_id e)));
  buf ← wr buf 8 (major_version e);
  buf ← wr buf 9 (Z.land (Z.shiftr (ttl e) 16) 0xFF);
  buf ← wr buf 10 (Z.land (Z.shiftr (ttl e) 8) 0xFF);
  buf ← wr buf 11 (Z.land (ttl e) 0xFF);
  buf ← wr_bytes buf 12 (mem16 (htons (minor_version e)));
  wr_bytes buf 14 (mem16 (htons (eventgroup_id e))).

End SdEntry.

(** ** One IPv4 endpoint option, 12 bytes *)
Module SdOptionIpv4.

Record t := mk { type : Z; ipv4_addr : Z; protocol : Z; port : Z }.

Definition default : t := mk SD_OPT_IPV4_ENDPOINT 0 0x11 0.

Definition serialize `{Target} (o : t) (buf : list Z) : checked (list Z) :=
  buf ← wr_bytes buf 0 (mem16 (htons 9));
  buf ← wr buf 2 (type o);
  buf ← wr buf 3 0;
  buf ← wr_bytes buf 4 (mem32 (ipv4_addr o));
  buf ← wr buf 8 0;
  buf ← wr buf 9 (protocol o);
  wr_bytes buf 10 (mem16 (htons (port o))).

End SdOptionIpv4.

(** ** The message *)
Module SomeIpSdMessage.

Record t := mk { entries : list SdEntry.t; options : list SdOptionIpv4.t }.

Definition empty : t := mk [] [].

Definition add_offer_service (m : t) (service_id ipv4_addr port ttl : Z) : t :=
  let entry := SdEntry.mk SD_ENTRY_OFFER_SERVICE (u8 (zlen (options m))) 1
                 service_id 0x0001 0x01 ttl 0x0000 (SdEntry.eventgroup_id SdEntry.default) in
  let opt := SdOptionIpv4.mk SD_OPT_IPV4_ENDPOINT ipv4_addr 0x11 port in
  mk (entries m ++ [entry]) (options m ++ [opt]).

Definition add_subscribe_ack (m : t) (service_id eventgroup_id : Z) : t :=
  let entry := SdEntry.mk SD_ENTRY_SUBSCRIBE_ACK (SdEntry.index_first SdEntry.default) 0
                 service_id 0x0001 0x01 3 (SdEntry.minor_version SdEntry.default)
                 eventgroup_id in
  mk (entries m ++ [entry]) (options m).

Section code.
Context {T : Target}.

Fixpoint write_entries (buf : list Z) (pos : Z) (es : list SdEntry.t) : checked (list Z * Z) :=
  match es with
  | [] => Ok (buf, pos)
  | e :: es =>
      at_offset buf pos (SdEntry.serialize e) (fun buf => write_entries buf (sz (pos + 16)) es)
  end.

Fixpoint write_options (buf : list Z) (pos : Z) (os : list SdOptionIpv4.t) : checked (list Z * Z) :=
  match os with
  | [] => Ok (buf, pos)
  | o :: os =>
      at_offset buf pos (SdOptionIpv4.serialize o) (fun buf => write_options buf (sz (pos + 12)) os)
  end.

Definition serialize (m : t) (session_id : Z) : checked (list Z) :=
  let entries_len := sz (zlen (entries m) * 16) in
  let options_len := sz (zlen (options m) * 12) in
  let total := sz (16 + 4 + 4 + entries_len + 4 + options_len) in
  let p := replicate (Z.to_nat total) 0 in
  p ← wr p 0 0xFF; p ← wr p 1 0xFF;
  p ← wr p 2 0x81; p ← wr p 3 0x00;
  p ← wr_bytes p 4 (mem32 (htonl (u32 (sz (total - 8)))));
  p ← wr p 8 0x00; p ← wr p 9 0x00;
  p ← wr_bytes p 10 (mem16 (htons session_id));
  p ← wr p 12 0x01; p ← wr p 13 0x01; p ← wr p 14 0x02; p ← wr p 15 0x00;
  p ← wr p 16 0xC0; p ← wr p 17 0x00; p ← wr p 18 0x00; p ← wr p 19 0x00;
  p ← wr_bytes p 20 (mem32 (htonl (u32 entries_len)));
  r ← write_entries p 24 (entries m);
  let '(p, pos) := r in
  p ← wr_bytes p pos (mem32 (htonl (u32 options_len)));
  r ← write_options p (sz (pos + 4)) (options m);
  Ok r.1.

End code.
End SomeIpSdMessage.

(** ** The datagram of the protocol *)
Module SdSpec.

Definition entry_bytes (e : SdEntry.t) : list Z :=
  [SdEntry.type e; SdEntry.index_first e; u8 (SdEntry.num_opts e * 16); 0]
  ++ be16 (SdEntry.service_id e) ++ be16 (SdEntry.instance_id e)
  ++ [SdEntry.major_version e] ++ be24 (SdEntry.ttl e)
  ++ be16 (SdEntry.minor_version e) ++ be16 (SdEntry.eventgroup_id e).

Definition option_bytes `{Target} (o : SdOptionIpv4.t) : list Z :=
  be16 9 ++ [SdOptionIpv4.type o; 0] ++ mem32 (SdOptionIpv4.ipv4_addr o)
  ++ [0; SdOptionIpv4.protocol o] ++ be16 (SdOptionIpv4.port o).

Definition sd_header (session_id len : Z) : list Z :=
  [0xFF; 0xFF; 0x81; 0x00] ++ be32 len ++ [0x00; 0x00] ++ be16 session_id
  ++ [0x01; 0x01; 0x02; 0x00] ++ [0xC0; 0x00; 0x00; 0x00].

Definition sd_packet `{Target} (m : SomeIpSdMessage.t) (session_id : Z) : list Z :=
  let es := SomeIpSdMessage.entries m in
  let os := SomeIpSdMessage.options m in
  sd_header session_id (20 + 16 * zlen es + 12 * zlen os)
  ++ be32 (16 * zlen es) ++ (es ≫= entry_bytes)
  ++ be32 (12 * zlen os) ++ (os ≫= option_bytes).

(** A receiver: entries, options, and the message around them. *)
Fixpoint parse_entries (l : list Z) : option (list SdEntry.t) :=
  match l with
  | [] => Some []
  | b0 :: b1 :: b2 :: b3 :: b4 :: b5 :: b6 :: b7 :: b8 :: b9 :: b10 :: b11
      :: b12 :: b13 :: b14 :: b15 :: l =>
      es ← parse_entries l;
      Some (SdEntry.mk b0 b1 (b2 / 16) (be_val [b4; b5]) (be_val [b6; b7]) b8
              (be_val [b9; b10; b11]) (be_val [b12; b13]) (be_val [b14; b15]) :: es)
  | _ => None
  end.

Fixpoint parse_options `{Target} (l : list Z) : option (list SdOptionIpv4.t) :=
  match l with
  | [] => Some []
  | _ :: _ :: b2 :: b3 :: b4 :: b5 :: b6 :: b7 :: b8 :: b9 :: b10 :: b11 :: l =>
      os ← parse_options l;
      Some (SdOptionIpv4.mk b2 (load [b4; b5; b6; b7]) b9 (be_val [b10; b11]) :: os)
  | _ => None
  end.

Definition parse_sd `{Target} (l : list Z) : option (Z * SomeIpSdMessage.t) :=
  let elen := be_val (take 4 (l +! 20)) in
  let rest := l +! (24 + elen) in
  let olen := be_val (take 4 rest) in
  if bool_decide (take 4 l = [0xFF; 0xFF; 0x81; 0x00])
     && (be_val (take 4 (l +! 4)) =? zlen l - 8)
     && (24 + elen + 4 + olen =? zlen l)
  then
    es ← parse_entries (take (Z.to_nat elen) (l +! 24));
    os ← parse_options (take (Z.to_nat olen) (rest +! 4));
    Some (be_val (take 2 (l +! 10)), SomeIpSdMessage.mk es os)
  else None.

(** What a client learns of an offer: service, address, port, lifetime. *)
Record offer := mk_offer { o_service : Z; o_addr : Z; o_port : Z; o_ttl : Z }.

(** The endpoint of an offer entry is the option its index names. *)
Definition resolve (os : list SdOptionIpv4.t) (e : SdEntry.t) : option offer :=
  if SdEntry.type e =? SD_ENTRY_OFFER_SERVICE then
    o ← os !! Z.to_nat (SdEntry.index_first e);
    Some (mk_offer (SdEntry.service_id e) (SdOptionIpv4.ipv4_addr o) (SdOptionIpv4.port o)
            (SdEntry.ttl e))
  else None.

Definition received_offers `{Target} (l : list Z) : option (list offer) :=
  r ← parse_sd l;
  mapM (resolve (SomeIpSdMessage.options r.2)) (SomeIpSdMessage.entries r.2).

Definition entry_wf (e : SdEntry.t) : Prop :=
  is_u8 (SdEntry.type e) /\ is_u8 (SdEntry.index_first e) /\ 0 <= SdEntry.num_opts e < 16
  /\ is_u16 (SdEntry.service_id e) /\ is_u16 (SdEntry.instance_id e)
  /\ is_u8 (SdEntry.major_version e) /\ 0 <= SdEntry.ttl e < 16777216
  /\ is_u16 (SdEntry.minor_version e) /\ is_u16 (SdEntry.eventgroup_id e).

Definition option_wf (o : SdOptionIpv4.t) : Prop :=
  is_u8 (SdOptionIpv4.type o) /\ is_u32 (SdOptionIpv4.ipv4_addr o)
  /\ is_u8 (SdOptionIpv4.protocol o) /\ is_u16 (SdOptionIpv4.port o).

Definition message_wf (m : SomeIpSdMessage.t) : Prop :=
  Forall entry_wf (SomeIpSdMessage.entries m) /\ Forall option_wf (SomeIpSdMessage.options m)
  /\ zlen (SomeIpSdMessage.entries m) <= 65536 /\ zlen (SomeIpSdMessage.options m) <= 65536.

End SdSpec.

(** ** Lemmas *)
Module SdFacts.
Import SomeIpSdMessage SdSpec.

Lemma at_offset_app {A} pre suf f (k : list Z -> checked A) pos :
  pos = zlen pre ->
  at_offset (pre ++ suf) pos f k = (sub ← f suf; k (pre ++ sub)).
Proof.
  intros ->. unfold at_offset. rewrite (proj2 (Z.leb_le _ _)) by apply zlen_nonneg.
  rewrite (proj2 (Z.leb_le _ _)) by (rewrite zlen_app; pose proof (zlen_nonneg suf); lia).
  cbn [andb]. unfold zlen. by rewrite Nat2Z.id, drop_app_length, take_app_length.
Qed.

Section code.
Context {T : Target}.

Lemma load_mem32 x : is_u32 x -> load (mem32 x) = x.
Proof.
  intros Hx. unfold load, mem32. destruct order.
  - rewrite be32_div. cbn [rev app le_val]. zlia.
  - rewrite be32_val. by apply u32_small.
Qed.

Lemma mem32_list x : exists a b c d, mem32 x = [a; b; c; d].
Proof. unfold mem32. destruct order; do 4 eexists; reflexivity. Qed.

Lemma entry_serialize_ok e (old post : list Z) :
  length old = 16%nat -> SdEntry.serialize e (old ++ post) = Ok (entry_bytes e ++ post).
Proof.
  intros Ho. do 16 (destruct old as [|? old]; [discriminate Ho|]). destruct old; [|discriminate Ho].
  unfold SdEntry.serialize. rewrite !memcpy_htons. cbn [app]. unfold be16.
  cbn [wr_bytes Z.add Pos.add Pos.succ Pos.add_carry]. mem_red.
  unfold entry_bytes, be16, be24, byte_at. rewrite !Z.shiftr_0_r.
  rewrite Z.shiftl_mul_pow2 by lia. done.
Qed.

Lemma option_serialize_ok o (old post : list Z) :
  length old = 12%nat -> SdOptionIpv4.serialize o (old ++ post) = Ok (option_bytes o ++ post).
Proof.
  intros Ho. do 12 (destruct old as [|? old]; [discriminate Ho|]). destruct old; [|discriminate Ho].
  unfold SdOptionIpv4.serialize, option_bytes. rewrite !memcpy_htons.
  destruct (mem32_list (SdOptionIpv4.ipv4_addr o)) as (a & b & c & d & ->).
  cbn [app]. unfold be16. cbn [wr_bytes Z.add Pos.add Pos.succ Pos.add_carry]. mem_red. done.
Qed.

Lemma entry_bytes_length e : length (entry_bytes e) = 16%nat.
Proof. done. Qed.
Lemma option_bytes_length o : length (option_bytes o) = 12%nat.
Proof. unfold option_bytes. rewrite !length_app, mem32_length. done. Qed.

Lemma entries_length es : zlen (es ≫= entry_bytes) = 16 * zlen es.
Proof.
  induction es as [|e es IH]; [done|]. rewrite bind_cons, zlen_app, zlen_cons, IH.
  unfold zlen at 1. rewrite entry_bytes_length. lia.
Qed.
Lemma options_length os : zlen (os ≫= option_bytes) = 12 * zlen os.
Proof.
  induction os as [|o os IH]; [done|]. rewrite bind_cons, zlen_app, zlen_cons, IH.
  unfold zlen at 1. rewrite option_bytes_length. lia.
Qed.

(** A serialiser of fixed-size items in sequence. *)
Lemma split_item {A} n (old : list A) k :
  length old = (n + k)%nat ->
  exists o1 o2, old = o1 ++ o2 /\ length o1 = n /\ length o2 = k.
Proof.
  intros Hl. exists (take n old), (drop n old).
  rewrite take_drop, length_take, length_drop. split_and!; [done|lia..].
Qed.

Lemma write_entries_ok es : forall pre old post pos,
  pos = zlen pre -> length old = (16 * length es)%nat -> zlen pre + 16 * zlen es < 4294967296 ->
  write_entries (pre ++ old ++ post) pos es
  = Ok (pre ++ (es ≫= entry_bytes) ++ post, pos + 16 * zlen es).
Proof.
  induction es as [|e es IH]; intros pre old post pos -> Ho Hs.
  - destruct old; [|discriminate]. cbn. by rewrite Z.add_0_r.
  - destruct (split_item 16 old (16 * length es)) as (o1 & o2 & -> & H1 & H2); [cbn in *; lia|].
    rewrite zlen_cons in *. pose proof (zlen_nonneg es). pose proof (zlen_nonneg pre).
    cbn [write_entries]. rewrite at_offset_app, <- app_assoc, entry_serialize_ok by done.
    cbn [mbind checked_bind]. rewrite sz_small, app_assoc by lia.
    assert (zlen (pre ++ entry_bytes e) = zlen pre + 16) as Hp by (by rewrite zlen_app).
    rewrite (IH (pre ++ entry_bytes e) o2 post) by (done || lia).
    rewrite bind_cons, <- !app_assoc. do 2 f_equal. lia.
Qed.

Lemma write_options_ok os : forall pre old post pos,
  pos = zlen pre -> length old = (12 * length os)%nat -> zlen pre + 12 * zlen os < 4294967296 ->
  write_options (pre ++ old ++ post) pos os
  = Ok (pre ++ (os ≫= option_bytes) ++ post, pos + 12 * zlen os).
Proof.
  induction os as [|o os IH]; intros pre old post pos -> Ho Hs.
  - destruct old; [|discriminate]. cbn. by rewrite Z.add_0_r.
  - destruct (split_item 12 old (12 * length os)) as (o1 & o2 & -> & H1 & H2); [cbn in *; lia|].
    rewrite zlen_cons in *. pose proof (zlen_nonneg os). pose proof (zlen_nonneg pre).
    cbn [write_options]. rewrite at_offset_app, <- app_assoc, option_serialize_ok by done.
    cbn [mbind checked_bind]. rewrite sz_small, app_assoc by lia.
    assert (zlen (pre ++ option_bytes o) = zlen pre + 12) as Hp.
    { rewrite zlen_app. unfold zlen at 2. by rewrite option_bytes_length. }
    rewrite (IH (pre ++ option_bytes o) o2 post) by (done || lia).
    rewrite bind_cons, <- !app_assoc. do 2 f_equal. lia.
Qed.

Lemma header_writes (old post : list Z) len session_id elen :
  length old = 24%nat ->
  (let p := old ++ post in
   p ← wr p 0 0xFF; p ← wr p 1 0xFF;
   p ← wr p 2 0x81; p ← wr p 3 0x00;
   p ← wr_bytes p 4 (mem32 (htonl len));
   p ← wr p 8 0x00; p ← wr p 9 0x00;
   p ← wr_bytes p 10 (mem16 (htons session_id));
   p ← wr p 12 0x01; p ← wr p 13 0x01; p ← wr p 14 0x02; p ← wr p 15 0x00;
   p ← wr p 16 0xC0; p ← wr p 17 0x00; p ← wr p 18 0x00; p ← wr p 19 0x00;
   wr_bytes p 20 (mem32 (htonl elen)))
  = Ok ((sd_header session_id len ++ be32 elen) ++ post).
Proof.
  intros Ho. do 24 (destruct old as [|? old]; [discriminate Ho|]). destruct old; [|discriminate Ho].
  cbv zeta. rewrite !memcpy_htonl, memcpy_htons. cbn [app]. unfold be16, be32.
  cbn [wr_bytes Z.add Pos.add Pos.succ Pos.add_carry]. mem_red. done.
Qed.

Lemma zlen_replicate {A} n (x : A) : 0 <= n -> zlen (replicate (Z.to_nat n) x) = n.
Proof. intros. unfold zlen. rewrite length_replicate. lia. Qed.

Lemma sd_serialize_ok m session_id :
  zlen (entries m) <= 65536 -> zlen (options m) <= 65536 ->
  serialize m session_id = Ok (sd_packet m session_id).
Proof.
  intros He Ho. unfold serialize.
  pose proof (zlen_nonneg (entries m)). pose proof (zlen_nonneg (options m)).
  rewrite !(sz_small (zlen _ * _)), (sz_small (16 + _ + _ + _ + _ + _)) by lia.
  cbv zeta. rewrite sz_small, !u32_small by (unfold is_u32; lia).
  set (n := length (entries m)). set (k := length (options m)).
  replace (Z.to_nat _) with (24 + (16 * n + (4 + 12 * k)))%nat by (unfold zlen, n, k; lia).
  rewrite !replicate_add.
  pose proof (header_writes (replicate 24 0)
    (replicate (16 * n) 0 ++ replicate 4 0 ++ replicate (12 * k) 0)
    (16 + 4 + 4 + zlen (entries m) * 16 + 4 + zlen (options m) * 12 - 8) session_id
    (zlen (entries m) * 16) eq_refl) as Hw.
  cbv zeta in Hw. apply (f_equal (fun c => p ← c; r ← write_entries p 24 (entries m);
    let '(p, pos) := r in
    p ← wr_bytes p pos (mem32 (htonl (zlen (options m) * 12)));
    r ← write_options p (sz (pos + 4)) (options m); Ok r.1)) in Hw.
  etransitivity; [etransitivity; [|exact Hw]|].
  { repeat (match goal with |- context [mbind _ ?c = _] => destruct c end;
            cbn [mbind checked_bind]; try done). }
  cbn [mbind checked_bind]. clear Hw.
  assert (forall a b c, zlen (sd_header a b ++ be32 c) = 24) as Hh by done.
  rewrite write_entries_ok by (rewrite ?Hh, ?length_replicate; first [done|lia]).
  cbn [mbind checked_bind]. rewrite memcpy_htonl, app_assoc.
  rewrite wr_bytes_app;
    [|rewrite zlen_app, entries_length, Hh; lia|done].
  cbn [mbind checked_bind]. rewrite sz_small by lia.
  rewrite app_assoc. rewrite <- (app_nil_r (replicate (12 * k) 0)).
  rewrite write_options_ok.
  - cbn [mbind checked_bind fst]. unfold sd_packet. rewrite app_nil_r, <- !app_assoc.
    do 2 f_equal; [f_equal; lia|]. repeat (f_equal; try lia).
  - rewrite !(zlen_app (_ ++ _)), entries_length, Hh, zlen_be32. lia.
  - rewrite length_replicate. done.
  - rewrite !(zlen_app (_ ++ _)), entries_length, Hh, zlen_be32. lia.
Qed.

Lemma parse_entries_ok es : Forall entry_wf es -> parse_entries (es ≫= entry_bytes) = Some es.
Proof.
  induction 1 as [|e es (? & ? & ? & ? & ? & ? & ? & ? & ?) _ IH]; [done|].
  rewrite bind_cons. unfold entry_bytes at 1, be16, be24. cbn [app parse_entries].
  rewrite IH. cbn [mbind option_bind].
  fold (be16 (SdEntry.service_id e)) (be16 (SdEntry.instance_id e)) (be24 (SdEntry.ttl e))
    (be16 (SdEntry.minor_version e)) (be16 (SdEntry.eventgroup_id e)).
  rewrite !be16_val, be24_val, !u16_small, (Z.mod_small (SdEntry.ttl e)) by done.
  rewrite u8_small, Z.div_mul by (unfold_ints; lia). by destruct e.
Qed.

Lemma parse_options_ok os : Forall option_wf os -> parse_options (os ≫= option_bytes) = Some os.
Proof.
  induction 1 as [|o os (? & ? & ? & ?) _ IH]; [done|].
  rewrite bind_cons. unfold option_bytes at 1, be16.
  pose proof (load_mem32 (SdOptionIpv4.ipv4_addr o)) as Hl.
  destruct (mem32_list (SdOptionIpv4.ipv4_addr o)) as (a & b & c & d & E). rewrite E in *.
  cbn [app parse_options]. rewrite IH. cbn [mbind option_bind].
  fold (be16 (SdOptionIpv4.port o)). rewrite be16_val, u16_small, Hl by done.
  by destruct o.
Qed.

Lemma drop_zlen {A} (l k : list A) n : n = zlen l -> (l ++ k) +! n = k.
Proof. intros ->. unfold zlen. by rewrite Nat2Z.id, drop_app_length. Qed.

Lemma take_zlen_app {A} (l k : list A) n : n = zlen l -> take (Z.to_nat n) (l ++ k) = l.
Proof. intros ->. unfold zlen. by rewrite Nat2Z.id, take_app_length. Qed.

Lemma parse_sd_ok m s : is_u16 s -> message_wf m -> parse_sd (sd_packet m s) = Some (s, m).
Proof.
  intros Hs (He & Ho & Hen & Hon). unfold parse_sd.
  pose proof (zlen_nonneg (entries m)). pose proof (zlen_nonneg (options m)).
  assert (zlen (sd_packet m s) = 28 + 16 * zlen (entries m) + 12 * zlen (options m)) as Hl.
  { unfold sd_packet, sd_header. rewrite !zlen_app, entries_length, options_length.
    autorewrite with zlen. lia. }
  assert (sd_packet m s +! 24 = (entries m ≫= entry_bytes)
            ++ be32 (12 * zlen (options m)) ++ (options m ≫= option_bytes)) as H24 by done.
  assert (be_val (take 4 (sd_packet m s +! 20)) = 16 * zlen (entries m)) as ->.
  { change (take 4 _) with (be32 (16 * zlen (entries m))).
    rewrite be32_val. apply u32_small. unfold is_u32. lia. }
  rewrite Z2Nat.inj_add, <- drop_drop, H24, drop_zlen by (rewrite ?entries_length; lia).
  assert (be_val (take 4 (be32 (12 * zlen (options m)) ++ (options m ≫= option_bytes)))
          = 12 * zlen (options m)) as ->.
  { change (take 4 _) with (be32 (12 * zlen (options m))).
    rewrite be32_val. apply u32_small. unfold is_u32. lia. }
  change (take 4 (sd_packet m s +! 4))
    with (be32 (20 + 16 * zlen (entries m) + 12 * zlen (options m))).
  change (take 4 (sd_packet m s)) with [0xFF; 0xFF; 0x81; 0x00].
  change (take 2 (sd_packet m s +! 10)) with (be16 s).
  rewrite be32_val, u32_small, Hl, bool_decide_eq_true_2 by (done || (unfold is_u32; lia)).
  guards. cbn [andb].
  rewrite take_zlen_app by (rewrite entries_length; lia). rewrite parse_entries_ok by done.
  cbn [mbind option_bind].
  change ((be32 (12 * zlen (options m)) ++ (options m ≫= option_bytes)) +! 4)
    with (options m ≫= option_bytes).
  rewrite take_ge, parse_options_ok by
    (done || (pose proof (options_length (options m)); unfold zlen in *; lia)).
  cbn [mbind option_bind]. rewrite be16_val, u16_small by done. by destruct m.
Qed.

End code.
End SdFacts.

(** ** Properties *)
Section properties.
Import SomeIpSdMessage SdSpec SdFacts.

(** C18: serialising a service-discovery message never leaves its buffer,
    fills it exactly (28 bytes plus 16 per entry and 12 per option) and is
    inverted by a receiver that checks every length field: it reads back
    the session number, all entries and all options. *)
Theorem sd_serialize_roundtrip {T : Target} m s :
  is_u16 s -> message_wf m ->
  exists pkt,
    serialize m s = Ok pkt
    /\ zlen pkt = 28 + 16 * zlen (entries m) + 12 * zlen (options m)
    /\ parse_sd pkt = Some (s, m).
Proof.
  intros Hs Hm. pose proof Hm as (_ & _ & He & Ho). exists (sd_packet m s).
  split; [by apply sd_serialize_ok|]. split; [|by apply parse_sd_ok].
  unfold sd_packet, sd_header. rewrite !zlen_app, entries_length, options_length.
  autorewrite with zlen. lia.
Qed.

Definition demo_message : t :=
  add_subscribe_ack (add_offer_service empty 0x0101 0x6401A8C0 30501 3) 0x0102 0x0001.

Lemma sd_serialize_roundtrip_witness :
  exists pkt, serialize (T:=armv7) demo_message 7 = Ok pkt /\ zlen pkt = 72
    /\ parse_sd (H:=armv7) pkt = Some (7, demo_message)
    /\ take 4 (drop 64 pkt) = [192; 168; 1; 100].
Proof.
  destruct (sd_serialize_roundtrip (T:=armv7) demo_message 7) as (pkt & H1 & H2 & H3).
  - unfold is_u16; lia.
  - split_and!; [repeat (apply Forall_cons_2 || apply Forall_nil_2).. | |];
      repeat split; vm_compute; first [reflexivity | discriminate].
  - exists pkt. split; [exact H1|]. split; [exact H2|]. split; [exact H3|].
    vm_compute in H1. by injection H1 as <-.
Defined.

End properties.
