(* ===== verification/SomeIpSdService.v ===== *)
(** * SOME/IP service discovery ([src/src/someip/someip_sd_service.hpp], [.cpp])

    [Module SomeIpSdService] is the class: the offers it announces, the
    receive callback on its 1500-byte stack buffer and the walk over the
    entries array of an incoming message.  [Module SdServiceSpec] says what
    an incoming datagram asks for and what is sent in answer. *)

From S2P Require Import Prelude Floats Types SomeIpSd.

Module SomeIpSdService.

Record OfferedService := mk_offered { of_service : Z; of_addr : Z; of_port : Z }.

Record Subscriber := mk_subscriber {
  sub_addr : sockaddr_in;
  sub_service : Z;
  sub_eventgroup : Z
}.

(** [on_subscribe] is set or empty. *)
Record t := mk {
  sock_fd : Z;
  session : Z;
  offered : list OfferedService;
  subscribers : list Subscriber;
  on_subscribe : bool
}.

(** Calls on the network, and of the [on_subscribe] callback. *)
Variant action := Net (a : net_action) | OnSubscribe (sub : Subscriber).

(** What [recvfrom] finds: an error, or a datagram and its sender. *)
Variant input := RecvFailed | Datagram (data : list Z) (from : sockaddr_in).

(** The constructor, from the results of [socket] and [bind]. *)
Definition construct (sock_res bind_res : Z) : t + string :=
  if sock_res <? 0 then inr "SD socket failed: "%string
  else if bind_res <? 0 then inr "SD bind failed: "%string
  else inl (mk sock_res 1 [] [] false).

Definition destroy (srv : t) : list action :=
  if 0 <=? sock_fd srv then [Net (CloseSocket (sock_fd srv))] else [].

Definition register_with_loop (srv : t) : list action := [Net (WatchSocket (sock_fd srv))].

(** [addr] is [inet_addr(local_ip.c_str())]. *)
Definition offer_service (srv : t) (service_id addr port : Z) : t :=
  mk (sock_fd srv) (session srv) (offered srv ++ [mk_offered service_id addr port])
    (subscribers srv) (on_subscribe srv).

(** Assigning the [on_subscribe] member. *)
Definition set_on_subscribe (srv : t) : t :=
  mk (sock_fd srv) (session srv) (offered srv) (subscribers srv) true.

(** The default argument of [add_offer_service]. *)
Definition DEFAULT_TTL : Z := 3.

Definition bump_session (srv : t) : t :=
  mk (sock_fd srv) (u16 (session srv + 1)) (offered srv) (subscribers srv) (on_subscribe srv).

Section code.
Context {T : Target}.

(** [inet_addr(SOMEIP_SD_MULTICAST)]: the four bytes of the address in
    memory order. *)
Definition sd_group : sockaddr_in := mk_sockaddr (load [224; 224; 224; 245]) SOMEIP_SD_PORT.

Definition send_offers (srv : t) : checked (t * list action) :=
  match offered srv with
  | [] => Ok (srv, [])
  | svcs =>
      let sd_msg := fold_left (fun m svc =>
        SomeIpSdMessage.add_offer_service m (of_service svc) (of_addr svc) (of_port svc) DEFAULT_TTL)
        svcs SomeIpSdMessage.empty in
      data ← SomeIpSdMessage.serialize sd_msg (session srv);
      Ok (bump_session srv, [Net (SendTo (sock_fd srv) data sd_group)])
  end.

Definition send_subscribe_ack (srv : t) (to : sockaddr_in) (service_id eventgroup_id : Z)
  : checked (t * list action) :=
  let ack := SomeIpSdMessage.add_subscribe_ack SomeIpSdMessage.empty service_id eventgroup_id in
  data ← SomeIpSdMessage.serialize ack (session srv);
  Ok (bump_session srv, [Net (SendTo (sock_fd srv) data to)]).

(** The [while] loop of [handle_sd_message]. *)
Fixpoint entry_loop (fuel : nat) (srv : t) (buf : list Z) (len entries_end pos : Z)
    (from : sockaddr_in) : checked (t * list action) :=
  if (sz (pos + 16) <=? entries_end) && (sz (pos + 16) <=? len) then
    match fuel with
    | O => Fault OutOfFuel
    | S fuel =>
        entry_type ← rd buf pos;
        svc ← rd_bytes buf (pos + 4) 2;
        let entry_svc_id := htons (load svc) in
        evg ← rd_bytes buf (pos + 14) 2;
        let eventgroup_id := htons (load evg) in
        step ← (if entry_type =? SD_ENTRY_SUBSCRIBE_EVENTGRP then
                  let sub := mk_subscriber from entry_svc_id eventgroup_id in
                  let srv := mk (sock_fd srv) (session srv) (offered srv)
                               (subscribers srv ++ [sub]) (on_subscribe srv) in
                  acked ← send_subscribe_ack srv from entry_svc_id eventgroup_id;
                  Ok (acked.1, acked.2 ++ (if on_subscribe acked.1 then [OnSubscribe sub] else []))
                else Ok (srv, []));
        rest ← entry_loop fuel step.1 buf len entries_end (sz (pos + 16)) from;
        Ok (rest.1, step.2 ++ rest.2)
    end
  else Ok (srv, []).

(** A datagram of 1500 bytes holds at most 92 entries. *)
Definition loop_fuel : nat := 93.

Definition handle_sd_message (srv : t) (buf : list Z) (len : Z) (from : sockaddr_in)
  : checked (t * list action) :=
  if len <? 28 then Ok (srv, [])
  else
    b0 ← rd buf 0; b1 ← rd buf 1; b2 ← rd buf 2; b3 ← rd buf 3;
    let svc_id := u16 (Z.lor (Z.shiftl b0 8) b1) in
    let met_id := u16 (Z.lor (Z.shiftl b2 8) b3) in
    if negb (svc_id =? 0xFFFF) || negb (met_id =? 0x8100) then Ok (srv, [])
    else
      let pos := 16 + 4 in
      raw ← rd_bytes buf pos 4;
      let entries_len := htonl (load raw) in
      let pos := pos + 4 in
      let entries_end := sz (pos + entries_len) in
      entry_loop loop_fuel srv buf len entries_end pos from.

(** [stack]: what the 1500-byte buffer holds before the call. *)
Definition on_readable (stack : list Z) (srv : t) (inp : input) : checked (t * list action) :=
  match inp with
  | RecvFailed => Ok (srv, [])
  | Datagram data from =>
      let got := take 1500 data in
      buf ← wr_bytes stack 0 got;
      handle_sd_message srv buf (zlen got) from
  end.

End code.
End SomeIpSdService.

(** ** What a datagram asks for *)
Module SdServiceSpec.
Import SomeIpSdService SdSpec.

(** Type, service and eventgroup of the complete entries of a byte string. *)
Fixpoint entry_fields (l : list Z) : list (Z * Z * Z) :=
  match l with
  | b0 :: b1 :: b2 :: b3 :: b4 :: b5 :: b6 :: b7 :: b8 :: b9 :: b10 :: b11
      :: b12 :: b13 :: b14 :: b15 :: l =>
      (b0, be_val [b4; b5], be_val [b14; b15]) :: entry_fields l
  | _ => []
  end.

Definition subscriptions_of (fields : list (Z * Z * Z)) : list (Z * Z) :=
  fields ≫= fun '(ty, svc, evg) => if ty =? SD_ENTRY_SUBSCRIBE_EVENTGRP then [(svc, evg)] else [].

Section spec.
Context {T : Target}.

(** The subscriptions a datagram asks for: those of the entries array,
    as far as it was received. *)
Definition subscriptions (l : list Z) : list (Z * Z) :=
  if (28 <=? zlen l) && bool_decide (take 4 l = [0xFF; 0xFF; 0x81; 0x00]) then
    let entries_len := be_val (take 4 (l +! 20)) in
    subscriptions_of (entry_fields (take (Z.to_nat (sz (24 + entries_len) - 24)) (l +! 24)))
  else [].

Definition ack_message (svc evg : Z) : SomeIpSdMessage.t :=
  SomeIpSdMessage.mk
    [SdEntry.mk SD_ENTRY_SUBSCRIBE_ACK 0 0 svc 0x0001 0x01 3 0 evg] [].

(** Each subscription is recorded, acknowledged to its sender with the next
    session number, and reported. *)
Fixpoint answer (srv : t) (from : sockaddr_in) (subs : list (Z * Z)) : t * list action :=
  match subs with
  | [] => (srv, [])
  | (svc, evg) :: subs =>
      let sub := mk_subscriber from svc evg in
      let srv' := mk (sock_fd srv) (u16 (session srv + 1)) (offered srv)
                    (subscribers srv ++ [sub]) (on_subscribe srv) in
      let rest := answer srv' from subs in
      (rest.1,
       [Net (SendTo (sock_fd srv) (sd_packet (ack_message svc evg) (session srv)) from)]
       ++ (if on_subscribe srv then [OnSubscribe sub] else []) ++ rest.2)
  end.

End spec.
End SdServiceSpec.

(** ** Lemmas *)
Module SdServiceFacts.
Import SomeIpSdService SdSpec SdFacts SdServiceSpec.

Lemma rd_bytes_drop buf pos i n :
  0 <= pos <= zlen buf -> 0 <= i -> rd_bytes buf (pos + i) n = rd_bytes (buf +! pos) i n.
Proof.
  intros Hp Hi. unfold rd_bytes. rewrite length_drop, drop_drop.
  replace (Z.to_nat pos + Z.to_nat i)%nat with (Z.to_nat (pos + i)) by lia.
  unfold zlen in Hp.
  destruct (Z.leb_spec 0 (pos + i)), (Z.leb_spec 0 i), (Z.leb_spec 0 n); try lia; cbn [andb]; try done.
  destruct (Z.leb_spec (pos + i + n) (Z.of_nat (length buf))),
    (Z.leb_spec (i + n) (Z.of_nat (length buf - Z.to_nat pos))); try lia; done.
Qed.

Lemma entry_fields_short l : zlen l < 16 -> entry_fields l = [].
Proof.
  intros Hl. do 16 (destruct l as [|? l]; [done|]).
  exfalso. autorewrite with zlen in Hl. pose proof (zlen_nonneg l). lia.
Qed.

Section facts.
Context {T : Target}.

Lemma send_ack_ok srv to svc evg :
  send_subscribe_ack srv to svc evg
  = Ok (bump_session srv,
        [Net (SendTo (sock_fd srv) (sd_packet (ack_message svc evg) (session srv)) to)]).
Proof. unfold send_subscribe_ack. by rewrite sd_serialize_ok by (unfold zlen; cbn; lia). Qed.

(** The part of the entries array still to be read at [pos]. *)
Definition remaining (buf : list Z) (len entries_end pos : Z) : list Z :=
  take (Z.to_nat (Z.min entries_end len - pos)) (buf +! pos).

Lemma entry_loop_ok buf len entries_end from :
  bytes buf -> len <= zlen buf -> len <= 1500 ->
  forall fuel srv pos,
  24 <= pos <= 1500 + 16 -> pos <= zlen buf \/ len < pos + 16 -> len - pos < 16 * Z.of_nat fuel + 16 ->
  entry_loop fuel srv buf len entries_end pos from
  = Ok (answer srv from (subscriptions_of (entry_fields (remaining buf len entries_end pos)))).
Proof.
  intros Hb Hlen Hmax. induction fuel as [|fuel IH]; intros srv pos Hpos Hin Hfuel;
    cbn [entry_loop]; rewrite sz_small by lia.
  - rewrite (proj2 (Z.leb_gt (pos + 16) len)), andb_false_r by lia.
    rewrite entry_fields_short; [done|].
    unfold remaining, zlen. rewrite length_take. lia.
  - destruct (Z.leb_spec (pos + 16) entries_end) as [He|He];
      [destruct (Z.leb_spec (pos + 16) len) as [Hl|Hl]|]; cbn [andb];
      [|rewrite entry_fields_short; [done|unfold remaining, zlen; rewrite length_take; lia]..].
    assert (zlen (buf +! pos) = zlen buf - pos) as Hz by (apply zlen_drop; lia).
    replace pos with (pos + 0) at 1 by lia. rewrite <- rd_drop by lia.
    rewrite !rd_bytes_drop by lia.
    assert (remaining buf len entries_end pos
            = take 16 (buf +! pos) ++ remaining buf len entries_end (pos + 16)) as Hr.
    { unfold remaining. rewrite Z2Nat.inj_add, <- drop_drop by lia. change (Z.to_nat 16) with 16%nat.
      replace (Z.to_nat (Z.min entries_end len - pos))
        with (16 + Z.to_nat (Z.min entries_end len - (pos + 16)))%nat by lia.
      by rewrite take_take_drop. }
    rewrite Hr. assert (bytes (buf +! pos)) as Hs by (by apply bytes_drop).
    destruct (buf +! pos) as [|b0 s] eqn:Es; [exfalso; unfold zlen in *; cbn in *; lia|].
    do 15 (destruct s as [|? s]; [exfalso; unfold zlen in *; cbn in *; lia|]).
    repeat (inversion_clear Hs as [|? ? ? Hs']; rename Hs' into Hs).
    rewrite !rd_bytes_ok by (autorewrite with zlen; pose proof (zlen_nonneg s); lia).
    mem_red. cbn [mbind checked_bind].
    change (take (Z.to_nat 2) (_ +! 4)) with [z2; z3].
    change (take (Z.to_nat 2) (_ +! 14)) with [z12; z13].
    rewrite !ntohs_load by done. cbn [take app entry_fields].
    unfold subscriptions_of at 1. rewrite bind_cons. fold (subscriptions_of).
    destruct (b0 =? SD_ENTRY_SUBSCRIBE_EVENTGRP) eqn:Et.
    + rewrite send_ack_ok. cbn [mbind checked_bind fst snd].
      rewrite IH by lia. cbn [mbind checked_bind fst snd answer app]. rewrite <- ?app_assoc. done.
    + cbn [mbind checked_bind fst snd]. rewrite IH by lia. cbn [mbind checked_bind fst snd app].
      by destruct (answer _ _ _).
Qed.

Lemma handle_ok srv buf len from :
  bytes buf -> 0 <= len <= zlen buf -> len <= 1500 ->
  handle_sd_message srv buf len from
  = Ok (answer srv from (subscriptions (take (Z.to_nat len) buf))).
Proof.
  intros Hb Hlen Hmax. unfold handle_sd_message, subscriptions. rewrite zlen_take by lia.
  destruct (Z.ltb_spec len 28) as [Hs|Hs]; destruct (Z.leb_spec 28 len); try lia; [done|].
  cbn [andb].
  destruct buf as [|b0 buf]; [unfold zlen in *; cbn in *; lia|].
  do 3 (destruct buf as [|? buf]; [exfalso; unfold zlen in *; cbn in *; lia|]).
  mem_red.
  assert (take 4 (take (Z.to_nat len) (b0 :: z :: z0 :: z1 :: buf)) = [b0; z; z0; z1]) as ->
    by (rewrite take_take; by replace (4 `min` Z.to_nat len)%nat with 4%nat by lia).
  assert (is_u8 b0 /\ is_u8 z /\ is_u8 z0 /\ is_u8 z1) as (H0 & H1 & H2 & H3).
  { repeat match goal with H : bytes (_ :: _) |- _ => inversion_clear H end. done. }
  assert (u16 (Z.lor (Z.shiftl b0 8) z) = b0 * 256 + z) as -> by apply (or16_split b0 z H0 H1).
  assert (u16 (Z.lor (Z.shiftl z0 8) z1) = z0 * 256 + z1) as -> by apply (or16_split z0 z1 H2 H3).
  unfold is_u8 in *.
  destruct (decide ([b0; z; z0; z1] = [255; 255; 129; 0])) as [E|E].
  2:{ rewrite bool_decide_eq_false_2 by done.
      destruct (Z.eqb_spec (b0 * 256 + z) 0xFFFF), (Z.eqb_spec (z0 * 256 + z1) 0x8100);
        cbn [negb orb]; try done. exfalso. apply E. repeat f_equal; lia. }
  rewrite bool_decide_eq_true_2 by done. injection E as -> -> -> ->.
  change (negb _ || negb _) with false. cbv iota.
  set (l := 255 :: 255 :: 129 :: 0 :: buf) in *.
  change (16 + 4) with 20. change (20 + 4) with 24.
  rewrite rd_bytes_ok by lia. cbn [mbind checked_bind].
  assert (take 4 (take (Z.to_nat len) l +! 20) = take (Z.to_nat 4) (l +! 20)) as ->.
  { rewrite skipn_firstn_comm, take_take. f_equal. lia. }
  assert (exists a b c d, take (Z.to_nat 4) (l +! 20) = [a; b; c; d]
            /\ is_u8 a /\ is_u8 b /\ is_u8 c /\ is_u8 d) as (a & b & c & d & E & Ha & Hb' & Hc & Hd).
  { assert (bytes (take (Z.to_nat 4) (l +! 20))) as Ht by auto with gw.
    assert (length (take (Z.to_nat 4) (l +! 20)) = 4%nat) as Ht'
      by (rewrite length_take, length_drop; unfold zlen in *; lia).
    destruct (take (Z.to_nat 4) (l +! 20)) as [|x0 [|x1 [|x2 [|x3 [|]]]]]; try discriminate Ht'.
    repeat match goal with H : bytes (_ :: _) |- _ => inversion_clear H end.
    by exists x0, x1, x2, x3. }
  rewrite E, ntohl_load by done.
  rewrite entry_loop_ok by (first [done | lia | left; lia | unfold loop_fuel; lia]).
  do 3 f_equal. f_equal. unfold remaining.
  rewrite skipn_firstn_comm, take_take. f_equal. lia.
Qed.

Lemma on_readable_ok stack srv data from :
  zlen stack = 1500 -> bytes stack -> bytes data ->
  on_readable stack srv (Datagram data from)
  = Ok (answer srv from (subscriptions (take 1500 data))).
Proof.
  intros Hs Hb Hd. unfold on_readable. set (got := take 1500 data).
  assert (length got <= 1500)%nat as Hg by (unfold got; rewrite length_take; lia).
  rewrite <- (take_drop (length got) stack).
  pose proof (wr_bytes_app [] (take (length got) stack) (drop (length got) stack) 0 got) as Hw.
  cbn [app] in Hw. rewrite Hw; [|done|rewrite length_take; unfold zlen in Hs; lia].
  cbn [mbind checked_bind]. rewrite handle_ok.
  - by rewrite take_zlen_app by done.
  - apply bytes_app; [unfold got|]; auto with gw.
  - rewrite zlen_app. pose proof (zlen_nonneg got).
    pose proof (zlen_nonneg (drop (length got) stack)). lia.
  - unfold zlen. lia.
Qed.

(** The message [send_offers] builds. *)
Definition offer_entry (i : nat) (svc : OfferedService) : SdEntry.t :=
  SdEntry.mk SD_ENTRY_OFFER_SERVICE (u8 (Z.of_nat i)) 1 (of_service svc) 0x0001 0x01 DEFAULT_TTL 0 0.
Definition offer_option (svc : OfferedService) : SdOptionIpv4.t :=
  SdOptionIpv4.mk SD_OPT_IPV4_ENDPOINT (of_addr svc) 0x11 (of_port svc).

Lemma fold_offers svcs es os :
  fold_left (fun m svc =>
    SomeIpSdMessage.add_offer_service m (of_service svc) (of_addr svc) (of_port svc) DEFAULT_TTL)
    svcs (SomeIpSdMessage.mk es os)
  = SomeIpSdMessage.mk (es ++ imap (fun i => offer_entry (length os + i)) svcs)
      (os ++ map offer_option svcs).
Proof.
  revert es os. induction svcs as [|svc svcs IH]; intros es os; [cbn; by rewrite !app_nil_r|].
  cbn [fold_left]. unfold SomeIpSdMessage.add_offer_service at 2.
  cbn [SomeIpSdMessage.entries SomeIpSdMessage.options]. rewrite IH, <- !app_assoc.
  f_equal. f_equal. rewrite imap_cons. cbn [app]. f_equal.
  - unfold offer_entry, zlen. by rewrite Nat.add_0_r.
  - apply imap_ext. intros i x _. cbn. f_equal. rewrite length_app. cbn. lia.
Qed.

Definition offered_wf (svc : OfferedService) : Prop :=
  is_u16 (of_service svc) /\ is_u32 (of_addr svc) /\ is_u16 (of_port svc).

Lemma offers_message_wf svcs :
  Forall offered_wf svcs -> zlen svcs <= 65536 ->
  message_wf (SomeIpSdMessage.mk (imap offer_entry svcs) (map offer_option svcs)).
Proof.
  intros Hf Hl. split_and!; cbn [SomeIpSdMessage.entries SomeIpSdMessage.options].
  - apply Forall_lookup_2. intros i e He. rewrite list_lookup_imap in He.
    destruct (svcs !! i) as [svc|] eqn:E; [|done]. injection He as <-.
    pose proof (Forall_lookup_1 _ _ _ _ Hf E) as (? & ? & ?).
    unfold entry_wf, offer_entry, DEFAULT_TTL; cbn [SdEntry.type SdEntry.index_first SdEntry.num_opts
      SdEntry.service_id SdEntry.instance_id SdEntry.major_version SdEntry.ttl SdEntry.minor_version
      SdEntry.eventgroup_id]. pose proof (u8_range (Z.of_nat i)).
    split_and!; try done; unfold_ints; lia.
  - apply List.Forall_map. eapply List.Forall_impl; [|exact Hf]. intros svc (? & ? & ?).
    unfold option_wf, offer_option; cbn. split_and!; try done; unfold_ints; lia.
  - unfold zlen in *. by rewrite length_imap.
  - unfold zlen in *. by rewrite length_map.
Qed.

Definition to_offer (svc : OfferedService) : offer :=
  mk_offer (of_service svc) (of_addr svc) (of_port svc) DEFAULT_TTL.

Lemma resolve_offers svcs pre :
  zlen pre + zlen svcs <= 256 ->
  mapM (resolve (map offer_option (pre ++ svcs)))
    (imap (fun i => offer_entry (length pre + i)) svcs)
  = Some (map to_offer svcs).
Proof.
  revert pre. induction svcs as [|svc svcs IH]; intros pre Hl; [done|].
  rewrite imap_cons. cbn [mapM map]. rewrite zlen_cons in Hl. pose proof (zlen_nonneg svcs).
  assert (resolve (map offer_option (pre ++ svc :: svcs)) (offer_entry (length pre + 0) svc)
          = Some (to_offer svc)) as ->.
  { unfold resolve. cbn [offer_entry SdEntry.type SdEntry.index_first SdEntry.service_id SdEntry.ttl].
    change (SD_ENTRY_OFFER_SERVICE =? SD_ENTRY_OFFER_SERVICE) with true. cbv iota.
    rewrite Nat.add_0_r, u8_small by (unfold is_u8, zlen in *; lia).
    by rewrite Nat2Z.id, map_app, lookup_app_r, length_map, Nat.sub_diag
      by (rewrite length_map; lia). }
  cbn [mbind option_bind].
  specialize (IH (pre ++ [svc])). rewrite length_app, <- app_assoc in IH. cbn [app] in IH.
  rewrite (imap_ext _ (fun i => offer_entry (length pre + length [svc] + i))).
  - rewrite IH; [done|]. rewrite zlen_app, zlen_cons. change (zlen []) with 0. lia.
  - intros i x _. cbn. f_equal. lia.
Qed.

Lemma answer_offered srv from subs : offered (answer srv from subs).1 = offered srv.
Proof.
  revert srv. induction subs as [|[svc evg] subs IH]; intros srv; [done|]. cbn. by rewrite IH.
Qed.

(** The datagram of [send_offers]. *)
Definition offers_packet (srv : t) : list Z :=
  sd_packet (SomeIpSdMessage.mk (imap offer_entry (offered srv)) (map offer_option (offered srv)))
    (session srv).

Lemma offers_packet_bytes srv :
  bytes (offers_packet srv) /\ exists l, offers_packet srv = 0xFF :: 0xFF :: l.
Proof.
  split; [|by eexists]. unfold offers_packet, sd_packet, sd_header.
  cbn [SomeIpSdMessage.entries SomeIpSdMessage.options].
  repeat apply bytes_app; auto 10 with gw; try closed_bytes; apply Forall_bind, Forall_lookup_2; intros i x Hx.
  - rewrite list_lookup_imap in Hx. destruct (offered srv !! i); [|done]. injection Hx as <-.
    unfold entry_bytes, offer_entry, DEFAULT_TTL.
    cbn [SdEntry.type SdEntry.index_first SdEntry.num_opts SdEntry.service_id SdEntry.instance_id
      SdEntry.major_version SdEntry.ttl SdEntry.minor_version SdEntry.eventgroup_id].
    repeat apply bytes_app; auto 10 with gw; try closed_bytes.
    repeat (apply bytes_cons; [first [apply u8_range | done]|]). apply Forall_nil_2.
  - rewrite list_lookup_fmap in Hx. destruct (offered srv !! i); [|done]. injection Hx as <-.
    unfold option_bytes, offer_option.
    cbn [SdOptionIpv4.type SdOptionIpv4.ipv4_addr SdOptionIpv4.protocol SdOptionIpv4.port].
    repeat apply bytes_app; auto 10 with gw; closed_bytes.
Qed.

Lemma send_offers_ok srv :
  zlen (offered srv) <= 65536 ->
  send_offers srv
  = Ok (match offered srv with
        | [] => (srv, [])
        | _ => (bump_session srv, [Net (SendTo (sock_fd srv) (offers_packet srv) sd_group)])
        end).
Proof.
  intros Hl. unfold send_offers, offers_packet. destruct (offered srv) as [|svc svcs] eqn:E; [done|].
  rewrite <- E in *. unfold SomeIpSdMessage.empty. rewrite fold_offers. cbn [app length Nat.add].
  rewrite sd_serialize_ok; [by rewrite E|..]; cbn [SomeIpSdMessage.entries SomeIpSdMessage.options];
    unfold zlen in *; by rewrite ?length_imap, ?length_map.
Qed.

End facts.
End SdServiceFacts.

(** ** The subscribing tool ([src/tools/someip_sd_subscriber.cpp]) *)
Module SdClient.

(** The datagram [send_subscribe] sends. *)
Definition send_subscribe `{Target} (service_id eventgroup_id : Z) : checked (list Z) :=
  let buf := replicate 44 0 in
  buf ← wr buf 0 0xFF; buf ← wr buf 1 0xFF;
  buf ← wr buf 2 0x81; buf ← wr buf 3 0x00;
  buf ← wr_bytes buf 4 (mem32 (htonl 36));
  buf ← wr buf 8 0x00; buf ← wr buf 9 0x00;
  buf ← wr buf 10 0x00; buf ← wr buf 11 0x01;
  buf ← wr buf 12 0x01; buf ← wr buf 13 0x01; buf ← wr buf 14 0x02; buf ← wr buf 15 0x00;
  buf ← wr buf 16 0xC0; buf ← wr buf 17 0x00; buf ← wr buf 18 0x00; buf ← wr buf 19 0x00;
  buf ← wr_bytes buf 20 (mem32 (htonl 16));
  buf ← wr buf 24 0x06; buf ← wr buf 25 0x00; buf ← wr buf 26 0x00; buf ← wr buf 27 0x00;
  buf ← wr_bytes buf 28 (mem16 (htons service_id));
  buf ← wr_bytes buf 30 (mem16 (htons 0x0001));
  buf ← wr buf 32 0x01; buf ← wr buf 33 0x00; buf ← wr buf 34 0x00; buf ← wr buf 35 0x03;
  buf ← wr buf 36 0x00; buf ← wr buf 37 0x00; buf ← wr buf 38 0x00; buf ← wr buf 39 0x00;
  buf ← wr_bytes buf 40 (mem32 (htonl 0));
  wr_bytes buf 42 (mem16 (htons eventgroup_id)).

End SdClient.

(** ** Lemmas on answers *)
Module SdAnswerFacts.
Import SomeIpSdService SdSpec SdFacts SdServiceSpec SdServiceFacts.

Section facts.
Context {T : Target}.

(** What is done for the i-th subscription of a datagram. *)
Definition reaction (srv : t) (from : sockaddr_in) (i : nat) (sub : Z * Z) : list action :=
  Net (SendTo (sock_fd srv)
         (sd_packet (ack_message sub.1 sub.2) (u16 (session srv + Z.of_nat i))) from)
  :: (if on_subscribe srv then [OnSubscribe (mk_subscriber from sub.1 sub.2)] else []).

Lemma answer_closed from subs : forall srv,
  is_u16 (session srv) ->
  answer srv from subs
  = (mk (sock_fd srv) (u16 (session srv + zlen subs)) (offered srv)
       (subscribers srv ++ map (fun s => mk_subscriber from s.1 s.2) subs) (on_subscribe srv),
     concat (imap (reaction srv from) subs)).
Proof.
  induction subs as [|[svc evg] subs IH]; intros srv Hs.
  - cbn. change (zlen []) with 0. rewrite app_nil_r, Z.add_0_r, u16_small by done. by destruct srv.
  - cbn [answer]. rewrite IH by (cbn; apply u16_range).
    cbn [fst snd session sock_fd offered subscribers on_subscribe]. f_equal.
    + f_equal; [|by rewrite <- app_assoc]. rewrite zlen_cons. zlia.
    + rewrite imap_cons. cbn [concat]. unfold reaction at 2. cbn [fst snd].
      rewrite Z.add_0_r, (u16_small (session srv)) by done. cbn [app]. f_equal. f_equal.
      f_equal. apply imap_ext. intros i x _. unfold reaction.
      cbn [session sock_fd on_subscribe compose]. do 3 f_equal. rewrite Nat2Z.inj_succ.
      f_equal. zlia.
Qed.

Lemma subscriptions_u16 l : bytes l -> Forall (fun s => is_u16 s.1 /\ is_u16 s.2) (subscriptions l).
Proof.
  intros Hl. unfold subscriptions. destruct (_ && _); [|constructor].
  generalize (Z.to_nat (sz (24 + be_val (take 4 (l +! 20))) - 24)). intros n.
  assert (bytes (take n (l +! 24))) as Hb by auto with gw.
  remember (take n (l +! 24)) as k eqn:E. clear E Hl.
  remember (length k) as m eqn:Em. revert k Hb Em.
  induction m as [m IH] using lt_wf_ind. intros k Hb ->.
  do 16 (destruct k as [|? k]; [constructor|]).
  cbn [entry_fields]. unfold subscriptions_of. rewrite bind_cons.
  repeat (inversion_clear Hb as [|? ? ? Hb']; rename Hb' into Hb).
  apply List.Forall_app. split.
  - destruct (_ =? _); [|constructor]. repeat constructor; cbn; unfold_ints; lia.
  - eapply IH; [|exact Hb|reflexivity]. cbn. lia.
Qed.

Lemma ack_wf svc evg : is_u16 svc -> is_u16 evg -> message_wf (ack_message svc evg).
Proof.
  intros Hs He. unfold message_wf, ack_message. cbn.
  split_and!; [apply Forall_cons_2; [|apply Forall_nil_2]|apply Forall_nil_2|done..].
  unfold entry_wf, SD_ENTRY_SUBSCRIBE_ACK. cbn. unfold_ints. lia.
Qed.

Lemma client_packet sid evg :
  SdClient.send_subscribe sid evg
  = Ok (sd_header 1 36 ++ be32 16
        ++ [6; 0; 0; 0] ++ be16 sid ++ be16 1 ++ [1; 0; 0; 3; 0; 0; 0; 0] ++ [0; 0] ++ be16 evg).
Proof.
  unfold SdClient.send_subscribe. rewrite !memcpy_htonl, !memcpy_htons.
  cbn [replicate]. unfold be16 at 1 2 3, be32.
  cbn [wr_bytes Z.add Pos.add Pos.succ Pos.add_carry]. mem_red. done.
Qed.

(** The tool's subscription, as the service takes it: for eventgroup 0. *)
Lemma client_served stack srv from sid evg :
  zlen stack = 1500 -> bytes stack -> is_u16 sid ->
  exists pkt, SdClient.send_subscribe sid evg = Ok pkt
    /\ on_readable stack srv (Datagram pkt from) = Ok (answer srv from [(sid, 0)]).
Proof.
  intros Hst Hb Hsid. eexists. split; [apply client_packet|]. rewrite on_readable_ok by
    (done || (unfold sd_header; repeat apply bytes_app; auto 20 with gw)). do 2 f_equal.
  rewrite take_ge by (cbn; lia). unfold subscriptions.
  change (be_val (take 4 _)) with 16. change (24 + 16) with 40. rewrite (sz_small 40) by lia.
  transitivity [(be_val (be16 sid), 0)]; [reflexivity|]. by rewrite be16_val, u16_small.
Qed.

End facts.
End SdAnswerFacts.

(** ** Properties *)
Section properties.
Import SomeIpSdService SdSpec SdFacts SdServiceSpec SdServiceFacts SdAnswerFacts.

(** C15: for every datagram, whatever its length and content, the receive
    callback stays inside its buffer and ends, on a 32- and on a 64-bit
    target, and serves exactly the complete subscribe entries of the
    entries array as far as it was received: in order, each subscriber is
    recorded with its address, an acknowledgement naming its service and
    eventgroup goes back to the sender under the next session number, and
    the callback is told; what the stack buffer held before is irrelevant,
    and a receiver parses each acknowledgement. *)
Theorem sd_subscriptions_served {T : Target} stack srv data from :
  zlen stack = 1500 -> bytes stack -> bytes data -> is_u16 (session srv) ->
  let subs := subscriptions (take 1500 data) in
  exists srv',
    on_readable stack srv (Datagram data from) = Ok (srv', concat (imap (reaction srv from) subs))
    /\ subscribers srv' = subscribers srv ++ map (fun s => mk_subscriber from s.1 s.2) subs
    /\ session srv' = u16 (session srv + zlen subs)
    /\ offered srv' = offered srv
    /\ forall i s, subs !! i = Some s ->
         parse_sd (sd_packet (ack_message s.1 s.2) (u16 (session srv + Z.of_nat i)))
         = Some (u16 (session srv + Z.of_nat i), ack_message s.1 s.2).
Proof.
  intros Hst Hb Hd Hs subs. rewrite on_readable_ok, answer_closed by done.
  eexists. split; [reflexivity|]. do 3 (split; [done|]).
  intros i s Hi. apply parse_sd_ok; [apply u16_range|].
  assert (bytes (take 1500 data)) as Ht by auto with gw.
  destruct (Forall_lookup_1 _ _ _ _ (subscriptions_u16 _ Ht) Hi). by apply ack_wf.
Qed.

Definition demo_service : t :=
  mk 6 65535 [mk_offered 0x0101 0x6401A8C0 30501; mk_offered 0x0102 0x6401A8C0 30501] [] true.
Definition demo_client : sockaddr_in := mk_sockaddr 0x0501A8C0 40000.
(** One offer and two subscriptions, the second cut short by the announced
    length of the array. *)
Definition demo_datagram : list Z :=
  sd_header 1 52 ++ be32 40
  ++ [6; 0; 0; 0; 1; 1; 0; 1; 1; 0; 0; 3; 0; 0; 0; 5]
  ++ [1; 0; 0; 0; 1; 2; 0; 1; 1; 0; 0; 3; 0; 0; 0; 5]
  ++ [6; 0; 0; 0; 1; 3; 0; 1; 1; 0; 0; 3; 0; 0; 0; 5].

Lemma sd_subscriptions_served_witness :
  exists srv' acts,
    on_readable (T:=armv7) (replicate 1500 0xAA) demo_service (Datagram demo_datagram demo_client)
    = Ok (srv', acts)
    /\ subscribers srv' = [mk_subscriber demo_client 0x0101 5]
    /\ session srv' = 0 /\ length acts = 2%nat.
Proof.
  destruct (sd_subscriptions_served (T:=armv7) (replicate 1500 0xAA) demo_service
    demo_datagram demo_client) as (srv' & H1 & H2 & H3 & _);
    [reflexivity | closed_bytes | closed_bytes | unfold is_u16; cbn; lia |].
  eexists srv', _. split; [exact H1|].
  split; [rewrite H2; vm_compute; reflexivity|].
  split; [rewrite H3; vm_compute; reflexivity|vm_compute; reflexivity].
Defined.

(** C17: announcing up to 256 services sends one multicast datagram under the
    current session number, and a client that resolves each offer through
    its option index recovers exactly the offered services: service,
    address, port and lifetime, in order.  With nothing to offer, nothing
    is sent and no session number is used. *)
Theorem sd_offers_roundtrip {T : Target} srv :
  is_u16 (session srv) -> Forall offered_wf (offered srv) -> zlen (offered srv) <= 256 ->
  match offered srv with
  | [] => send_offers srv = Ok (srv, [])
  | _ =>
      exists pkt,
        send_offers srv = Ok (bump_session srv, [Net (SendTo (sock_fd srv) pkt sd_group)])
        /\ received_offers pkt = Some (map to_offer (offered srv))
        /\ zlen pkt = 28 + 28 * zlen (offered srv)
  end.
Proof.
  intros Hs Hf Hl. rewrite send_offers_ok by lia.
  destruct (offered srv) as [|svc svcs] eqn:E; [done|]. rewrite <- E in *.
  pose proof (offers_message_wf (offered srv) Hf ltac:(lia)) as Hw.
  eexists. split; [reflexivity|]. unfold offers_packet. split.
  - unfold received_offers. rewrite parse_sd_ok by done. cbn [mbind option_bind snd].
    cbn [SomeIpSdMessage.entries SomeIpSdMessage.options].
    pose proof (resolve_offers (offered srv) [] Hl) as Hr. done.
  - unfold sd_packet, sd_header. cbn [SomeIpSdMessage.entries SomeIpSdMessage.options].
    rewrite !zlen_app, entries_length, options_length. unfold zlen.
    rewrite length_imap, length_map. cbn. lia.
Qed.

Lemma sd_offers_roundtrip_witness :
  exists pkt, send_offers (T:=x86_64) demo_service
    = Ok (bump_session demo_service, [Net (SendTo 6 pkt (sd_group (T:=x86_64)))])
  /\ received_offers (H:=x86_64) pkt
     = Some [mk_offer 0x0101 0x6401A8C0 30501 3; mk_offer 0x0102 0x6401A8C0 30501 3].
Proof.
  pose proof (sd_offers_roundtrip (T:=x86_64) demo_service) as H.
  cbn [demo_service offered session sock_fd] in H.
  destruct H as (pkt & H1 & H2 & _).
  - unfold is_u16; lia.
  - repeat (apply Forall_cons_2 || apply Forall_nil_2); repeat split; vm_compute;
      first [reflexivity | discriminate].
  - unfold zlen; cbn; lia.
  - exists pkt. split; [exact H1|exact H2].
Defined.

(** The subscribing tool cannot ask for an eventgroup: it writes the
    number over the options length, at bytes 42 and 43, instead of into the
    entry, and the gateway records and acknowledges eventgroup 0 whatever
    the tool asked for. *)
Theorem sd_client_eventgroup_lost {T : Target} stack srv from sid evg :
  zlen stack = 1500 -> bytes stack -> is_u16 sid -> is_u16 evg -> is_u16 (session srv) ->
  exists pkt srv' acts,
    SdClient.send_subscribe sid evg = Ok pkt
    /\ on_readable stack srv (Datagram pkt from) = Ok (srv', acts)
    /\ subscribers srv' = subscribers srv ++ [mk_subscriber from sid 0]
    /\ acts = reaction srv from 0 (sid, 0).
Proof.
  intros Hst Hb Hsid He Hs. destruct (client_served stack srv from sid evg Hst Hb Hsid) as (pkt & Hp & Hr).
  exists pkt. do 2 eexists. split; [exact Hp|]. split; [rewrite Hr, answer_closed by done; reflexivity|].
  split; [done|]. cbn. by rewrite app_nil_r.
Qed.

Lemma sd_client_eventgroup_lost_witness :
  exists pkt srv' acts,
    SdClient.send_subscribe (H:=x86_64) 0x0101 0x0001 = Ok pkt
    /\ on_readable (T:=x86_64) (replicate 1500 0) demo_service (Datagram pkt demo_client)
       = Ok (srv', acts)
    /\ subscribers srv' = [mk_subscriber demo_client 0x0101 0].
Proof.
  destruct (sd_client_eventgroup_lost (T:=x86_64) (replicate 1500 0) demo_service demo_client
    0x0101 0x0001) as (pkt & srv' & acts & H1 & H2 & H3 & _);
    [reflexivity | closed_bytes | unfold_ints; cbn; lia.. |].
  exists pkt, srv', acts. split; [exact H1|]. split; [exact H2|exact H3].
Defined.

End properties.
