(* ===== verification/Subscribers.v ===== *)
(** * The subscribing tools ([src/tools/someip_subscriber.cpp],
    [someip_sd_subscriber.cpp])

    The two programs that listen to the gateway, given the results of their
    system calls.  What they make of one datagram is in [SomeIpMessage.v],
    the subscription request in [SomeIpSdService.v]; here are the loops that
    reuse one receive buffer, and the two [main] functions.  The theorems say
    what each prints, and follow the discovery handshake of the second with
    the gateway's service. *)

From Stdlib Require Import SpecFloat.
From S2P Require Import Prelude Floats Types SomeIpMessage SomeIpPublisher SomeIpSdService.

(** The result of a call of [recvfrom]. *)
Variant received := RecvError | Datagram (data : list Z).

(** [recvfrom(sock, buf, cap, ...)]: the returned count and the bytes stored;
    what does not fit is lost. *)
Definition recvfrom (r : received) (cap : Z) : Z * list Z :=
  match r with
  | RecvError => (-1, [])
  | Datagram data => let got := take (Z.to_nat cap) data in (zlen got, got)
  end.

Definition BUF_SIZE : Z := 1500.

(** ** [someip_subscriber] *)
Module Subscriber.

Variant line := TooShort (len : Z) | Message (m : printed).

Section code.
Context {T : Target}.

(** The [while] loop, for the calls of [recvfrom] to come: what is printed,
    and whether the loop was left. *)
Fixpoint listen (buf : list Z) (inputs : list received) : checked (list line * bool) :=
  match inputs with
  | [] => Ok ([], false)
  | r :: inputs =>
      let '(n, got) := recvfrom r BUF_SIZE in
      if n <? 0 then Ok ([], true)
      else
        buf ← wr_bytes buf 0 got;
        m ← print_someip buf n;
        rest ← listen buf inputs;
        Ok (match m with Some m => Message m | None => TooShort n end :: rest.1, rest.2)
  end.

(** [main]: the exit code, unless it is still listening, and what is
    printed. *)
Definition main (sock_res bind_res join_res : Z) (stack : list Z) (inputs : list received)
  : checked (option Z * list line) :=
  if sock_res <? 0 then Ok (Some 1, [])
  else if bind_res <? 0 then Ok (Some 1, [])
  else if join_res <? 0 then Ok (Some 1, [])
  else
    r ← listen stack inputs;
    Ok (if (r.2 : bool) then Some 0 else None, r.1).

(** *** What a datagram on its own shows *)
Definition line_of (l : list Z) : line :=
  if zlen l <? 16 then TooShort (zlen l)
  else Message (mk_printed
    (be_val (take 2 l)) (be_val (take 2 (drop 2 l))) (be_val (take 4 (drop 4 l)))
    (be_val (take 2 (drop 8 l))) (be_val (take 2 (drop 10 l)))
    (l !!! 12%nat) (l !!! 13%nat) (l !!! 14%nat) (l !!! 15%nat)
    (if zlen l =? 20 then inl (f_of_bits (htonl (be_val (take 4 (drop 16 l))))) else inr (zlen l - 16))).

End code.

(** The datagrams before the first error. *)
Fixpoint until_error (inputs : list received) : list (list Z) :=
  match inputs with
  | [] | RecvError :: _ => []
  | Datagram data :: inputs => take (Z.to_nat BUF_SIZE) data :: until_error inputs
  end.

Definition failed (inputs : list received) : bool :=
  existsb (fun r => match r with RecvError => true | Datagram _ => false end) inputs.

End Subscriber.

(** ** [someip_sd_subscriber] *)
Module SdSubscriber.

Definition DATA_MULTICAST : list Z := [239; 0; 0; 1].
Definition DATA_PORT : Z := 30490.

(** One line: the name of the signal, its value and the session number. *)
Record shown := mk_shown { sh_name : string; sh_value : float; sh_session : Z }.

Section code.
Context {T : Target}.

(** The [while] loop of step 2; an error of [recvfrom] counts as a short
    datagram. *)
Fixpoint listen (buf : list Z) (inputs : list received) : checked (list shown) :=
  match inputs with
  | [] => Ok []
  | r :: inputs =>
      let '(n, got) := recvfrom r BUF_SIZE in
      buf ← wr_bytes buf 0 got;
      m ← decode_notification buf n;
      rest ← listen buf inputs;
      Ok (match m with
          | Some (svc_id, met_id, ses_id, value) => [mk_shown (signal_name svc_id met_id) value ses_id]
          | None => []
          end ++ rest)
  end.

(** Step 1 after the offer: the three subscriptions, to the sender. *)
Definition subscribe_all (sd_sock : Z) (from : sockaddr_in) : checked (list net_action) :=
  a ← SdClient.send_subscribe 0x0101 0x0001;
  b ← SdClient.send_subscribe 0x0102 0x0001;
  c ← SdClient.send_subscribe 0x0103 0x0001;
  Ok [SendTo sd_sock a from; SendTo sd_sock b from; SendTo sd_sock c from].

(** [main]: the exit code unless it is listening, what is sent and what is
    shown; [offer] is the first datagram and [from] its sender. *)
Definition main (sd_sock sd_bind : Z) (offer : received) (from : sockaddr_in)
    (data_sock data_bind : Z) (stack : list Z) (inputs : list received)
  : checked (option Z * list net_action * list shown) :=
  if sd_sock <? 0 then Ok (Some 1, [], [])
  else if sd_bind <? 0 then Ok (Some 1, [], [])
  else
    let '(n, got) := recvfrom offer BUF_SIZE in
    if n <? 0 then Ok (Some 1, [], [])
    else
      buf ← wr_bytes stack 0 got;
      subs ← subscribe_all sd_sock from;
      if data_sock <? 0 then Ok (Some 1, subs, [])
      else if data_bind <? 0 then Ok (Some 1, subs, [])
      else
        lines ← listen buf inputs;
        Ok (None, subs, lines).

End code.

(** *** Where the tool listens *)

(** The data socket, bound to [DATA_PORT] and a member of [DATA_MULTICAST],
    gets what is sent there; on Linux ([IP_MULTICAST_ALL]) also what is sent
    to that port at any [other] group the host is a member of. *)
Definition reached {T : Target} (other : bool) (dest : sockaddr_in) : bool :=
  (sin_port dest =? DATA_PORT) && (other || (sin_addr dest =? load DATA_MULTICAST)).

(** The service's callback for successive datagrams of one sender, each with
    what is on its stack. *)
Fixpoint deliver {T : Target} (srv : SomeIpSdService.t) (from : sockaddr_in) (l : list (list Z * list Z))
  : checked (SomeIpSdService.t * list SomeIpSdService.action) :=
  match l with
  | [] => Ok (srv, [])
  | (stack, data) :: l =>
      r ← SomeIpSdService.on_readable stack srv (SomeIpSdService.Datagram data from);
      rs ← deliver r.1 from l;
      Ok (rs.1, r.2 ++ rs.2)
  end.

(** *** What a datagram on its own shows *)
Definition line_of (l : list Z) : option shown :=
  if (20 <=? zlen l) && negb (be_val (take 2 l) =? 0xFFFF) && (l !!! 14%nat =? 0x02) then
    Some (mk_shown (signal_name (be_val (take 2 l)) (be_val (take 2 (drop 2 l))))
            (f_of_bits (be_val (take 4 (drop 16 l)))) (be_val (take 2 (drop 10 l))))
  else None.

Definition lines_of (inputs : list received) : list shown :=
  omap (fun r => line_of (recvfrom r BUF_SIZE).2) inputs.

End SdSubscriber.

(** ** Lemmas *)
Module SubscriberFacts.
Import SdSubscriber SomeIpMessageFacts.

Section facts.
Context {T : Target}.

Lemma recvfrom_ok r buf :
  zlen buf = BUF_SIZE ->
  let '(n, got) := recvfrom r BUF_SIZE in
  zlen got <= BUF_SIZE /\ (n = zlen got \/ (n = -1 /\ got = []))
  /\ wr_bytes buf 0 got = Ok (got ++ drop (length got) buf) /\ zlen (got ++ drop (length got) buf) = BUF_SIZE.
Proof.
  intros Hb. assert (forall got, zlen got <= BUF_SIZE ->
    wr_bytes buf 0 got = Ok (got ++ drop (length got) buf) /\ zlen (got ++ drop (length got) buf) = BUF_SIZE) as Hw.
  { intros got Hg. rewrite <- Hb in *. by apply wr_bytes_front. }
  destruct r as [|data]; cbn [recvfrom].
  - destruct (Hw [] ltac:(done)). split; [done|]. auto.
  - assert (zlen (take (Z.to_nat BUF_SIZE) data) <= BUF_SIZE) as Hl
      by (unfold zlen, BUF_SIZE; rewrite length_take; lia).
    destruct (Hw _ Hl). auto.
Qed.

Lemma or16_u16 a b : is_u8 a -> is_u8 b -> u16 (Z.lor (Z.shiftl a 8) b) = be_val [a; b].
Proof.
  intros Ha Hb. rewrite or16_be_val by done. apply u16_small. unfold is_u8, is_u16, be_val in *. cbn. lia.
Qed.

(** What is decoded depends on the datagram alone. *)
Lemma decode_line got tl :
  bytes got ->
  exists m, decode_notification (got ++ tl) (zlen got) = Ok m
    /\ line_of got = match m with
                     | Some (svc, met, ses, v) => Some (mk_shown (signal_name svc met) v ses)
                     | None => None
                     end.
Proof.
  intros Hb. unfold decode_notification, line_of.
  destruct (Z.ltb_spec (zlen got) 16) as [Hs|Hl].
  { exists None. split; [done|]. by guards. }
  destruct got as
    [|b0 [|b1 [|b2 [|b3 [|b4 [|b5 [|b6 [|b7 [|b8 [|b9 [|b10 [|b11 [|b12 [|b13 [|b14 [|b15 l]]]]]]]]]]]]]]]];
    try (unfold zlen in Hl; cbn in Hl; lia).
  repeat (apply Forall_cons_1 in Hb as [? Hb]).
  set (n := zlen _) in *. cbn [app]. mem_red. rewrite !or16_u16 by done.
  cbn [take drop]. change ((_ :: _) !!! 14%nat) with b14.
  destruct (be_val [b0; b1] =? 0xFFFF) eqn:E1; cbn [negb andb].
  { exists None. split; [done|]. by rewrite !andb_false_r. }
  destruct (b14 =? 0x02) eqn:E2; cbn [negb andb].
  2: { exists None. split; [done|]. by rewrite !andb_false_r. }
  destruct (Z.ltb_spec n 20) as [H20|H20].
  { exists None. split; [done|]. by guards. }
  guards. cbn [andb].
  unfold n in *. clear n.
  destruct l as [|b16 [|b17 [|b18 [|b19 l]]]]; try (unfold zlen in H20; cbn in H20; lia).
  repeat (apply Forall_cons_1 in Hb as [? Hb]).
  cbn [app]. rewrite rd_bytes_ok by (rewrite ?zlen_cons; pose proof (zlen_nonneg (l ++ tl)); lia).
  cbn [mbind checked_bind]. change (take (Z.to_nat 4) (_ +! 16)) with [b16; b17; b18; b19].
  rewrite ntohl_load by done. eexists. split; [done|]. done.
Qed.

Lemma listen_ok inputs buf :
  zlen buf = BUF_SIZE -> Forall (fun r => bytes (recvfrom r BUF_SIZE).2) inputs ->
  listen buf inputs = Ok (lines_of inputs).
Proof.
  intros Hb Hi. revert buf Hb. induction Hi as [|r inputs Hr Hi IH]; intros buf Hb; [done|].
  cbn [listen]. unfold lines_of. cbn [omap list_omap].
  pose proof (recvfrom_ok r buf Hb) as Hrecv. destruct (recvfrom r BUF_SIZE) as [n got] eqn:Er.
  cbn [snd] in Hr. destruct Hrecv as (Hl & Hn & Hw & Hb').
  rewrite Hw. cbn [mbind checked_bind].
  destruct (decode_line got (drop (length got) buf) Hr) as (m & Hdec & Hline).
  assert (decode_notification (got ++ drop (length got) buf) n = Ok m) as ->.
  { destruct Hn as [->|[-> ->]]; [done|]. unfold decode_notification in *. done. }
  cbn [mbind checked_bind]. rewrite (IH _ Hb'). cbn [mbind checked_bind].
  cbn [snd]. rewrite Hline. by destruct m as [[[[svc met] ses] v]|].
Qed.

(** Service-discovery messages show nothing. *)
Lemma line_of_sd l : line_of (0xFF :: 0xFF :: l) = None.
Proof. unfold line_of. change (be_val (take 2 _) =? 0xFFFF) with true. by rewrite andb_false_r. Qed.

Lemma signal_packet_bytes r sess v : bytes (PublisherSpec.signal_packet r sess v).
Proof.
  unfold PublisherSpec.signal_packet, packet.
  cbn [notification SomeIpMessage.service_id SomeIpMessage.method_id SomeIpMessage.client_id
    SomeIpMessage.session_id SomeIpMessage.msg_type SomeIpMessage.return_code SomeIpMessage.payload].
  repeat apply bytes_app; auto 10 with gw; closed_bytes.
Qed.

(** A notification of the gateway, as it is shown. *)
Lemma line_of_packet r sess v :
  is_u16 r.1 -> is_u16 r.2 -> is_u16 sess -> r.1 <> 0xFFFF ->
  line_of (PublisherSpec.signal_packet r sess v)
  = Some (mk_shown (signal_name r.1 r.2) (f_of_double v) sess).
Proof.
  intros H1 H2 H3 Hne. pose proof (signal_packet_bytes r sess v) as Hb.
  unfold PublisherSpec.signal_packet in *. set (p := packet _) in *.
  assert (zlen p = 20) as Hl by (unfold p; by rewrite packet_length).
  destruct (decode_line p [] Hb) as (m & Hdec & ->).
  rewrite Hl in Hdec. unfold p in Hdec. rewrite decode_packet in Hdec by done. injection Hdec as <-.
  rewrite u32_small by (apply f_bits_range, f_of_double_valid).
  by rewrite f_bits_roundtrip by apply f_of_double_valid.
Qed.

End facts.
End SubscriberFacts.

Module HandshakeFacts.
Import SdSubscriber SubscriberFacts SomeIpSdService SdServiceSpec SdAnswerFacts.

Section facts.
Context {T : Target}.

(** The packets of the three subscriptions, and the service's answer. *)
Lemma answer_session srv from subs : is_u16 (session srv) -> is_u16 (session (answer srv from subs).1).
Proof. intros Hs. rewrite answer_closed by done. apply u16_range. Qed.

Lemma answer_app srv from l1 l2 :
  answer srv from (l1 ++ l2)
  = ((answer (answer srv from l1).1 from l2).1, (answer srv from l1).2 ++ (answer (answer srv from l1).1 from l2).2).
Proof.
  revert srv. induction l1 as [|[svc evg] l1 IH]; intros srv; [cbn [app answer fst snd]; apply surjective_pairing|].
  cbn [app answer]. rewrite IH. cbn [fst snd app]. by rewrite <- app_assoc, app_comm_cons.
Qed.

Lemma subscriptions_delivered srv from stacks sids :
  length stacks = length sids -> Forall (fun st => zlen st = 1500 /\ bytes st) stacks -> Forall is_u16 sids ->
  exists pkts,
    Forall2 (fun sid pkt => SdClient.send_subscribe sid 1 = Ok pkt) sids pkts
    /\ deliver srv from (zip stacks pkts) = Ok (answer srv from (map (fun sid => (sid, 0)) sids)).
Proof.
  revert srv stacks. induction sids as [|sid sids IH]; intros srv [|st stacks] Hl Hst Hsid; try done; [by exists []|].
  apply Forall_cons_1 in Hst as [[Hs Hb] Hst]. apply Forall_cons_1 in Hsid as [Hsid Hsids].
  destruct (client_served st srv from sid 1 Hs Hb Hsid) as (pkt & Hp & Hr).
  destruct (IH (answer srv from [(sid, 0)]).1 stacks ltac:(by injection Hl) Hst Hsids) as (pkts & Hps & Hd).
  exists (pkt :: pkts). split; [by apply Forall2_cons_2|]. cbn [zip zip_with deliver].
  rewrite Hr. cbn [mbind checked_bind]. rewrite Hd. cbn [mbind checked_bind map].
  f_equal. exact (eq_sym (answer_app srv from [(sid, 0)] (map (fun sid => (sid, 0)) sids))).
Qed.

End facts.
End HandshakeFacts.

Module PlainFacts.
Import Subscriber SubscriberFacts SomeIpMessageFacts.

Section facts.
Context {T : Target}.

Lemma print_line got tl :
  bytes got -> zlen got <= BUF_SIZE ->
  exists m, print_someip (got ++ tl) (zlen got) = Ok m
    /\ line_of got = match m with Some m => Message m | None => TooShort (zlen got) end.
Proof.
  intros Hb Hmax. unfold print_someip, line_of, SOMEIP_HEADER_SIZE.
  destruct (Z.ltb_spec (zlen got) 16) as [Hs|Hl]; [by exists None|].
  rewrite sz_small by (unfold BUF_SIZE in *; lia).
  destruct got as
    [|b0 [|b1 [|b2 [|b3 [|b4 [|b5 [|b6 [|b7 [|b8 [|b9 [|b10 [|b11 [|b12 [|b13 [|b14 [|b15 l]]]]]]]]]]]]]]]];
    try (unfold zlen in Hl; cbn in Hl; lia).
  repeat (apply Forall_cons_1 in Hb as [? Hb]). set (n := zlen _) in *. cbn [app]. mem_red.
  rewrite !or16_u16, !or32_int_be_val by done.
  destruct (Z.eqb_spec (n - 16) 4), (Z.eqb_spec n 20); try lia; [|by eexists].
  unfold n in *. destruct l as [|b16 [|b17 [|b18 [|b19 [|b20 l]]]]];
    try (rewrite !zlen_cons in *; pose proof (zlen_nonneg l); lia); try (unfold zlen in *; cbn in *; lia).
  repeat (apply Forall_cons_1 in Hb as [? Hb]). mem_red. rewrite or32_int_be_val by done. by eexists.
Qed.

Lemma listen_lines inputs buf :
  zlen buf = BUF_SIZE -> Forall (fun r => bytes (recvfrom r BUF_SIZE).2) inputs ->
  listen buf inputs = Ok (map line_of (until_error inputs), failed inputs).
Proof.
  intros Hb Hi. revert buf Hb. induction Hi as [|[|data] inputs Hr Hi IH]; intros buf Hb; [done|done|].
  pose proof (recvfrom_ok (Datagram data) buf Hb) as Hrecv. cbn [listen until_error failed map existsb orb].
  cbn [recvfrom snd] in *. set (got := take (Z.to_nat BUF_SIZE) data) in *.
  destruct Hrecv as (Hl & _ & Hw & Hb'). rewrite (proj2 (Z.ltb_ge _ _)) by apply zlen_nonneg.
  rewrite Hw. cbn [mbind checked_bind].
  destruct (print_line got (drop (length got) buf) Hr Hl) as (m & -> & ->).
  cbn [mbind checked_bind]. by rewrite (IH _ Hb').
Qed.

(** A notification of the gateway, as it is shown. *)
Lemma line_of_published r sess v :
  is_u16 r.1 -> is_u16 r.2 -> is_u16 sess ->
  line_of (PublisherSpec.signal_packet r sess v)
  = Message (mk_printed r.1 r.2 12 0 sess 1 1 2 0
      (inl match order with
           | Little => f_of_bits (bswap32 (f_bits (f_of_double v)))
           | Big => f_of_double v
           end)).
Proof.
  intros H1 H2 H3. pose proof (signal_packet_bytes r sess v) as Hb.
  unfold PublisherSpec.signal_packet in *. set (p := packet _) in *.
  assert (zlen p = 20) as Hl by (unfold p; by rewrite packet_length).
  destruct (print_line p [] Hb ltac:(rewrite Hl; done)) as (m & Hp & ->).
  rewrite Hl in Hp. unfold p in Hp.
  pose proof (f_bits_range (f_of_double v) (f_of_double_valid v)) as Hr.
  rewrite print_packet in Hp by done. injection Hp as <-. unfold htonl.
  destruct order; [done|]. by rewrite f_bits_roundtrip by apply f_of_double_valid.
Qed.

End facts.
End PlainFacts.

(** ** Properties *)
Section properties.
Import SdSubscriber SubscriberFacts.

(** C23: the service-discovery subscriber shows each notification once.  On any
    sequence of results of [recvfrom] - datagrams of any bytes and length,
    errors included - its loop never reads outside the buffer and prints, in
    order, one line for each datagram that has 20 bytes, is not a
    service-discovery message and is of the notification type: the name for
    its service and method, the [float] and the session number in it.  What
    earlier datagrams left in the shared buffer never shows. *)
Theorem sd_subscriber_lines {T : Target} sd_sock sd_bind offer from data_sock data_bind stack inputs :
  0 <= sd_sock -> 0 <= sd_bind -> 0 <= (recvfrom offer BUF_SIZE).1 -> 0 <= data_sock -> 0 <= data_bind ->
  zlen stack = BUF_SIZE -> Forall (fun r => bytes (recvfrom r BUF_SIZE).2) inputs ->
  exists subs,
    main sd_sock sd_bind offer from data_sock data_bind stack inputs = Ok (None, subs, lines_of inputs)
    /\ subscribe_all sd_sock from = Ok subs /\ length subs = 3%nat.
Proof.
  intros H1 H2 H3 H4 H5 Hs Hi. unfold main. guards.
  pose proof (recvfrom_ok offer stack Hs) as Hrecv. destruct (recvfrom offer BUF_SIZE) as [n got].
  destruct Hrecv as (_ & _ & Hw & Hb). cbn [fst] in H3. guards.
  rewrite Hw. cbn [mbind checked_bind]. unfold subscribe_all. rewrite !SdAnswerFacts.client_packet.
  cbn [mbind checked_bind]. rewrite (listen_ok _ _ Hb Hi). eexists. done.
Qed.

(** C16: the discovery handshake.  Whatever the service offers - an empty list
    apart -, its announcement makes the tool send three subscriptions to the
    sender of the announcement and start listening; when these reach the
    service, in order, it records the tool under the three services,
    acknowledges each with the next session number and reports each to its
    callback.  All three are recorded and acknowledged for eventgroup 0,
    though the tool asks for eventgroup 1: it writes the number where the
    service does not look. *)
Theorem sd_handshake {T : Target} srv sd_sock data_sock buf gateway client stacks :
  SomeIpSdService.offered srv <> [] -> zlen (SomeIpSdService.offered srv) <= 65536 ->
  is_u16 (SomeIpSdService.session srv) -> 0 <= sd_sock -> 0 <= data_sock -> zlen buf = BUF_SIZE ->
  length stacks = 3%nat -> Forall (fun st => zlen st = 1500 /\ bytes st) stacks ->
  let subs := [(0x0101, 0); (0x0102, 0); (0x0103, 0)] in
  exists offer srv1 pkts srv2,
    SomeIpSdService.send_offers srv
    = Ok (srv1, [SomeIpSdService.Net (SendTo (SomeIpSdService.sock_fd srv) offer SomeIpSdService.sd_group)])
    /\ main sd_sock 0 (Datagram offer) gateway data_sock 0 buf []
       = Ok (None, map (fun p => SendTo sd_sock p gateway) pkts, [])
    /\ deliver srv1 client (zip stacks pkts) = Ok (srv2, concat (imap (SdAnswerFacts.reaction srv1 client) subs))
    /\ SomeIpSdService.subscribers srv2
       = SomeIpSdService.subscribers srv ++ map (fun s => SomeIpSdService.mk_subscriber client s.1 s.2) subs
    /\ SomeIpSdService.session srv2 = u16 (SomeIpSdService.session srv + 4).
Proof.
  intros Hne Hl Hs Hsock Hdata Hb Hlen Hst subs.
  destruct (HandshakeFacts.subscriptions_delivered (SomeIpSdService.bump_session srv) client stacks
    [0x0101; 0x0102; 0x0103] Hlen Hst) as (pkts & Hp & Hd).
  { repeat (apply Forall_cons_2; [unfold is_u16; lia|]). apply Forall_nil_2. }
  apply Forall2_cons_inv_l in Hp as (p1 & ? & H1 & Hp & ->). apply Forall2_cons_inv_l in Hp as (p2 & ? & H2 & Hp & ->).
  apply Forall2_cons_inv_l in Hp as (p3 & ? & H3 & Hp & ->). apply Forall2_nil_inv_l in Hp as ->.
  exists (SdServiceFacts.offers_packet srv), (SomeIpSdService.bump_session srv), [p1; p2; p3].
  change (map _ [0x0101; 0x0102; 0x0103]) with subs in Hd. rewrite SdAnswerFacts.answer_closed in Hd by apply u16_range.
  eexists. split; [|split; [|split; [exact Hd|]]].
  - rewrite SdServiceFacts.send_offers_ok by done. by destruct (SomeIpSdService.offered srv).
  - unfold main. guards. change (0 <? 0) with false. cbn match.
    pose proof (recvfrom_ok (Datagram (SdServiceFacts.offers_packet srv)) buf Hb) as Hrecv.
    destruct (recvfrom _ BUF_SIZE) as [n got] eqn:Er. destruct Hrecv as (_ & _ & Hw & _).
    assert (0 <= n) by (injection Er as <- <-; apply zlen_nonneg). guards.
    rewrite Hw. cbn [mbind checked_bind]. unfold subscribe_all. rewrite H1, H2, H3. done.
  - split; [done|]. cbn [SomeIpSdService.session SomeIpSdService.bump_session].
    change (zlen subs) with 3. zlia.
Qed.

Definition demo_offering : SomeIpSdService.t :=
  SomeIpSdService.mk 6 65534 [SomeIpSdService.mk_offered 0x0101 0x6401A8C0 30501] [] true.

Lemma sd_handshake_witness :
  exists offer srv1 pkts srv2 acts,
    SomeIpSdService.send_offers (T:=x86_64) demo_offering
    = Ok (srv1, [SomeIpSdService.Net (SendTo 6 offer (SomeIpSdService.sd_group (T:=x86_64)))])
    /\ deliver (T:=x86_64) srv1 (mk_sockaddr 0x0501A8C0 40000) (zip (replicate 3 (replicate 1500 0)) pkts)
       = Ok (srv2, acts)
    /\ map SomeIpSdService.sub_service (SomeIpSdService.subscribers srv2) = [0x0101; 0x0102; 0x0103]
    /\ SomeIpSdService.session srv2 = 2.
Proof.
  destruct (sd_handshake (T:=x86_64) demo_offering 3 4 (replicate 1500 0) (mk_sockaddr 0x6401A8C0 30490)
    (mk_sockaddr 0x0501A8C0 40000) (replicate 3 (replicate 1500 0)))
    as (offer & srv1 & pkts & srv2 & Ho & _ & Hd & Hr & Hses);
    [discriminate|vm_compute; discriminate|unfold is_u16; cbn; lia|lia|lia|by vm_compute|done| |].
  { apply Forall_replicate. split; [by vm_compute|closed_bytes]. }
  exists offer, srv1, pkts, srv2. eexists. split; [exact Ho|]. split; [exact Hd|].
  rewrite Hr, Hses. split; reflexivity.
Defined.

(** C40: the plain subscriber prints every datagram, and every value wrongly.  On
    any sequence of results of [recvfrom] it never reads outside its buffer
    and prints one message per datagram - the header fields in it, or that it
    is too short - up to the first error, which ends the program with exit
    code 0.  A notification of the gateway is printed with its header as
    sent, but its value byte-swaps: the shifts already give the number in
    host order, and [ntohl] is applied once more, so that a little-endian
    host prints the number whose bits are those sent in reverse order. *)
Theorem subscriber_lines {T : Target} sock_res bind_res join_res stack inputs :
  0 <= sock_res -> 0 <= bind_res -> 0 <= join_res ->
  zlen stack = BUF_SIZE -> Forall (fun r => bytes (recvfrom r BUF_SIZE).2) inputs ->
  Subscriber.main sock_res bind_res join_res stack inputs
  = Ok (if Subscriber.failed inputs then Some 0 else None,
        map Subscriber.line_of (Subscriber.until_error inputs))
  /\ forall r sess v, is_u16 r.1 -> is_u16 r.2 -> is_u16 sess ->
       Subscriber.line_of (PublisherSpec.signal_packet r sess v)
       = Subscriber.Message (mk_printed r.1 r.2 12 0 sess 1 1 2 0
           (inl match order with
                | Little => f_of_bits (bswap32 (f_bits (f_of_double v)))
                | Big => f_of_double v
                end)).
Proof.
  intros H1 H2 H3 Hs Hi. split; [|apply PlainFacts.line_of_published].
  unfold Subscriber.main. guards. by rewrite PlainFacts.listen_lines.
Qed.

(** An engine speed, an error, an offer, and a short datagram. *)
Definition demo_inputs : list received :=
  [Datagram [0x01; 0x01; 0x80; 0x01; 0; 0; 0; 12; 0; 0; 0; 5; 1; 1; 2; 0; 0x45; 0x22; 0x80; 0];
   RecvError;
   Datagram [0xFF; 0xFF; 0x81; 0; 0; 0; 0; 12; 0; 0; 0; 1; 1; 1; 2; 0; 0xC0; 0; 0; 0];
   Datagram [0x01; 0x01; 0x80; 0x01]].

Lemma sd_subscriber_lines_witness :
  exists subs v,
    main (T:=x86_64) 3 0 (Datagram [1; 2; 3]) (mk_sockaddr 0x0100007F 30490) 4 0 (replicate 1500 0) demo_inputs
    = Ok (None, subs, [mk_shown "EngineRPM" v 5])
    /\ v = f_of_double (d_of_int 2600).
Proof.
  destruct (sd_subscriber_lines (T:=x86_64) 3 0 (Datagram [1; 2; 3]) (mk_sockaddr 0x0100007F 30490) 4 0
    (replicate 1500 0) demo_inputs) as (subs & Hm & _);
    [lia|lia|by vm_compute|lia|lia|by vm_compute| |].
  { repeat (apply Forall_cons_2; [vm_compute recvfrom; closed_bytes|]). apply Forall_nil_2. }
  exists subs, (f_of_double (d_of_int 2600)). split; [exact Hm|reflexivity].
Defined.

(** The first datagram is printed, the error ends the program. *)
Lemma subscriber_lines_witness :
  Subscriber.main (T:=x86_64) 3 0 0 (replicate 1500 0) demo_inputs
  = Ok (Some 0, [Subscriber.Message (mk_printed 0x0101 0x8001 12 0 5 1 1 2 0
                   (inl (f_of_bits 0x00802245)))]).
Proof.
  destruct (subscriber_lines (T:=x86_64) 3 0 0 (replicate 1500 0) demo_inputs) as [Hm _];
    [lia|lia|lia|by vm_compute| |].
  { repeat (apply Forall_cons_2; [vm_compute recvfrom; closed_bytes|]). apply Forall_nil_2. }
  rewrite Hm. vm_compute. reflexivity.
Defined.

End properties.
