(* ===== verification/SignalDecoder.v ===== *)
(** * Signal decoder ([src/src/can/signal_decoder.hpp], [.cpp])

    [Module SignalDecoder] is the class: bit extraction, sign extension,
    scaling and clamping, in the fixed-width arithmetic of the code, where a
    shift out of range is a fault.  Floating-point products and sums are
    rounded separately (no contraction).  [raw_value] and [signed_value]
    say what is extracted: a slice of the little-endian number the eight
    data bytes make. *)

From Stdlib Require Import SpecFloat.
From S2P Require Import Prelude Floats Types.

Module SignalDecoder.

(** [x << n] on [uint64_t]. *)
Definition shl64 (x n : Z) : checked Z :=
  if (0 <=? n) && (n <? 64) then Ok (u64 (Z.shiftl x n)) else Fault BadShift.

(** The [for] loop of [extract_bits] from index [i] on. *)
Fixpoint extract_loop (fuel : nat) (data : list Z) (start_bit length i result : Z) : checked Z :=
  if i <? length then
    match fuel with
    | O => Fault OutOfFuel
    | S fuel =>
        let bit_pos := u8 (start_bit + i) in
        let byte_idx := u8 (bit_pos / 8) in
        let bit_idx := u8 (bit_pos mod 8) in
        if 8 <=? byte_idx then Ok result
        else
          b ← rd data byte_idx;
          result ← (if negb (Z.land b (Z.shiftl 1 bit_idx) =? 0)
                    then bit ← shl64 1 i; Ok (Z.lor result bit)
                    else Ok result);
          extract_loop fuel data start_bit length (u8 (i + 1)) result
    end
  else Ok result.

(** A length is at most 255. *)
Definition extract_bits (data : list Z) (start_bit length : Z) : checked Z :=
  extract_loop 255 data start_bit length 0 0.

(** Step 2 of [decode]: two's complement. *)
Definition sign_extend (is_signed : bool) (length raw : Z) : checked Z :=
  if is_signed && (length <? 64) then
    sign_bit ← shl64 1 (length - 1);
    if negb (Z.land raw sign_bit =? 0)
    then high ← shl64 (u64 (Z.lnot 0)) length; Ok (i64 (Z.lor raw high))
    else Ok (i64 raw)
  else Ok (i64 raw).

(** The body of the loop of [decode]. *)
Definition decode_signal (data : list Z) (sig : SignalDef) : checked DecodedSignal :=
  raw ← extract_bits data (sg_start_bit sig) (sg_length sig);
  raw_signed ← sign_extend (sg_is_signed sig) (sg_length sig) raw;
  let physical := d_add (d_mul (d_of_int raw_signed) (sg_scale sig)) (sg_offset sig) in
  let physical := d_max (sg_min_val sig) (d_min (sg_max_val sig) physical) in
  Ok (mk_decoded (sg_name sig) physical (sg_unit sig)).

Fixpoint decode_signals (data : list Z) (sigs : list SignalDef) : checked (list DecodedSignal) :=
  match sigs with
  | [] => Ok []
  | sig :: sigs =>
      d ← decode_signal data sig;
      ds ← decode_signals data sigs;
      Ok (d :: ds)
  end.

Definition decode (frame : can_frame) (msg : MessageDef) : checked (list DecodedSignal) :=
  decode_signals (frame_data frame) (md_signals msg).

End SignalDecoder.

(** ** What is extracted *)
Module DecoderSpec.

Definition raw_value (data : list Z) (start_bit length : Z) : Z :=
  (le_val data / 2 ^ start_bit) mod 2 ^ length.

(** The two's complement value of [raw] in [length] bits. *)
Definition signed_value (length raw : Z) : Z :=
  if raw <? 2 ^ (length - 1) then raw else raw - 2 ^ length.

Definition integer_value (data : list Z) (sig : SignalDef) : Z :=
  let raw := raw_value data (sg_start_bit sig) (sg_length sig) in
  if sg_is_signed sig && (sg_length sig <? 64)
  then signed_value (sg_length sig) raw
  else i64 raw.

(** The physical value for the integer [n], clamped. *)
Definition scaled (sig : SignalDef) (n : Z) : double :=
  d_max (sg_min_val sig) (d_min (sg_max_val sig)
    (d_add (d_mul (d_of_int n) (sg_scale sig)) (sg_offset sig))).

Definition physical_value (data : list Z) (sig : SignalDef) : double :=
  scaled sig (integer_value data sig).

(** The one definition the decoder cannot serve. *)
Definition decodable (sig : SignalDef) : bool :=
  negb (sg_is_signed sig && (sg_length sig =? 0)).

End DecoderSpec.

(** ** Lemmas *)
Module SignalDecoderFacts.
Import SignalDecoder DecoderSpec.

Lemma le_val_range l : bytes l -> 0 <= le_val l < 2 ^ (8 * zlen l).
Proof.
  induction 1 as [|b l Hb Hl IH]; [by vm_compute|]. cbn [le_val]. rewrite zlen_cons.
  replace (8 * (1 + zlen l)) with (8 + 8 * zlen l) by lia.
  rewrite Z.pow_add_r by (pose proof (zlen_nonneg l); lia). change (2 ^ 8) with 256.
  unfold is_u8 in Hb. lia.
Qed.

(** Bit [8 * k + j] of the little-endian value is bit [j] of byte [k]. *)
Lemma le_val_testbit l : bytes l -> forall n, 0 <= n ->
  Z.testbit (le_val l) n
  = match l !! Z.to_nat (n / 8) with Some b => Z.testbit b (n mod 8) | None => false end.
Proof.
  induction 1 as [|b l Hb Hl IH]; intros n Hn.
  - cbn. by rewrite Z.bits_0.
  - cbn [le_val]. assert (b + 256 * le_val l = Z.lor (Z.shiftl (le_val l) 8) b) as ->.
    { rewrite lor_shiftl_add by (unfold is_u8 in *; cbn; lia). lia. }
    rewrite Z.lor_spec. destruct (Z.lt_ge_cases n 8) as [Hs|Hs].
    + rewrite Z.shiftl_spec_low by lia. rewrite Z.div_small, Z.mod_small by lia. done.
    + rewrite Z.shiftl_spec_high, IH by lia.
      assert (Z.testbit b n = false) as ->.
      { rewrite <- (Z.mod_small b (2 ^ 8)) by (unfold is_u8 in *; cbn; lia).
        apply Z.mod_pow2_bits_high. lia. }
      rewrite orb_false_r. replace (n / 8) with (1 + (n - 8) / 8) by zlia.
      replace (n mod 8) with ((n - 8) mod 8) by zlia.
      rewrite Z2Nat.inj_add by zlia. done.
Qed.

Lemma mod_pow2_succ w i :
  0 <= i -> w mod 2 ^ (i + 1) = Z.lor (w mod 2 ^ i) (if Z.testbit w i then 2 ^ i else 0).
Proof.
  intros Hi. apply Z.bits_inj'. intros n Hn. rewrite Z.lor_spec.
  destruct (Z.lt_trichotomy n i) as [H|[->|H]].
  - rewrite !Z.mod_pow2_bits_low by lia.
    destruct (Z.testbit w i); [rewrite Z.pow2_bits_false by lia|rewrite Z.bits_0];
      by rewrite orb_false_r.
  - rewrite Z.mod_pow2_bits_low, Z.mod_pow2_bits_high by lia.
    destruct (Z.testbit w i); [by rewrite Z.pow2_bits_true by lia|by rewrite Z.bits_0].
  - rewrite !Z.mod_pow2_bits_high by lia.
    destruct (Z.testbit w i); [by rewrite Z.pow2_bits_false by lia|by rewrite Z.bits_0].
Qed.

Lemma land_pow2 b j : 0 <= j -> negb (Z.land b (Z.shiftl 1 j) =? 0) = Z.testbit b j.
Proof.
  intros Hj. rewrite Z.shiftl_1_l.
  destruct (Z.testbit b j) eqn:E; destruct (Z.eqb_spec (Z.land b (2 ^ j)) 0) as [H|H]; try done.
  - exfalso. assert (Z.testbit (Z.land b (2 ^ j)) j = true) as Ht
      by (by rewrite Z.land_spec, E, Z.pow2_bits_true by lia).
    rewrite H, Z.bits_0 in Ht. discriminate.
  - exfalso. apply H. apply Z.bits_inj'. intros n Hn. rewrite Z.land_spec, Z.bits_0.
    destruct (decide (n = j)) as [->|]; [by rewrite E|].
    by rewrite Z.pow2_bits_false, andb_false_r by lia.
Qed.

Lemma shl64_ok x n : 0 <= n < 64 -> shl64 x n = Ok (u64 (Z.shiftl x n)).
Proof. intros [H1 H2]. unfold shl64. by rewrite (proj2 (Z.leb_le _ _)), (proj2 (Z.ltb_lt _ _)). Qed.

Lemma shl64_one n : 0 <= n < 64 -> shl64 1 n = Ok (2 ^ n).
Proof.
  intros Hn. rewrite shl64_ok, Z.shiftl_1_l by done. f_equal. apply u64_small.
  unfold is_u64. change 18446744073709551616 with (2 ^ 64).
  split; [apply Z.pow_nonneg; lia|apply Z.pow_lt_mono_r; lia].
Qed.

Section extract.
Context (data : list Z) (Hdata : bytes data) (Hlen : length data = 8%nat).

Lemma data_range : 0 <= le_val data < 2 ^ 64.
Proof using Hdata Hlen.
  pose proof (le_val_range data Hdata) as H. unfold zlen in H. by rewrite Hlen in H.
Qed.

(** The slice is already complete when the frame is exhausted. *)
Lemma slice_exhausted s n m :
  0 <= s -> 64 <= s + n -> 0 <= n <= m ->
  (le_val data / 2 ^ s) mod 2 ^ n = (le_val data / 2 ^ s) mod 2 ^ m.
Proof using Hdata Hlen.
  intros Hs H64 Hnm. pose proof data_range as [Hd1 Hd2].
  assert (0 < 2 ^ s) by (apply Z.pow_pos_nonneg; lia).
  assert (0 <= le_val data / 2 ^ s < 2 ^ n) as Hq.
  { split; [apply Z.div_pos; lia|]. apply Z.div_lt_upper_bound; [lia|].
    rewrite <- Z.pow_add_r by lia. eapply Z.lt_le_trans; [exact Hd2|].
    apply Z.pow_le_mono_r; lia. }
  assert (2 ^ n <= 2 ^ m) by (apply Z.pow_le_mono_r; lia).
  by rewrite !Z.mod_small by lia.
Qed.

Lemma extract_loop_ok s len : is_u8 s -> is_u8 len -> forall fuel i,
  len - i <= Z.of_nat fuel -> 0 <= i <= len -> i = 0 \/ s + i <= 64 ->
  extract_loop fuel data s len i (raw_value data s i) = Ok (raw_value data s len).
Proof using Hdata Hlen.
  unfold is_u8. intros Hs Hl. induction fuel as [|fuel IH]; intros i Hf Hi Hb;
    cbn [extract_loop]; destruct (Z.ltb_spec i len) as [Hlt|Hge]; try lia.
  - by replace i with len by lia.
  - rewrite (u8_small (s + i)), (u8_small (_ / 8)), (u8_small (_ mod 8)) by (unfold is_u8; zlia).
    destruct (Z.leb_spec 8 ((s + i) / 8)) as [H8|H8].
    + unfold raw_value. f_equal. apply slice_exhausted; [lia|zlia|lia].
    + assert (s + i < 64) as H64 by zlia.
      rewrite rd_ok by (unfold zlen; zlia). cbn [mbind checked_bind].
      rewrite land_pow2 by zlia. rewrite shl64_one by lia. cbn [mbind checked_bind].
      rewrite (u8_small (i + 1)) by (unfold is_u8; lia).
      assert (Z.testbit (data !!! Z.to_nat ((s + i) / 8)) ((s + i) mod 8)
              = Z.testbit (le_val data / 2 ^ s) i) as ->.
      { rewrite Z.div_pow2_bits, (Z.add_comm i), le_val_testbit by (done || lia).
        by rewrite (list_lookup_lookup_total_lt data) by (rewrite Hlen; zlia). }
      assert ((if Z.testbit (le_val data / 2 ^ s) i
               then Ok (Z.lor (raw_value data s i) (2 ^ i)) else Ok (raw_value data s i))
              = Ok (raw_value data s (i + 1))) as ->.
      { unfold raw_value. rewrite mod_pow2_succ by lia.
        destruct (Z.testbit _ i); [done|by rewrite Z.lor_0_r]. }
      cbn [mbind checked_bind]. apply IH; lia.
  - by replace i with len by lia.
Qed.

Lemma extract_bits_ok s len :
  is_u8 s -> is_u8 len -> extract_bits data s len = Ok (raw_value data s len).
Proof using Hdata Hlen.
  intros Hs Hl. unfold extract_bits.
  replace 0 with (raw_value data s 0) at 2 by (unfold raw_value; by rewrite Z.mod_1_r).
  apply extract_loop_ok; try done; unfold is_u8 in *; lia.
Qed.

Lemma raw_value_range s len : 0 <= s -> 0 <= len -> 0 <= raw_value data s len < 2 ^ Z.min len 64.
Proof using Hdata Hlen.
  intros Hs Hl. unfold raw_value. pose proof data_range as [Hd1 Hd2].
  assert (0 < 2 ^ s) by (apply Z.pow_pos_nonneg; lia).
  assert (le_val data / 2 ^ s <= le_val data) by (apply Z.div_le_upper_bound; nia).
  assert (0 <= le_val data / 2 ^ s) by (apply Z.div_pos; lia).
  pose proof (Z.mod_pos_bound (le_val data / 2 ^ s) (2 ^ len) ltac:(apply Z.pow_pos_nonneg; lia)).
  pose proof (Z.mod_le (le_val data / 2 ^ s) (2 ^ len) ltac:(lia) ltac:(apply Z.pow_pos_nonneg; lia)).
  destruct (Z.min_spec len 64) as [[_ ->]|[_ ->]]; lia.
Qed.

End extract.

(** Sign extension of a slice of 1 to 63 bits. *)
Lemma i64_small x : - 2 ^ 63 <= x < 2 ^ 63 -> i64 x = x.
Proof. intros. unfold i64. change (2 ^ 63) with 9223372036854775808 in *. zlia. Qed.

Lemma testbit_top len raw :
  1 <= len -> 0 <= raw < 2 ^ len -> Z.testbit raw (len - 1) = negb (raw <? 2 ^ (len - 1)).
Proof.
  intros Hl Hr. replace len with (Z.succ (len - 1)) in Hr at 1 by lia.
  rewrite Z.pow_succ_r in Hr by lia. rewrite Z.testbit_eqb by lia.
  assert (0 < 2 ^ (len - 1)) by (apply Z.pow_pos_nonneg; lia).
  destruct (Z.ltb_spec raw (2 ^ (len - 1))) as [H1|H1].
  - by rewrite Z.div_small by lia.
  - assert (raw / 2 ^ (len - 1) = 1) as ->; [|done].
    symmetry. apply (Z.div_unique _ _ 1 (raw - 2 ^ (len - 1))); lia.
Qed.

Lemma sign_extend_ok len raw :
  1 <= len < 64 -> 0 <= raw < 2 ^ len -> sign_extend true len raw = Ok (signed_value len raw).
Proof.
  intros Hl Hr. unfold sign_extend, signed_value.
  assert (2 ^ len <= 2 ^ 63) by (apply Z.pow_le_mono_r; lia).
  guards. cbn [andb].
  rewrite shl64_one by lia. cbn [mbind checked_bind].
  rewrite <- (Z.shiftl_1_l (len - 1)), land_pow2, testbit_top, Z.shiftl_1_l by lia.
  destruct (Z.ltb_spec raw (2 ^ (len - 1))) as [H1|H1]; cbn [negb].
  - rewrite i64_small; [done|lia].
  - rewrite shl64_ok by lia. cbn [mbind checked_bind]. f_equal.
    change (u64 (Z.lnot 0)) with (2 ^ 64 - 1).
    assert (u64 (Z.shiftl (2 ^ 64 - 1) len) = Z.shiftl (2 ^ (64 - len) - 1) len) as ->.
    { rewrite !Z.shiftl_mul_pow2 by lia. unfold u64.
      assert (2 ^ (64 - len) * 2 ^ len = 18446744073709551616) as Hp
        by (rewrite <- Z.pow_add_r by lia; by replace (64 - len + len) with 64 by lia).
      assert (0 < 2 ^ (64 - len)) by (apply Z.pow_pos_nonneg; lia).
      assert (0 < 2 ^ len) by (apply Z.pow_pos_nonneg; lia).
      change (2 ^ 64 - 1) with 18446744073709551615.
      symmetry. apply (Z.mod_unique _ _ (2 ^ len - 1)); [left|]; nia. }
    rewrite Z.lor_comm, lor_shiftl_add by lia.
    rewrite Z.mul_sub_distr_r, <- Z.pow_add_r by lia. replace (64 - len + len) with 64 by lia.
    unfold i64. change 18446744073709551616 with (2 ^ 64). change 9223372036854775808 with (2 ^ 63).
    replace (2 ^ 64 - 1 * 2 ^ len + raw + 2 ^ 63) with (raw - 2 ^ len + 2 ^ 63 + 1 * 2 ^ 64) by lia.
    rewrite Z.mod_add by lia. rewrite Z.mod_small; [lia|]. change (2 ^ 64) with (2 * 2 ^ 63). lia.
Qed.

Lemma sign_extend_plain len raw : sign_extend false len raw = Ok (i64 raw).
Proof. done. Qed.

Lemma sign_extend_wide sg len raw : 64 <= len -> sign_extend sg len raw = Ok (i64 raw).
Proof. intros. unfold sign_extend. by rewrite (proj2 (Z.ltb_ge _ _)), andb_false_r. Qed.

Lemma decode_signal_ok data sig :
  bytes data -> length data = 8%nat -> signal_ok sig ->
  decode_signal data sig
  = if decodable sig then Ok (mk_decoded (sg_name sig) (physical_value data sig) (sg_unit sig))
    else Fault BadShift.
Proof.
  intros Hd Hl (Hs & Hn & _). unfold decode_signal. rewrite extract_bits_ok by done.
  cbn [mbind checked_bind]. unfold decodable, physical_value, integer_value.
  pose proof Hs as Hs'. pose proof Hn as Hn'. unfold is_u8 in Hs', Hn'.
  pose proof (raw_value_range data Hd Hl (sg_start_bit sig) (sg_length sig) ltac:(lia) ltac:(lia)) as Hr.
  destruct (sg_is_signed sig); cbn [andb].
  - destruct (Z.eqb_spec (sg_length sig) 0) as [H0|H0]; cbn [negb].
    + rewrite H0. done.
    + destruct (Z.ltb_spec (sg_length sig) 64).
      * rewrite sign_extend_ok by (rewrite ?Z.min_l in Hr by lia; lia). done.
      * rewrite sign_extend_wide by lia. done.
  - done.
Qed.

Lemma decode_signals_ok data sigs :
  bytes data -> length data = 8%nat -> Forall signal_ok sigs ->
  decode_signals data sigs
  = if forallb decodable sigs
    then Ok (map (fun sig => mk_decoded (sg_name sig) (physical_value data sig) (sg_unit sig)) sigs)
    else Fault BadShift.
Proof.
  intros Hd Hl Hf. induction Hf as [|sig sigs Hs Hf IH]; [done|].
  cbn [decode_signals forallb]. rewrite decode_signal_ok by done.
  destruct (decodable sig); [|done]. cbn [mbind checked_bind andb]. rewrite IH.
  by destruct (forallb decodable sigs).
Qed.

Lemma physical_valid data sig : signal_ok sig -> d_valid (physical_value data sig) = true.
Proof. intros (_ & _ & ? & ? & ? & ?). unfold physical_value, scaled. auto 10 with gw. Qed.

End SignalDecoderFacts.

(** ** Properties *)
Section properties.
Import SignalDecoder DecoderSpec SignalDecoderFacts.

(** C7: for every start bit and length a signal definition can hold, bit
    extraction never reads outside the eight data bytes, never shifts out
    of range and ends, and returns the slice of the little-endian 64-bit
    number of the frame: its quotient by 2^start modulo 2^length, with bits
    beyond the frame read as zero.  Sign extension of a slice of 1 to 63
    bits gives the two's complement value. *)
Theorem decoder_extract_correct data start_bit len :
  bytes data -> length data = 8%nat -> is_u8 start_bit -> is_u8 len ->
  let raw := (le_val data / 2 ^ start_bit) mod 2 ^ len in
  extract_bits data start_bit len = Ok raw
  /\ 0 <= raw < 2 ^ 64
  /\ (1 <= len < 64 ->
      exists v, sign_extend true len raw = Ok v
        /\ - 2 ^ (len - 1) <= v < 2 ^ (len - 1) /\ v mod 2 ^ len = raw).
Proof.
  intros Hd Hl Hs Hn raw. pose proof Hs as Hs'. pose proof Hn as Hn'. unfold is_u8 in Hs', Hn'.
  pose proof (raw_value_range data Hd Hl start_bit len ltac:(lia) ltac:(lia)) as Hr.
  change (raw_value data start_bit len) with raw in Hr.
  split; [by apply extract_bits_ok|]. split.
  { split; [lia|]. eapply Z.lt_le_trans; [apply Hr|]. apply Z.pow_le_mono_r; lia. }
  intros Hlen. rewrite Z.min_l in Hr by lia. exists (signed_value len raw).
  split; [by apply sign_extend_ok|]. unfold signed_value.
  replace len with (Z.succ (len - 1)) in Hr at 1 by lia. rewrite Z.pow_succ_r in Hr by lia.
  assert (2 ^ len = 2 * 2 ^ (len - 1)) as Hp.
  { rewrite <- Z.pow_succ_r by lia. f_equal. lia. }
  destruct (Z.ltb_spec raw (2 ^ (len - 1))).
  - split; [lia|]. apply Z.mod_small. lia.
  - split; [lia|]. symmetry. apply (Z.mod_unique _ _ (-1)); lia.
Qed.

Lemma decoder_extract_correct_witness :
  extract_bits [0; 0; 0; 0xB0; 0xFE; 0; 0; 0] 28 12 = Ok 0xFEB
  /\ exists v, sign_extend true 12 0xFEB = Ok v /\ v mod 2 ^ 12 = 0xFEB /\ v < 0.
Proof.
  destruct (decoder_extract_correct [0; 0; 0; 0xB0; 0xFE; 0; 0; 0] 28 12) as (H1 & _ & H3);
    [closed_bytes | reflexivity | unfold is_u8; lia | unfold is_u8; lia |].
  split; [exact H1|]. destruct H3 as (v & H4 & _ & H6); [lia|].
  exists v. split; [exact H4|]. split; [exact H6|]. vm_compute in H4. injection H4 as <-. lia.
Defined.

(** C6: decoding a frame under a message definition succeeds exactly when no
    signal is signed with length zero, and then returns one result per
    signal, in the definition's order, with its name and unit; each value
    is a well-formed double, the clamped scaled integer, and lies between
    the signal's bounds when these are ordered, whatever the frame holds
    (a NaN from the scaling included). *)
Theorem decoder_decode_correct frame msg :
  frame_ok frame -> message_ok msg ->
  if forallb decodable (md_signals msg)
  then exists results,
    decode frame msg = Ok results
    /\ Forall2 (fun sig d =>
         ds_name d = sg_name sig /\ ds_unit d = sg_unit sig
         /\ ds_value d = physical_value (frame_data frame) sig
         /\ d_valid (ds_value d) = true
         /\ (d_le (sg_min_val sig) (sg_max_val sig) = true ->
             d_le (sg_min_val sig) (ds_value d) = true
             /\ d_le (ds_value d) (sg_max_val sig) = true))
       (md_signals msg) results
  else decode frame msg = Fault BadShift.
Proof.
  intros (_ & Hd & Hl) (_ & _ & Hs). pose proof (decode_signals_ok _ _ Hd Hl Hs) as Hok.
  change (decode_signals (frame_data frame) (md_signals msg)) with (decode frame msg) in Hok.
  destruct (forallb decodable (md_signals msg)); [|done].
  eexists. split; [exact Hok|]. clear Hok.
  induction Hs as [|sig sigs Hsig _ IH]; constructor; [|done].
  split_and!; try done; [by apply physical_valid|]. intros Hle.
  unfold physical_value, scaled, ds_value.
  destruct (clamp_spec (sg_min_val sig) (sg_max_val sig)
    (d_add (d_mul (d_of_int (integer_value (frame_data frame) sig)) (sg_scale sig)) (sg_offset sig))
    Hle) as (? & ? & _). done.
Qed.

Definition demo_signal : SignalDef :=
  mk_signal "Temp" 4 12 true true (d_of_int 2) (d_of_int (-40)) (d_of_int (-100)) (d_of_int 150) "degC".
Definition demo_msg : MessageDef := mk_message 291 "Demo" 8 [demo_signal].
Definition demo_can_frame : can_frame := mk_frame 291 8 [0xB0; 0xFE; 0; 0; 0; 0; 0; 0].

Lemma demo_msg_ok : message_ok demo_msg.
Proof.
  unfold message_ok, demo_msg, demo_signal. cbn [md_can_id md_length md_signals].
  split_and!; [unfold is_u32; lia | unfold is_u8; lia | apply Forall_cons_2; [|apply Forall_nil_2]].
  unfold signal_ok. cbn [sg_start_bit sg_length sg_scale sg_offset sg_min_val sg_max_val].
  split_and!; [unfold is_u8; lia | unfold is_u8; lia | reflexivity..].
Qed.

Lemma decoder_decode_correct_witness :
  exists results, decode demo_can_frame demo_msg = Ok results
    /\ map ds_value results = [d_of_int (-82)].
Proof.
  pose proof (decoder_decode_correct demo_can_frame demo_msg) as H.
  change (forallb decodable (md_signals demo_msg)) with true in H. cbv iota in H.
  destruct H as (results & H1 & _).
  - split_and!; [unfold is_u32; cbn; lia | closed_bytes | reflexivity].
  - exact demo_msg_ok.
  - exists results. split; [exact H1|]. vm_compute in H1. by injection H1 as <-.
Defined.

(** At the edges of the length field the decoder departs from what a
    database means: the result does not depend on the byte-order flag, so a
    big-endian (Motorola) signal is read as a little-endian one; an unsigned
    64-bit signal with its top bit set comes out negative; and a signed
    signal of length zero shifts by minus one, which C++ leaves undefined. *)
Theorem decoder_edge_cases data sig :
  bytes data -> length data = 8%nat -> signal_ok sig ->
  (forall le, decode_signal data (mk_signal (sg_name sig) (sg_start_bit sig) (sg_length sig)
       (sg_is_signed sig) le (sg_scale sig) (sg_offset sig) (sg_min_val sig) (sg_max_val sig)
       (sg_unit sig)) = decode_signal data sig)
  /\ (sg_is_signed sig = false -> sg_start_bit sig = 0 -> sg_length sig = 64 ->
      2 ^ 63 <= le_val data -> integer_value data sig = le_val data - 2 ^ 64)
  /\ (sg_is_signed sig = true -> sg_length sig = 0 -> decode_signal data sig = Fault BadShift).
Proof.
  intros Hd Hl Hs. split; [done|]. split.
  - intros Hu H0 H64 Htop. unfold integer_value. rewrite Hu. cbn [andb]. rewrite H0, H64.
    unfold raw_value. rewrite Z.div_1_r. pose proof (data_range data Hd Hl).
    rewrite Z.mod_small by lia. unfold i64.
    change (2 ^ 64) with 18446744073709551616 in *. change (2 ^ 63) with 9223372036854775808 in *. zlia.
  - intros Hsg H0. rewrite decode_signal_ok by done. unfold decodable. by rewrite Hsg, H0.
Qed.

Lemma decoder_edge_cases_witness :
  let sig := mk_signal "Counter" 0 64 false true (d_of_int 1) (d_of_int 0) (d_of_int (-5)) (d_of_int 5) "" in
  let data := [0xFF; 0xFF; 0xFF; 0xFF; 0xFF; 0xFF; 0xFF; 0xFF] in
  integer_value data sig = -1
  /\ decode_signal data (mk_signal "Counter" 0 64 false false (d_of_int 1) (d_of_int 0)
       (d_of_int (-5)) (d_of_int 5) "") = decode_signal data sig.
Proof.
  intros sig data. destruct (decoder_edge_cases data sig) as (H1 & H2 & _).
  - closed_bytes.
  - reflexivity.
  - unfold signal_ok, sig. cbn [sg_start_bit sg_length sg_scale sg_offset sg_min_val sg_max_val].
    split_and!; [unfold is_u8; lia | unfold is_u8; lia | reflexivity..].
  - split; [|exact (H1 false)]. rewrite H2; [reflexivity..|vm_compute; discriminate].
Defined.

End properties.
