(* ===== verification/Accuracy.v ===== *)
(** * Accuracy of the CAN signal decoder

    What [extract_raw * scale + offset], clamped, is in exact arithmetic:
    the decoded [double], and the [float] the publisher makes of it, compared
    with the value the database prescribes for the raw integer. *)

From Stdlib Require Import SpecFloat QArith Qabs Qminmax Lqa.
From S2P Require Import Prelude Floats Rounding Types SignalDecoder.
Import DecoderSpec.
#[local] Open Scope Q_scope.

(** The four numbers of a signal are finite numbers. *)
Definition proper_number (x : double) : bool := d_valid x && is_finite x.
Definition proper_signal (sig : SignalDef) : bool :=
  proper_number (sg_scale sig) && proper_number (sg_offset sig)
  && proper_number (sg_min_val sig) && proper_number (sg_max_val sig).

(** The value for the integer [n], in exact arithmetic. *)
Definition exact_value (sig : SignalDef) (n : Z) : Q :=
  Qclamp (val (sg_min_val sig)) (val (sg_max_val sig)) (inject_Z n * val (sg_scale sig) + val (sg_offset sig)).

(** ** Lemmas *)
Lemma proper_number_spec x : proper_number x = true -> d_valid x = true /\ is_finite x = true.
Proof. unfold proper_number. by rewrite andb_true_iff. Qed.

Lemma proper_signal_spec sig :
  proper_signal sig = true ->
  proper_number (sg_scale sig) = true /\ proper_number (sg_offset sig) = true
  /\ proper_number (sg_min_val sig) = true /\ proper_number (sg_max_val sig) = true.
Proof. unfold proper_signal. rewrite !andb_true_iff. tauto. Qed.

Lemma Qmult_le_l_nonneg a x y : 0 <= a -> x <= y -> a * x <= a * y.
Proof. intros. rewrite !(Qmult_comm a). by apply Qmult_le_compat_r. Qed.

(** The clamped value, for whatever is clamped. *)
Lemma clamp_val lo hi x :
  proper_number lo = true -> proper_number hi = true -> proper_number x = true ->
  proper_number (d_max lo (d_min hi x)) = true
  /\ val (d_max lo (d_min hi x)) == Qclamp (val lo) (val hi) (val x).
Proof.
  intros [Hvl Hl]%proper_number_spec [Hvh Hh]%proper_number_spec [Hvx Hx]%proper_number_spec.
  destruct (d_min_val hi x Hvh Hvx Hh Hx) as [Hf Hv].
  assert (d_valid (d_min hi x) = true) as Hvm by auto with gw.
  destruct (d_max_val lo (d_min hi x) Hvl Hvm Hl Hf) as [Hf' Hv'].
  split; [unfold proper_number; rewrite Hf', andb_true_r; auto with gw|].
  unfold Qclamp. by rewrite Hv', Hv.
Qed.

(** The scaled value before clamping. *)
Lemma linear_val n scale offset B :
  (Z.abs n < 2 ^ 53)%Z -> proper_number scale = true -> proper_number offset = true ->
  Qabs (inject_Z n * val scale) + Qabs (val offset) <= B -> B <= pow2 900 ->
  proper_number (d_add (d_mul (d_of_int n) scale) offset) = true
  /\ Qabs (val (d_add (d_mul (d_of_int n) scale) offset) - (inject_Z n * val scale + val offset))
     <= B * pow2 (-51) + pow2 (-1073).
Proof.
  intros Hn [Hvs Hs]%proper_number_spec [Hvo Ho]%proper_number_spec HB Hmax.
  destruct (d_of_int_val n Hn) as [Hfn Hvn].
  set (x := inject_Z n * val scale) in *. set (o := val offset) in *.
  pose proof (Qabs_nonneg x). pose proof (Qabs_nonneg o).
  pose proof (pow2_le 900 1000 ltac:(lia)).
  assert (rounds 53 1024 x (d_mul (d_of_int n) scale)) as Hr1.
  { unfold x. rewrite <- Hvn. apply d_mul_rounds; [auto with gw|done..|]. rewrite Hvn. fold x. lra. }
  pose proof (d_rounds_error _ _ B Hr1 ltac:(lra)) as He1.
  set (y := d_mul (d_of_int n) scale) in *.
  assert (d_valid y = true) as Hvy by (unfold y; auto with gw).
  assert (is_finite y = true) as Hfy by apply Hr1.
  assert (pow2 (-53) <= 1 # 100) by (by vm_compute).
  assert (0 < pow2 (-53)) by apply pow2_pos.
  assert (pow2 (-1075) <= 1 # 100) by (by vm_compute).
  assert (0 < pow2 (-1075)) by apply pow2_pos.
  set (w := B * pow2 (-53)) in *.
  assert (0 <= w) by (apply Qmult_le_0_compat; lra).
  assert (w <= B * (1 # 100)) by (apply Qmult_le_l_nonneg; lra).
  pose proof (pow2_le 0 900 ltac:(lia)). change (pow2 0) with 1 in *.
  assert (pow2 901 <= pow2 1000) by (apply pow2_le; lia). change 901%Z with (900 + 1)%Z in *. rewrite pow2_succ in *.
  assert (Qabs (val y + o) <= B + w + pow2 (-1075)) as Hyo.
  { assert (val y + o == (val y - x) + (x + o)) as -> by ring.
    pose proof (Qabs_triangle (val y - x) (x + o)). pose proof (Qabs_triangle x o). lra. }
  assert (rounds 53 1024 (val y + o) (d_add y offset)) as Hr2 by (apply d_add_rounds; [done..|fold o; lra]).
  split; [unfold proper_number; rewrite (rounds_finite _ _ _ _ Hr2), andb_true_r; auto with gw|].
  pose proof (d_rounds_error _ _ _ Hr2 Hyo) as He2. set (z := d_add y offset) in *.
  assert ((B + w + pow2 (-1075)) * pow2 (-53) <= w + w * (1 # 100) + pow2 (-1075) * (1 # 100)) as Hm.
  { assert (w * pow2 (-53) <= w * (1 # 100)) by (apply Qmult_le_l_nonneg; lra).
    assert (pow2 (-1075) * pow2 (-53) <= pow2 (-1075) * (1 # 100)) by (apply Qmult_le_l_nonneg; lra).
    rewrite !Qmult_plus_distr_l. fold w. lra. }
  assert (B * pow2 (-51) == 4 * w) as ->.
  { unfold w. change (-51)%Z with (-53 + 1 + 1)%Z. rewrite !pow2_succ. ring. }
  assert (pow2 (-1073) == 4 * pow2 (-1075)) as ->.
  { change (-1073)%Z with (-1075 + 1 + 1)%Z. rewrite !pow2_succ. ring. }
  assert (val z - (x + o) == (val z - (val y + o)) + (val y - x)) as -> by ring.
  pose proof (Qabs_triangle (val z - (val y + o)) (val y - x)). lra.
Qed.

Lemma scaled_val sig n B :
  proper_signal sig = true -> (Z.abs n < 2 ^ 53)%Z ->
  Qabs (inject_Z n * val (sg_scale sig)) + Qabs (val (sg_offset sig)) <= B -> B <= pow2 900 ->
  proper_number (scaled sig n) = true
  /\ Qabs (val (scaled sig n) - exact_value sig n) <= B * pow2 (-51) + pow2 (-1073).
Proof.
  intros (Hs & Ho & Hlo & Hhi)%proper_signal_spec Hn HB Hmax.
  destruct (linear_val n _ _ B Hn Hs Ho HB Hmax) as [Hp He]. unfold scaled, exact_value.
  set (x := d_add _ _) in *.
  destruct (clamp_val _ _ x Hlo Hhi Hp) as [Hpc Hc]. split; [done|].
  rewrite Hc. by apply Qclamp_close.
Qed.

Lemma Qclamp_bound lo hi x M : Qabs lo <= M -> Qabs hi <= M -> Qabs (Qclamp lo hi x) <= M.
Proof.
  rewrite !Qabs_le. intros [] []. unfold Qclamp.
  destruct (Q.min_spec hi x) as [[? ->]|[? ->]];
    repeat match goal with |- context [Qmax ?a ?b] => destruct (Q.max_spec a b) as [[? ->]|[? ->]] end; split; lra.
Qed.

(** The [float] of the decoded value. *)
Lemma sent_val sig n B M :
  proper_signal sig = true -> (Z.abs n < 2 ^ 53)%Z ->
  Qabs (inject_Z n * val (sg_scale sig)) + Qabs (val (sg_offset sig)) <= B -> B <= pow2 900 ->
  Qabs (val (sg_min_val sig)) <= M -> Qabs (val (sg_max_val sig)) <= M -> M <= pow2 127 ->
  is_finite (f_of_double (scaled sig n)) = true
  /\ Qabs (val (f_of_double (scaled sig n)) - exact_value sig n)
     <= B * pow2 (-51) + pow2 (-1073) + M * pow2 (-24) + pow2 (-150).
Proof.
  intros Hsig Hn HB Hmax Hlo Hhi HM.
  destruct (scaled_val sig n B Hsig Hn HB Hmax) as [[Hv Hf]%proper_number_spec He].
  assert (Qabs (val (scaled sig n)) <= M) as Hb.
  { destruct (proper_signal_spec sig Hsig) as (Hs & Ho & Hpl & Hph).
    destruct (linear_val n _ _ B Hn Hs Ho HB Hmax) as [Hp _].
    unfold scaled. destruct (clamp_val _ _ _ Hpl Hph Hp) as [_ ->]. by apply Qclamp_bound. }
  pose proof (f_of_double_rounds (scaled sig n) Hf ltac:(lra)) as Hr. split; [apply Hr|].
  pose proof (f_rounds_error _ _ M Hr Hb) as Hfe.
  set (x := val (f_of_double (scaled sig n))) in *. set (y := val (scaled sig n)) in *.
  assert (x - exact_value sig n == (x - y) + (y - exact_value sig n)) as -> by ring.
  pose proof (Qabs_triangle (x - y) (y - exact_value sig n)). lra.
Qed.

(** Where every number involved is a multiple of a quarter and small enough,
    nothing is lost. *)
Definition quarters (k : Z) : Q := dyadic k (-2).

Lemma quarters_representable prec emax k :
  (24 <= prec)%Z -> (emin prec emax <= -2)%Z -> (Z.abs k < 2 ^ 24)%Z -> representable prec emax (quarters k).
Proof.
  intros Hp He Hk. exists k, (-2)%Z. split_and!; [|done|done].
  assert (2 ^ 24 <= 2 ^ prec)%Z by (apply Z.pow_le_mono_r; lia). lia.
Qed.

Lemma sent_exact sig n s o l h :
  proper_signal sig = true -> (Z.abs n < 2 ^ 24)%Z ->
  val (sg_scale sig) == quarters s -> val (sg_offset sig) == quarters o ->
  val (sg_min_val sig) == quarters l -> val (sg_max_val sig) == quarters h ->
  (Z.abs (n * s) < 2 ^ 24)%Z -> (Z.abs (n * s + o) < 2 ^ 24)%Z -> (Z.abs l < 2 ^ 24)%Z -> (Z.abs h < 2 ^ 24)%Z ->
  is_finite (f_of_double (scaled sig n)) = true
  /\ val (f_of_double (scaled sig n)) == exact_value sig n.
Proof.
  intros (Hs & Ho & Hl & Hh)%proper_signal_spec Hn Es Eo El Eh Hns Hnso Hl24 Hh24.
  destruct (proper_number_spec _ Hs) as [Hvs Hfs]. destruct (proper_number_spec _ Ho) as [Hvo Hfo].
  assert (forall k, (Z.abs k < 2 ^ 24)%Z -> Qabs (quarters k) <= pow2 22) as Hq.
  { intros k Hk. unfold quarters. rewrite Qabs_le.
    assert (pow2 22 == dyadic (2 ^ 24) (-2)) as -> by (by rewrite dyadic_pow2).
    rewrite <- dyadic_opp. split; apply dyadic_le; lia. }
  pose proof (pow2_le 22 1000 ltac:(lia)). pose proof (pow2_le 22 127 ltac:(lia)).
  destruct (d_of_int_val n ltac:(lia)) as [Hfn Hvn].
  assert (inject_Z n * val (sg_scale sig) == quarters (n * s)) as E1.
  { rewrite Es. unfold quarters, dyadic. rewrite inject_Z_mult. ring. }
  assert (rounds 53 1024 (quarters (n * s)) (d_mul (d_of_int n) (sg_scale sig))) as Hr1.
  { rewrite <- E1, <- Hvn. apply d_mul_rounds; [auto with gw|done..|]. rewrite Hvn, E1.
    specialize (Hq _ Hns). lra. }
  apply rounds_exact in Hr1 as Hv1; [|by apply quarters_representable].
  assert (val (d_mul (d_of_int n) (sg_scale sig)) + val (sg_offset sig) == quarters (n * s + o)) as E2.
  { rewrite Hv1, Eo. unfold quarters. by rewrite dyadic_add. }
  assert (rounds 53 1024 (quarters (n * s + o))
    (d_add (d_mul (d_of_int n) (sg_scale sig)) (sg_offset sig))) as Hr2.
  { rewrite <- E2. apply d_add_rounds; [auto with gw|done|apply Hr1|done|]. rewrite E2.
    specialize (Hq _ Hnso). lra. }
  apply rounds_exact in Hr2 as Hv2; [|by apply quarters_representable].
  destruct (clamp_val _ _ (d_add (d_mul (d_of_int n) (sg_scale sig)) (sg_offset sig)) Hl Hh) as [Hp Hc].
  { unfold proper_number. rewrite (rounds_finite _ _ _ _ Hr2), andb_true_r. auto with gw. }
  fold (scaled sig n) in Hp, Hc. apply proper_number_spec in Hp as [_ Hf].
  assert (exact_value sig n == val (scaled sig n)) as Hex.
  { unfold exact_value. rewrite Hc, Hv2, E1, Eo. unfold quarters. by rewrite dyadic_add. }
  assert (exists k, (Z.abs k < 2 ^ 24)%Z /\ val (scaled sig n) == quarters k) as (k & Hk & Ek).
  { rewrite El, Eh, Hv2 in Hc. unfold Qclamp in Hc.
    destruct (Q.min_spec (quarters h) (quarters (n * s + o))) as [[_ E]|[_ E]]; rewrite E in Hc;
      match type of Hc with _ == Qmax ?a ?b => destruct (Q.max_spec a b) as [[_ E']|[_ E']] end;
      rewrite E' in Hc; eauto. }
  assert (rounds 24 128 (quarters k) (f_of_double (scaled sig n))) as Hr3.
  { rewrite <- Ek. apply f_of_double_rounds; [done|]. rewrite Ek. specialize (Hq _ Hk). lra. }
  split; [apply Hr3|]. rewrite Hex, Ek. apply (rounds_exact 24 128); [done|]. by apply quarters_representable.
Qed.

(** The integer a signal of at most 53 bits stands for is an exact
    [double]. *)
Lemma integer_value_small data sig :
  bytes data -> length data = 8%nat -> signal_ok sig -> (sg_length sig <= 53)%Z ->
  (Z.abs (integer_value data sig) < 2 ^ 53)%Z.
Proof.
  intros Hd Hl (Hs & Hn & _) H53. unfold is_u8 in *.
  pose proof (SignalDecoderFacts.raw_value_range data Hd Hl (sg_start_bit sig) (sg_length sig) ltac:(lia) ltac:(lia)) as Hr.
  rewrite Z.min_l in Hr by lia.
  assert (2 ^ sg_length sig <= 2 ^ 53)%Z by (apply Z.pow_le_mono_r; lia).
  unfold integer_value. guards.
  destruct (sg_is_signed sig); cbn [andb].
  - unfold signed_value. destruct (Z.ltb_spec (raw_value data (sg_start_bit sig) (sg_length sig)) (2 ^ (sg_length sig - 1))); [lia|].
    destruct (Z.eq_dec (sg_length sig) 0) as [E|]; [rewrite E in *; cbn in *; lia|].
    pose proof (Z.pow_pos_nonneg 2 (sg_length sig - 1)). lia.
  - rewrite SignalDecoderFacts.i64_small by lia. lia.
Qed.

(** ** Properties *)

(** C8: the decoder computes what the database says.  For a signal of at most
    53 bits whose four numbers are finite, and where product and offset
    together are at most [2 ^ 900], the decoded value is finite and
    differs from the exact one - the integer times the scale plus the
    offset, clamped between the bounds - by at most [2 ^ -51] relative to
    the magnitude of product and offset, plus [2 ^ -1073] for results too
    small to be normal: two roundings, and nothing from the clamping. *)
Theorem decoder_accuracy frame sig d :
  frame_ok frame -> signal_ok sig -> proper_signal sig = true -> (sg_length sig <= 53)%Z ->
  SignalDecoder.decode_signal (frame_data frame) sig = Ok d ->
  let n := integer_value (frame_data frame) sig in
  let magnitude := Qabs (inject_Z n * val (sg_scale sig)) + Qabs (val (sg_offset sig)) in
  magnitude <= pow2 900 ->
  is_finite (ds_value d) = true
  /\ Qabs (val (ds_value d) - exact_value sig n) <= magnitude * pow2 (-51) + pow2 (-1073).
Proof.
  intros (Hid & Hd & Hl) Hok Hsig H53 Hdec n magnitude Hm.
  rewrite SignalDecoderFacts.decode_signal_ok in Hdec by done.
  destruct (decodable sig); [|done]. injection Hdec as <-. cbn [ds_value].
  pose proof (integer_value_small (frame_data frame) sig Hd Hl Hok H53) as Hn. fold n in Hn.
  destruct (scaled_val sig n magnitude Hsig Hn ltac:(unfold magnitude; lra) Hm) as [Hp He].
  apply proper_number_spec in Hp as [_ Hf]. by split.
Qed.

Definition demo_speed : SignalDef :=
  mk_signal "Speed" 8 16 true true (d_div (d_of_int 1) (d_of_int 100)) (d_of_int 0)
    (d_of_int (-300)) (d_of_int 300) "km/h".
Definition demo_speed_frame : can_frame := mk_frame 292 8 [0; 0x9C; 0xFF; 0; 0; 0; 0; 0]%Z.

(** The raw value -100 of a signed signal with scale 0.01: within [2 ^ -50]
    of -1. *)
Lemma decoder_accuracy_witness :
  exists d,
    SignalDecoder.decode_signal (frame_data demo_speed_frame) demo_speed = Ok d
    /\ Qabs (val (ds_value d) - exact_value demo_speed (-100)) <= pow2 (-50).
Proof.
  destruct (SignalDecoder.decode_signal (frame_data demo_speed_frame) demo_speed) as [d|] eqn:E;
    [|vm_compute in E; discriminate E].
  exists d. split; [reflexivity|].
  destruct (decoder_accuracy demo_speed_frame demo_speed d) as [_ H].
  - split; [unfold is_u32; cbn; lia|split; [closed_bytes|reflexivity]].
  - split_and!; unfold is_u8; cbn; try lia; reflexivity.
  - vm_compute; reflexivity.
  - cbn; lia.
  - exact E.
  - vm_compute; discriminate.
  - change (integer_value (frame_data demo_speed_frame) demo_speed) with (-100)%Z in H.
    eapply Qle_trans; [exact H|]. vm_compute; discriminate.
Defined.
