(* ===== verification/CanTools.v ===== *)
(** * Traffic generators ([src/tools/can_simulator.cpp], [stress_test.cpp])

    The two tools that put frames on the bus.  [Module CanSimulator] sends
    three frames per round from curves of the C library's [sin], which is an
    interface; [Module StressTest] sends a paced sequence, given the readings
    of the clock.  The theorems say which frames they send and that the
    gateway's bit extraction finds the values in them. *)

From Stdlib Require Import SpecFloat QArith Qabs Lqa Sorted.
From S2P Require Import Prelude Floats Rounding Types SignalDecoder Accuracy.

(** [sin] of the C library: for a finite argument, a number between -1 and
    1. *)
Class Sine := {
  sin : double -> double;
  sin_range x : proper_number x = true -> proper_number (sin x) = true /\ Qle (Qabs (val (sin x))) 1%Q
}.

Module CanSimulator.

(** Pack a little-endian uint16 into CAN data bytes. *)
Definition pack_u16 (data : list Z) (byte_offset value : Z) : checked (list Z) :=
  data ← wr data byte_offset (Z.land value 0xFF);
  wr data (byte_offset + 1) (Z.land (Z.shiftr value 8) 0xFF).

(** The curves at time [t]. *)
Section curves.
Context {L : Sine}.

Definition rpm (t : double) : double :=
  d_add (d_of_int 2400) (d_mul (d_of_int 1600) (sin (d_mul t (quotient 1 2)))).
Definition temp (t : double) : double :=
  d_add (d_of_int 85) (d_mul (d_of_int 5) (sin (d_mul t (quotient 1 10)))).
Definition throttle (t : double) : double :=
  d_add (d_of_int 20) (d_mul (d_of_int 15) (sin (d_mul t (quotient 3 10)))).
Definition speed (t : double) : double :=
  d_add (d_of_int 60) (d_mul (d_of_int 20) (sin (d_mul t (quotient 2 10)))).
Definition braking (t : double) : bool :=
  d_lt (sin (d_mul t (quotient 15 100))) (quotient (-1) 2).
Definition brake_pressure (t : double) : double :=
  if braking t then d_of_int 40 else d_of_int 0.

Definition engine_frame (t : double) : checked can_frame :=
  v ← unsigned_of_double 16 (d_div (rpm t) (quotient 1 4));
  data ← pack_u16 (replicate 8 0) 0 v;
  v ← unsigned_of_double 8 (d_div (d_add (temp t) (d_of_int 40)) (quotient 3 4));
  data ← wr data 2 v;
  v ← unsigned_of_double 8 (d_div (throttle t) (quotient 392157 1000000));
  data ← wr data 3 v;
  Ok (mk_frame 291 8 data).

Definition speed_frame (t : double) : checked can_frame :=
  v ← unsigned_of_double 16 (d_div (speed t) (quotient 1 100));
  data ← pack_u16 (replicate 8 0) 0 v;
  v ← unsigned_of_double 16 (d_div (d_add (speed t) (d_of_int 1)) (quotient 1 100));
  data ← pack_u16 data 2 v;
  v ← unsigned_of_double 16 (d_div (d_sub (speed t) (d_of_int 1)) (quotient 1 100));
  data ← pack_u16 data 4 v;
  Ok (mk_frame 292 8 data).

Definition brake_frame (t : double) : checked can_frame :=
  v ← unsigned_of_double 8 (brake_pressure t);
  data ← wr (replicate 8 0) 0 v;
  data ← wr data 1 (if braking t then 1 else 0);
  Ok (mk_frame 293 8 data).

(** One round: the three frames written, the status line, and the next
    time. *)
Record round_result := mk_round { sent_frames : list can_frame; status : Z * Z * bool; next_t : double }.

Definition round (t : double) : checked round_result :=
  e ← engine_frame t;
  s ← speed_frame t;
  b ← brake_frame t;
  rpm_shown ← int_of_double (rpm t);
  speed_shown ← int_of_double (speed t);
  Ok (mk_round [e; s; b] (rpm_shown, speed_shown, braking t) (d_add t (quotient 1 10))).

(** [n] rounds of the [while] loop. *)
Fixpoint run (n : nat) (t : double) : checked (list round_result) :=
  match n with
  | O => Ok []
  | S n =>
      r ← round t;
      rs ← run n (next_t r);
      Ok (r :: rs)
  end.

(** [main]: the exit code, or what is sent in the first [n] rounds; without a
    CAN socket nothing is.  The results of [ioctl], [bind] and [write] are
    ignored. *)
Definition main (sock_res : Z) (n : nat) : checked (Z + list round_result) :=
  if sock_res <? 0 then Ok (inl 1)
  else rs ← run n (d_of_int 0); Ok (inr rs).

End curves.
End CanSimulator.

(** ** The stress test *)
Module StressTest.

(** [now_ns] from the two fields of the [timespec]. *)
Definition now_ns (tv_sec tv_nsec : Z) : Z := u64 (u64 tv_sec * 1000000000 + u64 tv_nsec).

Definition can_ids : list Z := [291; 292; 293].

(** The frame sent when [sent] frames have been. *)
Definition frame (sent : Z) : checked can_frame :=
  id ← rd can_ids (sent mod 3);
  Ok (mk_frame id 8 (map (fun i => u8 (Z.land (u64 (sent + i)) 0xFF)) [0; 1; 2; 3; 4; 5; 6; 7])).

(** The state of the loop: the counters, what was written - each frame with
    the reading of the clock it was sent at - and the rates reported. *)
Record t := mk {
  sent : Z;
  next_send : Z;
  written : list (Z * can_frame);
  reports : list Z
}.

(** [static_cast<int>(sent / ((now - start_time) / 1e9))]. *)
Definition rate (sent start_time now : Z) : checked Z :=
  let elapsed := d_div (d_of_int (u64 (now - start_time))) (d_of_int 1000000000) in
  int_of_double (d_div (d_of_int sent) elapsed).

Section loop.
Context (total_frames interval_ns start_time : Z).

(** One frame sent at [now]. *)
Definition send (now : Z) (st : t) : checked t :=
  f ← frame (sent st);
  Ok (mk (u64 (sent st + 1)) (u64 (next_send st + interval_ns)) (written st ++ [(now, f)]) (reports st)).

Definition report (now : Z) (st : t) : checked t :=
  r ← rate (sent st) start_time now;
  Ok (mk (sent st) (next_send st) (written st) (reports st ++ [r])).

(** The [while] loop, given the readings of the clock to come; it stops early
    when there are none left. *)
Fixpoint loop (clock : list Z) (st : t) : checked (t * list Z) :=
  if sent st <? total_frames then
    match clock with
    | [] => Ok (st, [])
    | now :: clock =>
        if now <? next_send st then loop clock st
        else
          st ← send now st;
          if sent st mod 1000 =? 0 then
            match clock with
            | [] => Ok (st, [])
            | now :: clock => st ← report now st; loop clock st
            end
          else loop clock st
    end
  else Ok (st, clock).

End loop.

(** [1000000000ULL / rate_hz]: the [int] is converted, and division by zero is
    undefined. *)
Definition interval (rate_hz : Z) : checked Z :=
  if u64 rate_hz =? 0 then Fault DivisionByZero else Ok (1000000000 / u64 rate_hz).

Definition total (rate_hz duration : Z) : Z := u64 (u64 rate_hz * u64 duration).

(** [main]: the exit code, or the final state, the frames and the average rate
    printed when the loop ends ([None] while it is still running). *)
Definition main (sock_res rate_hz duration : Z) (clock : list Z)
  : checked (Z + t * option Z) :=
  if sock_res <? 0 then Ok (inl 1)
  else
    interval_ns ← interval rate_hz;
    match clock with
    | [] => Ok (inr (mk 0 0 [] [], None))
    | start_time :: clock =>
        r ← loop (total rate_hz duration) interval_ns start_time clock (mk 0 start_time [] []);
        let '(st, clock) := r in
        match clock with
        | now :: _ =>
            if sent st <? total rate_hz duration then Ok (inr (st, None))
            else average ← rate (sent st) start_time now; Ok (inr (st, Some average))
        | [] => Ok (inr (st, None))
        end
    end.

End StressTest.

(** ** Lemmas: packing *)
Module CanToolsFacts.
Import CanSimulator SignalDecoder DecoderSpec SignalDecoderFacts.

Lemma le_val_app a b : le_val (a ++ b) = le_val a + 2 ^ (8 * zlen a) * le_val b.
Proof.
  induction a as [|x a IH]; [change (2 ^ (8 * zlen [])) with 1; cbn [app le_val]; lia|].
  cbn [app le_val]. rewrite IH, zlen_cons.
  replace (8 * (1 + zlen a)) with (8 + 8 * zlen a) by lia.
  rewrite Z.pow_add_r by (pose proof (zlen_nonneg a); lia). change (2 ^ 8) with 256. ring.
Qed.

(** A slice that starts at a byte boundary is a slice of the suffix. *)
Lemma raw_value_suffix a b n :
  bytes a -> raw_value (a ++ b) (8 * zlen a) n = raw_value b 0 n.
Proof.
  intros Ha. unfold raw_value. rewrite le_val_app, Z.add_comm, Z.mul_comm.
  pose proof (le_val_range a Ha). rewrite Z.div_add_l, (Z.div_small (le_val a)) by lia.
  by rewrite Z.add_0_r, Z.div_1_r.
Qed.

Lemma pack_u16_ok a x y b v :
  pack_u16 (a ++ x :: y :: b) (zlen a) v
  = Ok (a ++ Z.land v 0xFF :: Z.land (Z.shiftr v 8) 0xFF :: b).
Proof.
  unfold pack_u16. rewrite wr_app by done. cbn [mbind checked_bind].
  change (a ++ Z.land v 255 :: y :: b) with (a ++ [Z.land v 255] ++ y :: b).
  rewrite app_assoc, wr_app by (autorewrite with zlen; lia). by rewrite <- app_assoc.
Qed.

Lemma land_255 x : Z.land x 255 = x mod 256.
Proof. change 255 with (Z.ones 8). by rewrite Z.land_ones by lia. Qed.

(** The simulator's packing and the gateway's extraction are inverse: a
    16-bit value packed at any byte offset inside the frame is the 16-bit
    slice extracted from that position, and all other bytes keep their
    values. *)
Lemma simulator_pack_roundtrip data off v :
  bytes data -> length data = 8%nat -> 0 <= off <= 6 -> is_u16 v ->
  exists data',
    pack_u16 data off v = Ok data'
    /\ bytes data' /\ length data' = 8%nat
    /\ extract_bits data' (8 * off) 16 = Ok v
    /\ take (Z.to_nat off) data' = take (Z.to_nat off) data
    /\ data' +! (off + 2) = data +! (off + 2).
Proof.
  intros Hd Hl Ho Hv.
  set (a := take (Z.to_nat off) data).
  assert (length a = Z.to_nat off) as Hla by (unfold a; rewrite length_take; lia).
  assert (zlen a = off) as Hza by (unfold zlen; lia).
  assert (length (data +! off) = (8 - Z.to_nat off)%nat) as Hlb by (rewrite length_drop; lia).
  assert (data = a ++ data +! off) as Hs by (unfold a; by rewrite take_drop).
  assert (bytes a) as Ha by (unfold a; auto with gw).
  assert (bytes (data +! off)) as Hb by auto with gw.
  destruct (data +! off) as [|x [|y b]] eqn:E; [cbn in Hlb; lia..|].
  inversion_clear Hb as [|? ? _ Hb']. inversion_clear Hb' as [|? ? _ Hb].
  assert (pack_u16 data off v = Ok (a ++ Z.land v 0xFF :: Z.land (Z.shiftr v 8) 0xFF :: b)) as Hp.
  { rewrite Hs. rewrite <- pack_u16_ok with (x := x) (y := y). by rewrite Hza. }
  rewrite Hp. eexists. split; [done|].
  rewrite !land_255, Z.shiftr_div_pow2 by lia. change (2 ^ 8) with 256.
  assert (bytes (a ++ v mod 256 :: v / 256 mod 256 :: b)) as Hb2.
  { apply bytes_app; [done|]. repeat apply bytes_cons; [apply Z.mod_pos_bound; lia..|done]. }
  assert (length (a ++ v mod 256 :: v / 256 mod 256 :: b) = 8%nat) as Hl2.
  { rewrite length_app. cbn in *. lia. }
  split; [done|]. split; [done|]. split.
  - rewrite extract_bits_ok by (done || (unfold is_u8; lia)). rewrite <- Hza, raw_value_suffix by done.
    unfold raw_value. rewrite Z.div_1_r. cbn [le_val]. f_equal. unfold is_u16 in Hv. zlia.
  - split; [by rewrite <- Hla, take_app_length|].
    rewrite Z2Nat.inj_add, <- !drop_drop, E by lia. by rewrite <- Hla, drop_app_length.
Qed.


Lemma land_255_u8 x : is_u8 (Z.land x 255).
Proof. rewrite land_255. apply Z.mod_pos_bound. lia. Qed.

(** Packing at the offsets the simulator uses. *)
Lemma pack_u16_at (a b c d e f g h v : Z) :
  pack_u16 [a; b; c; d; e; f; g; h] 0 v = Ok [Z.land v 0xFF; Z.land (Z.shiftr v 8) 0xFF; c; d; e; f; g; h]
  /\ pack_u16 [a; b; c; d; e; f; g; h] 2 v = Ok [a; b; Z.land v 0xFF; Z.land (Z.shiftr v 8) 0xFF; e; f; g; h]
  /\ pack_u16 [a; b; c; d; e; f; g; h] 4 v = Ok [a; b; c; d; Z.land v 0xFF; Z.land (Z.shiftr v 8) 0xFF; g; h].
Proof. done. Qed.

Lemma raw_value_cons x l s n :
  is_u8 x -> 8 <= s -> raw_value (x :: l) s n = raw_value l (s - 8) n.
Proof.
  intros Hx Hs. unfold raw_value, is_u8 in *. f_equal. cbn [le_val].
  replace s with (8 + (s - 8)) at 1 by lia. rewrite Z.pow_add_r by lia. change (2 ^ 8) with 256.
  rewrite <- Z.div_div by lia. f_equal. zlia.
Qed.

Lemma raw_value_u16 v l : is_u16 v -> raw_value (Z.land v 0xFF :: Z.land (Z.shiftr v 8) 0xFF :: l) 0 16 = v.
Proof.
  intros Hv. unfold raw_value, is_u16 in *. rewrite !land_255, Z.shiftr_div_pow2, Z.div_1_r by lia.
  change (2 ^ 8) with 256. change (2 ^ 16) with 65536. cbn [le_val]. zlia.
Qed.

Lemma raw_value_u8 v l : is_u8 v -> raw_value (v :: l) 0 8 = v.
Proof.
  intros Hv. unfold raw_value, is_u8 in *. rewrite Z.div_1_r. change (2 ^ 8) with 256. cbn [le_val]. zlia.
Qed.

Lemma raw_value_bit v l : 0 <= v < 2 -> raw_value (v :: l) 0 1 = v.
Proof. intros Hv. unfold raw_value. rewrite Z.div_1_r. change (2 ^ 1) with 2. cbn [le_val]. zlia. Qed.

Ltac u8_list :=
  repeat (apply Forall_cons_2; [first [assumption | unfold is_u8; lia]|]); apply Forall_nil_2.

(** Move a slice of an explicit list to its first byte. *)
Ltac skip_bytes :=
  repeat (rewrite raw_value_cons; [|first [assumption | unfold is_u8; lia]|lia]);
  match goal with |- context [raw_value ?l ?s ?n] => change (raw_value l s n) with (raw_value l 0 n) | _ => idtac end.

End CanToolsFacts.

(** ** Lemmas: the curves *)
Module SimulatorFacts.
Import CanSimulator CanToolsFacts.
#[local] Open Scope Q_scope.

Lemma rounds_proper x y : rounds 53 1024 x y -> d_valid y = true -> proper_number y = true.
Proof. intros Hr Hv. unfold proper_number. by rewrite Hv, (rounds_finite _ _ _ _ Hr). Qed.

Lemma int_proper z : (Z.abs z < 2 ^ 53)%Z -> proper_number (d_of_int z) = true /\ val (d_of_int z) == inject_Z z.
Proof.
  intros Hz. destruct (d_of_int_val z Hz) as [Hf Hv]. split; [|done].
  unfold proper_number. rewrite Hf, andb_true_r. auto with gw.
Qed.

Lemma inject_Z_small z : (Z.abs z < 2 ^ 53)%Z -> Qabs (inject_Z z) <= pow2 53.
Proof.
  intros Hz. apply Qabs_le. rewrite <- (pow2_Z 53), <- inject_Z_opp, <- !Zle_Qle by lia. lia.
Qed.

(** Sum, difference and product of two numbers between integers. *)
Lemma add_between x y a b :
  proper_number x = true -> proper_number y = true -> (Z.abs a < 2 ^ 53)%Z -> (Z.abs b < 2 ^ 53)%Z ->
  inject_Z a <= val x + val y -> val x + val y <= inject_Z b ->
  proper_number (d_add x y) = true /\ inject_Z a <= val (d_add x y) /\ val (d_add x y) <= inject_Z b.
Proof.
  intros [Hvx Hx]%proper_number_spec [Hvy Hy]%proper_number_spec Ha Hb Hlo Hhi.
  assert (rounds 53 1024 (val x + val y) (d_add x y)) as Hr.
  { apply d_add_rounds; try done. pose proof (inject_Z_small a Ha) as [? ?]%Qabs_le.
    pose proof (inject_Z_small b Hb) as [? ?]%Qabs_le.
    pose proof (pow2_le 53 1000 ltac:(lia)). apply Qabs_le. split; lra. }
  split; [apply (rounds_proper _ _ Hr); auto with gw|]. by apply (d_rounds_between a b _ _ Hr).
Qed.

Lemma sub_between x y a b :
  proper_number x = true -> proper_number y = true -> (Z.abs a < 2 ^ 53)%Z -> (Z.abs b < 2 ^ 53)%Z ->
  inject_Z a <= val x - val y -> val x - val y <= inject_Z b ->
  proper_number (d_sub x y) = true /\ inject_Z a <= val (d_sub x y) /\ val (d_sub x y) <= inject_Z b.
Proof.
  intros Hx [Hvy Hy]%proper_number_spec Ha Hb Hlo Hhi. unfold d_sub. rewrite SFsub_opp.
  assert (val x - val y == val x + val (SFopp y)) as E by (rewrite val_opp; ring). rewrite E in *.
  apply add_between; try done. unfold proper_number, d_valid.
  rewrite SFopp_valid, is_finite_opp, Hy, andb_true_r. exact Hvy.
Qed.

Lemma mul_between x y a b :
  proper_number x = true -> proper_number y = true -> (Z.abs a < 2 ^ 53)%Z -> (Z.abs b < 2 ^ 53)%Z ->
  inject_Z a <= val x * val y -> val x * val y <= inject_Z b ->
  proper_number (d_mul x y) = true /\ inject_Z a <= val (d_mul x y) /\ val (d_mul x y) <= inject_Z b.
Proof.
  intros [Hvx Hx]%proper_number_spec [Hvy Hy]%proper_number_spec Ha Hb Hlo Hhi.
  assert (rounds 53 1024 (val x * val y) (d_mul x y)) as Hr.
  { apply d_mul_rounds; try done. pose proof (inject_Z_small a Ha) as [? ?]%Qabs_le.
    pose proof (inject_Z_small b Hb) as [? ?]%Qabs_le.
    pose proof (pow2_le 53 1000 ltac:(lia)). apply Qabs_le. split; lra. }
  split; [apply (rounds_proper _ _ Hr); auto with gw|]. by apply (d_rounds_between a b _ _ Hr).
Qed.

(** [base + amp * x] for [x] between -1 and 1. *)
Lemma curve_between base amp x :
  proper_number x = true -> Qabs (val x) <= 1 -> (0 <= amp)%Z -> (Z.abs base + amp < 2 ^ 53)%Z ->
  let y := d_add (d_of_int base) (d_mul (d_of_int amp) x) in
  proper_number y = true /\ inject_Z (base - amp) <= val y /\ val y <= inject_Z (base + amp).
Proof.
  intros Hx [H1 H2]%Qabs_le Ha Hb.
  destruct (int_proper base ltac:(lia)) as [Hpb Hvb]. destruct (int_proper amp ltac:(lia)) as [Hpa Hva].
  assert (0 <= inject_Z amp) as Ha' by (change 0 with (inject_Z 0); by rewrite <- Zle_Qle).
  destruct (mul_between (d_of_int amp) x (- amp) amp) as (Hpm & Hlo & Hhi); try done; try lia.
  { rewrite Hva, inject_Z_opp. nra. }
  { rewrite Hva. nra. }
  rewrite inject_Z_opp in Hlo. unfold Z.sub.
  apply add_between; try done; try lia; rewrite inject_Z_plus, ?inject_Z_opp, Hvb; lra.
Qed.

(** What is computed once for each divisor: the numbers up to [hi], divided
    by [step], are below [N - 1], and [N] fits into [bits] bits. *)
Definition step_check (step : double) (bits N hi : Z) : bool :=
  is_finite step && Qle_bool (1 # 128) (val step) && Qle_bool (val step) 1
  && Qle_bool (inject_Z hi) ((inject_Z N - 1) * val step) && (N <=? 2 ^ bits)%Z && (hi <=? 4096)%Z.

(** The factors of the time. *)
Definition factor_check (c : double) : bool :=
  proper_number c && Qle_bool 0 (val c) && Qle_bool (val c) 1.

(** Truncating a quotient: the dividend is at least the integer times the
    step, and less than a step above it, but for the rounding of the division. *)
Lemma quantised x step bits N hi :
  step_check step bits N hi = true -> is_finite x = true -> 1 <= val x -> val x <= inject_Z hi ->
  exists r, unsigned_of_double bits (d_div x step) = Ok r /\ (0 <= r < N)%Z
    /\ inject_Z r * val step <= val x + pow2 (-33) /\ val x < (inject_Z r + 1) * val step + pow2 (-33).
Proof.
  unfold step_check. rewrite !andb_true_iff, !Qle_bool_iff, !Z.leb_le.
  intros [[[[[Hs Hlo1] Hhi1] HN] Hb] H4096] Hx H1 Hhi.
  assert (inject_Z hi <= 4096) as Hh by (change 4096 with (inject_Z 4096); by rewrite <- Zle_Qle).
  set (s := val step) in *. set (v := val x) in *.
  assert (v / s * s == v) as Hdiv by (field; lra).
  assert (v / s <= pow2 19) as Hq1 by (apply Qle_shift_div_r; [lra|change (pow2 19) with 524288; lra]).
  assert (1 <= v / s) as Hq2 by (apply Qle_shift_div_l; lra).
  assert (v / s <= inject_Z N - 1) as Hq3 by (apply Qle_shift_div_r; lra).
  assert (rounds 53 1024 (v / s) (d_div x step)) as Hr.
  { pose proof (pow2_le 19 1000 ltac:(lia)). pose proof (pow2_le (-1000) 0 ltac:(lia)). change (pow2 0) with 1 in *.
    apply d_div_rounds; fold v s; [done|done|lra| |]; rewrite Qabs_pos; lra. }
  pose proof (d_rounds_error _ _ (pow2 19) Hr ltac:(rewrite Qabs_pos; lra)) as He.
  assert (pow2 19 * pow2 (-53) + pow2 (-1075) <= pow2 (-33)) as Hsmall by (by vm_compute).
  assert (pow2 (-33) <= 1 # 2) by (by vm_compute).
  set (q := d_div x step) in *. assert (Qabs (val q - v / s) <= pow2 (-33)) as [He1 He2]%Qabs_le by lra.
  destruct (unsigned_of_double_val bits q N) as (r & Hr1 & Hr2 & Hr3 & Hr4); [apply Hr|lra|lra|done|].
  exists r. split; [done|]. split; [done|]. pose proof (pow2_pos (-33)). set (e := val q - v / s) in *.
  assert (val q == v / s + e) as Eq by (unfold e; ring). rewrite Eq in *.
  split; nra.
Qed.

(** The frames of a round hold the values of the curves: the bits of a signal
    are the number of whole steps in its value, to within [2 ^ -32]. *)
Section rounds.
Context {L : Sine}.

Definition encodes (data : list Z) (start len : Z) (step : double) (x : Q) : Prop :=
  let n := inject_Z (DecoderSpec.raw_value data start len) in
  n * val step <= x + pow2 (-32) /\ x < (n + 1) * val step + pow2 (-32).

Definition faithful (t : double) (r : round_result) : Prop :=
  exists e s b,
    sent_frames r = [e; s; b] /\ Forall frame_ok [e; s; b] /\ map can_id [e; s; b] = [291; 292; 293]%Z
    /\ encodes (frame_data e) 0 16 (quotient 1 4) (val (rpm t))
    /\ encodes (frame_data e) 16 8 (quotient 3 4) (val (temp t) + 40)
    /\ encodes (frame_data e) 24 8 (quotient 392157 1000000) (val (throttle t))
    /\ encodes (frame_data s) 0 16 (quotient 1 100) (val (speed t))
    /\ encodes (frame_data s) 16 16 (quotient 1 100) (val (speed t) + 1)
    /\ encodes (frame_data s) 32 16 (quotient 1 100) (val (speed t) - 1)
    /\ DecoderSpec.raw_value (frame_data b) 0 8 = (if braking t then 40 else 0)%Z
    /\ DecoderSpec.raw_value (frame_data b) 8 1 = (if braking t then 1 else 0)%Z.

(** A time that has not passed [k]. *)
Definition time_ok (t : double) (k : Z) : Prop :=
  proper_number t = true /\ 0 <= val t /\ val t <= inject_Z k /\ (0 <= k < 2 ^ 53 - 1)%Z.

Lemma sine_at t k c :
  time_ok t k -> factor_check c = true ->
  proper_number (sin (d_mul t c)) = true /\ Qabs (val (sin (d_mul t c))) <= 1.
Proof.
  unfold factor_check. rewrite !andb_true_iff, !Qle_bool_iff.
  intros (Ht & H0 & Hk & Hk') [[Hc Hc0] Hc1]. apply sin_range.
  assert (0 <= inject_Z k) by lra.
  destruct (mul_between t c 0 k) as (Hp & _); try done; try lia; [|nra].
  change (inject_Z 0) with 0. by apply Qmult_le_0_compat.
Qed.

(** What the six curves are between. *)
Lemma curve_at t k base amp c :
  time_ok t k -> factor_check c = true ->
  (0 <= amp)%Z -> (Z.abs base + amp < 2 ^ 53)%Z ->
  let y := d_add (d_of_int base) (d_mul (d_of_int amp) (sin (d_mul t c))) in
  proper_number y = true /\ inject_Z (base - amp) <= val y /\ val y <= inject_Z (base + amp).
Proof.
  intros Ht Hc Ha Hb. destruct (sine_at t k c Ht Hc) as [Hp Hs].
  by apply curve_between.
Qed.

Lemma curves_between t k :
  time_ok t k ->
  (proper_number (rpm t) = true /\ 800 <= val (rpm t) /\ val (rpm t) <= 4000)
  /\ (proper_number (temp t) = true /\ 80 <= val (temp t) /\ val (temp t) <= 90)
  /\ (proper_number (throttle t) = true /\ 5 <= val (throttle t) /\ val (throttle t) <= 35)
  /\ (proper_number (speed t) = true /\ 40 <= val (speed t) /\ val (speed t) <= 80).
Proof.
  intros Ht. split; [|split; [|split]].
  - by apply (curve_at t k 2400 1600 (quotient 1 2) Ht ltac:(by vm_compute)).
  - by apply (curve_at t k 85 5 (quotient 1 10) Ht ltac:(by vm_compute)).
  - by apply (curve_at t k 20 15 (quotient 3 10) Ht ltac:(by vm_compute)).
  - by apply (curve_at t k 60 20 (quotient 2 10) Ht ltac:(by vm_compute)).
Qed.

Lemma encodes_intro data start len step x y r :
  DecoderSpec.raw_value data start len = r ->
  inject_Z r * val step <= y + pow2 (-33) /\ y < (inject_Z r + 1) * val step + pow2 (-33) ->
  Qabs (y - x) <= pow2 (-33) ->
  encodes data start len step x.
Proof.
  intros Hr [H1 H2] [H3 H4]%Qabs_le. unfold encodes. rewrite Hr. cbv zeta.
  change (-32)%Z with (-33 + 1)%Z. rewrite pow2_succ. split; lra.
Qed.

(** A sum of small numbers is nearly exact. *)
Lemma add_close x y :
  proper_number x = true -> proper_number y = true -> Qabs (val x + val y) <= 1024 ->
  Qabs (val (d_add x y) - (val x + val y)) <= pow2 (-33).
Proof.
  intros [Hvx Hx]%proper_number_spec [Hvy Hy]%proper_number_spec Hb.
  assert (1024 <= pow2 1000) by (change 1024 with (pow2 10); apply pow2_le; lia).
  pose proof (d_rounds_error _ _ _ (d_add_rounds x y Hvx Hvy Hx Hy ltac:(lra)) Hb).
  assert (1024 * pow2 (-53) + pow2 (-1075) <= pow2 (-33)) by (by vm_compute). lra.
Qed.

Lemma sub_close x y :
  proper_number x = true -> proper_number y = true -> Qabs (val x - val y) <= 1024 ->
  Qabs (val (d_sub x y) - (val x - val y)) <= pow2 (-33).
Proof.
  intros [Hvx Hx]%proper_number_spec [Hvy Hy]%proper_number_spec Hb.
  assert (1024 <= pow2 1000) by (change 1024 with (pow2 10); apply pow2_le; lia).
  pose proof (d_rounds_error _ _ _ (d_sub_rounds x y Hvx Hvy Hx Hy ltac:(lra)) Hb).
  assert (1024 * pow2 (-53) + pow2 (-1075) <= pow2 (-33)) by (by vm_compute). lra.
Qed.

Lemma same_close x : Qabs (x - x) <= pow2 (-33).
Proof. assert (x - x == 0) as -> by ring. by vm_compute. Qed.

Lemma engine_frame_ok t k :
  time_ok t k ->
  exists f, engine_frame t = Ok f /\ frame_ok f /\ can_id f = 291%Z
    /\ encodes (frame_data f) 0 16 (quotient 1 4) (val (rpm t))
    /\ encodes (frame_data f) 16 8 (quotient 3 4) (val (temp t) + 40)
    /\ encodes (frame_data f) 24 8 (quotient 392157 1000000) (val (throttle t)).
Proof.
  intros Ht. destruct (curves_between t k Ht) as ((Hr & Hr1 & Hr2) & (Hp & Hp1 & Hp2) & (Hh & Hh1 & Hh2) & _).
  destruct (int_proper 40 ltac:(lia)) as [H40 E40]. change (inject_Z 40) with 40 in E40.
  destruct (add_between (temp t) (d_of_int 40) 120 130) as (Hs & Hs1 & Hs2); try done; try (rewrite E40; qlra).
  pose proof (add_close (temp t) (d_of_int 40) Hp H40 ltac:(rewrite E40, Qabs_pos; lra)) as Hc. rewrite E40 in Hc.
  unfold engine_frame.
  destruct (quantised (rpm t) (quotient 1 4) 16 65536 4000) as (v1 & -> & Hv1 & He1);
    [by vm_compute|by apply proper_number_spec|qlra|qlra|].
  cbn [mbind checked_bind replicate]. rewrite (proj1 (pack_u16_at _ _ _ _ _ _ _ _ _)). cbn [mbind checked_bind].
  destruct (quantised (d_add (temp t) (d_of_int 40)) (quotient 3 4) 8 256 130) as (v2 & -> & Hv2 & He2);
    [by vm_compute|by apply proper_number_spec|qlra|qlra|].
  cbn [mbind checked_bind]. mem_red.
  destruct (quantised (throttle t) (quotient 392157 1000000) 8 256 35) as (v3 & -> & Hv3 & He3);
    [by vm_compute|by apply proper_number_spec|qlra|qlra|].
  cbn [mbind checked_bind]. mem_red.
  eexists. split; [done|]. cbn [frame_data can_id].
  set (x := Z.land v1 255). set (y := Z.land (v1 ≫ 8) 255).
  assert (is_u8 x) as Hx by apply land_255_u8.
  assert (is_u8 y) as Hy by apply land_255_u8.
  split; [split; [by vm_compute|split; [u8_list|done]]|]. split; [done|]. split_and!.
  - eapply encodes_intro; [by apply raw_value_u16|exact He1|apply same_close].
  - eapply encodes_intro; [|exact He2|exact Hc].
    skip_bytes. by apply raw_value_u8.
  - eapply encodes_intro; [|exact He3|apply same_close].
    skip_bytes. by apply raw_value_u8.
Qed.

Lemma speed_frame_ok t k :
  time_ok t k ->
  exists f, speed_frame t = Ok f /\ frame_ok f /\ can_id f = 292%Z
    /\ encodes (frame_data f) 0 16 (quotient 1 100) (val (speed t))
    /\ encodes (frame_data f) 16 16 (quotient 1 100) (val (speed t) + 1)
    /\ encodes (frame_data f) 32 16 (quotient 1 100) (val (speed t) - 1).
Proof.
  intros Ht. destruct (curves_between t k Ht) as (_ & _ & _ & (Hs & Hs1 & Hs2)).
  destruct (int_proper 1 ltac:(lia)) as [H1 E1]. change (inject_Z 1) with 1 in E1.
  destruct (add_between (speed t) (d_of_int 1) 41 81) as (Ha & Ha1 & Ha2); try done; try (rewrite E1; qlra).
  destruct (sub_between (speed t) (d_of_int 1) 39 79) as (Hd & Hd1 & Hd2); try done; try (rewrite E1; qlra).
  pose proof (add_close (speed t) (d_of_int 1) Hs H1 ltac:(rewrite E1, Qabs_pos; lra)) as Hca.
  pose proof (sub_close (speed t) (d_of_int 1) Hs H1 ltac:(rewrite E1, Qabs_pos; lra)) as Hcd.
  rewrite E1 in Hca, Hcd. unfold speed_frame.
  destruct (quantised (speed t) (quotient 1 100) 16 65536 80) as (v1 & -> & Hv1 & He1);
    [by vm_compute|by apply proper_number_spec|qlra|qlra|].
  cbn [mbind checked_bind replicate]. rewrite (proj1 (pack_u16_at _ _ _ _ _ _ _ _ _)). cbn [mbind checked_bind].
  destruct (quantised (d_add (speed t) (d_of_int 1)) (quotient 1 100) 16 65536 81) as (v2 & -> & Hv2 & He2);
    [by vm_compute|by apply proper_number_spec|qlra|qlra|].
  cbn [mbind checked_bind]. rewrite (proj1 (proj2 (pack_u16_at _ _ _ _ _ _ _ _ _))). cbn [mbind checked_bind].
  destruct (quantised (d_sub (speed t) (d_of_int 1)) (quotient 1 100) 16 65536 79) as (v3 & -> & Hv3 & He3);
    [by vm_compute|by apply proper_number_spec|qlra|qlra|].
  cbn [mbind checked_bind]. rewrite (proj2 (proj2 (pack_u16_at _ _ _ _ _ _ _ _ _))). cbn [mbind checked_bind].
  eexists. split; [done|]. cbn [frame_data can_id].
  pose proof (land_255_u8 v1). pose proof (land_255_u8 (v1 ≫ 8)). pose proof (land_255_u8 v2).
  pose proof (land_255_u8 (v2 ≫ 8)). pose proof (land_255_u8 v3). pose proof (land_255_u8 (v3 ≫ 8)).
  split; [split; [by vm_compute|split; [u8_list|done]]|]. split; [done|]. split_and!.
  - eapply encodes_intro; [by apply raw_value_u16|exact He1|apply same_close].
  - eapply encodes_intro; [|exact He2|exact Hca]. skip_bytes. by apply raw_value_u16.
  - eapply encodes_intro; [|exact He3|exact Hcd]. skip_bytes. by apply raw_value_u16.
Qed.

Lemma brake_frame_ok t :
  exists f, brake_frame t = Ok f /\ frame_ok f /\ can_id f = 293%Z
    /\ DecoderSpec.raw_value (frame_data f) 0 8 = (if braking t then 40 else 0)%Z
    /\ DecoderSpec.raw_value (frame_data f) 8 1 = (if braking t then 1 else 0)%Z.
Proof.
  unfold brake_frame, brake_pressure.
  destruct (braking t); (eexists; split; [by vm_compute|]; split; [split; [by vm_compute|split; [u8_list|done]]|]; by vm_compute).
Qed.

(** One round, whatever the curves are. *)
Lemma round_ok t k :
  time_ok t k ->
  exists r, round t = Ok r /\ faithful t r /\ next_t r = d_add t (quotient 1 10).
Proof.
  intros Ht. destruct (engine_frame_ok t k Ht) as (e & He & He1 & He2 & He3 & He4 & He5).
  destruct (speed_frame_ok t k Ht) as (s & Hs & Hs1 & Hs2 & Hs3 & Hs4 & Hs5).
  destruct (brake_frame_ok t) as (b & Hb & Hb1 & Hb2 & Hb3 & Hb4).
  destruct (curves_between t k Ht) as ((Hr & Hr1 & Hr2) & _ & _ & (Hp & Hp1 & Hp2)).
  apply proper_number_spec in Hr as [_ Hr], Hp as [_ Hp].
  destruct (int_of_double_val (rpm t)) as (i & Hi & _); [done|lra| |].
  { change (inject_Z (2 ^ 31)) with (2147483648 # 1). lra. }
  destruct (int_of_double_val (speed t)) as (j & Hj & _); [done|lra| |].
  { change (inject_Z (2 ^ 31)) with (2147483648 # 1). lra. }
  unfold round. rewrite He, Hs, Hb, Hi, Hj. cbn [mbind checked_bind]. eexists. split; [done|]. split; [|done].
  exists e, s, b. cbn [sent_frames map]. rewrite He2, Hs2, Hb2. split_and!; try done.
  repeat (apply Forall_cons_2; [assumption|]). apply Forall_nil_2.
Qed.

Lemma next_time_ok t k :
  time_ok t k -> (k + 1 < 2 ^ 53 - 1)%Z -> time_ok (d_add t (quotient 1 10)) (k + 1).
Proof.
  intros (Ht & H0 & Hk & Hk1) Hk2.
  assert (0 <= val (quotient 1 10) /\ val (quotient 1 10) <= 1) as [] by (split; by vm_compute).
  destruct (add_between t (quotient 1 10) 0 (k + 1)) as (Hp & Hlo & Hhi); try done; try lia.
  - change (inject_Z 0) with 0. lra.
  - rewrite inject_Z_plus. change (inject_Z 1) with 1. lra.
  - split; [done|]. split; [done|]. split; [done|lia].
Qed.

(** The times of successive rounds. *)
Fixpoint times (n : nat) (t : double) : list double :=
  match n with
  | O => []
  | S n => t :: times n (d_add t (quotient 1 10))
  end.

Lemma times_ok n t k :
  time_ok t k -> (k + Z.of_nat n < 2 ^ 53)%Z -> Forall (fun t => exists k, time_ok t k) (times n t).
Proof.
  revert t k. induction n as [|n IH]; intros t k Ht Hk; [apply Forall_nil_2|]. cbn [times].
  apply Forall_cons_2; [by exists k|]. destruct n as [|n]; [apply Forall_nil_2|].
  apply (IH _ (k + 1)%Z); [apply next_time_ok; [done|lia]|lia].
Qed.

Lemma start_time_ok : time_ok (d_of_int 0) 0.
Proof. by split_and!; vm_compute. Qed.

Lemma run_ok n t k :
  time_ok t k -> (k + Z.of_nat n < 2 ^ 53)%Z ->
  exists rs, run n t = Ok rs /\ Forall2 faithful (times n t) rs.
Proof.
  revert t k. induction n as [|n IH]; intros t k Ht Hk; [by exists []|]. cbn [run times].
  destruct (round_ok t k Ht) as (r & Hr & Hf & Hnext). rewrite Hr. cbn [mbind checked_bind]. rewrite Hnext.
  destruct n as [|n]; [exists [r]; split; [done|by apply Forall2_cons_2]|].
  destruct (IH (d_add t (quotient 1 10)) (k + 1)%Z) as (rs & Hrs & Hall).
  { apply next_time_ok; [done|lia]. }
  { lia. }
  exists (r :: rs). rewrite Hrs. split; [done|by apply Forall2_cons_2].
Qed.

End rounds.
End SimulatorFacts.

(** ** Lemmas: the stress test *)
Module StressFacts.
Import StressTest SimulatorFacts.

(** The frame after [k] others. *)
Definition nth_frame (k : Z) : can_frame :=
  mk_frame (291 + k mod 3) 8 (map (fun i => (k + i) mod 256) [0; 1; 2; 3; 4; 5; 6; 7]).

Lemma frame_ok k : frame k = Ok (nth_frame k).
Proof.
  assert (forall i, u8 (Z.land (u64 (k + i)) 255) = (k + i) mod 256) as Hb.
  { intros i. rewrite CanToolsFacts.land_255. unfold u8, u64. zlia. }
  unfold frame, nth_frame. cbn [map]. rewrite !Hb.
  pose proof (Z.mod_pos_bound k 3 ltac:(lia)). set (j := k mod 3) in *.
  assert (j = 0 \/ j = 1 \/ j = 2) as [-> | [-> | ->]] by lia; done.
Qed.

Section rate.
#[local] Open Scope Q_scope.

(** The seconds in [e] nanoseconds. *)
Lemma elapsed_val e :
  (1 <= e < 2 ^ 53)%Z ->
  let y := inject_Z e / (1000000000 # 1) in
  let el := d_div (d_of_int e) (d_of_int 1000000000) in
  is_finite el = true /\ Qabs (val el - y) <= pow2 (-52) * y /\ 1 # 1000000000 <= y /\ y <= pow2 24.
Proof.
  intros He y el. destruct (d_of_int_val e ltac:(lia)) as [Hfe Hve].
  destruct (d_of_int_val 1000000000 ltac:(lia)) as [Hfg Hvg]. change (inject_Z 1000000000) with (1000000000 # 1) in *.
  assert (1 <= inject_Z e) as HE by (change 1 with (inject_Z 1); rewrite <- Zle_Qle; lia).
  assert (inject_Z e <= pow2 53) as HE2 by (rewrite <- (pow2_Z 53) by lia; rewrite <- Zle_Qle; lia).
  assert (y == inject_Z e * (1 # 1000000000)) as Hy' by (unfold y, Qdiv; reflexivity).
  assert (1 # 1000000000 <= y /\ y <= pow2 24) as [Hy1 Hy2].
  { change (pow2 53) with (9007199254740992 # 1) in HE2. change (pow2 24) with (16777216 # 1). split; lra. }
  assert (rounds 53 1024 y el) as Hr.
  { assert (y == val (d_of_int e) / val (d_of_int 1000000000)) as -> by (by rewrite Hve, Hvg).
    apply d_div_rounds; [done|done|rewrite Hvg; lra| |]; rewrite Hve, Hvg; fold y; rewrite Qabs_pos by lra.
    - assert (pow2 (-1000) <= 1 # 1000000000) by (by vm_compute). lra.
    - pose proof (pow2_le 24 1000 ltac:(lia)). lra. }
  split; [apply Hr|]. split; [|done].
  pose proof (d_rounds_error _ _ y Hr ltac:(rewrite Qabs_pos; lra)) as Hx. eapply Qle_trans; [exact Hx|].
  assert (pow2 (-52) == 2 * pow2 (-53)) as -> by (apply (pow2_succ (-53))).
  assert (pow2 (-1075) <= (1 # 1000000000) * pow2 (-53)) by (by vm_compute).
  assert ((1 # 1000000000) * pow2 (-53) <= y * pow2 (-53)) by (apply Qmult_le_compat_r; [done|by vm_compute]). lra.
Qed.

(** A quotient changes relatively by as much as its divisor. *)
Lemma perturbed_quotient S x y eps :
  0 < S -> 0 < y -> 0 <= eps -> eps < 1 -> Qabs (x - y) <= eps * y ->
  0 < x /\ 0 < S / x /\ Qabs (S / y - S / x) <= S / x * eps.
Proof.
  intros HS Hy He He1 [Hx1 Hx2]%Qabs_le. assert (0 < x) as Hx by nra. split; [done|].
  set (w := S / x). assert (w * x == S) as Hw by (unfold w; field; lra).
  set (q := S / y). assert (q * y == S) as Hq by (unfold q; field; lra).
  assert (0 < w) by (by apply Qlt_shift_div_l; lra). split; [done|].
  assert ((q - w) * y == w * (x - y)) as Hd by (ring_simplify; rewrite Hq, Hw; ring).
  apply Qabs_le. split; nra.
Qed.

(** Truncating the double quotient of [s] and a number between [2 ^ -53] and
    [2 ^ 25]. *)
Lemma truncated_quotient s x w :
  (1 <= s < 2 ^ 53)%Z -> is_finite x = true -> 0 < val x -> w == inject_Z s / val x ->
  1 # 33554432 <= w -> w <= 2100000000 # 1 ->
  exists r, int_of_double (d_div (d_of_int s) x) = Ok r /\ (0 <= r)%Z
    /\ Qabs (inject_Z r - w) <= 1 + (1 # 1000000).
Proof.
  intros Hs Hfx Hx Ew Hw1 Hw2. destruct (d_of_int_val s ltac:(lia)) as [Hfs Hvs].
  assert (rounds 53 1024 w (d_div (d_of_int s) x)) as Hr.
  { assert (w == val (d_of_int s) / val x) as E1 by (by rewrite Hvs). rewrite E1.
    apply d_div_rounds; [done|done|lra| |]; rewrite <- E1, Qabs_pos by lra.
    - assert (pow2 (-1000) <= 1 # 33554432) by (by vm_compute). lra.
    - assert (2100000000 # 1 <= pow2 1000) by (by vm_compute). lra. }
  pose proof (d_rounds_error _ _ (4000000000 # 1) Hr ltac:(rewrite Qabs_pos; lra)) as [Hv1 Hv2]%Qabs_le.
  assert ((4000000000 # 1) * pow2 (-53) + pow2 (-1075) <= 1 # 1000000) as Hsm by (by vm_compute).
  destruct (int_of_double_val (d_div (d_of_int s) x)) as (r & Hi & Hr0 & Hr1 & Hr3).
  { apply Hr. }
  { apply (rounds_ge _ _ _ _ Hr); [by apply (int_representable 0)|change (inject_Z 0) with 0; lra]. }
  { change (inject_Z (2 ^ 31)) with (2147483648 # 1). lra. }
  exists r. split; [done|]. split; [done|]. apply Qabs_le. split; lra.
Qed.

(** The rate printed for [s] frames in [now - start] nanoseconds. *)
Lemma rate_ok s start now :
  (1 <= s < 2 ^ 53)%Z -> (1 <= now - start < 2 ^ 53)%Z -> (s <= 2 * (now - start))%Z ->
  exists r, rate s start now = Ok r /\ (0 <= r)%Z
    /\ Qabs (inject_Z r - inject_Z s * inject_Z 1000000000 / inject_Z (now - start)) <= 1 + pow2 (-10).
Proof.
  intros Hs He Hse. unfold rate. rewrite u64_small by (unfold is_u64; lia).
  destruct (elapsed_val (now - start) He) as (Hfx & Hx & Hy1 & Hy2).
  set (y := inject_Z (now - start) / (1000000000 # 1)) in *. set (el := d_div _ (d_of_int 1000000000)) in *.
  set (S := inject_Z s) in *.
  assert (1 <= inject_Z (now - start)) as HE by (change 1 with (inject_Z 1); rewrite <- Zle_Qle; lia).
  assert (1 <= S) as HS by (change 1 with (inject_Z 1); unfold S; rewrite <- Zle_Qle; lia).
  assert (S <= 2 * inject_Z (now - start)) as HSE.
  { change 2 with (inject_Z 2). unfold S. rewrite <- inject_Z_mult, <- Zle_Qle. lia. }
  assert (0 < pow2 (-52) /\ pow2 (-52) <= 1 # 4000000000000000) as [He0 He1] by (split; by vm_compute).
  destruct (perturbed_quotient S (val el) y (pow2 (-52))) as (Hx0 & Hw0 & [Hqw1 Hqw2]%Qabs_le); [lra..|done|].
  set (w := S / val el) in *. set (q := S / y) in *.
  assert (q * y == S) as Hq by (unfold q; field; lra).
  assert (S * inject_Z 1000000000 / inject_Z (now - start) == q) as Eq.
  { unfold q, y. change (inject_Z 1000000000) with (1000000000 # 1). field. lra. }
  assert (y * (1000000000 # 1) == inject_Z (now - start)) as Hy by (unfold y; field).
  assert (q <= 2000000000 # 1) as Hq2 by (apply Qle_shift_div_r; lra).
  assert (1 # 16777216 <= q) as Hq1 by (change (pow2 24) with (16777216 # 1) in Hy2; nra).
  assert (w <= 2000001000 # 1) as Hw1 by nra.
  assert (w * pow2 (-52) <= 1 # 1000000) as Hwe by nra.
  assert (q <= 2 * w) as Hw2 by nra.
  destruct (truncated_quotient s el w Hs Hfx Hx0) as (r & Hi & Hr0 & [Hr1 Hr2]%Qabs_le); [reflexivity|lra..|].
  exists r. split; [done|]. split; [done|]. rewrite Eq.
  assert (1 # 1000 <= pow2 (-10) + (1 # 10000)) by (by vm_compute). apply Qabs_le. split; lra.
Qed.
End rate.

Section loop.
Context (total interval start : Z).
Context (Hint : 1 <= interval) (Htot : 0 <= total) (Hstart : 0 <= start)
  (Hroom : start + total * interval < 2 ^ 64) (Hsmall : total < 2 ^ 53).

(** What holds at the head of the loop: the frames sent are the first ones,
    and none was sent ahead of the schedule. *)
Record sending (st : t) : Prop := mk_sending {
  s_range : 0 <= sent st <= total;
  s_next : next_send st = start + sent st * interval;
  s_frames : map snd (written st) = map nth_frame (seqZ 0 (sent st));
  s_paced k now f : written st !! k = Some (now, f) -> start + Z.of_nat k * interval <= now
}.

(** The readings of a clock that neither goes back nor is more than [2 ^ 53]
    nanoseconds - 104 days - after [start]. *)
Definition ticking (clock : list Z) : Prop :=
  StronglySorted Z.le clock /\ Forall (fun now => start <= now < start + 2 ^ 53) clock.

(** No reading to come is before the last frame. *)
Definition after (st : t) (clock : list Z) : Prop :=
  forall k now f, written st !! k = Some (now, f) -> Forall (Z.le now) clock.

Lemma written_length st : sending st -> length (written st) = Z.to_nat (sent st).
Proof.
  intros [Hr _ Hf _]. apply (f_equal length) in Hf. rewrite !length_map, length_seqZ in Hf. done.
Qed.

Lemma send_ok now st clock :
  sending st -> sent st < total -> next_send st <= now -> after st (now :: clock) -> Forall (Z.le now) clock ->
  exists st', send interval now st = Ok st' /\ sending st' /\ sent st' = sent st + 1 /\ after st' clock
    /\ start + (sent st' - 1) * interval <= now.
Proof using Hint Htot Hstart Hroom Hsmall.
  intros Hs Hlt Hnow Haft Hle. pose proof (written_length st Hs) as Hlen. destruct Hs as [Hr Hn Hf Hp].
  unfold send. rewrite frame_ok. cbn [mbind checked_bind].
  assert ((sent st + 1) * interval <= total * interval) by (apply Z.mul_le_mono_nonneg_r; lia).
  rewrite !u64_small by (unfold is_u64; lia). eexists. split; [done|]. cbn [sent next_send written].
  split; [|split; [done|split]].
  - split; cbn [sent next_send written]; [lia|lia| |].
    + rewrite map_app, Hf. cbn [map snd]. rewrite seqZ_app by lia. rewrite map_app. done.
    + intros k now' f. rewrite lookup_app_Some. intros [H'|[Hk H']]; [by eapply Hp|].
      rewrite list_lookup_singleton_Some in H'. destruct H' as [H' [= <- _]].
      rewrite Hlen in *. replace (Z.of_nat k) with (sent st) by lia. lia.
  - intros k now' f. cbn [written]. rewrite lookup_app_Some. intros [H'|[Hk H']].
    + apply Haft, Forall_cons_1 in H'. by destruct H'.
    + rewrite list_lookup_singleton_Some in H'. by destruct H' as [_ [= <- _]].
  - lia.
Qed.

Lemma report_ok now st clock :
  sending st -> 1000 <= sent st -> start + (sent st - 1) * interval <= now < start + 2 ^ 53 -> after st clock ->
  exists st', report start now st = Ok st' /\ sending st' /\ sent st' = sent st /\ after st' clock.
Proof using Hint Htot Hstart Hroom Hsmall.
  intros [Hr Hn Hf Hp] H1000 Hnow Haft. unfold report.
  destruct (rate_ok (sent st) start now) as (r & Hok & _); [lia|nia|nia|].
  rewrite Hok. cbn [mbind checked_bind]. eexists. split; [done|]. split; [by split|]. by split.
Qed.

(** The readings after the last frame is due. *)
Fixpoint late (clock : list Z) : Z :=
  match clock with
  | [] => 0
  | now :: clock => (if start + total * interval <=? now then 1 else 0) + late clock
  end.

Lemma late_cons now clock : late clock <= late (now :: clock) <= late clock + 1.
Proof using. cbn [late]. destruct (_ <=? _); lia. Qed.

Lemma late_nonneg clock : 0 <= late clock.
Proof using. induction clock as [|now clock IH]; [done|]. pose proof (late_cons now clock). lia. Qed.

Lemma ticking_cons now clock :
  ticking (now :: clock) -> ticking clock /\ Forall (Z.le now) clock /\ start <= now < start + 2 ^ 53.
Proof using.
  intros [Hs Hf]. apply StronglySorted_inv in Hs as [Hs Hle]. apply Forall_cons_1 in Hf as [Hn Hf]. done.
Qed.

Lemma after_cons st now clock : after st (now :: clock) -> after st clock.
Proof using. intros H k n f Hk. apply H, Forall_cons_1 in Hk. by destruct Hk. Qed.

(** What a run of the loop leaves. *)
Definition outcome (st : t) (clock : list Z) (r : t * list Z) : Prop :=
  sending r.1 /\ after r.1 r.2 /\ ticking r.2 /\ (sent r.1 = total \/ r.2 = [])
  /\ r.2 `suffix_of` clock /\ late clock <= late r.2 + 2 * (sent r.1 - sent st).

Lemma outcome_step st clock st' clock' r :
  clock' `suffix_of` clock -> late clock <= late clock' + 2 * (sent st' - sent st) ->
  outcome st' clock' r -> outcome st clock r.
Proof using.
  unfold outcome. intros Hsuf ? (? & ? & ? & ? & Hsuf' & ?). split_and!; try tauto; [by etrans|lia].
Qed.

Lemma loop_ok n clock st :
  (length clock <= n)%nat -> sending st -> ticking clock -> after st clock ->
  exists r, loop total interval start clock st = Ok r /\ outcome st clock r.
Proof using Hint Htot Hstart Hroom Hsmall.
  revert clock st. induction n as [|n IH]; intros clock st Hlen Hs Ht Ha.
  all: pose proof (s_range st Hs) as Hr; pose proof (s_next st Hs) as Hn.
  all: destruct clock as [|now clock]; [|cbn [length] in Hlen; try lia].
  1,2: exists (st, []); cbn [loop]; split; [by destruct (_ <? _)|];
       unfold outcome; cbn [fst snd late]; split_and!; auto; lia.
  cbn [loop]. destruct (Z.ltb_spec (sent st) total) as [Hlt|Hge].
  2: { exists (st, now :: clock). split; [done|]. unfold outcome. cbn [fst snd]. split_and!; auto; lia. }
  destruct (ticking_cons now clock Ht) as (Ht' & Hle & Hnow). pose proof (late_cons now clock) as Hlate.
  destruct (Z.ltb_spec now (next_send st)) as [Hearly|Hdue].
  { destruct (IH clock st ltac:(lia) Hs Ht' (after_cons st now clock Ha)) as (r & Hok & Hout).
    exists r. split; [done|]. apply (outcome_step _ _ st clock); [by apply suffix_cons_r| |done]. cbn [late].
    assert (sent st * interval <= total * interval) by (apply Z.mul_le_mono_nonneg_r; lia).
    guards. lia. }
  destruct (send_ok now st clock Hs Hlt Hdue Ha Hle) as (st1 & Hok1 & Hs1 & Hsent1 & Ha1 & Hnow1).
  rewrite Hok1. cbn [mbind checked_bind]. destruct (Z.eqb_spec (sent st1 mod 1000) 0) as [H0|_].
  - destruct clock as [|now2 clock].
    { exists (st1, []). split; [done|]. unfold outcome. cbn [fst snd]. split_and!; auto; [apply suffix_nil|lia]. }
    destruct (ticking_cons now2 clock Ht') as (Ht2 & Hle2 & Hnow2). apply Forall_cons_1 in Hle as [Hle _].
    destruct (report_ok now2 st1 (now2 :: clock) Hs1) as (st2 & Hok2 & Hs2 & Hsent2 & Ha2); [zlia|lia|done|].
    rewrite Hok2. cbn [mbind checked_bind].
    destruct (IH clock st2 ltac:(cbn [length] in Hlen; lia) Hs2 Ht2 (after_cons st2 now2 clock Ha2)) as (r & Hok & Hout).
    exists r. split; [done|]. apply (outcome_step _ _ st2 clock); [by do 2 apply suffix_cons_r| |done].
    pose proof (late_cons now2 clock). lia.
  - destruct (IH clock st1 ltac:(lia) Hs1 Ht' Ha1) as (r & Hok & Hout).
    exists r. split; [done|]. apply (outcome_step _ _ st1 clock); [by apply suffix_cons_r|lia|done].
Qed.

End loop.
End StressFacts.

(** ** Properties *)
Section properties.
Import CanSimulator SimulatorFacts.

(** C21: the simulator sends what its curves say.  Whatever [sin] the C library
    provides - as long as it is a number between -1 and 1 for a finite
    argument - each of the first [2 ^ 53 - 1] rounds converts every
    [double] within the range of the integer type it is converted to,
    writes inside the frame, and sends one frame for each of the three
    identifiers.  The bits the vehicle database assigns to a signal hold the
    number of whole steps in the curve's value at the time of the round: a
    number of steps that is not above the value, and one more is, to within
    [2 ^ -32]. *)
Theorem simulator_rounds {L : Sine} sock_res n :
  0 <= sock_res -> Z.of_nat n < 2 ^ 53 - 1 ->
  exists rs, main sock_res n = Ok (inr rs) /\ Forall2 faithful (times n (d_of_int 0)) rs.
Proof.
  intros Hs Hn. destruct (run_ok n (d_of_int 0) 0) as (rs & Hrs & Hf); [exact start_time_ok|lia|].
  exists rs. unfold main. rewrite (proj2 (Z.ltb_ge _ _)), Hrs by lia. by split.
Qed.

(** A square wave, the simplest [sin] there can be. *)
#[local] Program Instance square_wave : Sine := {|
  sin x := if d_lt x (d_of_int 0) then d_of_int (-1) else d_of_int 1
|}.
Next Obligation.
  intros x _. split; destruct (d_lt x (d_of_int 0)); by vm_compute.
Qed.

Lemma simulator_rounds_witness :
  exists r rs, main (L:=square_wave) 3 2 = Ok (inr (r :: rs)) /\ faithful (L:=square_wave) (d_of_int 0) r
    /\ map frame_data (sent_frames r)
       = [[0x80; 0x3E; 173; 89; 0; 0; 0; 0]; [0x40; 0x1F; 0xA4; 0x1F; 0xDC; 0x1E; 0; 0]; [0; 0; 0; 0; 0; 0; 0; 0]].
Proof.
  destruct (simulator_rounds (L:=square_wave) 3 2) as (rs & Hm & Hf); [lia|cbn; lia|].
  cbn [times] in Hf. apply Forall2_cons_inv_l in Hf as (r & rs' & Hr & _ & ->).
  exists r, rs'. split; [exact Hm|]. split; [exact Hr|]. vm_compute in Hm. injection Hm as <- <-. reflexivity.
Defined.

Import StressTest StressFacts.

(** C22: the stress test sends its sequence on schedule.  For a rate of at most
    [10 ^ 9] frames per second and a clock that does not go back, the tool
    runs without fault and writes the frames of its sequence - identifiers
    in turn, data counting up - in order, the one after [k] others not
    before [k] intervals have passed since the start; a clock with more than
    two readings per frame after the last one is due lets it finish, and
    what it then prints is the average rate, to within the truncation. *)
Theorem stress_schedule sock_res rate_hz duration start clock :
  0 <= sock_res -> 1 <= rate_hz <= 1000000000 -> 1 <= duration < 2 ^ 31 -> 2 <= rate_hz * duration < 2 ^ 53 ->
  0 <= start < 2 ^ 63 -> ticking start clock ->
  let interval := 1000000000 / rate_hz in
  let total := rate_hz * duration in
  exists st average,
    main sock_res rate_hz duration (start :: clock) = Ok (inr (st, average))
    /\ 0 <= sent st <= total
    /\ map snd (written st) = map nth_frame (seqZ 0 (sent st))
    /\ (forall k now f, written st !! k = Some (now, f) -> start + Z.of_nat k * interval <= now)
    /\ match average with
       | Some a => sent st = total /\ exists now, now ∈ clock
           /\ Qle (Qabs (inject_Z a - inject_Z total * inject_Z 1000000000 / inject_Z (now - start))) (1 + pow2 (-10))
       | None => late total interval start clock <= 2 * total
       end.
Proof.
  intros Hsock Hrate Hdur Htot Hstart Ht interval total.
  assert (1 <= interval) as Hint by (unfold interval; apply Z.div_le_lower_bound; lia).
  assert (total * interval <= duration * 1000000000) as Hbound.
  { unfold total, interval. pose proof (Z.mul_div_le 1000000000 rate_hz). nia. }
  assert (StressTest.interval rate_hz = Ok interval) as Hi.
  { unfold StressTest.interval. rewrite u64_small by (unfold is_u64; lia).
    by guards. }
  assert (StressTest.total rate_hz duration = total) as Htt.
  { unfold StressTest.total. by rewrite (u64_small rate_hz), (u64_small duration), u64_small by (unfold is_u64; lia). }
  destruct (loop_ok total interval start Hint ltac:(lia) ltac:(lia) ltac:(lia) ltac:(lia) (length clock) clock
    (mk 0 start [] []) ltac:(lia)) as ([st rest] & Hok & Hs & Ha & Ht' & Hend & Hsuf & Hlate).
  { split; cbn; [lia|lia|done|by intros]. }
  { done. }
  { by intros ? ? ?. }
  cbn [fst snd sent] in *. pose proof Hs as [Hr Hn Hf Hp].
  unfold main. rewrite (proj2 (Z.ltb_ge _ _)), Hi by lia. cbn [mbind checked_bind].
  rewrite Htt, Hok. cbn [mbind checked_bind]. destruct rest as [|now rest].
  { exists st, None. split_and!; try done; try lia. cbn [late] in Hlate. lia. }
  destruct Hend as [Hend|]; [|done]. guards.
  destruct (written st !! Z.to_nat (total - 1)) as [[last f]|] eqn:El.
  2: { apply lookup_ge_None in El. rewrite (written_length _ _ _ _ Hs) in El. lia. }
  pose proof (Hp _ _ _ El) as Hlast. apply Ha, Forall_cons_1 in El as [El _].
  destruct (ticking_cons start now rest Ht') as (_ & _ & Hnow). rewrite Z2Nat.id in Hlast by lia.
  destruct (rate_ok (sent st) start now) as (a & Hrate' & _ & Herr); [lia|nia|nia|].
  rewrite Hrate'. cbn [mbind checked_bind]. exists st, (Some a). rewrite <- Hend.
  split_and!; try done; try lia. exists now. split; [|done].
  destruct Hsuf as [pre ->]. apply elem_of_app. right. by left.
Qed.

(** Three frames in one second. *)
Lemma stress_schedule_witness :
  exists st, main 3 3 1 [5; 5; 6; 333333338; 400000000; 666666671; 1000000005] = Ok (inr (st, Some 3))
    /\ map snd (written st) = map nth_frame [0; 1; 2]
    /\ nth_frame 2 = mk_frame 293 8 [2; 3; 4; 5; 6; 7; 8; 9].
Proof.
  destruct (stress_schedule 3 3 1 5 [5; 6; 333333338; 400000000; 666666671; 1000000005])
    as (st & average & Hm & _ & Hf & _); [lia|lia|lia|lia|lia| |].
  { split; [repeat (apply SSorted_cons || apply SSorted_nil); repeat constructor; lia|repeat constructor; lia]. }
  exists st. vm_compute in Hm. injection Hm as <- <-. split; [reflexivity|]. split; [exact Hf|reflexivity].
Defined.

(** With a rate of zero - or one that is not a number, which [atoi] makes zero -
    the tool divides by zero. *)
Lemma stress_zero_rate sock_res duration clock :
  0 <= sock_res -> main sock_res 0 duration clock = Fault DivisionByZero.
Proof. intros H. unfold main. by guards. Qed.

End properties.
