(* ===== verification/DbcParser.v ===== *)
(** * DBC parser ([src/src/can/dbc_parser.hpp], [.cpp])

    [Module DbcParser] is the class: the two line parsers on the stream and
    string operations of [CppString.v], the state the line loop threads, and
    the lookup.  A file is the text of its contents, or [None] when it
    cannot be opened.  [Module DbcText] writes a database in the format the
    parser reads. *)

From Stdlib Require Import SpecFloat Ascii.
From S2P Require Import Prelude Floats CppString Types.

#[local] Open Scope string_scope.
#[local] Open Scope Z_scope.

Module DbcParser.

Definition quote : ascii := chr 34.
Definition tab : ascii := chr 9.
Definition cr : ascii := chr 13.
Definition blanks : string := String " "%char (String tab "").
Definition blanks_and_ends : string :=
  String " "%char (String tab (String cr (String newline ""))).

Definition parse_message_line (line : string) : option MessageDef :=
  '(tag, ss) ← read_token line;
  '(id, ss) ← read_uint ss;
  '(name, ss) ← read_token ss;
  '(length, ss) ← read_int ss;
  '(sender, ss) ← read_token ss;
  if negb (String.eqb tag "BO_") then None
  else
    let name := if has_back ":"%char name then pop_back name else name in
    Some (mk_message id name (u8 length) []).

(** [s.substr(pos, at - pos)] in [size_t] arithmetic: with [at < pos] the
    count wraps and the substring runs to the end. *)
Definition substr_between (s : string) (pos at_pos : nat) : string :=
  if (at_pos <? pos)%nat then sdrop pos s else stake (at_pos - pos) (sdrop pos s).

Definition strip_brackets (opening closing : ascii) (s : string) : string :=
  let s := if has_front opening s then sdrop 1 s else s in
  if has_back closing s then pop_back s else s.

(** [(a,b)] or [[a|b]]: two numbers around a separator. *)
Definition parse_pair (opening sep closing : ascii) (info : string) : option (double * double) :=
  let s := strip_brackets opening closing info in
  pos ← find_char sep s;
  a ← stod (stake pos s);
  b ← stod (sdrop (S pos) s);
  Some (a, b).

Definition parse_signal_line (line : string) : option SignalDef :=
  '(tag, ss) ← read_token line;
  '(name, ss) ← read_token ss;
  '(colon, ss) ← read_token ss;
  '(bit_info, ss) ← read_token ss;
  '(scale_info, ss) ← read_token ss;
  '(range_info, ss) ← read_token ss;
  '(unit, ss) ← read_token ss;
  if negb (String.eqb tag "SG_") then None
  else
    let unit :=
      if (2 <=? String.length unit)%nat && has_front quote unit && has_back quote unit
      then stake (String.length unit - 2) (sdrop 1 unit) else unit in
    pipe_pos ← find_char "|"%char bit_info;
    at_pos ← find_char "@"%char bit_info;
    start_bit ← stoi (stake pipe_pos bit_info);
    length ← stoi (substr_between bit_info (S pipe_pos) at_pos);
    let order_sign := sdrop (S at_pos) bit_info in
    let is_little_endian := has_front "1"%char order_sign in
    let is_signed := has_front "-"%char (sdrop 1 order_sign) in
    '(scale, offset) ← parse_pair "("%char ","%char ")"%char scale_info;
    '(min_val, max_val) ← parse_pair "["%char "|"%char "]"%char range_info;
    Some (mk_signal name (u8 start_bit) (u8 length) is_signed is_little_endian
            scale offset min_val max_val unit).

(** The member and the two locals the line loop threads. *)
Record state := mk { messages : gmap Z MessageDef; current_id : Z; in_message : bool }.

(** [messages_[id]] creates an entry where there is none. *)
Definition empty_message : MessageDef := mk_message 0 "" 0 [].

Definition add_signal (st : state) (sig : SignalDef) : state :=
  let m := match messages st !! current_id st with Some m => m | None => empty_message end in
  mk (<[current_id st :=
        mk_message (md_can_id m) (md_name m) (md_length m) (md_signals m ++ [sig])]> (messages st))
    (current_id st) (in_message st).

Definition starts_with (tag line : string) : bool :=
  (4 <=? String.length line)%nat && String.eqb (stake 4 line) tag.

(** One turn of the [while] loop. *)
Definition parse_line (st : state) (line : string) : state :=
  let line := if has_back cr line then pop_back line else line in
  match find_first_not_of blanks_and_ends line with
  | None => mk (messages st) (current_id st) false
  | Some _ =>
      match find_first_not_of blanks line with
      | None => st
      | Some start =>
          let trimmed := sdrop start line in
          if starts_with "BO_ " trimmed then
            match parse_message_line trimmed with
            | Some msg => mk (<[md_can_id msg := msg]> (messages st)) (md_can_id msg) true
            | None => st
            end
          else if starts_with "SG_ " trimmed && in_message st then
            match parse_signal_line trimmed with
            | Some sig => add_signal st sig
            | None => st
            end
          else st
      end
  end.

Definition parse_lines (st : state) (lines : list string) : state := fold_left parse_line lines st.

(** [parse]: the returned flag and the member after the call. *)
Definition parse (messages_ : gmap Z MessageDef) (file : option string)
  : bool * gmap Z MessageDef :=
  match file with
  | None => (false, messages_)
  | Some text => (true, messages (parse_lines (mk messages_ 0 false) (getlines text)))
  end.

Definition find_message (messages_ : gmap Z MessageDef) (can_id : Z) : option MessageDef :=
  messages_ !! can_id.

Definition message_count (messages_ : gmap Z MessageDef) : Z := Z.of_nat (size messages_).

End DbcParser.

(** ** Databases as text *)
Module DbcText.
Import DbcParser.

Record signal_text := mk_signal_text {
  t_name : string;
  t_start : Z;
  t_length : Z;
  t_signed : bool;
  t_little : bool;
  t_scale : string;
  t_offset : string;
  t_min : string;
  t_max : string;
  t_unit : string;
  t_receiver : string
}.

Record message_text := mk_message_text {
  t_id : Z;
  t_mname : string;
  t_dlc : Z;
  t_sender : string;
  t_signals : list signal_text
}.

Definition bit_info (t : signal_text) : string :=
  print_dec (t_start t) ++ String "|"%char (print_dec (t_length t)
  ++ String "@"%char (String (if t_little t then "1"%char else "0"%char)
       (String (if t_signed t then "-"%char else "+"%char) ""))).

Definition pair_text (opening : ascii) (a : string) (sep : ascii) (b : string) (closing : ascii)
  : string :=
  String opening (a ++ String sep (b ++ String closing "")).

Definition quoted (s : string) : string := String quote (s ++ String quote "").

Definition signal_line (t : signal_text) : string :=
  " SG_ " ++ t_name t ++ " : " ++ bit_info t
  ++ " " ++ pair_text "("%char (t_scale t) ","%char (t_offset t) ")"%char
  ++ " " ++ pair_text "["%char (t_min t) "|"%char (t_max t) "]"%char
  ++ " " ++ quoted (t_unit t) ++ " " ++ t_receiver t.

Definition message_line (t : message_text) : string :=
  "BO_ " ++ print_dec (t_id t) ++ " " ++ t_mname t ++ ": " ++ print_dec (t_dlc t)
  ++ " " ++ t_sender t.

Definition message_lines (t : message_text) : list string :=
  message_line t :: map signal_line (t_signals t) ++ [""].

Definition with_newlines (lines : list string) : string :=
  fold_right (fun l rest => l ++ String newline rest) "" lines.

Definition render (db : list message_text) : string := with_newlines (db ≫= message_lines).

(** What a well-formed text denotes. *)
Definition number (s : string) : double := match stod s with Some d => d | None => S754_nan end.

Definition signal_of (t : signal_text) : SignalDef :=
  mk_signal (t_name t) (t_start t) (t_length t) (t_signed t) (t_little t)
    (number (t_scale t)) (number (t_offset t)) (number (t_min t)) (number (t_max t)) (t_unit t).

Definition message_of (t : message_text) : MessageDef :=
  mk_message (t_id t) (t_mname t) (t_dlc t) (map signal_of (t_signals t)).

(** Decidable well-formedness. *)
Definition nonspace (c : ascii) : bool := negb (is_space c).
Definition word (s : string) : bool :=
  negb (String.eqb s "") && CppStringFacts.all nonspace s.
Definition plain (c : ascii) : bool :=
  nonspace c && negb (Ascii.eqb c ","%char) && negb (Ascii.eqb c "|"%char).
Definition number_text (s : string) : bool :=
  CppStringFacts.all plain s && match stod s with Some _ => true | None => false end.
Definition in_u8 (x : Z) : bool := (0 <=? x) && (x <? 256).

Definition signal_text_ok (t : signal_text) : bool :=
  word (t_name t) && in_u8 (t_start t) && in_u8 (t_length t)
  && number_text (t_scale t) && number_text (t_offset t)
  && number_text (t_min t) && number_text (t_max t)
  && CppStringFacts.all nonspace (t_unit t) && word (t_receiver t).

Definition message_text_ok (t : message_text) : bool :=
  (0 <=? t_id t) && (t_id t <? 4294967296) && word (t_mname t) && in_u8 (t_dlc t)
  && word (t_sender t) && forallb signal_text_ok (t_signals t).

End DbcText.

(** ** Lemmas *)
Module DbcFacts.
Import DbcParser DbcText CppStringFacts.
#[local] Arguments String.append : simpl nomatch.
#[local] Arguments print_dec : simpl never.

Lemma string_app_cons c a b : String c a ++ b = String c (a ++ b).
Proof. done. Qed.

Lemma length_app_string a b : String.length (a ++ b) = (String.length a + String.length b)%nat.
Proof. induction a as [|c a IH]; [done|]. cbn. by rewrite IH. Qed.

Lemma has_back_snoc s c : has_back c (s ++ String c "") = true.
Proof.
  unfold has_back. assert (back (s ++ String c "") = Some c) as ->; [|apply Ascii.eqb_refl].
  induction s as [|x s IH]; [done|]. cbn. destruct (s ++ String c "") eqn:E; [|done].
  by destruct s.
Qed.

Lemma pop_back_snoc s c : pop_back (s ++ String c "") = s.
Proof.
  assert (forall x t, t <> "" -> pop_back (String x t) = String x (pop_back t)) as Hc
    by (by intros x [|y t]).
  induction s as [|x s IH]; [done|]. rewrite string_app_cons, Hc by (by destruct s).
  by rewrite IH.
Qed.

Lemma back_app a b : b <> "" -> back (a ++ b) = back b.
Proof.
  intros Hb. induction a as [|c a IH]; [done|]. cbn. rewrite IH.
  destruct (a ++ b) eqn:E; [|done]. destruct a; [done|discriminate].
Qed.

Lemma back_all p s c : all p s = true -> back s = Some c -> p c = true.
Proof.
  induction s as [|x s IH]; [done|]. cbn. intros [Hx Hs]%andb_true_iff.
  destruct s; [by intros [= <-]|by apply IH].
Qed.

Lemma find_char_app c a s :
  all (fun x => negb (Ascii.eqb x c)) a = true ->
  find_char c (a ++ String c s) = Some (String.length a).
Proof.
  induction a as [|x a IH]; cbn.
  - intros _. by rewrite Ascii.eqb_refl.
  - intros [Hx Ha]%andb_true_iff. rewrite Ascii.eqb_sym in Hx.
    destruct (Ascii.eqb c x); [done|]. by rewrite IH.
Qed.

Lemma stake_app a b : stake (String.length a) (a ++ b) = a.
Proof. induction a as [|c a IH]; [by destruct b|]. cbn. by rewrite IH. Qed.
Lemma sdrop_app a b : sdrop (String.length a) (a ++ b) = b.
Proof. induction a as [|c a IH]; [by destruct b|]. cbn. done. Qed.
Lemma sdrop_app_S a c b : sdrop (S (String.length a)) (a ++ String c b) = b.
Proof. induction a as [|x a IH]; [by destruct b|]. cbn in *. done. Qed.

(** Words *)
Lemma word_inv s : word s = true -> s <> "" /\ all nonspace s = true.
Proof.
  unfold word. intros [H1 H2]%andb_true_iff. split; [|done]. intros ->. discriminate.
Qed.

Lemma read_word w s :
  w <> "" -> all nonspace w = true -> stops nonspace s -> read_token (w ++ s) = Some (w, s).
Proof.
  intros Hne Hw Hs. destruct w as [|c a]; [done|]. cbn in Hw.
  apply andb_true_iff in Hw as [Hc Ha]. unfold nonspace in Hc. apply read_token_app; [|done..].
  by destruct (is_space c).
Qed.

Lemma read_last_word w : w <> "" -> all nonspace w = true -> read_token w = Some (w, "").
Proof. intros. rewrite <- (string_app_nil w) at 1. by apply read_word. Qed.

Lemma strip_pair opening closing s :
  strip_brackets opening closing (String opening (s ++ String closing "")) = s.
Proof.
  unfold strip_brackets, has_front. cbn [front]. rewrite Ascii.eqb_refl. cbn [sdrop].
  by rewrite has_back_snoc, pop_back_snoc.
Qed.

Lemma parse_pair_ok opening sep closing a b x y :
  all (fun c => negb (Ascii.eqb c sep)) a = true -> stod a = Some x -> stod b = Some y ->
  parse_pair opening sep closing (pair_text opening a sep b closing) = Some (x, y).
Proof.
  intros Ha Hx Hy. unfold parse_pair, pair_text.
  replace (a ++ String sep (b ++ String closing "")) with ((a ++ String sep b) ++ String closing "")
    by (by rewrite string_app_assoc).
  rewrite strip_pair, find_char_app by done. cbn [mbind option_bind].
  rewrite stake_app, sdrop_app_S, Hx. cbn [mbind option_bind]. by rewrite Hy.
Qed.

Lemma number_text_inv s :
  number_text s = true -> all plain s = true /\ stod s = Some (number s).
Proof.
  unfold number_text, number. intros [H1 H2]%andb_true_iff. split; [done|].
  by destruct (stod s).
Qed.

Lemma plain_nonspace s : all plain s = true -> all nonspace s = true.
Proof. apply all_mono. unfold plain. intros c. by destruct (nonspace c). Qed.
Lemma plain_no_comma s : all plain s = true -> all (fun c => negb (Ascii.eqb c ","%char)) s = true.
Proof.
  apply all_mono. unfold plain. intros c. destruct (Ascii.eqb c ","%char); [|done].
  by rewrite andb_false_r.
Qed.
Lemma plain_no_bar s : all plain s = true -> all (fun c => negb (Ascii.eqb c "|"%char)) s = true.
Proof.
  apply all_mono. unfold plain. intros c. destruct (Ascii.eqb c "|"%char); [|done].
  by rewrite andb_false_r.
Qed.

Lemma digits_nonspace s : all is_digit s = true -> all nonspace s = true.
Proof.
  apply all_mono. intros c Hc. apply digit_plain in Hc as [Hc _]. unfold nonspace. by rewrite Hc.
Qed.

Lemma digits_no_bar s : all is_digit s = true -> all (fun c => negb (Ascii.eqb c "|"%char)) s = true.
Proof.
  apply all_mono. intros c. destruct (Ascii.eqb_spec c "|"%char) as [->|]; [discriminate|done].
Qed.


(** The next word of a line. *)
Lemma next_word w s :
  w <> "" -> all nonspace w = true -> stops nonspace s ->
  read_token (String " "%char (w ++ s)) = Some (w, s).
Proof. intros. rewrite read_token_space by done. by apply read_word. Qed.

Lemma stops_space s : stops nonspace (String " "%char s).
Proof. done. Qed.

Lemma pair_text_nonspace opening a sep b closing :
  nonspace opening = true -> nonspace sep = true -> nonspace closing = true ->
  all nonspace a = true -> all nonspace b = true ->
  all nonspace (pair_text opening a sep b closing) = true.
Proof.
  intros Ho Hs Hc Ha Hb. unfold pair_text. cbn. rewrite all_app. cbn. rewrite all_app. cbn.
  by rewrite Ho, Hs, Hc, Ha, Hb.
Qed.

Lemma quoted_nonspace s : all nonspace s = true -> all nonspace (quoted s) = true.
Proof. intros H. unfold quoted. cbn. rewrite all_app. cbn. by rewrite H. Qed.

Lemma bit_info_nonspace t : 0 <= t_start t -> 0 <= t_length t -> all nonspace (bit_info t) = true.
Proof.
  intros Hs Hl. unfold bit_info. rewrite all_app. cbn. rewrite all_app. cbn.
  rewrite !digits_nonspace by (by apply print_dec_digits).
  by destruct (t_little t), (t_signed t).
Qed.

Lemma unquote_quoted s :
  (if (2 <=? String.length (quoted s))%nat && has_front quote (quoted s) && has_back quote (quoted s)
   then stake (String.length (quoted s) - 2) (sdrop 1 (quoted s)) else quoted s) = s.
Proof.
  unfold quoted.
  assert (has_back quote (String quote (s ++ String quote "")) = true) as ->.
  { change (String quote (s ++ String quote "")) with ((String quote s) ++ String quote "").
    apply has_back_snoc. }
  cbn [String.length sdrop]. rewrite length_app_string. cbn [String.length].
  replace (S (String.length s + 1) - 2)%nat with (String.length s) by lia.
  rewrite stake_app. by replace (2 <=? S (String.length s + 1))%nat with true
    by (symmetry; apply Nat.leb_le; lia).
Qed.

Lemma bit_info_pipe t :
  0 <= t_start t ->
  find_char "|"%char (bit_info t) = Some (String.length (print_dec (t_start t))).
Proof. intros Hs. apply find_char_app, digits_no_bar. by apply print_dec_digits. Qed.

Lemma bit_info_at t :
  0 <= t_start t -> 0 <= t_length t ->
  find_char "@"%char (bit_info t)
  = Some (S (String.length (print_dec (t_start t)) + String.length (print_dec (t_length t)))).
Proof.
  intros Hs Hl. unfold bit_info.
  assert (forall c s, all is_digit c = true -> all (fun x => negb (Ascii.eqb x "@"%char)) (c ++ s)
            = all (fun x => negb (Ascii.eqb x "@"%char)) s) as Hd.
  { intros c s Hc. rewrite all_app. replace (all _ c) with true; [done|]. symmetry.
    revert Hc. apply all_mono. intros x. destruct (Ascii.eqb_spec x "@"%char) as [->|]; [discriminate|done]. }
  replace (print_dec (t_start t) ++ String "|"%char (print_dec (t_length t) ++ String "@"%char _))
    with ((print_dec (t_start t) ++ String "|"%char (print_dec (t_length t)))
          ++ String "@"%char (String (if t_little t then "1"%char else "0"%char)
               (String (if t_signed t then "-"%char else "+"%char) "")))
    by (by rewrite string_app_assoc).
  rewrite find_char_app.
  - rewrite length_app_string. cbn [String.length]. f_equal. lia.
    - rewrite Hd by (by apply print_dec_digits).
    transitivity (all (fun x => negb (Ascii.eqb x "@"%char)) (print_dec (t_length t) ++ ""));
      [by rewrite string_app_nil|]. by rewrite Hd by (by apply print_dec_digits).
Qed.

Lemma in_u8_spec x : in_u8 x = true -> is_u8 x.
Proof. unfold in_u8, is_u8. lia. Qed.

(** What follows the at sign of the bit information: byte order and sign. *)
Lemma bit_info_flags t :
  sdrop (S (S (String.length (print_dec (t_start t)) + String.length (print_dec (t_length t))))) (bit_info t)
  = String (if t_little t then "1"%char else "0"%char) (String (if t_signed t then "-"%char else "+"%char) "").
Proof.
  unfold bit_info.
  replace (S (S _)) with (S (String.length (print_dec (t_start t) ++ String "|"%char (print_dec (t_length t)))))
    by (rewrite length_app_string; cbn [String.length]; lia).
  change (String "|"%char (print_dec (t_length t) ++ String "@"%char _))
    with (String "|"%char (print_dec (t_length t)) ++ String "@"%char
      (String (if t_little t then "1"%char else "0"%char)
         (String (if t_signed t then "-"%char else "+"%char) ""))).
  rewrite <- string_app_assoc. apply sdrop_app_S.
Qed.

Lemma parse_signal_line_ok t :
  signal_text_ok t = true -> parse_signal_line (sdrop 1 (signal_line t)) = Some (signal_of t).
Proof.
  unfold signal_text_ok. rewrite !andb_true_iff.
  intros ((((((((Hn & Hs) & Hl) & Hsc) & Ho) & Hmi) & Hma) & Hu) & Hr).
  apply word_inv in Hn as [Hn1 Hn2], Hr as [Hr1 Hr2]. apply in_u8_spec in Hs, Hl.
  apply number_text_inv in Hsc as [Hsc1 Hsc2], Ho as [Ho1 Ho2], Hmi as [Hmi1 Hmi2], Hma as [Hma1 Hma2].
  unfold is_u8 in Hs, Hl.
  assert (sdrop 1 (signal_line t) = "SG_" ++ String " "%char (t_name t ++ String " "%char (":"
    ++ String " "%char (bit_info t ++ String " "%char (pair_text "("%char (t_scale t) ","%char (t_offset t) ")"%char
    ++ String " "%char (pair_text "["%char (t_min t) "|"%char (t_max t) "]"%char
    ++ String " "%char (quoted (t_unit t) ++ String " "%char (t_receiver t)))))))) as -> by done.
  unfold parse_signal_line.
  assert (bit_info t <> "") as Hbne.
  { unfold bit_info. destruct (print_dec (t_start t)); done. }
  rewrite read_word by done. cbn [mbind option_bind].
  rewrite next_word by done. cbn [mbind option_bind].
  rewrite next_word by done. cbn [mbind option_bind].
  rewrite next_word by (done || (apply bit_info_nonspace; lia)). cbn [mbind option_bind].
  rewrite next_word by (done || (apply pair_text_nonspace; try done; by apply plain_nonspace)).
  cbn [mbind option_bind].
  rewrite next_word by (done || (apply pair_text_nonspace; try done; by apply plain_nonspace)).
  cbn [mbind option_bind].
  rewrite next_word by (done || by apply quoted_nonspace). cbn [mbind option_bind].
  change (negb (String.eqb "SG_" "SG_")) with false. cbv iota zeta.
  rewrite unquote_quoted, bit_info_pipe, bit_info_at by lia. cbn [mbind option_bind].
  unfold substr_between. rewrite (proj2 (Nat.ltb_ge _ _)) by lia.
  rewrite bit_info_flags.
  unfold bit_info. rewrite stake_app, sdrop_app_S.
  replace (S _ - S _)%nat with (String.length (print_dec (t_length t))) by lia.
  rewrite stake_app. rewrite <- (string_app_nil (print_dec (t_start t))), <- (string_app_nil (print_dec (t_length t))).
  rewrite !stoi_print by (done || lia). cbn [mbind option_bind].
  rewrite (parse_pair_ok _ _ _ _ _ _ _ (plain_no_comma _ Hsc1) Hsc2 Ho2). cbn [mbind option_bind].
  rewrite (parse_pair_ok _ _ _ _ _ _ _ (plain_no_bar _ Hmi1) Hmi2 Hma2). cbn [mbind option_bind].
  unfold signal_of. rewrite !u8_small by (unfold is_u8; lia).
  by destruct (t_little t), (t_signed t).
Qed.

Lemma parse_message_line_ok t :
  message_text_ok t = true ->
  parse_message_line (message_line t) = Some (mk_message (t_id t) (t_mname t) (t_dlc t) []).
Proof.
  unfold message_text_ok. rewrite !andb_true_iff.
  intros (((((Hi1 & Hi2) & Hn) & Hl) & Hs) & _).
  apply word_inv in Hn as [Hn1 Hn2], Hs as [Hs1 Hs2]. apply in_u8_spec in Hl. unfold is_u8 in Hl.
  assert (message_line t = "BO_" ++ String " "%char (print_dec (t_id t)
    ++ String " "%char ((t_mname t ++ ":") ++ String " "%char (print_dec (t_dlc t)
    ++ String " "%char (t_sender t ++ ""))))) as ->.
  { unfold message_line. by rewrite string_app_assoc, string_app_nil. }
  unfold parse_message_line. rewrite read_word by done. cbn [mbind option_bind].
  rewrite read_uint_space, read_uint_print by (done || (unfold is_u32; lia)). cbn [mbind option_bind].
  rewrite next_word; [|by destruct (t_mname t)|by rewrite all_app, Hn2|done]. cbn [mbind option_bind].
  rewrite read_int_space, read_int_print by (done || lia). cbn [mbind option_bind].
  rewrite next_word by done. cbn [mbind option_bind].
  change (negb (String.eqb "BO_" "BO_")) with false. cbv iota zeta.
  rewrite has_back_snoc, pop_back_snoc, u8_small by (unfold is_u8; lia). done.
Qed.


(** Lines of a file *)
Definition no_newline (c : ascii) : bool := negb (Ascii.eqb c newline).

Lemma split_lines_line l rest :
  all no_newline l = true -> split_lines (l ++ String newline rest) = (Some l, getlines rest).
Proof.
  induction l as [|c l IH]; cbn [all].
  - intros _. unfold getlines. cbn. destruct (split_lines rest) as [[l|] ls]; done.
  - intros [Hc Hl]%andb_true_iff. rewrite string_app_cons. cbn [split_lines].
    rewrite IH by done. unfold no_newline in Hc. by destruct (Ascii.eqb c newline).
Qed.

Lemma getlines_render lines :
  Forall (fun l => all no_newline l = true) lines -> getlines (with_newlines lines) = lines.
Proof.
  induction 1 as [|l lines Hl _ IH]; [done|].
  unfold getlines. cbn [with_newlines fold_right]. rewrite split_lines_line by done.
  fold (with_newlines lines). by rewrite IH.
Qed.

Lemma nonspace_no_newline s : all nonspace s = true -> all no_newline s = true.
Proof.
  apply all_mono. intros c. unfold no_newline.
  destruct (Ascii.eqb_spec c newline) as [->|]; [discriminate|done].
Qed.

Lemma no_cr s : s <> "" -> all nonspace s = true -> has_back cr s = false.
Proof.
  intros Hne Hs. unfold has_back. destruct (back s) as [c|] eqn:E; [|done].
  apply (back_all nonspace) in E; [|done].
  destruct (Ascii.eqb_spec c cr) as [->|]; [discriminate|done].
Qed.

Lemma has_back_app c a b : b <> "" -> has_back c (a ++ b) = has_back c b.
Proof. intros Hb. unfold has_back. by rewrite back_app. Qed.

Lemma signal_text_words t :
  signal_text_ok t = true ->
  0 <= t_start t /\ 0 <= t_length t /\ all nonspace (t_name t) = true
  /\ all nonspace (t_scale t) = true /\ all nonspace (t_offset t) = true
  /\ all nonspace (t_min t) = true /\ all nonspace (t_max t) = true
  /\ all nonspace (t_unit t) = true /\ t_receiver t <> "" /\ all nonspace (t_receiver t) = true.
Proof.
  unfold signal_text_ok. rewrite !andb_true_iff.
  intros ((((((((Hn & Hs) & Hl) & Hsc) & Ho) & Hmi) & Hma) & Hu) & Hr).
  apply word_inv in Hn as [_ Hn], Hr as [Hr1 Hr2]. apply in_u8_spec in Hs, Hl. unfold is_u8 in *.
  apply number_text_inv in Hsc as [Hsc _], Ho as [Ho _], Hmi as [Hmi _], Hma as [Hma _].
  split_and!; try lia; try done; by apply plain_nonspace.
Qed.

Lemma signal_line_chars t :
  signal_text_ok t = true -> all no_newline (signal_line t) = true.
Proof.
  intros (? & ? & ? & ? & ? & ? & ? & ? & _ & ?)%signal_text_words.
  unfold signal_line. rewrite !all_app.
  rewrite !(nonspace_no_newline (pair_text _ _ _ _ _)) by (by apply pair_text_nonspace).
  rewrite (nonspace_no_newline (quoted _)) by (by apply quoted_nonspace).
  rewrite (nonspace_no_newline (bit_info _)) by (by apply bit_info_nonspace).
  by rewrite (nonspace_no_newline (t_name t)), (nonspace_no_newline (t_receiver t)) by done.
Qed.

Lemma message_text_words t :
  message_text_ok t = true ->
  0 <= t_id t /\ 0 <= t_dlc t /\ all nonspace (t_mname t) = true /\ t_sender t <> ""
  /\ all nonspace (t_sender t) = true /\ forallb signal_text_ok (t_signals t) = true.
Proof.
  unfold message_text_ok. rewrite !andb_true_iff.
  intros (((((Hi1 & Hi2) & Hn) & Hl) & Hs) & ?).
  apply word_inv in Hn as [_ Hn], Hs as [Hs1 Hs2]. apply in_u8_spec in Hl. unfold is_u8 in *.
  split_and!; try lia; done.
Qed.

Lemma message_line_chars t : message_text_ok t = true -> all no_newline (message_line t) = true.
Proof.
  intros (? & ? & ? & _ & ? & _)%message_text_words. unfold message_line. rewrite !all_app.
  rewrite !(nonspace_no_newline (print_dec _)) by (by apply digits_nonspace, print_dec_digits).
  by rewrite (nonspace_no_newline (t_mname t)), (nonspace_no_newline (t_sender t)) by done.
Qed.

Lemma parse_line_signal st t :
  signal_text_ok t = true -> in_message st = true ->
  parse_line st (signal_line t) = add_signal st (signal_of t).
Proof.
  intros Ht Hin. pose proof (signal_text_words t Ht) as (_ & _ & _ & _ & _ & _ & _ & _ & Hr1 & Hr2).
  assert (has_back cr (signal_line t) = false) as Hcr.
  { unfold signal_line. rewrite <- !string_app_assoc. rewrite has_back_app by done. by apply no_cr. }
  unfold parse_line. rewrite Hcr.
  assert (exists s, signal_line t = String " "%char (String "S"%char (String "G"%char
            (String "_"%char (String " "%char s))))) as [s Es] by (eexists; reflexivity).
  pose proof (parse_signal_line_ok t Ht) as Hp. rewrite Es in *.
  change (find_first_not_of blanks_and_ends (String " "%char (String "S"%char _))) with (Some 1%nat).
  change (find_first_not_of blanks (String " "%char (String "S"%char _))) with (Some 1%nat).
  cbn [sdrop] in Hp |- *.
  assert (starts_with "BO_ " (String "S"%char (String "G"%char (String "_"%char (String " "%char s)))) = false)
    as -> by (by destruct s).
  assert (starts_with "SG_ " (String "S"%char (String "G"%char (String "_"%char (String " "%char s)))) = true)
    as -> by (by destruct s).
  by rewrite Hin, Hp.
Qed.

Lemma parse_line_message st t :
  message_text_ok t = true ->
  parse_line st (message_line t)
  = mk (<[t_id t := mk_message (t_id t) (t_mname t) (t_dlc t) []]> (messages st)) (t_id t) true.
Proof.
  intros Ht. pose proof (message_text_words t Ht) as (_ & _ & _ & Hs1 & Hs2 & _).
  assert (has_back cr (message_line t) = false) as Hcr.
  { unfold message_line. rewrite <- !string_app_assoc. rewrite has_back_app by done. by apply no_cr. }
  unfold parse_line. rewrite Hcr.
  assert (exists s, message_line t = String "B"%char (String "O"%char
            (String "_"%char (String " "%char s)))) as [s Es] by (eexists; reflexivity).
  pose proof (parse_message_line_ok t Ht) as Hp. rewrite Es in *.
  change (find_first_not_of blanks_and_ends (String "B"%char _)) with (Some 0%nat).
  change (find_first_not_of blanks (String "B"%char _)) with (Some 0%nat).
  cbn [sdrop] in Hp |- *.
  assert (starts_with "BO_ " (String "B"%char (String "O"%char (String "_"%char (String " "%char s)))) = true)
    as -> by (by destruct s).
  by rewrite Hp.
Qed.

Lemma parse_signals_ok ts : forall st m,
  forallb signal_text_ok ts = true -> in_message st = true ->
  messages st !! current_id st = Some m ->
  parse_lines st (map signal_line ts)
  = mk (<[current_id st := mk_message (md_can_id m) (md_name m) (md_length m)
           (md_signals m ++ map signal_of ts)]> (messages st)) (current_id st) true.
Proof.
  induction ts as [|t ts IH]; intros st m Ht Hin Hm.
  - cbn. rewrite app_nil_r. destruct m, st as [ms id inm]; cbn in *. by rewrite Hin, insert_id.
  - cbn [forallb] in Ht. apply andb_true_iff in Ht as [Ht Hts].
    unfold parse_lines in *. cbn [map fold_left]. rewrite parse_line_signal by done.
    unfold add_signal. rewrite Hm.
    erewrite IH; [|done|done|cbn; by rewrite lookup_insert_eq].
    cbn [messages current_id md_can_id md_name md_length md_signals].
    by rewrite insert_insert_eq, <- app_assoc.
Qed.

Lemma parse_message_ok st t :
  message_text_ok t = true ->
  parse_lines st (message_lines t)
  = mk (<[t_id t := message_of t]> (messages st)) (t_id t) false.
Proof.
  intros Ht. pose proof (message_text_words t Ht) as (_ & _ & _ & _ & _ & Hs).
  unfold message_lines, parse_lines. cbn [fold_left]. rewrite parse_line_message by done.
  rewrite fold_left_app.
  match goal with |- context [fold_left parse_line (map signal_line _) ?st] =>
    change (fold_left parse_line (map signal_line (t_signals t)) st)
      with (parse_lines st (map signal_line (t_signals t))) end.
  erewrite (parse_signals_ok (t_signals t)); [|done|done|cbn; by rewrite lookup_insert_eq].
  cbn [fold_left messages current_id md_can_id md_name md_length md_signals app].
  rewrite insert_insert_eq. done.
Qed.

Lemma parse_render_ok db : forall st,
  forallb message_text_ok db = true ->
  messages (parse_lines st (db ≫= message_lines))
  = fold_left (fun ms t => <[t_id t := message_of t]> ms) db (messages st).
Proof.
  induction db as [|t db IH]; intros st Hd; [done|].
  cbn [forallb] in Hd. apply andb_true_iff in Hd as [Ht Hd].
  rewrite bind_cons. unfold parse_lines in *. rewrite fold_left_app, IH by done.
  cbn [fold_left]. f_equal. fold (parse_lines st (message_lines t)).
  by rewrite parse_message_ok.
Qed.

Lemma render_lines_ok db :
  forallb message_text_ok db = true ->
  Forall (fun l => all no_newline l = true) (db ≫= message_lines).
Proof.
  induction db as [|t db IH]; [constructor|]. cbn [forallb]. intros [Ht Hd]%andb_true_iff.
  rewrite bind_cons. apply List.Forall_app. split; [|by apply IH].
  constructor; [by apply message_line_chars|]. apply List.Forall_app. split; [|by repeat constructor].
  pose proof (message_text_words t Ht) as (_ & _ & _ & _ & _ & Hs).
  apply List.Forall_map. apply List.Forall_forall. intros s Hin.
  rewrite forallb_forall in Hs. by apply signal_line_chars, Hs.
Qed.

(** The last message with a given identifier counts. *)
Definition last_with (id : Z) (db : list message_text) : option message_text :=
  List.find (fun t => t_id t =? id) (rev db).

Lemma fold_insert_lookup db id : forall ms : gmap Z MessageDef,
  fold_left (fun ms t => <[t_id t := message_of t]> ms) db ms !! id
  = match last_with id db with Some t => Some (message_of t) | None => ms !! id end.
Proof.
  unfold last_with. induction db as [|t db IH] using rev_ind; intros ms; [done|].
  rewrite fold_left_app, rev_app_distr. cbn [fold_left rev app List.find].
  destruct (Z.eqb_spec (t_id t) id) as [->|Hne].
  - by rewrite lookup_insert_eq.
  - by rewrite lookup_insert_ne, IH by done.
Qed.

End DbcFacts.

(** ** Lemmas on arbitrary files *)
Module DbcInvariant.
Import DbcParser CppStringFacts.

Definition entry_ok (id : Z) (m : MessageDef) : Prop := md_can_id m = id /\ message_ok m.

Definition state_ok (st : state) : Prop :=
  map_Forall entry_ok (messages st)
  /\ (in_message st = true -> is_Some (messages st !! current_id st)).

Lemma span_all p s : all p (span p s).1 = true.
Proof.
  induction s as [|c s IH]; [done|]. cbn. destruct (p c) eqn:E; [|done].
  destruct (span p s) as [a b]. cbn in *. by rewrite E.
Qed.

Lemma digit_value_nonneg c : is_digit c = true -> 0 <= digit_value c.
Proof. intros H. unfold digit_value. rewrite H. unfold is_digit, in_range in H. lia. Qed.

Lemma digits_value_nonneg s acc : all is_digit s = true -> 0 <= acc -> 0 <= digits_value 10 acc s.
Proof.
  revert acc. induction s as [|c s IH]; intros acc; [done|]. cbn. intros [Hc Hs]%andb_true_iff Ha.
  apply IH; [done|]. pose proof (digit_value_nonneg c Hc). lia.
Qed.

Lemma read_uint_range s v rest : read_uint s = Some (v, rest) -> is_u32 v.
Proof.
  unfold read_uint. destruct (read_sign (skip_ws s)) as [neg s1].
  pose proof (span_all is_digit s1) as Hs. destruct (span is_digit s1) as [ds r]. cbn in Hs.
  destruct ds as [|c ds]; [done|].
  pose proof (digits_value_nonneg (String c ds) 0 Hs ltac:(lia)) as Hv.
  generalize dependent (digits_value 10 0 (String c ds)). intros d Hd.
  destruct (Z.leb_spec d 4294967295); [|done]. intros [= <- _]. destruct neg; [apply u32_range|unfold is_u32; lia].
Qed.

(** Splits the binds of an option-valued parser that returned. *)
Ltac option_inv H :=
  repeat match type of H with
  | (?c ≫= _) = Some _ =>
      let E := fresh "E" in
      destruct c as [?|] eqn:E; cbn [mbind option_bind] in H; [|discriminate H]
  | (let '(_, _) := ?p in _) = Some _ => destruct p
  end.

Lemma parse_message_line_spec line m :
  parse_message_line line = Some m -> message_ok m /\ md_signals m = [].
Proof.
  unfold parse_message_line. intros H. option_inv H.
  destruct (negb _); [done|]. injection H as <-.
  split; [|done]. unfold message_ok. cbn. split_and!; [|apply u8_range|constructor].
  by eapply read_uint_range.
Qed.

Lemma parse_pair_valid o s c info a b :
  parse_pair o s c info = Some (a, b) -> d_valid a = true /\ d_valid b = true.
Proof.
  unfold parse_pair. intros H. option_inv H. injection H as <- <-.
  split; by eapply stod_valid.
Qed.

Lemma parse_signal_line_spec line s : parse_signal_line line = Some s -> signal_ok s.
Proof.
  unfold parse_signal_line. intros H. option_inv H.
  destruct (negb _); [done|]. option_inv H. injection H as <-.
  repeat match goal with E : parse_pair _ _ _ _ = Some _ |- _ =>
    apply parse_pair_valid in E as [??] end.
  unfold signal_ok. cbn. split_and!; try done; apply u8_range.
Qed.

Lemma parse_line_ok st line : state_ok st -> state_ok (parse_line st line).
Proof.
  intros [Hm Hc]. unfold parse_line.
  set (l := if has_back cr line then _ else _). clearbody l.
  destruct (find_first_not_of blanks_and_ends l); [|split; done].
  destruct (find_first_not_of blanks l); [|split; done].
  destruct (starts_with "BO_ " (sdrop n0 l)).
  - destruct (parse_message_line (sdrop n0 l)) as [m|] eqn:E; [|split; done].
    apply parse_message_line_spec in E as [E _].
    split; cbn; [by apply map_Forall_insert_2|]. intros _. rewrite lookup_insert_eq. by eexists.
  - destruct (starts_with "SG_ " (sdrop n0 l) && in_message st) eqn:Eg; [|split; done].
    apply andb_true_iff in Eg as [_ Hin].
    destruct (parse_signal_line (sdrop n0 l)) as [s|] eqn:E; [|split; done].
    apply parse_signal_line_spec in E. destruct (Hc Hin) as [m Hl]. unfold add_signal. rewrite Hl.
    destruct (Hm _ _ Hl) as [Hid (? & ? & Hs)].
    split; cbn.
    + apply map_Forall_insert_2; [|done]. split; [done|]. split_and!; [done..|].
      apply List.Forall_app. split; [done|]. apply Forall_cons_2; [done|apply Forall_nil_2].
    + intros _. rewrite lookup_insert_eq. by eexists.
Qed.

Lemma parse_lines_ok st lines : state_ok st -> state_ok (parse_lines st lines).
Proof.
  revert st. induction lines as [|l lines IH]; intros st Hs; [done|].
  cbn. apply IH. by apply parse_line_ok.
Qed.

End DbcInvariant.

(** ** Properties *)
Section properties.
Import DbcParser DbcText DbcFacts DbcInvariant.

(** C19: parsing inverts writing: for every list of well-formed message
    definitions (32-bit identifiers, 8-bit lengths and positions, names,
    units and number texts of the format's characters), the text written
    for it is parsed successfully, and looking an identifier up gives the
    last message written with it: its name, length, and all its signals in
    order with position, width, sign, byte order, unit and the numbers
    [stod] reads; no other identifier is found. *)
Theorem dbc_roundtrip db :
  forallb message_text_ok db = true ->
  exists ms,
    parse ∅ (Some (render db)) = (true, ms)
    /\ forall id, find_message ms id = message_of <$> last_with id db.
Proof.
  intros Hd. eexists. split; [reflexivity|]. intros id. unfold render.
  rewrite getlines_render by (by apply render_lines_ok).
  unfold find_message. rewrite parse_render_ok, fold_insert_lookup by done.
  by destruct (last_with id db).
Qed.

Definition demo_db : list message_text :=
  [mk_message_text 291 "EngineData" 8 "ECU"
     [mk_signal_text "Oil" 16 12 true false "0.5" "-40" "-40" "1e3" "degC" "GW";
      mk_signal_text "On" 0 1 false true "1" "0" "0" "1" "" "GW"];
   mk_message_text 4294967295 "X" 2 "ECU" []].

Lemma dbc_roundtrip_witness :
  exists ms, parse ∅ (Some (render demo_db)) = (true, ms)
    /\ option_map md_name (find_message ms 4294967295) = Some "X"
    /\ option_map (fun m => map sg_offset (md_signals m)) (find_message ms 291)
       = Some [d_of_int (-40); d_of_int 0]
    /\ find_message ms 292 = None.
Proof.
  destruct (dbc_roundtrip demo_db) as (ms & H1 & H2); [vm_compute; reflexivity|].
  exists ms. split; [exact H1|]. rewrite !H2. vm_compute. split_and!; reflexivity.
Defined.

(** C20: whatever a file contains, parsing it leaves a database in which every
    message is filed under its own identifier, identifiers fit 32 bits,
    positions and lengths 8 bits, and every number is a well-formed double:
    what the decoder requires of a message.  A file that cannot be opened
    changes nothing. *)
Theorem dbc_parse_invariant ms file :
  map_Forall entry_ok ms ->
  let r := parse ms file in
  map_Forall entry_ok r.2
  /\ (r.1 = false <-> file = None)
  /\ (forall id m, find_message r.2 id = Some m -> md_can_id m = id /\ message_ok m).
Proof.
  intros Hm r. assert (map_Forall entry_ok r.2) as Hr.
  { unfold r, parse. destruct file as [text|]; [|done]. by apply parse_lines_ok. }
  split; [done|]. split; [by destruct file|]. intros id m Hl. by apply Hr in Hl.
Qed.

Lemma dbc_parse_invariant_witness :
  let r := parse ∅ (Some "BO_ -1 A: -3 X") in
  map_Forall entry_ok r.2 /\ r.1 = true
  /\ option_map md_length (find_message r.2 4294967295) = Some 253.
Proof.
  intros r. destruct (dbc_parse_invariant ∅ (Some "BO_ -1 A: -3 X")) as (H1 & _ & _);
    [apply map_Forall_empty|].
  split; [exact H1|]. split; vm_compute; reflexivity.
Defined.

(** A message header the parser cannot read does not end the message
    before it: the line is skipped, the parser stays inside the previous
    message, and the signals that follow are appended to that one, where
    the decoder will apply them to its frames. *)
Theorem dbc_orphan_signals st bad t m :
  in_message st = true -> messages st !! current_id st = Some m ->
  parse_message_line ("BO_ " ++ bad) = None ->
  has_back cr bad = false -> signal_text_ok t = true ->
  messages (parse_lines st ["BO_ " ++ bad; signal_line t])
  = <[current_id st := mk_message (md_can_id m) (md_name m) (md_length m)
        (md_signals m ++ [signal_of t])]> (messages st).
Proof.
  intros Hin Hm Hbad Hcr Ht. unfold parse_lines. cbn [fold_left].
  assert (parse_line st ("BO_ " ++ bad) = st) as ->.
  { assert (has_back cr ("BO_ " ++ bad) = false) as Hb.
    { destruct bad; [done|]. by rewrite has_back_app. }
    unfold parse_line. rewrite Hb.
    change (find_first_not_of blanks_and_ends ("BO_ " ++ bad)) with (Some 0%nat).
    change (find_first_not_of blanks ("BO_ " ++ bad)) with (Some 0%nat).
    cbv beta iota zeta. change (sdrop 0 ("BO_ " ++ bad)) with ("BO_ " ++ bad).
    assert (starts_with "BO_ " ("BO_ " ++ bad) = true) as -> by (by destruct bad).
    by rewrite Hbad. }
  rewrite parse_line_signal by done. unfold add_signal. by rewrite Hm.
Qed.

Lemma dbc_orphan_signals_witness :
  let m := mk_message 100 "A" 8 [] in
  let t := mk_signal_text "Speed" 0 16 false true "1" "0" "0" "9" "rpm" "GW" in
  messages (parse_lines (mk {[100 := m]} 100 true) ["BO_ " ++ "0x200 B: 8 ECU"; signal_line t])
  = <[100 := mk_message 100 "A" 8 [signal_of t]]> {[100 := m]}.
Proof.
  intros m t.
  rewrite (dbc_orphan_signals (mk {[100 := m]} 100 true) "0x200 B: 8 ECU" t m);
    [reflexivity | reflexivity | vm_compute; reflexivity..].
Defined.

End properties.
