(* ===== verification/ConfigLoader.v ===== *)
(** * Configuration ([src/src/utils/config_loader.hpp], [.cpp])

    [Module ConfigLoader] is the class: the line loop of [load] over the
    text of the file.  [Module ConfigText] writes a configuration in the
    format it reads. *)

From Stdlib Require Import Ascii.
From S2P Require Import Prelude Floats CppString Types DbcParser.

#[local] Open Scope string_scope.
#[local] Open Scope Z_scope.

Module ConfigLoader.

Record SignalRoute := mk_route { signal_name : string; service_id : Z; method_id : Z }.

Section code.
Context {T : Target}.

(** The body of the loop: the route of a line, [None] for a blank line, a
    comment, a line with fewer than three words or one with a bad number. *)
Definition parse_route (line : string) : option SignalRoute :=
  let line := if has_back DbcParser.cr line then pop_back line else line in
  start ← find_first_not_of DbcParser.blanks line;
  if has_front "#"%char (sdrop start line) then None
  else
    '(name, ss) ← read_token line;
    '(svc_str, ss) ← read_token ss;
    '(method_str, ss) ← read_token ss;
    svc ← stoul16 svc_str;
    met ← stoul16 method_str;
    Some (mk_route name (u16 svc) (u16 met)).

Definition load_line (routes : list SignalRoute) (line : string) : list SignalRoute :=
  match parse_route line with Some r => routes ++ [r] | None => routes end.

(** [load]: the returned flag and [routes_] after the call. *)
Definition load (routes_ : list SignalRoute) (file : option string) : bool * list SignalRoute :=
  match file with
  | None => (false, routes_)
  | Some text =>
      let routes := fold_left load_line (getlines text) routes_ in
      (match routes with [] => false | _ => true end, routes)
  end.

End code.

Definition route_count (routes_ : list SignalRoute) : Z := zlen routes_.

End ConfigLoader.

(** ** Configurations as text *)
Module ConfigText.
Import ConfigLoader DbcText CppStringFacts.

Definition route_line (r : SignalRoute) : string :=
  signal_name r ++ " " ++ print_hex4 (service_id r) ++ " " ++ print_hex4 (method_id r).

(** What a line can hold besides a route: a comment or nothing, after spaces
    and tabs. *)
Variant entry :=
| Route (r : SignalRoute)
| Comment (indent text : string)
| Blank (indent : string).

Definition entry_line (e : entry) : string :=
  match e with
  | Route r => route_line r
  | Comment indent text => indent ++ "#" ++ text
  | Blank indent => indent
  end.

(** A file of such lines, each ended with or without a carriage return. *)
Definition file_line (x : entry * bool) : string :=
  entry_line x.1 ++ (if x.2 then String DbcParser.cr "" else "").
Definition render_file (entries : list (entry * bool)) : string :=
  with_newlines (map file_line entries).

Definition entry_routes (e : entry) : list SignalRoute := match e with Route r => [r] | _ => [] end.
Definition file_routes (entries : list (entry * bool)) : list SignalRoute :=
  entries ≫= fun x => entry_routes x.1.

Definition in_u16 (x : Z) : bool := (0 <=? x) && (x <? 65536).

Definition route_ok (r : SignalRoute) : bool :=
  word (signal_name r) && negb (has_front "#"%char (signal_name r))
  && in_u16 (service_id r) && in_u16 (method_id r).

Definition is_blank (c : ascii) : bool := Ascii.eqb c " " || Ascii.eqb c DbcParser.tab.
Definition in_line (c : ascii) : bool := negb (Ascii.eqb c newline) && negb (Ascii.eqb c DbcParser.cr).

Definition entry_ok (e : entry) : bool :=
  match e with
  | Route r => route_ok r
  | Comment indent text => all is_blank indent && all in_line text
  | Blank indent => all is_blank indent
  end.

End ConfigText.

(** ** Lemmas *)
Module ConfigFacts.
Import ConfigLoader ConfigText DbcParser DbcText CppStringFacts DbcFacts.
#[local] Arguments String.append : simpl nomatch.

Lemma hex4_words n :
  is_u16 n -> print_hex4 n <> "" /\ all nonspace (print_hex4 n) = true.
Proof.
  intros Hn. split; [done|].
  assert (all is_xdigit (sdrop 2 (print_hex4 n)) = true) as Hx by apply (hex4_value n Hn).
  assert (forall c, is_xdigit c = true -> nonspace c = true) as Hc.
  { intros c. unfold is_xdigit, is_digit, nonspace, is_space, in_range. intros. lia. }
  exact (all_mono is_xdigit nonspace _ Hc Hx).
Qed.

Lemma in_u16_spec x : in_u16 x = true -> is_u16 x.
Proof. unfold in_u16, is_u16. lia. Qed.

Lemma first_word_start c s :
  is_space c = false -> find_first_not_of blanks (String c s) = Some O.
Proof.
  intros Hc. cbn. destruct (Ascii.eqb_spec c " "%char) as [->|]; [discriminate|].
  destruct (Ascii.eqb_spec c tab) as [->|]; [discriminate|done].
Qed.

Section facts.
Context {T : Target}.

(** A line without its carriage return, and what is made of the rest. *)
Definition stripped (line : string) : string := if has_back cr line then pop_back line else line.
Definition parse_stripped (line : string) : option SignalRoute :=
  start ← find_first_not_of blanks line;
  if has_front "#"%char (sdrop start line) then None
  else
    '(name, ss) ← read_token line;
    '(svc_str, ss) ← read_token ss;
    '(method_str, ss) ← read_token ss;
    svc ← stoul16 svc_str;
    met ← stoul16 method_str;
    Some (mk_route name (u16 svc) (u16 met)).

Lemma parse_route_stripped line : parse_route line = parse_stripped (stripped line).
Proof. done. Qed.

Lemma pop_back_last s c : pop_back (s ++ String c "") = s.
Proof. induction s as [|a s IH]; [done|]. rewrite string_app_cons. cbn. rewrite IH. by destruct s. Qed.

Lemma stripped_line s (ended : bool) :
  has_back cr s = false -> stripped (s ++ (if ended then String cr "" else "")) = s.
Proof.
  intros Hs. unfold stripped. destruct ended.
  - rewrite has_back_app by done. change (has_back cr (String cr "")) with true. apply pop_back_last.
  - by rewrite string_app_nil, Hs.
Qed.

Lemma in_line_no_cr s : all in_line s = true -> has_back cr s = false.
Proof.
  intros Hs. unfold has_back. destruct (back s) as [c|] eqn:E; [|done].
  apply (back_all in_line) in E; [|done]. unfold in_line in E. by destruct (Ascii.eqb c cr); rewrite ?andb_false_r in E.
Qed.

Lemma blank_in_line s : all is_blank s = true -> all in_line s = true.
Proof.
  apply all_mono. intros c. unfold is_blank.
  destruct (Ascii.eqb_spec c " "%char) as [->|]; [done|]. by destruct (Ascii.eqb_spec c tab) as [->|].
Qed.

Lemma skip_blanks indent rest :
  all is_blank indent = true ->
  find_first_not_of blanks (indent ++ rest)
  = (n ← find_first_not_of blanks rest; Some (String.length indent + n)%nat)
  /\ forall n, sdrop (String.length indent + n) (indent ++ rest) = sdrop n rest.
Proof.
  induction indent as [|c indent IH]; cbn [all].
  - intros _. change ("" ++ rest) with rest. split; [by destruct (find_first_not_of blanks rest)|done].
  - intros [Hc Hi]%andb_true_iff. destruct (IH Hi) as [IH1 IH2]. rewrite string_app_cons. split; [|exact IH2].
    cbn [find_first_not_of]. rewrite IH1. assert (exists k, find_char c blanks = Some k) as (k & ->).
    { unfold is_blank in Hc. cbn [blanks find_char].
      destruct (Ascii.eqb c " "%char), (Ascii.eqb c tab); try discriminate Hc; by eexists. }
    by destruct (find_first_not_of blanks rest).
Qed.

Lemma parse_comment indent text : all is_blank indent = true -> parse_stripped (indent ++ "#" ++ text) = None.
Proof.
  intros Hi. destruct (skip_blanks indent ("#" ++ text) Hi) as [H1 H2]. unfold parse_stripped.
  rewrite H1. change (find_first_not_of blanks ("#" ++ text)) with (Some O). cbn [mbind option_bind].
  by rewrite H2.
Qed.

Lemma parse_blank indent : all is_blank indent = true -> parse_stripped indent = None.
Proof.
  intros Hi. destruct (skip_blanks indent "" Hi) as [H1 _]. rewrite string_app_nil in H1.
  unfold parse_stripped. by rewrite H1.
Qed.

Lemma route_no_cr r : route_ok r = true -> has_back cr (route_line r) = false.
Proof.
  unfold route_ok. rewrite !andb_true_iff. intros (_ & Hm). apply in_u16_spec in Hm.
  destruct (hex4_words _ Hm). unfold route_line. rewrite <- !string_app_assoc, has_back_app by done. by apply no_cr.
Qed.

Lemma parse_route_line r : route_ok r = true -> parse_stripped (route_line r) = Some r.
Proof.
  unfold route_ok. rewrite !andb_true_iff. intros (((Hn & Hh) & Hs) & Hm).
  apply word_inv in Hn as [Hn1 Hn2]. apply in_u16_spec in Hs, Hm.
  destruct (hex4_words _ Hs) as [Hs1 Hs2], (hex4_words _ Hm) as [Hm1 Hm2].
  unfold parse_stripped.
  assert (route_line r = signal_name r ++ String " "%char (print_hex4 (service_id r)
            ++ String " "%char (print_hex4 (method_id r) ++ ""))) as ->.
  { unfold route_line. by rewrite string_app_nil. }
  assert (exists c s, signal_name r = String c s /\ is_space c = false) as (c & s & E & Hc).
  { destruct (signal_name r) as [|c s]; [done|]. exists c, s. split; [done|].
    cbn in Hn2. unfold nonspace in Hn2. by destruct (is_space c). }
  assert (find_first_not_of blanks (signal_name r ++ String " "%char (print_hex4 (service_id r)
            ++ String " "%char (print_hex4 (method_id r) ++ ""))) = Some O) as ->
    by (rewrite E; by apply first_word_start).
  cbn [mbind option_bind sdrop].
  assert (has_front "#"%char (signal_name r ++ String " "%char (print_hex4 (service_id r)
            ++ String " "%char (print_hex4 (method_id r) ++ ""))) = false) as ->.
  { rewrite E in *. unfold has_front in *. cbn in *. by destruct (Ascii.eqb c "#"%char). }
  rewrite read_word by done. cbn [mbind option_bind].
  rewrite next_word by done. cbn [mbind option_bind].
  rewrite next_word by done. cbn [mbind option_bind].
  rewrite !stoul16_print by done. cbn [mbind option_bind].
  rewrite !u16_small by done. by destruct r.
Qed.

Lemma route_line_chars r : route_ok r = true -> all no_newline (route_line r) = true.
Proof.
  unfold route_ok. rewrite !andb_true_iff. intros (((Hn & _) & Hs) & Hm).
  apply word_inv in Hn as [_ Hn]. apply in_u16_spec in Hs, Hm.
  unfold route_line. rewrite !all_app.
  rewrite (nonspace_no_newline (signal_name r)) by done.
  by rewrite !(nonspace_no_newline (print_hex4 _)) by (by apply hex4_words).
Qed.

Lemma in_line_chars s : all in_line s = true -> all no_newline s = true.
Proof. apply all_mono. intros c. unfold in_line, no_newline. by destruct (Ascii.eqb c newline). Qed.

Lemma comment_in_line indent text :
  all is_blank indent = true -> all in_line text = true -> all in_line (indent ++ "#" ++ text) = true.
Proof. intros Hi Ht. by rewrite !all_app, (blank_in_line indent), Ht. Qed.

Lemma file_line_chars x : entry_ok x.1 = true -> all no_newline (file_line x) = true.
Proof.
  intros Hx. unfold file_line. rewrite all_app. apply andb_true_iff. split; [|by destruct x.2].
  destruct x.1 as [r|indent text|indent]; cbn [entry_ok entry_line] in *.
  - by apply route_line_chars.
  - apply andb_true_iff in Hx as []. by apply in_line_chars, comment_in_line.
  - by apply in_line_chars, blank_in_line.
Qed.

(** Each line gives the route it holds, if it holds one. *)
Lemma load_file_line routes x :
  entry_ok x.1 = true -> load_line routes (file_line x) = (routes ++ entry_routes x.1)%list.
Proof.
  intros Hx. unfold load_line. rewrite parse_route_stripped. unfold file_line.
  destruct x as [[r|indent text|indent] ended]; cbn [fst snd entry_ok entry_line entry_routes] in *.
  - by rewrite stripped_line, parse_route_line by (done || by apply route_no_cr).
  - apply andb_true_iff in Hx as [Hi Ht].
    by rewrite stripped_line, parse_comment, app_nil_r by (done || by apply in_line_no_cr, comment_in_line).
  - by rewrite stripped_line, parse_blank, app_nil_r by (done || by apply in_line_no_cr, blank_in_line).
Qed.

Lemma load_file_lines entries routes :
  forallb (fun x => entry_ok x.1) entries = true ->
  fold_left load_line (map file_line entries) routes = (routes ++ file_routes entries)%list.
Proof.
  revert routes. induction entries as [|x entries IH]; intros routes; [by rewrite app_nil_r|].
  cbn [forallb map fold_left]. intros [Hx He]%andb_true_iff.
  rewrite load_file_line, IH by done. unfold file_routes. by rewrite bind_cons, <- app_assoc.
Qed.

Lemma render_file_lines entries :
  forallb (fun x => entry_ok x.1) entries = true ->
  Forall (fun l => all no_newline l = true) (map file_line entries).
Proof.
  intros He. apply List.Forall_map, List.Forall_forall. intros x Hin.
  rewrite forallb_forall in He. by apply file_line_chars, He.
Qed.

(** Every route that is loaded fits the fields of a SOME/IP header. *)
Definition route_wf (r : SignalRoute) : Prop := is_u16 (service_id r) /\ is_u16 (method_id r).

Lemma parse_route_wf line r : parse_route line = Some r -> route_wf r.
Proof.
  unfold parse_route. intros H. DbcInvariant.option_inv H.
  destruct (has_front _ _); [done|]. DbcInvariant.option_inv H. injection H as <-.
  split; apply u16_range.
Qed.

Lemma load_lines_wf lines routes :
  Forall route_wf routes -> Forall route_wf (fold_left load_line lines routes).
Proof.
  revert routes. induction lines as [|l lines IH]; intros routes Hr; [done|]. cbn.
  apply IH. unfold load_line. destruct (parse_route l) eqn:E; [|done].
  apply List.Forall_app. split; [done|].
  apply Forall_cons_2; [by eapply parse_route_wf|apply Forall_nil_2].
Qed.

End facts.
End ConfigFacts.

(** ** Properties *)
Section properties.
Import ConfigLoader ConfigText ConfigFacts DbcFacts.

(** C24: loading inverts writing: a file of lines that each hold a route
    (a name without white space that does not start a comment, 16-bit
    numbers in hexadecimal), a comment, or nothing but spaces and tabs, each
    ended with or without a carriage return, loads as exactly its routes, in
    order, and the load succeeds exactly when there is one; on 32- and
    64-bit targets. *)
Theorem config_roundtrip {T : Target} entries :
  forallb (fun x => entry_ok x.1) entries = true ->
  load [] (Some (render_file entries))
  = (match file_routes entries with [] => false | _ => true end, file_routes entries).
Proof.
  intros He. unfold load, render_file.
  rewrite getlines_render by (by apply render_file_lines).
  by rewrite load_file_lines.
Qed.

Lemma config_roundtrip_witness :
  load (T:=armv7) [] (Some (render_file
    [(Comment "" " routes: name service method", false); (Route (mk_route "EngineRPM" 0x0101 0x8001), true);
     (Blank "  ", true); (Comment "   " "EngineTemp 0x0101 0x8002", false); (Blank "", false);
     (Route (mk_route "a#b" 0xFFFF 0), false)]))
  = (true, [mk_route "EngineRPM" 0x0101 0x8001; mk_route "a#b" 0xFFFF 0]).
Proof.
  apply (config_roundtrip (T:=armv7)
    [(Comment "" " routes: name service method", false); (Route (mk_route "EngineRPM" 0x0101 0x8001), true);
     (Blank "  ", true); (Comment "   " "EngineTemp 0x0101 0x8002", false); (Blank "", false);
     (Route (mk_route "a#b" 0xFFFF 0), false)]).
  vm_compute. reflexivity.
Defined.

(** C25: whatever the file contains, every route that results has a 16-bit
    service and method, earlier routes are kept, and the load reports
    failure exactly when the file cannot be opened or there is no route at
    all. *)
Theorem config_load_invariant {T : Target} routes file :
  Forall route_wf routes ->
  let r := load routes file in
  Forall route_wf r.2 /\ (exists more, r.2 = (routes ++ more)%list)
  /\ (r.1 = false <-> file = None \/ r.2 = []).
Proof.
  intros Hr r. unfold r, load. destruct file as [text|].
  - cbn [fst snd]. split; [by apply load_lines_wf|]. split.
    + generalize (getlines text). intros ls. revert routes Hr r. induction ls as [|l ls IH];
        intros routes Hr r; [exists []; by rewrite app_nil_r|]. cbn.
      unfold load_line at 2. destruct (parse_route l) as [x|] eqn:E; [|by apply IH].
      destruct (IH (routes ++ [x])%list) as [more Hm].
      { apply List.Forall_app. split; [done|].
        apply Forall_cons_2; [by eapply parse_route_wf|apply Forall_nil_2]. }
      exists (x :: more). by rewrite Hm, <- app_assoc.
    + destruct (fold_left load_line (getlines text) routes); naive_solver.
  - cbn. split; [done|]. split; [exists []; by rewrite app_nil_r|]. naive_solver.
Qed.

Lemma config_load_invariant_witness :
  let r := load (T:=x86_64) [] (Some "Speed 0x12345 -1 extra") in
  Forall route_wf r.2 /\ r = (true, [mk_route "Speed" 0x2345 0xFFFF]).
Proof.
  intros r. destruct (config_load_invariant (T:=x86_64) [] (Some "Speed 0x12345 -1 extra"))
    as (H1 & _ & _); [apply Forall_nil_2|].
  split; [exact H1|vm_compute; reflexivity].
Defined.

End properties.
