(* ===== verification/Benchmark.v ===== *)
(** * Latency statistics ([src/src/bench/benchmark.hpp])

    The clock, the timer, the histogram with its percentiles (computed in
    [double] and truncated to [size_t], as the code does) and the collector
    with one histogram per event name.  [std::sort] is stdpp's
    [merge_sort]. *)

From Stdlib Require Import SpecFloat.
From stdpp Require Import sorting.
From S2P Require Import Prelude Floats.

(** [now_ns] from the two fields of the [timespec]. *)
Definition now_ns (tv_sec tv_nsec : Z) : Z := u64 (u64 tv_sec * 1000000000 + u64 tv_nsec).

(** [struct Timer], given the readings of the clock. *)
Module Timer.
Definition start (now : Z) : Z := now.
Definition elapsed_ns (start_ns now : Z) : Z := u64 (now - start_ns).
Definition elapsed_us (start_ns now : Z) : Z := u64 (now - start_ns) / 1000.
End Timer.

(** [static_cast<size_t>] of a [double]. *)
Definition size_of_double `{Target} (d : double) : checked Z := unsigned_of_double size_bits d.

(** ** The histogram *)
Module LatencyHistogram.

Record t := mk { samples : list Z; max_samples : Z; total_count : Z }.

Definition construct (max_samples : Z) : t := mk [] max_samples 0.
(** The default argument of the constructor. *)
Definition DEFAULT_SAMPLES : Z := 10000.

Definition min (h : t) : Z :=
  match samples h with [] => 0 | x :: l => fold_left Z.min l x end.
Definition max (h : t) : Z :=
  match samples h with [] => 0 | x :: l => fold_left Z.max l x end.

Definition mean (h : t) : double :=
  match samples h with
  | [] => S754_zero false
  | l => d_div (d_of_int (fold_left (fun sum s => u64 (sum + s)) l 0)) (d_of_int (zlen l))
  end.

Section code.
Context {T : Target}.

Definition record (h : t) (latency_us : Z) : t :=
  mk (if zlen (samples h) <? max_samples h then samples h ++ [latency_us] else samples h)
    (max_samples h) (sz (total_count h + 1)).

Definition percentile (h : t) (p : double) : checked Z :=
  match samples h with
  | [] => Ok 0
  | l =>
      let sorted := merge_sort Z.le l in
      idx ← size_of_double (d_mul (d_div p (d_of_int 100)) (d_of_int (zlen sorted)));
      let idx := if zlen sorted <=? idx then sz (zlen sorted - 1) else idx in
      rd sorted idx
  end.

Definition p50 (h : t) : checked Z := percentile h (d_of_int 50).
Definition p95 (h : t) : checked Z := percentile h (d_of_int 95).
Definition p99 (h : t) : checked Z := percentile h (d_of_int 99).

End code.

Definition count (h : t) : Z := total_count h.
Definition sample_count (h : t) : Z := zlen (samples h).
Definition reset (h : t) : t := mk [] (max_samples h) 0.

End LatencyHistogram.

(** ** The collector *)
Module BenchmarkCollector.
Import LatencyHistogram.

Record collector := mk_collector { histograms : gmap string t; total_messages : Z }.

Definition empty : collector := mk_collector ∅ 0.

Section code.
Context {T : Target}.

(** [histograms_[event]] creates a default histogram where there is none. *)
Definition record_event (c : collector) (event : string) (latency_us : Z) : collector :=
  let h := match histograms c !! event with
           | Some h => h
           | None => construct DEFAULT_SAMPLES
           end in
  mk_collector (<[event := record h latency_us]> (histograms c)) (sz (total_messages c + 1)).

Definition record_all (c : collector) (l : list (string * Z)) : collector :=
  fold_left (fun c e => record_event c e.1 e.2) l c.

End code.

Definition get (c : collector) (event : string) : option t := histograms c !! event.
Definition event_names (c : collector) : list string := map fst (map_to_list (histograms c)).
Definition reset_all (c : collector) : collector :=
  mk_collector (reset <$> histograms c) 0.

End BenchmarkCollector.

(** ** Lemmas *)
Module BenchFacts.
Import LatencyHistogram BenchmarkCollector.

(** The index the floating-point expression gives is the exact one, for
    every number of samples a histogram can hold. *)
Definition index_expr (q : double) (n : Z) : double := d_mul q (d_of_int n).

Definition index_exact (q : double) (p n : Z) : bool :=
  match d_trunc (index_expr q n) with
  | Some i => (i * 100 <=? n * p) && (n * p <? i * 100 + 100)
  | None => false
  end.

(** [P] holds of the [k] numbers from [n] on. *)
Fixpoint holds_from (P : Z -> bool) (k : nat) (n : Z) : bool :=
  match k with O => true | S k => P n && holds_from P k (n + 1) end.

Lemma holds_from_ok P k n i : holds_from P k n = true -> n <= i < n + Z.of_nat k -> P i = true.
Proof.
  revert n. induction k as [|k IH]; intros n H Hi; [lia|]. cbn in H.
  apply andb_true_iff in H as [H1 H2]. destruct (decide (i = n)) as [->|]; [done|].
  apply (IH (n + 1)); [done|lia].
Qed.

Definition indices_exact (p : Z) : bool :=
  let q := d_div (d_of_int p) (d_of_int 100) in holds_from (index_exact q p) (Z.to_nat 10000) 1.

Lemma index_exact_all : forallb indices_exact [50; 95; 99] = true.
Proof. vm_compute. reflexivity. Qed.

Lemma index_exact_ok p n :
  p ∈ [50; 95; 99] -> 1 <= n <= 10000 ->
  d_trunc (index_expr (d_div (d_of_int p) (d_of_int 100)) n) = Some (n * p / 100).
Proof.
  intros Hp Hn. pose proof index_exact_all as H. rewrite forallb_forall in H.
  assert (In p [50; 95; 99]) as Hin by (by apply list_elem_of_In).
  specialize (H p Hin). unfold indices_exact in H.
  apply (holds_from_ok _ _ _ n) in H; [|lia]. unfold index_exact in H.
  destruct (d_trunc _) as [i|]; [|done]. f_equal.
  apply (Z.div_unique _ _ i (n * p - i * 100)); lia.
Qed.

Definition rank (p n : Z) : Z := Z.min (n - 1) (n * p / 100).

Section facts.
Context {T : Target}.

Lemma sorted_length l : zlen (merge_sort Z.le l) = zlen l.
Proof. unfold zlen. by rewrite merge_sort_Permutation. Qed.

Lemma percentile_ok h p :
  p ∈ [50; 95; 99] -> 1 <= zlen (samples h) <= 10000 ->
  percentile h (d_of_int p) = rd (merge_sort Z.le (samples h)) (rank p (zlen (samples h))).
Proof.
  intros Hp Hn. unfold percentile. destruct (samples h) as [|x l] eqn:E; [unfold zlen in Hn; cbn in Hn; lia|].
  rewrite <- E in *. rewrite sorted_length.
  fold (index_expr (d_div (d_of_int p) (d_of_int 100)) (zlen (samples h))). unfold size_of_double, unsigned_of_double. rewrite index_exact_ok by done.
  assert (0 <= p <= 99) as Hp' by (repeat (apply elem_of_cons in Hp as [->|Hp]; [lia|]); by apply not_elem_of_nil in Hp).
  assert (0 <= zlen (samples h) * p / 100 <= 10000) as Hi.
  { split; [apply Z.div_pos; lia|]. apply Z.div_le_upper_bound; nia. }
  assert (10000 < 2 ^ size_bits) as Hb by (destruct size_bits_ok as [-> | ->]; lia).
  rewrite (proj2 (Z.leb_le 0 _)), (proj2 (Z.ltb_lt _ (2 ^ size_bits))) by lia.
  cbn [andb mbind checked_bind]. unfold rank.
  destruct (Z.leb_spec (zlen (samples h)) (zlen (samples h) * p / 100)).
  - by rewrite sz_small, Z.min_l by lia.
  - by rewrite Z.min_r by lia.
Qed.

Lemma sorted_mono l i j a b :
  merge_sort Z.le l !! i = Some a -> merge_sort Z.le l !! j = Some b -> (i <= j)%nat -> a <= b.
Proof.
  assert (StronglySorted Z.le (merge_sort Z.le l)) as Hs by apply (StronglySorted_merge_sort Z.le).
  revert i j. induction Hs as [|x k Hk IH Hx]; intros i j Hi Hj Hij; [done|].
  destruct i as [|i], j as [|j]; cbn in Hi, Hj; simplify_eq; try lia.
  - rewrite Forall_lookup in Hx. by eapply Hx.
  - eapply IH; [done..|lia].
Qed.

Lemma filter_all {A} (P : A -> Prop) `{forall x, Decision (P x)} l :
  Forall P l -> filter P l = l.
Proof. induction 1; [done|]. rewrite filter_cons_True by done. by f_equal. Qed.

(** An order statistic of the samples. *)
Lemma rank_counts l k v :
  merge_sort Z.le l !! k = Some v ->
  v ∈ l
  /\ Z.of_nat k + 1 <= zlen (filter (fun x => x <= v) l)
  /\ zlen l - Z.of_nat k <= zlen (filter (fun x => v <= x) l).
Proof.
  intros Hk. pose proof (merge_sort_Permutation Z.le l) as Hperm.
  assert (length (merge_sort Z.le l) = length l) as Hlen by (by rewrite Hperm).
  split; [rewrite <- Hperm; by apply list_elem_of_lookup_2 in Hk|].
  assert (k < length l)%nat as Hlt.
  { apply lookup_lt_Some in Hk. by rewrite Hperm in Hk. }
  assert (forall P : Z -> Prop, forall `{!forall x, Decision (P x)},
    zlen (filter P l) = zlen (filter P (take (S k) (merge_sort Z.le l)))
                        + zlen (filter P (drop (S k) (merge_sort Z.le l)))) as Hsplit.
  { intros P HP. rewrite <- zlen_app, <- list.filter_app, take_drop. unfold zlen. by rewrite Hperm. }
  assert (forall P : Z -> Prop, forall `{!forall x, Decision (P x)},
    zlen (filter P l) = zlen (filter P (take k (merge_sort Z.le l)))
                        + zlen (filter P (drop k (merge_sort Z.le l)))) as Hsplit'.
  { intros P HP. rewrite <- zlen_app, <- list.filter_app, take_drop. unfold zlen. by rewrite Hperm. }
  split.
  - rewrite Hsplit, filter_all.
    + unfold zlen. rewrite length_take, Hlen. lia.
    + apply Forall_lookup_2. intros i x Hi. apply lookup_take_Some in Hi as [Hi Hik].
      eapply sorted_mono; [exact Hi|exact Hk|lia].
  - rewrite Hsplit', (filter_all _ (drop k _)).
    + unfold zlen. rewrite length_drop, Hlen. lia.
    + apply Forall_lookup_2. intros i x Hi. rewrite lookup_drop in Hi.
      eapply sorted_mono; [exact Hk|exact Hi|lia].
Qed.

Lemma fold_min_spec l x :
  (fold_left Z.min l x ∈ x :: l) /\ Forall (fun y => fold_left Z.min l x <= y) (x :: l).
Proof.
  revert x. induction l as [|y l IH]; intros x; cbn [fold_left].
  - split; [by left|]. by repeat constructor.
  - destruct (IH (Z.min x y)) as [H1 H2]. inversion_clear H2 as [|? ? H3 H4]. split.
    + apply elem_of_cons in H1 as [H1|H1].
      * rewrite H1. destruct (Z.min_spec x y) as [[_ ->]|[_ ->]]; set_solver.
      * set_solver.
    + repeat (apply Forall_cons_2; [lia|]). done.
Qed.

Lemma fold_max_spec l x :
  (fold_left Z.max l x ∈ x :: l) /\ Forall (fun y => y <= fold_left Z.max l x) (x :: l).
Proof.
  revert x. induction l as [|y l IH]; intros x; cbn [fold_left].
  - split; [by left|]. by repeat constructor.
  - destruct (IH (Z.max x y)) as [H1 H2]. inversion_clear H2 as [|? ? H3 H4]. split.
    + apply elem_of_cons in H1 as [H1|H1].
      * rewrite H1. destruct (Z.max_spec x y) as [[_ ->]|[_ ->]]; set_solver.
      * set_solver.
    + repeat (apply Forall_cons_2; [lia|]). done.
Qed.

(** The collector after a sequence of records. *)
Lemma record_all_ok l event :
  let c := record_all empty l in
  let mine := map snd (filter (fun e => e.1 = event) l) in
  total_messages c = sz (zlen l)
  /\ get c event = match mine with
                   | [] => None
                   | _ => Some (mk (take (Z.to_nat 10000) mine) 10000 (sz (zlen mine)))
                   end.
Proof.
  cbv zeta. induction l as [|[ev v] l IH] using rev_ind.
  { split; [|done]. unfold sz. by rewrite Z.mod_0_l by (pose proof size_bits_ge; lia). }
  destruct IH as [IHt IHg]. unfold record_all in *. rewrite fold_left_app. cbn [fold_left fst snd].
  set (c := fold_left _ l empty) in *. unfold record_event. cbn [total_messages].
  split.
  { rewrite IHt, sz_add, zlen_app. done. }
  unfold get in *. cbn [histograms].
  rewrite list.filter_app, map_app.
  destruct (decide (ev = event)) as [->|Hne].
  - rewrite lookup_insert_eq, IHg.
    rewrite (filter_cons_True _ (event, v)) by done. cbn [filter list_filter map snd].
    set (mine := map snd (filter _ l)).
    assert (forall h, samples h = take (Z.to_nat 10000) mine -> max_samples h = 10000 ->
      total_count h = sz (zlen mine) ->
      record h v = mk (take (Z.to_nat 10000) (mine ++ [v])) 10000 (sz (zlen (mine ++ [v])))) as Hrec.
    { intros h Hs Hm Ht. unfold record. rewrite Hs, Hm, Ht, sz_add, zlen_app. f_equal.
      destruct (Z.ltb_spec (zlen (take (Z.to_nat 10000) mine)) 10000) as [Hl|Hl];
        unfold zlen in Hl; rewrite length_take in Hl.
      - rewrite !take_ge by (rewrite ?length_app; cbn [length]; lia). done.
      - by rewrite take_app_le by lia. }
    destruct mine as [|x mine'] eqn:E.
    + reflexivity.
    + cbn [app]. by rewrite Hrec.
  - rewrite lookup_insert_ne, IHg by done.
    rewrite (filter_cons_False _ (ev, v)) by done. cbn [filter list_filter map]. by rewrite app_nil_r.
Qed.

(** What every histogram of the collector satisfies. *)
Definition hist_ok (h : t) : Prop :=
  1 <= zlen (samples h) <= 10000 /\ max_samples h = 10000
  /\ Forall is_u64 (samples h) /\ 0 <= total_count h.
Definition collector_ok (c : collector) : Prop :=
  0 <= total_messages c /\ map_Forall (fun _ => hist_ok) (histograms c).

Lemma sz_nonneg x : 0 <= sz x.
Proof. unfold sz. apply Z.mod_pos_bound. pose proof size_bits_ge. lia. Qed.

Lemma empty_ok : collector_ok empty.
Proof. split; [done|]. apply map_Forall_empty. Qed.

Lemma record_event_ok c ev v : collector_ok c -> is_u64 v -> collector_ok (record_event c ev v).
Proof.
  intros [Ht Hh] Hv. split; [apply sz_nonneg|]. apply map_Forall_insert_2; [|done].
  assert (forall h, zlen (samples h) <= 10000 -> max_samples h = 10000 -> Forall is_u64 (samples h) ->
            hist_ok (record h v)) as Hr.
  { intros h Hl Hm Hs. unfold hist_ok, record. cbn [samples max_samples total_count].
    destruct (Z.ltb_spec (zlen (samples h)) (max_samples h)); split_and!; try done;
      try apply sz_nonneg; rewrite ?zlen_app, ?zlen_cons, ?zlen_nil;
      pose proof (zlen_nonneg (samples h)); try lia.
    apply Forall_app. split; [done|]. by apply Forall_cons_2. }
  destruct (histograms c !! ev) as [h|] eqn:E; apply Hr; cbn; try done.
  - apply Hh in E as (? & _). lia.
  - by apply Hh in E as (_ & ? & _).
  - by apply Hh in E as (_ & _ & ? & _).
Qed.

Lemma record_all_collector_ok l : Forall is_u64 (map snd l) -> collector_ok (record_all empty l).
Proof.
  unfold record_all. intros Hl. assert (forall c, collector_ok c ->
    collector_ok (fold_left (fun c e => record_event c e.1 e.2) l c)) as H; [|apply H, empty_ok].
  induction l as [|e l IH]; intros c Hc; [done|]. inversion_clear Hl. cbn. apply IH; [done|].
  by apply record_event_ok.
Qed.

(** The percentiles a report asks for are there. *)
Lemma percentiles_total h :
  hist_ok h -> exists a b d, p50 h = Ok a /\ p95 h = Ok b /\ p99 h = Ok d
    /\ a ∈ samples h /\ b ∈ samples h /\ d ∈ samples h.
Proof.
  intros (Hn & _). assert (forall p, p ∈ [50; 95; 99] -> exists v, percentile h (d_of_int p) = Ok v /\ v ∈ samples h)
    as Hp.
  { intros p Hp. rewrite percentile_ok by done.
    assert (0 <= p) by (repeat (apply elem_of_cons in Hp as [->|Hp]; [lia|]); by apply not_elem_of_nil in Hp).
    assert (0 <= zlen (samples h) * p / 100) by (apply Z.div_pos; lia).
    assert (0 <= rank p (zlen (samples h)) < zlen (merge_sort Z.le (samples h))) as Hr
      by (rewrite sorted_length; unfold rank; lia).
    rewrite rd_ok by done. eexists. split; [done|].
    apply (elem_of_Permutation_proper _ _ _ (merge_sort_Permutation Z.le (samples h))).
    apply (list_elem_of_lookup_2 _ (Z.to_nat (rank p (zlen (samples h))))), list_lookup_lookup_total_lt.
    unfold zlen in Hr |- *. lia. }
  destruct (Hp 50) as (a & ? & ?), (Hp 95) as (b & ? & ?), (Hp 99) as (d & ? & ?); [set_solver..|].
  by exists a, b, d.
Qed.

End facts.
End BenchFacts.

(** ** Properties *)
Section properties.
Import LatencyHistogram BenchmarkCollector BenchFacts.

(** C26: for every histogram of 1 to 10000 samples, the default capacity, the
    three reported percentiles are exact order statistics: the index the
    code computes in floating point is, for each possible number n of
    samples, the integer part of n * p / 100, capped at the last sample;
    the sample sort and the lookup stay in bounds, and the value reported
    is a sample with at least index + 1 samples not above it and at least
    n - index not below it.  The reported values are ordered: min, p50,
    p95, p99, max. *)
Theorem bench_percentiles_exact {T : Target} h :
  1 <= zlen (samples h) <= 10000 ->
  (forall p, p ∈ [50; 95; 99] ->
     let n := zlen (samples h) in
     let k := Z.min (n - 1) (n * p / 100) in
     exists v, percentile h (d_of_int p) = Ok v
       /\ v ∈ samples h
       /\ k + 1 <= zlen (filter (fun x => x <= v) (samples h))
       /\ n - k <= zlen (filter (fun x => v <= x) (samples h)))
  /\ exists a b c, p50 h = Ok a /\ p95 h = Ok b /\ p99 h = Ok c
       /\ LatencyHistogram.min h <= a <= b /\ b <= c <= LatencyHistogram.max h.
Proof.
  intros Hn.
  assert (forall p, p ∈ [50; 95; 99] -> exists v,
    percentile h (d_of_int p) = Ok v
    /\ merge_sort Z.le (samples h) !! Z.to_nat (rank p (zlen (samples h))) = Some v
    /\ 0 <= rank p (zlen (samples h))) as Hp.
  { intros p Hp. rewrite percentile_ok by done.
    assert (0 <= p <= 99) by (repeat (apply elem_of_cons in Hp as [->|Hp]; [lia|]); by apply not_elem_of_nil in Hp).
    assert (0 <= rank p (zlen (samples h)) < zlen (merge_sort Z.le (samples h))) as Hr.
    { rewrite sorted_length. unfold rank. assert (0 <= zlen (samples h) * p / 100) by (apply Z.div_pos; lia). lia. }
    rewrite rd_ok by done. eexists. split; [done|]. split; [|lia].
    apply list_lookup_lookup_total_lt. unfold zlen in *. lia. }
  split.
  - intros p Hin. cbv zeta. destruct (Hp p Hin) as (v & Hv & Hl & Hr).
    exists v. split; [done|]. apply rank_counts in Hl as (H1 & H2 & H3).
    rewrite Z2Nat.id in H2, H3 by done. done.
  - destruct (Hp 50) as (a & Ha & Hla & Hra), (Hp 95) as (b & Hb & Hlb & Hrb),
      (Hp 99) as (c & Hc & Hlc & Hrc); [set_solver..|].
    exists a, b, c. split_and!; try done.
    + unfold LatencyHistogram.min. apply rank_counts in Hla as (Hin & _).
      destruct (samples h) as [|x l]; [by apply not_elem_of_nil in Hin|].
      destruct (fold_min_spec l x) as [_ Hall]. rewrite list.Forall_forall in Hall. by apply Hall.
    + eapply sorted_mono; [exact Hla|exact Hlb|]. unfold rank in *. apply Z2Nat.inj_le; try done.
      assert (zlen (samples h) * 50 / 100 <= zlen (samples h) * 95 / 100) by (apply Z.div_le_mono; lia). lia.
    + eapply sorted_mono; [exact Hlb|exact Hlc|]. unfold rank in *. apply Z2Nat.inj_le; try done.
      assert (zlen (samples h) * 95 / 100 <= zlen (samples h) * 99 / 100) by (apply Z.div_le_mono; lia). lia.
    + unfold LatencyHistogram.max. apply rank_counts in Hlc as (Hin & _).
      destruct (samples h) as [|x l]; [by apply not_elem_of_nil in Hin|].
      destruct (fold_max_spec l x) as [_ Hall]. rewrite list.Forall_forall in Hall. by apply Hall.
Qed.

Lemma bench_percentiles_exact_witness :
  let h := mk [30; 10; 50; 20; 40; 60; 90; 80; 70; 100] 10000 10 in
  (exists a b c, p50 (T:=x86_64) h = Ok a /\ p95 (T:=x86_64) h = Ok b /\ p99 (T:=x86_64) h = Ok c
     /\ LatencyHistogram.min h <= a <= b /\ b <= c <= LatencyHistogram.max h)
  /\ p50 (T:=x86_64) h = Ok 60.
Proof.
  intros h. split; [|vm_compute; reflexivity].
  apply (bench_percentiles_exact (T:=x86_64) h). unfold zlen; cbn; lia.
Defined.

(** C27: the collector keeps one histogram per event: after any sequence of
    records from an empty collector, the histogram of an event holds its
    latencies in order, the first 10000 of them (later ones are counted but
    no longer change any percentile), its count is the number of its
    records and the total is the number of all records, modulo 2^32 or
    2^64; an event never recorded has no histogram. *)
Theorem bench_collector_correct {T : Target} l event :
  let c := record_all empty l in
  let mine := map snd (filter (fun e => e.1 = event) l) in
  total_messages c = sz (zlen l)
  /\ get c event = match mine with
                   | [] => None
                   | _ => Some (mk (take (Z.to_nat 10000) mine) 10000 (sz (zlen mine)))
                   end.
Proof. apply record_all_ok. Qed.

End properties.
