(* ===== verification/Watchdog.v ===== *)
(** * Watchdog ([src/src/utils/watchdog.hpp])

    The object and its operations at given readings of the monotonic clock,
    and traces of timed operations. *)

From S2P Require Import Prelude.

Module Watchdog.

Record t := mk { timeout_us : Z; last_feed_ns : Z; fired : bool }.

Definition construct (timeout_us : Z) : t := mk timeout_us 0 false.

Definition feed (w : t) (now : Z) : t := mk (timeout_us w) now false.

(** [check]: the returned flag and the object after the call. *)
Definition check (w : t) (now : Z) : bool * t :=
  if last_feed_ns w =? 0 then (false, w)
  else
    let elapsed := u64 (now - last_feed_ns w) / 1000 in
    if (timeout_us w <? elapsed) && negb (fired w)
    then (true, mk (timeout_us w) (last_feed_ns w) true)
    else (false, w).

Definition reset (w : t) : t := mk (timeout_us w) 0 false.

End Watchdog.

(** ** Traces *)
Module WatchdogTrace.
Import Watchdog.

Variant op := Feed (now : Z) | Check (now : Z) | Reset.

(** The state after an operation, and whether it raised the alarm. *)
Definition step (w : t) (o : op) : t * bool :=
  match o with
  | Feed now => (feed w now, false)
  | Check now => let '(b, w') := check w now in (w', b)
  | Reset => (reset w, false)
  end.

Fixpoint run (w : t) (ops : list op) : t * list bool :=
  match ops with
  | [] => (w, [])
  | o :: ops => let '(w1, b) := step w o in let '(w2, bs) := run w1 ops in (w2, b :: bs)
  end.

(** The last feed since the last reset, and the checks after it. *)
Fixpoint since_feed (fed : option Z) (checks : list Z) (ops : list op) : option (Z * list Z) :=
  match ops with
  | [] => f ← fed; Some (f, checks)
  | Feed now :: ops => since_feed (Some now) [] ops
  | Reset :: ops => since_feed None [] ops
  | Check now :: ops => since_feed fed (checks ++ [now]) ops
  end.

Definition overdue (timeout f now : Z) : bool := timeout <? (now - f) / 1000.

(** Clock readings: positive, 64-bit and never before an earlier one. *)
Fixpoint timed (from : Z) (ops : list op) : Prop :=
  match ops with
  | [] => True
  | Feed now :: ops | Check now :: ops => from <= now /\ is_u64 now /\ timed now ops
  | Reset :: ops => timed from ops
  end.

End WatchdogTrace.

(** ** Lemmas *)
Module WatchdogFacts.
Import Watchdog WatchdogTrace.

(** The state of the object in terms of the trace. *)
Definition state_matches (timeout : Z) (w : t) (h : option (Z * list Z)) : Prop :=
  timeout_us w = timeout
  /\ match h with
     | None => last_feed_ns w = 0 /\ fired w = false
     | Some (f, checks) =>
         last_feed_ns w = f /\ 0 < f /\ fired w = existsb (overdue timeout f) checks
     end.

Lemma elapsed_exact f now : 0 < f -> f <= now -> is_u64 now -> u64 (now - f) = now - f.
Proof. intros. apply u64_small. unfold is_u64 in *. lia. Qed.

Lemma check_matches timeout w f checks now :
  state_matches timeout w (Some (f, checks)) -> f <= now -> is_u64 now ->
  check w now
  = (overdue timeout f now && negb (existsb (overdue timeout f) checks),
     mk timeout f (existsb (overdue timeout f) (checks ++ [now])))
  /\ state_matches timeout (mk timeout f (existsb (overdue timeout f) (checks ++ [now])))
       (Some (f, checks ++ [now])).
Proof.
  intros (Ht & Hf & Hpos & Hfired) Hle Hn. split; [|done].
  unfold check. rewrite Hf, (proj2 (Z.eqb_neq f 0)) by lia. rewrite elapsed_exact by done.
  rewrite Ht, existsb_app. cbn [existsb]. fold (overdue timeout f now). rewrite orb_false_r, Hfired.
  destruct (overdue timeout f now), (existsb (overdue timeout f) checks) eqn:E; cbn [andb negb orb];
    try done; destruct w as [tt ff rr]; cbn in *; subst; done.
Qed.

Lemma check_unfed timeout w now :
  state_matches timeout w None -> check w now = (false, w).
Proof. intros (_ & H0 & _). unfold check. by rewrite H0. Qed.

(** The history of a trace that goes on from a given one. *)
Definition history (h : option (Z * list Z)) (ops : list op) : option (Z * list Z) :=
  match h with
  | None => since_feed None [] ops
  | Some (f, cs) => since_feed (Some f) cs ops
  end.

Definition last_time (h : option (Z * list Z)) : Z := match h with Some (f, _) => f | None => 1 end.

(** A check before any feed leaves no trace in the history. *)
Lemma since_feed_none cs ops : since_feed None cs ops = since_feed None [] ops.
Proof.
  revert cs. induction ops as [|[now|now|] ops IH]; intros cs; cbn; try done.
  by rewrite (IH (cs ++ [now])), (IH [now]).
Qed.

Lemma run_matches timeout ops : forall w h from,
  state_matches timeout w h -> last_time h <= from -> 0 < from -> timed from ops ->
  state_matches timeout (run w ops).1 (history h ops).
Proof.
  induction ops as [|o ops IH]; intros w h from Hw Hl Hf Ht; [by destruct h as [[f cs]|]|].
  cbn [run]. destruct o as [now|now|]; cbn [step] in *.
  - destruct Ht as (H1 & H2 & Ht). specialize (IH (feed w now) (Some (now, [])) now).
    destruct (run (feed w now) ops) as [w2 bs]. destruct Hw as [Hw _].
    destruct h as [[f cs]|]; apply IH; try done; cbn; try lia; split_and!; try done; cbn; lia.
  - destruct Ht as (H1 & H2 & Ht). destruct h as [[f cs]|].
    + cbn in Hl. destruct (check_matches timeout w f cs now Hw ltac:(lia) H2) as [-> Hm].
      specialize (IH _ _ now Hm).
      destruct (run _ ops) as [w2 bs]. apply IH; try done; cbn; lia.
    + rewrite (check_unfed timeout) by done. specialize (IH w None now Hw).
      destruct (run w ops) as [w2 bs]. cbn [history since_feed]. rewrite since_feed_none.
      apply IH; try done; cbn; lia.
  - specialize (IH (reset w) None from). destruct (run (reset w) ops) as [w2 bs].
    destruct Hw as [Hw _]. destruct h as [[f cs]|]; apply IH; try done; cbn; lia.
Qed.

End WatchdogFacts.

(** ** Properties *)
Section properties.
Import Watchdog WatchdogTrace WatchdogFacts.

(** C29: over every timed sequence of feeds, checks and resets from a new
    watchdog, a further check raises the alarm exactly when a feed has
    happened since the last reset, more than the timeout has elapsed since
    the last one, and no check since that feed has raised it already: one
    alarm per silence, and the next feed arms it again. *)
Theorem watchdog_alarm_exact timeout ops now :
  timed 1 (ops ++ [Check now]) ->
  let w := (run (construct timeout) ops).1 in
  (check w now).1 = true
  <-> exists f checks, since_feed None [] ops = Some (f, checks)
        /\ overdue timeout f now = true
        /\ Forall (fun c => overdue timeout f c = false) checks.
Proof.
  intros Ht w.
  assert (timed 1 ops /\ is_u64 now /\ forall f cs, since_feed None [] ops = Some (f, cs) -> f <= now)
    as (Ht1 & Hn & Hle).
  { assert (forall ops from fed cs, timed from (ops ++ [Check now]) ->
      (forall f, fed = Some f -> f <= from) ->
      timed from ops /\ is_u64 now /\ forall f cs', since_feed fed cs ops = Some (f, cs') -> f <= now)
      as H.
    { clear. induction ops as [|[n|n|] ops IH]; intros from fed cs; cbn.
      - intros (H1 & H2 & _) Hfed. split_and!; try done. destruct fed; [|done].
        intros f cs' [= <- <-]. specialize (Hfed _ eq_refl). lia.
      - intros (H1 & H2 & H3) Hfed.
        destruct (IH n (Some n) [] H3) as (? & ? & ?); [intros f [= <-]; lia|]. done.
      - intros (H1 & H2 & H3) Hfed.
        destruct (IH n fed (cs ++ [n]) H3) as (? & ? & ?);
          [intros f E; specialize (Hfed f E); lia|]. done.
      - intros H3 Hfed. destruct (IH from None [] H3) as (? & ? & ?); [done|]. done. }
    destruct (H ops 1 None [] Ht) as (? & ? & H3); [done|]. split_and!; try done. }
  pose proof (run_matches timeout ops (construct timeout) None 1) as Hm.
  specialize (Hm ltac:(done) ltac:(cbn; lia) ltac:(lia) Ht1). cbn [history] in Hm. fold w in Hm.
  destruct (since_feed None [] ops) as [[f cs]|].
  - destruct (check_matches timeout w f cs now Hm (Hle f cs eq_refl) Hn) as [-> _]. cbn [fst].
    rewrite andb_true_iff, negb_true_iff. split.
    + intros [H1 H2]. exists f, cs. split_and!; try done.
      apply List.Forall_forall. intros c Hc. destruct (overdue timeout f c) eqn:E; [|done].
      assert (existsb (overdue timeout f) cs = true) by (apply existsb_exists; by exists c). congruence.
    + intros (f' & cs' & [= <- <-] & H1 & H2). split; [done|].
      apply not_true_iff_false. intros (c & Hc & Ho)%existsb_exists.
      rewrite List.Forall_forall in H2. rewrite H2 in Ho by done. discriminate.
  - rewrite (check_unfed timeout) by done. split; [done|]. by intros (? & ? & ? & _).
Qed.

Lemma watchdog_alarm_exact_witness :
  let w := (run (construct 2000000) [Feed 1000; Check 5000; Check 2000001999]).1 in
  (check w 3000000000).1 = true.
Proof.
  intros w.
  apply (watchdog_alarm_exact 2000000 [Feed 1000; Check 5000; Check 2000001999] 3000000000).
  - cbn. unfold is_u64. lia.
  - exists 1000, [5000; 2000001999]. split; [reflexivity|]. split; [reflexivity|].
    repeat (apply Forall_cons_2; [reflexivity|]). apply Forall_nil_2.
Defined.

End properties.
