(* ===== verification/EventLoop.v ===== *)
(** * Event loop ([src/src/event/event_loop.hpp]) and CAN socket
    ([src/src/can/can_socket.hpp], [.cpp])

    The loop is parametric in the callbacks it stores: [C] names them, and
    [invoke] is what calling one does to the rest of the program, given what
    the system calls it makes will find; [on_signal] is the signal handler.
    A signal comes while [epoll_wait] waits, between two callbacks, or
    between the test of [running_] and the call of [epoll_wait].  Each turn
    of [run] consumes one result of [epoll_wait]; a run over a finite list of
    results says how far the loop gets with them.  [Module LoopSpec] is the
    loop as a transition system. *)

From S2P Require Import Prelude Floats Types.

Module EventLoop.

Definition EPOLLIN : Z := 0x001.
Definition EINTR : Z := 4.

Record t (C : Type) := mk { epoll_fd : Z; running : bool; readers : gmap Z C }.
Arguments mk {C}.
Arguments epoll_fd {C}.
Arguments running {C}.
Arguments readers {C}.

(** What happens during the [for] loop: one entry of the [events] array, with
    the input its callback will find on the descriptor, or a signal before
    the next one is looked at. *)
Variant arrival (I : Type) :=
| Event (fd mask : Z) (input : I)
| Signal (input : I).
Arguments Event {I}.
Arguments Signal {I}.

Definition arrival_input {I} (a : arrival I) : I :=
  match a with Event _ _ i | Signal i => i end.

(** How one [epoll_wait] ends: with an error, with ready descriptors, or
    interrupted by a signal whose handler ran; or a signal comes just before
    it is called. *)
Variant wait_result (I : Type) :=
| WaitError (errno : Z)
| Ready (events : list (arrival I))
| Interrupted (input : I)
| Late (input : I).
Arguments WaitError {I}.
Arguments Ready {I}.
Arguments Interrupted {I}.
Arguments Late {I}.

Definition construct {C} (create_res : Z) : t C + string :=
  if create_res <? 0 then inr "epoll_create1: "%string else inl (mk create_res false ∅).

Definition destroy {C} (l : t C) : list net_action :=
  if 0 <=? epoll_fd l then [CloseSocket (epoll_fd l)] else [].

(** [add_reader]: the callback is stored before [epoll_ctl] can fail. *)
Definition add_reader {C} (l : t C) (fd : Z) (cb : C) (ctl_res : Z) : t C * option string :=
  let l := mk (epoll_fd l) (running l) (<[fd := cb]> (readers l)) in
  (l, if ctl_res <? 0 then Some "epoll_ctl ADD: "%string else None).

Definition remove {C} (l : t C) (fd : Z) : t C :=
  mk (epoll_fd l) (running l) (delete fd (readers l)).

Definition stop {C} (l : t C) : t C := mk (epoll_fd l) false (readers l).
Definition start {C} (l : t C) : t C := mk (epoll_fd l) true (readers l).

(** What a callback or a batch did: the loop and the rest of the program
    afterwards, the calls made, and the exception that left it, if any. *)
Record step (C W A : Type) := mk_step {
  s_loop : t C;
  s_world : W;
  s_acts : list A;
  s_thrown : option string
}.
Arguments mk_step {C W A}.
Arguments s_loop {C W A}.
Arguments s_world {C W A}.
Arguments s_acts {C W A}.
Arguments s_thrown {C W A}.

Definition idle {C W A} (l : t C) (w : W) : step C W A := mk_step l w [] None.

(** [r] followed by what is done after it, unless it threw. *)
Definition and_then {C W A} (r : step C W A) (k : t C -> W -> checked (step C W A))
  : checked (step C W A) :=
  match s_thrown r with
  | Some _ => Ok r
  | None =>
      rs ← k (s_loop r) (s_world r);
      Ok (mk_step (s_loop rs) (s_world rs) (s_acts r ++ s_acts rs) (s_thrown rs))
  end.

(** The same for a run of the loop, with whether the loop was left; [k] is
    what is done unless it threw. *)
Definition then_run {C W A} (r : step C W A) (k : t C -> W -> checked (step C W A * bool))
  : checked (step C W A * bool) :=
  match s_thrown r with
  | Some _ => Ok (r, true)
  | None =>
      rs ← k (s_loop r) (s_world r);
      Ok (mk_step (s_loop rs.1) (s_world rs.1) (s_acts r ++ s_acts rs.1) (s_thrown rs.1), rs.2)
  end.

Section run.
Context {C W I A : Type}.
Context (invoke : C -> I -> t C -> W -> checked (step C W A)).
Context (on_signal : I -> t C -> W -> checked (step C W A)).

(** The body of the [for] loop of [run]. *)
Definition handle_event (l : t C) (w : W) (fd mask : Z) (i : I) : checked (step C W A) :=
  if negb (Z.land mask EPOLLIN =? 0) then
    match readers l !! fd with
    | Some cb => invoke cb i l w
    | None => Ok (idle l w)
    end
  else Ok (idle l w).

(** The [for] loop over the events of one [epoll_wait]. *)
Fixpoint dispatch (l : t C) (w : W) (events : list (arrival I)) : checked (step C W A) :=
  match events with
  | [] => Ok (idle l w)
  | ev :: events =>
      r ← match ev with
          | Event fd mask i => handle_event l w fd mask i
          | Signal i => on_signal i l w
          end;
      and_then r (fun l w => dispatch l w events)
  end.

(** The [while] loop, from the test of [running_] or, when that was already
    [tested], from the call of [epoll_wait].  The flag of the result says
    whether the loop was left; it is still waiting when the results are used
    up. *)
Fixpoint turns (tested : bool) (l : t C) (w : W) (waits : list (wait_result I))
  : checked (step C W A * bool) :=
  if negb (tested || running l) then Ok (idle l w, true)
  else
    match waits with
    | [] => Ok (idle l w, false)
    | WaitError errno :: waits =>
        if errno =? EINTR then turns false l w waits
        else Ok (mk_step l w [] (Some "epoll_wait: "%string), true)
    | Interrupted i :: waits =>
        r ← on_signal i l w;
        then_run r (fun l w => turns false l w waits)
    | Ready events :: waits =>
        r ← dispatch l w events;
        then_run r (fun l w => turns false l w waits)
    | Late i :: waits =>
        r ← on_signal i l w;
        then_run r (fun l w => turns true l w waits)
    end.

Definition run (l : t C) (w : W) (waits : list (wait_result I)) : checked (step C W A * bool) :=
  turns false (start l) w waits.

End run.
End EventLoop.

(** ** The loop as a transition system *)
Module LoopSpec.
Import EventLoop.

Section spec.
Context {C W I A : Type}.
Context (invoke : C -> I -> t C -> W -> checked (step C W A)).
Context (on_signal : I -> t C -> W -> checked (step C W A)).

(** Where the loop is: at the test of [running_], in [epoll_wait], in the
    [for] loop with these events to come, or left, by an exception or not. *)
Variant config :=
| Testing (l : t C) (w : W) (waits : list (wait_result I))
| Waiting (l : t C) (w : W) (waits : list (wait_result I))
| Serving (l : t C) (w : W) (events : list (arrival I)) (waits : list (wait_result I))
| Left (l : t C) (w : W) (thrown : option string).

(** After a callback or the signal handler: an exception leaves the loop. *)
Definition after (r : step C W A) (next : t C -> W -> config) : config :=
  match s_thrown r with
  | None => next (s_loop r) (s_world r)
  | Some msg => Left (s_loop r) (s_world r) (Some msg)
  end.

(** The transitions, with the calls made. *)
Inductive lstep : config -> list A -> config -> Prop :=
| lstep_stopped l w waits :
    running l = false -> lstep (Testing l w waits) [] (Left l w None)
| lstep_wait l w waits :
    running l = true -> lstep (Testing l w waits) [] (Waiting l w waits)
| lstep_eintr l w waits :
    lstep (Waiting l w (WaitError 4 :: waits)) [] (Testing l w waits)
| lstep_failed l w errno waits :
    errno <> 4 -> lstep (Waiting l w (WaitError errno :: waits)) [] (Left l w (Some "epoll_wait: "%string))
| lstep_interrupted l w i waits r :
    on_signal i l w = Ok r ->
    lstep (Waiting l w (Interrupted i :: waits)) (s_acts r) (after r (fun l w => Testing l w waits))
| lstep_late l w i waits r :
    on_signal i l w = Ok r ->
    lstep (Waiting l w (Late i :: waits)) (s_acts r) (after r (fun l w => Waiting l w waits))
| lstep_ready l w events waits :
    lstep (Waiting l w (Ready events :: waits)) [] (Serving l w events waits)
| lstep_call l w fd mask i cb events waits r :
    Z.testbit mask 0 = true -> readers l !! fd = Some cb -> invoke cb i l w = Ok r ->
    lstep (Serving l w (Event fd mask i :: events) waits) (s_acts r)
      (after r (fun l w => Serving l w events waits))
| lstep_skip l w fd mask i events waits :
    Z.testbit mask 0 = false \/ readers l !! fd = None ->
    lstep (Serving l w (Event fd mask i :: events) waits) [] (Serving l w events waits)
| lstep_signal l w i events waits r :
    on_signal i l w = Ok r ->
    lstep (Serving l w (Signal i :: events) waits) (s_acts r) (after r (fun l w => Serving l w events waits))
| lstep_served l w waits :
    lstep (Serving l w [] waits) [] (Testing l w waits).

Inductive lsteps : config -> list A -> config -> Prop :=
| lsteps_refl c : lsteps c [] c
| lsteps_step c1 a1 c2 a2 c3 : lstep c1 a1 c2 -> lsteps c2 a2 c3 -> lsteps c1 (a1 ++ a2) c3.

(** Where a result of [run] says the loop is. *)
Definition reached (r : step C W A * bool) : config :=
  if r.2 then Left (s_loop r.1) (s_world r.1) (s_thrown r.1) else Waiting (s_loop r.1) (s_world r.1) [].

End spec.
End LoopSpec.

(** ** The CAN socket *)
Module CanSocket.

Definition CAN_FRAME_SIZE : Z := 16.

Record t := mk { fd : Z; interface : string; has_callback : bool }.

(** The constructor, from the results of [socket], [ioctl] and [bind]. *)
Definition construct (interface_ : string) (sock_res ioctl_res bind_res : Z) : t + string :=
  if sock_res <? 0 then inr "socket(AF_CAN) failed: "%string
  else if ioctl_res <? 0 then inr "ioctl SIOCGIFINDEX failed for "%string
  else if bind_res <? 0 then inr "bind(AF_CAN) failed: "%string
  else inl (mk sock_res interface_ false).

Definition destroy (c : t) : list net_action :=
  if 0 <=? fd c then [CloseSocket (fd c)] else [].

(** [register_with_loop] stores the callback and watches the descriptor. *)
Definition register_with_loop (c : t) : t * list net_action :=
  (mk (fd c) (interface c) true, [WatchSocket (fd c)]).

(** What [read] finds: an error, or a frame's bytes. *)
Variant input := ReadError (errno : Z) | ReadBytes (available : list Z).

Section code.
Context {T : Target}.

(** The layout of [struct can_frame]: identifier, length, three bytes of
    padding, data. *)
Definition frame_of_bytes (raw : list Z) : can_frame :=
  mk_frame (load (take 4 raw)) (raw !!! 4%nat) (take 8 (drop 8 raw)).
Definition bytes_of_frame (f : can_frame) : list Z :=
  mem32 (can_id f) ++ [can_dlc f; 0; 0; 0] ++ frame_data f.

(** [on_readable]: the frame handed to the callback, if any. *)
Definition on_readable (c : t) (inp : input) : option can_frame :=
  match inp with
  | ReadError _ => None
  | ReadBytes available =>
      let raw := take (Z.to_nat CAN_FRAME_SIZE) available in
      if zlen raw <? CAN_FRAME_SIZE then None
      else if has_callback c then Some (frame_of_bytes raw) else None
  end.

(** [send]: the bytes written. *)
Definition send (frame : can_frame) : list Z := bytes_of_frame frame.

(** [add_filter]: the filter installed in the kernel, and whether it lets an
    identifier through, as the kernel documents it. *)
Definition add_filter (can_id mask : Z) : Z * Z := (can_id, mask).
Definition filter_passes (flt : Z * Z) (id : Z) : bool :=
  Z.land id flt.2 =? Z.land flt.1 flt.2.

End code.
End CanSocket.

(** ** Lemmas *)
Module EventLoopFacts.
Import EventLoop.

Section facts.
Context {C W I A : Type}.
Context (invoke : C -> I -> t C -> W -> checked (step C W A)).
Context (on_signal : I -> t C -> W -> checked (step C W A)).

(** Callbacks that keep an invariant of the program and of the table, and
    whose calls are all of a kind, do so over a whole run, and none of them
    fails. *)
Context (Inv : t C -> W -> Prop) (Ok_input : I -> Prop) (Ok_act : A -> Prop).

Definition good (c : checked (step C W A)) : Prop :=
  exists r, c = Ok r /\ Inv (s_loop r) (s_world r) /\ Forall Ok_act (s_acts r).
Definition good_run (c : checked (step C W A * bool)) : Prop :=
  exists r, c = Ok r /\ Inv (s_loop r.1) (s_world r.1) /\ Forall Ok_act (s_acts r.1).

Context (Hsignal : forall i l w, Inv l w -> Ok_input i -> good (on_signal i l w)).
Context (Hinvoke : forall cb i l w fd,
  Inv l w -> Ok_input i -> readers l !! fd = Some cb -> good (invoke cb i l w)).

Lemma idle_good l w : Inv l w -> good (Ok (idle l w)).
Proof. intros Hi. eexists. split; [done|]. split; [done|]. apply Forall_nil_2. Qed.

Lemma and_then_good c k :
  good c -> (forall l w, Inv l w -> good (k l w)) -> good (r ← c; and_then r k).
Proof.
  intros (r & -> & Hr & Ha) Hk. cbn [mbind checked_bind]. unfold and_then.
  destruct (s_thrown r); [by exists r|].
  destruct (Hk _ _ Hr) as (r' & -> & Hr' & Ha'). cbn [mbind checked_bind].
  eexists. split; [done|]. split; [done|]. by apply Forall_app.
Qed.

Lemma then_run_good c k :
  good c -> (forall l w, Inv l w -> good_run (k l w)) -> good_run (r ← c; then_run r k).
Proof.
  intros (r & -> & Hr & Ha) Hk. cbn [mbind checked_bind]. unfold then_run.
  destruct (s_thrown r); [by exists (r, true)|].
  destruct (Hk _ _ Hr) as (r' & -> & Hr' & Ha'). cbn [mbind checked_bind].
  eexists. split; [done|]. split; [done|]. by apply Forall_app.
Qed.

Lemma dispatch_good l w events :
  Inv l w -> Forall (fun ev => Ok_input (arrival_input ev)) events ->
  good (dispatch invoke on_signal l w events).
Proof using Hinvoke Hsignal.
  intros Hi Hev. revert l w Hi.
  induction Hev as [|ev events He Hev IH]; intros l w Hi; [by apply idle_good|].
  cbn [dispatch]. apply and_then_good; [|auto]. destruct ev as [fd mask i|i]; [|by apply Hsignal].
  unfold handle_event. destruct (negb _); [|by apply idle_good].
  destruct (readers l !! fd) as [cb|] eqn:E; [|by apply idle_good]. by eapply Hinvoke.
Qed.

Definition waits_ok (waits : list (wait_result I)) : Prop :=
  Forall (fun r => match r with
                   | Ready events => Forall (fun ev => Ok_input (arrival_input ev)) events
                   | Interrupted i | Late i => Ok_input i
                   | WaitError _ => True
                   end) waits.

Lemma turns_good waits : forall tested l w,
  Inv l w -> waits_ok waits -> good_run (turns invoke on_signal tested l w waits).
Proof using Hinvoke Hsignal.
  assert (forall l w b, Inv l w -> good_run (Ok (idle l w, b))) as Hidle.
  { intros l w b Hi. eexists. split; [done|]. split; [done|]. apply Forall_nil_2. }
  induction waits as [|r waits IH]; intros tested l w Hi Hw; cbn [turns].
  - destruct (negb _); by apply Hidle.
  - inversion_clear Hw as [|? ? Hr Hw']. destruct (negb _); [by apply Hidle|].
    destruct r as [errno|events|i|i].
    + destruct (errno =? EINTR); [by apply IH|].
      eexists. split; [done|]. split; [done|]. apply Forall_nil_2.
    + apply then_run_good; [by apply dispatch_good|auto].
    + apply then_run_good; [by apply Hsignal|auto].
    + apply then_run_good; [by apply Hsignal|auto].
Qed.

End facts.

Lemma and_then_assoc {C W A} (r : step C W A) k1 k2 :
  (x ← and_then r k1; and_then x k2)
  = and_then r (fun l w => x ← k1 l w; and_then x k2).
Proof.
  destruct r as [l w acts thrown]. unfold and_then. cbn [s_thrown s_loop s_world s_acts].
  destruct thrown as [e|]; [done|].
  destruct (k1 l w) as [[l1 w1 a1 [e|]]|f]; cbn; [done| |done].
  destruct (k2 l1 w1) as [[l2 w2 a2 t2]|f]; cbn; [by rewrite app_assoc|done].
Qed.

Lemma then_run_assoc {C W A} (r : step C W A) (k1 k2 : t C -> W -> checked (step C W A * bool)) :
  (x ← then_run r k1; if (x.2 : bool) then Ok x else then_run x.1 k2)
  = then_run r (fun l w => x ← k1 l w; if (x.2 : bool) then Ok x else then_run x.1 k2).
Proof.
  destruct r as [l w acts thrown]. unfold then_run. cbn [s_thrown s_loop s_world s_acts].
  destruct thrown as [e|]; [done|].
  destruct (k1 l w) as [[[l1 w1 a1 th] b]|f]; cbn; [|done].
  destruct b; [done|]. destruct th as [e|]; cbn; [done|].
  destruct (k2 l1 w1) as [[[l2 w2 a2 t2] b2]|f]; cbn; [by rewrite app_assoc|done].
Qed.

Lemma then_run_ext {C W A} (r : step C W A) k1 k2 :
  (forall l w, k1 l w = k2 l w) -> then_run r k1 = then_run r k2.
Proof. intros H. unfold then_run. destruct (s_thrown r); [done|]. by rewrite H. Qed.

Lemma then_run_idle {C W A} (l : t C) (w : W) (c : checked (step C W A * bool)) k :
  k l w = c -> then_run (idle l w) k = c.
Proof. intros <-. unfold then_run, idle. cbn. by destruct (k l w) as [[[] ?]|]. Qed.

Section runs.
Context {C W I A : Type}.
Context (invoke : C -> I -> t C -> W -> checked (step C W A)).
Context (on_signal : I -> t C -> W -> checked (step C W A)).

(** A run over a list of results is a run over its first part, continued in
    [epoll_wait] if the loop was not left. *)
Lemma turns_app ws1 ws2 : forall tested l w,
  turns invoke on_signal tested l w (ws1 ++ ws2)
  = (r ← turns invoke on_signal tested l w ws1;
     if (r.2 : bool) then Ok r else then_run r.1 (fun l w => turns invoke on_signal true l w ws2)).
Proof.
  induction ws1 as [|x ws1 IH]; intros tested l w; cbn [app].
  - cbn [turns]. destruct (tested || running l) eqn:E; cbn [negb mbind checked_bind snd fst].
    + symmetry. apply then_run_idle. destruct ws2; cbn [turns]; by rewrite E.
    + by destruct ws2; cbn [turns]; rewrite E.
  - cbn [turns]. destruct (negb (tested || running l)); [done|].
    destruct x as [errno|events|i|i].
    + by destruct (errno =? EINTR).
    + destruct (dispatch invoke on_signal l w events) as [r|f]; [|done]. cbn [mbind checked_bind].
      rewrite then_run_assoc. by apply then_run_ext.
    + destruct (on_signal i l w) as [r|f]; [|done]. cbn [mbind checked_bind].
      rewrite then_run_assoc. by apply then_run_ext.
    + destruct (on_signal i l w) as [r|f]; [|done]. cbn [mbind checked_bind].
      rewrite then_run_assoc. by apply then_run_ext.
Qed.

Lemma dispatch_app evs1 evs2 : forall l w,
  dispatch invoke on_signal l w (evs1 ++ evs2)
  = (r ← dispatch invoke on_signal l w evs1; and_then r (fun l w => dispatch invoke on_signal l w evs2)).
Proof.
  induction evs1 as [|e evs1 IH]; intros l w.
  - cbn. by destruct (dispatch invoke on_signal l w evs2) as [[]|].
  - cbn [app dispatch]. match goal with |- mbind _ ?c = _ => destruct c as [r|f]; [|done] end.
    cbn [mbind checked_bind]. rewrite (and_then_assoc r). unfold and_then at 1 2.
    destruct (s_thrown r); [done|]. by rewrite IH.
Qed.

Lemma turns_thrown waits : forall tested l w r,
  turns invoke on_signal tested l w waits = Ok r -> r.2 = false -> s_thrown r.1 = None.
Proof.
  assert (forall (r0 : step C W A) (k : t C -> W -> checked (step C W A * bool)) rs, (forall l w r, k l w = Ok r -> r.2 = false -> s_thrown r.1 = None) ->
    then_run r0 k = Ok rs -> rs.2 = false -> s_thrown rs.1 = None) as Hthen.
  { intros r0 k rs Hk. unfold then_run. destruct (s_thrown r0); [by intros [= <-]|].
    destruct (k _ _) as [rs'|] eqn:E; [|done]. intros [= <-]. cbn [fst snd s_thrown]. by eapply Hk. }
  induction waits as [|x waits IH]; intros tested l w r; cbn [turns]; (destruct (negb _); [by intros [= <-]|]).
  - by intros [= <-].
  - destruct x as [errno|events|i|i].
    + destruct (errno =? EINTR); [apply IH|by intros [= <-]].
    + destruct (dispatch _ _ _ _ _) as [r0|]; [|done]. apply Hthen. eauto.
    + destruct (on_signal _ _ _) as [r0|]; [|done]. apply Hthen. eauto.
    + destruct (on_signal _ _ _) as [r0|]; [|done]. apply Hthen. eauto.
Qed.

(** *** The transition system *)
Import LoopSpec.

(** What the loop does from a configuration. *)
Definition eval (c : config) : checked (step C W A * bool) :=
  match c with
  | Testing l w waits => turns invoke on_signal false l w waits
  | Waiting l w waits => turns invoke on_signal true l w waits
  | Serving l w events waits =>
      r ← dispatch invoke on_signal l w events;
      then_run r (fun l w => turns invoke on_signal false l w waits)
  | Left l w thrown => Ok (mk_step l w [] thrown, true)
  end.

Definition prepend (acts : list A) (c : checked (step C W A * bool)) : checked (step C W A * bool) :=
  r ← c; Ok (mk_step (s_loop r.1) (s_world r.1) (acts ++ s_acts r.1) (s_thrown r.1), r.2).

Lemma prepend_nil c : prepend [] c = c.
Proof. by destruct c as [[[] ?]|]. Qed.

Lemma prepend_app a1 a2 c : prepend a1 (prepend a2 c) = prepend (a1 ++ a2) c.
Proof. destruct c as [[[] ?]|]; cbn; [by rewrite app_assoc|done]. Qed.

Lemma then_run_after r next k :
  (forall l w, eval (next l w) = k l w) -> then_run r k = prepend (s_acts r) (eval (after r next)).
Proof.
  intros H. unfold then_run, after, prepend. destruct r as [l w acts [msg|]];
    cbn [s_thrown s_loop s_world s_acts eval]; [cbn; by rewrite app_nil_r|by rewrite H].
Qed.

Lemma masked mask : negb (Z.land mask EPOLLIN =? 0) = Z.testbit mask 0.
Proof.
  change EPOLLIN with (Z.ones 1). rewrite Z.land_ones by lia. change (2 ^ 1) with 2.
  rewrite Z.bit0_odd, Zmod_odd. by destruct (Z.odd mask).
Qed.

Lemma serve_after (c : checked (step C W A)) r events waits :
  c = Ok r ->
  (x ← (r ← c; and_then r (fun l w => dispatch invoke on_signal l w events));
   then_run x (fun l w => turns invoke on_signal false l w waits))
  = prepend (s_acts r) (eval (after r (fun l w => Serving l w events waits))).
Proof.
  intros ->. cbn [mbind checked_bind]. rewrite <- (then_run_after r _ (fun l w =>
    x ← dispatch invoke on_signal l w events; then_run x (fun l w => turns invoke on_signal false l w waits)));
    [|done].
  destruct r as [l w acts [msg|]]; unfold and_then, then_run; cbn [s_thrown s_loop s_world s_acts]; [done|].
  destruct (dispatch invoke on_signal l w events) as [[l1 w1 a1 [msg|]]|]; cbn; [done| |done].
  destruct (turns invoke on_signal false l1 w1 waits) as [[[] ?]|]; cbn; [by rewrite app_assoc|done].
Qed.

Lemma lstep_eval c acts c' : lstep invoke on_signal c acts c' -> eval c = prepend acts (eval c').
Proof.
  induction 1 as [l w waits H|l w waits H|l w waits|l w errno waits H|l w i waits r H|l w i waits r H|
    l w events waits|l w fd mask i cb events waits r H1 H2 H3|l w fd mask i events waits H|l w i events waits r H|
    l w waits]; rewrite ?prepend_nil; cbn [eval].
  - destruct waits; cbn [turns]; by rewrite H.
  - destruct waits; cbn [turns]; by rewrite H.
  - done.
  - cbn [turns orb negb]. by rewrite (proj2 (Z.eqb_neq _ _)) by done.
  - cbn [turns orb negb]. rewrite H. cbn [mbind checked_bind]. by apply then_run_after.
  - cbn [turns orb negb]. rewrite H. cbn [mbind checked_bind]. by apply then_run_after.
  - done.
  - apply serve_after. unfold handle_event. by rewrite masked, H1, H2.
  - cbn [dispatch]. assert (handle_event invoke l w fd mask i = Ok (idle l w)) as ->.
    { unfold handle_event. rewrite masked. destruct H as [-> | ->]; [done|]. by destruct (Z.testbit mask 0). }
    cbn [mbind checked_bind]. unfold and_then. cbn [idle s_thrown s_loop s_world s_acts].
    by destruct (dispatch invoke on_signal l w events) as [[]|].
  - by apply serve_after.
  - cbn [dispatch mbind checked_bind]. by apply then_run_idle.
Qed.

Lemma lsteps_eval c acts c' : lsteps invoke on_signal c acts c' -> eval c = prepend acts (eval c').
Proof.
  induction 1 as [c|c1 a1 c2 a2 c3 H _ IH]; [by rewrite prepend_nil|].
  by rewrite (lstep_eval _ _ _ H), IH, prepend_app.
Qed.

Lemma lsteps_app c1 a1 c2 a2 c3 :
  lsteps invoke on_signal c1 a1 c2 -> lsteps invoke on_signal c2 a2 c3 -> lsteps invoke on_signal c1 (a1 ++ a2) c3.
Proof. induction 1 as [|? ? ? ? ? H _ IH]; intros H2; [done|]. rewrite <- app_assoc. eauto using lsteps. Qed.

Lemma lsteps_one c a c' : lstep invoke on_signal c a c' -> lsteps invoke on_signal c a c'.
Proof. intros H. rewrite <- (app_nil_r a). eauto using lsteps. Qed.

(** Conversely, the transitions lead where the function says. *)
Definition complete (c : config) : Prop :=
  forall rs, eval c = Ok rs -> lsteps invoke on_signal c (s_acts rs.1) (reached rs).

Lemma complete_step c a c' : lstep invoke on_signal c a c' -> complete c' -> complete c.
Proof.
  intros Hs Hc rs. rewrite (lstep_eval _ _ _ Hs). unfold prepend.
  destruct (eval c') as [rs'|] eqn:E; [|done]. intros [= <-]. cbn [fst s_acts].
  eapply lsteps_step; [exact Hs|]. exact (Hc rs' E).
Qed.

Lemma complete_left l w thrown : complete (Left l w thrown).
Proof. intros rs [= <-]. apply lsteps_refl. Qed.

Lemma complete_after (r : step C W A) next : (forall l w, complete (next l w)) -> complete (after r next).
Proof. intros H. unfold after. destruct (s_thrown r); [apply complete_left|apply H]. Qed.

Lemma complete_call c (f : checked (step C W A)) next :
  (forall r, f = Ok r -> lstep invoke on_signal c (s_acts r) (after r next)) ->
  (forall e, f = Fault e -> eval c = Fault e) -> (forall l w, complete (next l w)) -> complete c.
Proof.
  intros Hs Hf Hn. destruct f as [r|e]; [|intros rs; by rewrite (Hf e)].
  eapply complete_step; [by apply Hs|by apply complete_after].
Qed.

Lemma complete_serving waits :
  (forall l w, complete (Testing l w waits)) -> forall events l w, complete (Serving l w events waits).
Proof.
  intros Ht. induction events as [|[fd mask i|i] events IH]; intros l w.
  - eapply complete_step; [apply lstep_served|apply Ht].
  - destruct (Z.testbit mask 0) eqn:Em; [|eapply complete_step; [apply lstep_skip; by left|apply IH]].
    destruct (readers l !! fd) as [cb|] eqn:Er; [|eapply complete_step; [apply lstep_skip; by right|apply IH]].
    apply (complete_call _ (invoke cb i l w) (fun l w => Serving l w events waits)); [|intros e He|auto].
    + intros r Hr. by eapply lstep_call.
    + cbn [eval dispatch]. unfold handle_event. by rewrite masked, Em, Er, He.
  - apply (complete_call _ (on_signal i l w) (fun l w => Serving l w events waits)); [|intros e He|auto].
    + intros r Hr. by apply lstep_signal.
    + cbn [eval dispatch]. by rewrite He.
Qed.

Lemma complete_testing waits :
  (forall l w, complete (Waiting l w waits)) -> forall l w, complete (Testing l w waits).
Proof.
  intros Hw l w. destruct (running l) eqn:E.
  - eapply complete_step; [by apply lstep_wait|apply Hw].
  - eapply complete_step; [by apply lstep_stopped|apply complete_left].
Qed.

Lemma complete_waiting waits : forall l w, complete (Waiting l w waits).
Proof.
  induction waits as [|x waits IH]; intros l w; [intros rs [= <-]; apply lsteps_refl|].
  pose proof (complete_testing waits IH) as Ht. destruct x as [errno|events|i|i].
  - destruct (decide (errno = 4)) as [->|He]; eapply complete_step;
      [apply lstep_eintr|apply Ht|by apply lstep_failed|apply complete_left].
  - eapply complete_step; [apply lstep_ready|by apply complete_serving].
  - apply (complete_call _ (on_signal i l w) (fun l w => Testing l w waits)); [|intros e He|auto].
    + intros r Hr. by apply lstep_interrupted.
    + cbn [eval turns orb negb]. by rewrite He.
  - apply (complete_call _ (on_signal i l w) (fun l w => Waiting l w waits)); [|intros e He|auto].
    + intros r Hr. by apply lstep_late.
    + cbn [eval turns orb negb]. by rewrite He.
Qed.

End runs.

End EventLoopFacts.

(** ** Properties *)
Section properties.
Import EventLoop CanSocket.

(** A CAN frame survives the kernel interface: the bytes [send] writes
    for a frame are read back by [on_readable] as the same frame, on either
    byte order; an error or a short read delivers nothing, and nothing is
    delivered before a callback is registered. *)
Theorem can_frame_roundtrip {T : Target} c f inp :
  frame_ok f -> is_u8 (can_dlc f) ->
  CanSocket.on_readable c (ReadBytes (send f)) = (if has_callback c then Some f else None)
  /\ (match inp with ReadError _ => True | ReadBytes l => zlen l < 16 end ->
      CanSocket.on_readable c inp = None).
Proof.
  intros (Hid & Hd & Hl) Hdlc. split.
  - unfold CanSocket.on_readable, send, bytes_of_frame, CAN_FRAME_SIZE.
    assert (length (mem32 (can_id f)) = 4%nat) as H4 by apply mem32_length.
    rewrite take_ge by (rewrite !length_app, H4, Hl; cbn; lia).
    assert (zlen (mem32 (can_id f) ++ [can_dlc f; 0; 0; 0] ++ frame_data f) = 16) as ->
      by (unfold zlen; rewrite !length_app, H4, Hl; done).
    change (16 <? 16) with false. cbv iota. destruct (has_callback c); [|done]. f_equal.
    assert (load (mem32 (can_id f)) = can_id f) as Hload.
    { unfold load, mem32. destruct order.
      - rewrite be32_div. cbn [rev app le_val]. unfold is_u32 in Hid. zlia.
      - rewrite be32_val. by apply u32_small. }
    unfold frame_of_bytes. rewrite (take_app_le (mem32 _)), (take_ge (mem32 _)), Hload by lia.
    destruct (mem32 (can_id f)) as [|a [|b [|x [|d [|]]]]]; try discriminate H4.
    cbn [app drop]. rewrite (take_ge (frame_data f)) by lia. by destruct f.
  - intros Hs. destruct inp as [e|l]; [done|]. unfold CanSocket.on_readable, CAN_FRAME_SIZE.
    unfold zlen in *. rewrite length_take. by guards.
Qed.

Lemma can_frame_roundtrip_witness :
  let f := mk_frame 0x80000123 8 [1; 2; 3; 4; 5; 6; 7; 8] in
  CanSocket.on_readable (T:=x86_64) (CanSocket.mk 4 "vcan0" true) (ReadBytes (send (T:=x86_64) f)) = Some f
  /\ CanSocket.on_readable (T:=x86_64) (CanSocket.mk 4 "vcan0" true) (ReadBytes [1; 2; 3]) = None.
Proof.
  intros f.
  destruct (can_frame_roundtrip (T:=x86_64) (CanSocket.mk 4 "vcan0" true) f (ReadBytes [1; 2; 3]))
    as [H1 H2].
  - split_and!; [unfold is_u32; cbn; lia | closed_bytes | reflexivity].
  - unfold is_u8; cbn; lia.
  - split; [exact H1|]. apply H2. unfold zlen; cbn; lia.
Defined.

(** C30: the loop is the transition system of [LoopSpec].  [run] comes to a
    result exactly when the transitions lead from the test of [running_] to
    the configuration the result describes - left, by an exception or not,
    or waiting with the inputs used up -, and the calls are those of the
    transitions, in order.  There, each ready event in turn calls the
    callback its descriptor has at that moment, if it is readable and still
    watched; a signal runs the handler, between two callbacks as well as in
    [epoll_wait]; an exception leaves the loop at once; a wait that was
    interrupted is repeated and any other failure throws; and [running_] is
    looked at only before [epoll_wait] is called. *)
Theorem event_loop_dispatch {C W I A : Type}
    (invoke : C -> I -> EventLoop.t C -> W -> checked (step C W A))
    (on_signal : I -> EventLoop.t C -> W -> checked (step C W A)) l w waits r :
  run invoke on_signal l w waits = Ok r
  <-> LoopSpec.lsteps invoke on_signal (LoopSpec.Testing (start l) w waits) (s_acts r.1) (LoopSpec.reached r)
      /\ (r.2 = false -> s_thrown r.1 = None).
Proof.
  split.
  - intros Hr. split; [|by eapply EventLoopFacts.turns_thrown].
    exact (EventLoopFacts.complete_testing _ _ _ (EventLoopFacts.complete_waiting _ _ _) _ _ _ Hr).
  - intros [Hs Ht]. apply EventLoopFacts.lsteps_eval in Hs. cbn [EventLoopFacts.eval] in Hs. unfold run.
    rewrite Hs. destruct r as [[l' w' acts thrown] []]; unfold LoopSpec.reached; cbn; rewrite app_nil_r; [done|].
    specialize (Ht eq_refl). cbn in Ht. by subst thrown.
Qed.

End properties.
