(* ===== verification/StatsReporter.v ===== *)
(** * Reports ([src/src/utils/stats_reporter.hpp], [.cpp],
    [src/src/utils/can_printer.hpp])

    The texts the gateway prints: the latency table and the JSON report of
    [StatsReporter], and [print_can_frame].  [Module Format] is the formatted
    output of numbers they use ([operator<<] with [setw], [fixed],
    [setprecision] and [hex]).  The table of the collector is an
    [unordered_map], so its keys come in an order the library chooses:
    [names] is the vector [event_names] returned.  [print_table] writes to
    [std::cout], whose base for integers it does not set: [base] is the one
    left there. *)

From Stdlib Require Import SpecFloat Ascii.
From S2P Require Import Prelude Uds Floats CppString Types Benchmark.

#[local] Open Scope string_scope.
#[local] Open Scope Z_scope.
#[local] Arguments String.append : simpl nomatch.

(** ** Formatted output of numbers *)
Module Format.

Fixpoint spaces (n : nat) : string :=
  match n with O => "" | S n => String " "%char (spaces n) end.

(** [setw(w)] with [left] and with [right]. *)
Definition pad_right (w : nat) (s : string) : string := s ++ spaces (w - String.length s).
Definition pad_left (w : nat) (s : string) : string := spaces (w - String.length s) ++ s.

(** Division to the nearest integer, ties to even. *)
Definition div_nearest (n d : Z) : Z :=
  let q := n / d in
  let r := n mod d in
  if (2 * r <? d) || ((2 * r =? d) && Z.even q) then q else q + 1.

(** The absolute value of a finite number as a quotient. *)
Definition ratio (m : positive) (e : Z) : Z * Z :=
  if 0 <=? e then (Zpos m * 2 ^ e, 1) else (Zpos m, 2 ^ (- e)).

Definition sign_text (s : bool) : string := if s then "-" else "".

(** [std::fixed << std::setprecision(1)] *)
Definition fixed1 (d : double) : string :=
  match d with
  | S754_zero s => sign_text s ++ "0.0"
  | S754_infinity s => sign_text s ++ "inf"
  | S754_nan => "nan"
  | S754_finite s m e =>
      let '(n, k) := ratio m e in
      let t := div_nearest (10 * n) k in
      sign_text s ++ print_acc 400 10 (t / 10) "" ++ "." ++ print_dec (t mod 10)
  end.

(** The default format: six significant digits, [%g].  The decimal exponent
    of [n / k] is searched from that of the smallest number on. *)
Fixpoint exponent10 (fuel : nat) (n k x : Z) : Z :=
  match fuel with
  | O => x
  | S fuel =>
      if (if 0 <=? x + 1 then n <? k * 10 ^ (x + 1) else n * 10 ^ (- (x + 1)) <? k)
      then x else exponent10 fuel n k (x + 1)
  end.

(** Six digits and the exponent of the first of them. *)
Definition six_digits (n k : Z) : Z * Z :=
  let x := exponent10 640 n k (-324) in
  let d := if 0 <=? 5 - x then div_nearest (n * 10 ^ (5 - x)) k else div_nearest n (k * 10 ^ (x - 5)) in
  if d =? 1000000 then (100000, x + 1) else (d, x).

(** [w] decimal digits of [n]. *)
Fixpoint digits_of (w : nat) (n : Z) (acc : string) : string :=
  match w with O => acc | S w => digits_of w (n / 10) (String (digit_char (n mod 10)) acc) end.

(** The fraction [n] in [w] digits, its trailing zeros dropped. *)
Fixpoint fraction (w : nat) (n : Z) : string :=
  match w with
  | O => ""
  | S w' => if n mod 10 =? 0 then fraction w' (n / 10) else "." ++ digits_of w n ""
  end.

Definition general6 (d : double) : string :=
  match d with
  | S754_zero s => sign_text s ++ "0"
  | S754_infinity s => sign_text s ++ "inf"
  | S754_nan => "nan"
  | S754_finite s m e =>
      let '(n, k) := ratio m e in
      let '(d, x) := six_digits n k in
      sign_text s ++
      if (x <? -4) || (6 <=? x)
      then print_dec (d / 100000) ++ fraction 5 (d mod 100000)
           ++ "e" ++ (if x <? 0 then "-" else "+")
           ++ digits_of (if 99 <? Z.abs x then 3 else 2) (Z.abs x) ""
      else if x <? 0
      then "0" ++ fraction (5 + Z.to_nat (- x)) d
      else let p := 10 ^ (5 - x) in
           print_dec (d / p) ++ fraction (Z.to_nat (5 - x)) (d mod p)
  end.

(** [std::hex], with [std::uppercase] or without. *)
Definition hex_digit (upper : bool) (v : Z) : ascii :=
  if v <? 10 then chr (48 + Z.to_nat v) else chr ((if upper then 55 else 87) + Z.to_nat v).
Fixpoint hex_acc (upper : bool) (fuel : nat) (n : Z) (acc : string) : string :=
  match fuel with
  | O => acc
  | S fuel =>
      let acc := String (hex_digit upper (n mod 16)) acc in
      if n <? 16 then acc else hex_acc upper fuel (n / 16) acc
  end.
Fixpoint zeros (n : nat) : string := match n with O => "" | S n => String "0"%char (zeros n) end.
(** Upper case, filled with zeros to [w] digits. *)
Definition hex (w : nat) (n : Z) : string :=
  let s := hex_acc true 16 n "" in zeros (w - String.length s) ++ s.

(** An unsigned integer of at most 64 bits, in the base of the stream. *)
Definition print_int (b : base) (n : Z) : string :=
  match b with Dec => print_dec n | Hex => hex_acc false 16 n "" end.

End Format.

(** ** The reporter *)
Module StatsReporter.
Import Format LatencyHistogram BenchmarkCollector.

Definition nl : string := String newline "".
Definition quote : string := String (chr 34) "".

Definition bar : string := "══════════════════════════════════════════════"
  ++ "══════════════════════".

(** The first lines of the table, up to the rows. *)
Definition table_head : string :=
  nl ++ "╔" ++ bar ++ "╗" ++ nl
  ++ "║           AUTOMOTIVE GATEWAY LATENCY REPORT" ++ "                      ║" ++ nl
  ++ "╠" ++ bar ++ "╣" ++ nl
  ++ "║ " ++ pad_right 20 "Event"
  ++ pad_left 8 "Count" ++ pad_left 8 "Min" ++ pad_left 8 "Mean" ++ pad_left 8 "P50"
  ++ pad_left 8 "P95" ++ pad_left 8 "P99" ++ pad_left 8 "Max" ++ "  ║" ++ nl
  ++ "║ " ++ pad_right 20 ""
  ++ pad_left 8 "" ++ pad_left 8 "us" ++ pad_left 8 "us" ++ pad_left 8 "us"
  ++ pad_left 8 "us" ++ pad_left 8 "us" ++ pad_left 8 "us" ++ "  ║" ++ nl
  ++ "╠" ++ bar ++ "╣" ++ nl.

Definition table_foot (b : base) (total : Z) : string :=
  "╠" ++ bar ++ "╣" ++ nl
  ++ "║ Total messages processed: " ++ pad_right 43 (print_int b total) ++ "║" ++ nl
  ++ "╚" ++ bar ++ "╝" ++ nl ++ nl.

Section code.
Context {T : Target}.

(** The body of the loop of [print_table]; [b] is the base [std::cout] was
    left in, which the table does not set. *)
Definition table_row (b : base) (c : collector) (name : string) : checked string :=
  match get c name with
  | None => Ok ""
  | Some h =>
      if count h =? 0 then Ok ""
      else
        v50 ← p50 h; v95 ← p95 h; v99 ← p99 h;
        Ok ("║ " ++ pad_right 20 name
            ++ pad_left 8 (print_int b (count h)) ++ pad_left 8 (print_int b (min h))
            ++ pad_left 8 (fixed1 (mean h)) ++ pad_left 8 (print_int b v50)
            ++ pad_left 8 (print_int b v95) ++ pad_left 8 (print_int b v99)
            ++ pad_left 8 (print_int b (max h)) ++ "  ║" ++ nl)
  end.

Fixpoint table_rows (b : base) (c : collector) (names : list string) : checked string :=
  match names with
  | [] => Ok ""
  | name :: names =>
      row ← table_row b c name;
      rows ← table_rows b c names;
      Ok (row ++ rows)
  end.

Definition print_table (b : base) (c : collector) (names : list string) : checked string :=
  rows ← table_rows b c names;
  Ok (table_head ++ rows ++ table_foot b (total_messages c)).

(** The body of the loop of [to_json]; [last]: [i < names.size() - 1] is
    false. *)
Definition json_entry (c : collector) (name : string) (last : bool) : checked string :=
  match get c name with
  | None => Ok ""
  | Some h =>
      v50 ← p50 h; v95 ← p95 h; v99 ← p99 h;
      Ok ("    " ++ quote ++ name ++ quote ++ ": {" ++ nl
          ++ "      " ++ quote ++ "count" ++ quote ++ ": " ++ print_dec (count h) ++ "," ++ nl
          ++ "      " ++ quote ++ "min_us" ++ quote ++ ": " ++ print_dec (min h) ++ "," ++ nl
          ++ "      " ++ quote ++ "mean_us" ++ quote ++ ": " ++ general6 (mean h) ++ "," ++ nl
          ++ "      " ++ quote ++ "p50_us" ++ quote ++ ": " ++ print_dec v50 ++ "," ++ nl
          ++ "      " ++ quote ++ "p95_us" ++ quote ++ ": " ++ print_dec v95 ++ "," ++ nl
          ++ "      " ++ quote ++ "p99_us" ++ quote ++ ": " ++ print_dec v99 ++ "," ++ nl
          ++ "      " ++ quote ++ "max_us" ++ quote ++ ": " ++ print_dec (max h) ++ nl
          ++ "    }" ++ (if last then "" else ",") ++ nl)
  end.

Fixpoint json_entries (c : collector) (names : list string) : checked string :=
  match names with
  | [] => Ok ""
  | name :: names =>
      entry ← json_entry c name (match names with [] => true | _ => false end);
      entries ← json_entries c names;
      Ok (entry ++ entries)
  end.

Definition to_json (c : collector) (names : list string) : checked string :=
  entries ← json_entries c names;
  Ok ("{" ++ nl
      ++ "  " ++ quote ++ "total_messages" ++ quote ++ ": " ++ print_dec (total_messages c) ++ "," ++ nl
      ++ "  " ++ quote ++ "latency" ++ quote ++ ": {" ++ nl
      ++ entries
      ++ "  }" ++ nl ++ "}" ++ nl).

End code.
End StatsReporter.

(** ** Frames as text *)
Module CanPrinter.
Import Format.

(** The loop over the data; the length code may be larger than eight, the
    bytes of the array are not. *)
Fixpoint print_bytes (fuel : nat) (f : can_frame) (i : Z) : checked string :=
  if i <? can_dlc f then
    match fuel with
    | O => Fault OutOfFuel
    | S fuel =>
        b ← rd (frame_data f) i;
        rest ← print_bytes fuel f (i + 1);
        Ok (hex 2 b ++ (if i <? can_dlc f - 1 then " " else "") ++ rest)
    end
  else Ok "".

(** [print_can_frame]: the line printed. *)
Definition print_can_frame (iface : string) (f : can_frame) : checked string :=
  data ← print_bytes 256 f 0;
  Ok (iface ++ "  " ++ hex 3 (Z.land (can_id f) CAN_EFF_MASK)
      ++ "   [" ++ print_dec (can_dlc f) ++ "]  " ++ data ++ String newline "").

End CanPrinter.

(** ** Reading reports

    The part of JSON the report uses: objects of named members and
    numbers. *)
Module Json.

Inductive json := Number (text : string) | Object (members : list (string * json)).

Definition quote_char : ascii := chr 34.
Definition num_char (c : ascii) : bool :=
  is_digit c || Ascii.eqb c "+"%char || Ascii.eqb c "-"%char || Ascii.eqb c "."%char
  || Ascii.eqb c "e"%char || Ascii.eqb c "E"%char.

Fixpoint value (fuel : nat) (s : string) : option (json * string) :=
  match fuel, skip_ws s with
  | S fuel, String c s' =>
      if Ascii.eqb c "{"%char then
        if match skip_ws s' with String c _ => Ascii.eqb c "}"%char | _ => false end
        then Some (Object [], sdrop 1 (skip_ws s'))
        else '(l, r) ← members fuel s'; Some (Object l, r)
      else
        let '(t, r) := span num_char (String c s') in
        if decide (t = "") then None else Some (Number t, r)
  | _, _ => None
  end
with members (fuel : nat) (s : string) : option (list (string * json) * string) :=
  match fuel, skip_ws s with
  | S fuel, String q s =>
      if Ascii.eqb q quote_char then
        let '(name, r) := span (fun c => negb (Ascii.eqb c quote_char)) s in
        match r with
        | String _ (String c r) =>
            if Ascii.eqb c ":"%char then
              '(v, r) ← value fuel r;
              match skip_ws r with
              | String c r =>
                  if Ascii.eqb c ","%char then '(l, r) ← members fuel r; Some ((name, v) :: l, r)
                  else if Ascii.eqb c "}"%char then Some ([(name, v)], r) else None
              | EmptyString => None
              end
            else None
        | _ => None
        end
      else None
  | _, _ => None
  end.

Definition parse (s : string) : option json :=
  '(v, r) ← value (S (String.length s)) s;
  if decide (skip_ws r = "") then Some v else None.

(** A number as [print_dec] writes it. *)
Definition int (n : Z) : json := Number (print_dec n).

(** The member of the report that describes the event [name]. *)
Definition describes `{Target} (c : BenchmarkCollector.collector) (name : string)
    (member : string * json) : Prop :=
  exists h v50 v95 v99,
    BenchmarkCollector.get c name = Some h
    /\ LatencyHistogram.p50 h = Ok v50 /\ LatencyHistogram.p95 h = Ok v95
    /\ LatencyHistogram.p99 h = Ok v99
    /\ member = (name,
         Object [("count", int (LatencyHistogram.count h)); ("min_us", int (LatencyHistogram.min h));
                 ("mean_us", Number (Format.general6 (LatencyHistogram.mean h)));
                 ("p50_us", int v50); ("p95_us", int v95); ("p99_us", int v99);
                 ("max_us", int (LatencyHistogram.max h))]).

End Json.

(** ** Lemmas *)
Module ReporterFacts.
Import Format LatencyHistogram BenchmarkCollector BenchFacts StatsReporter Json CppStringFacts.

Definition plain_name (s : string) : bool := all (fun c => negb (Ascii.eqb c quote_char)) s.

Definition number (t : string) : Prop := t <> "" /\ all num_char t = true.

Lemma digit_num c : is_digit c = true -> num_char c = true.
Proof. intros H. unfold num_char. by rewrite H. Qed.

Lemma number_app a b : number a -> all num_char b = true -> number (a ++ b).
Proof.
  intros [H1 H2] H3. split; [by destruct a|]. by rewrite all_app, H2, H3.
Qed.

Lemma print_dec_number n : 0 <= n -> number (print_dec n).
Proof.
  intros Hn. split; [by apply print_acc_nonempty; lia|].
  eapply all_mono; [apply digit_num|]. by apply print_dec_digits.
Qed.

Lemma digits_of_num w n acc : all num_char acc = true -> all num_char (digits_of w n acc) = true.
Proof.
  revert n acc. induction w as [|w IH]; intros n acc Ha; [done|]. cbn. apply IH. cbn.
  rewrite digit_num; [done|]. apply digit_char_digit. apply Z.mod_pos_bound. lia.
Qed.

Lemma fraction_num w n : all num_char (fraction w n) = true.
Proof.
  revert n. induction w as [|w IH]; intros n; [done|]. cbn [fraction].
  destruct (n mod 10 =? 0); [done|]. cbn [all String.append]. by rewrite digits_of_num.
Qed.

Lemma div_nearest_nonneg n d : 0 <= n -> 0 < d -> 0 <= div_nearest n d.
Proof.
  intros. unfold div_nearest. pose proof (Z.div_pos n d ltac:(lia) ltac:(lia)).
  destruct (_ || _); lia.
Qed.

Lemma ratio_pos m e : 0 < (ratio m e).1 /\ 0 < (ratio m e).2.
Proof.
  unfold ratio. destruct (Z.leb_spec 0 e); cbn [fst snd]; split; lia.
Qed.

Lemma six_digits_nonneg n k : 0 < n -> 0 < k -> 0 <= (six_digits n k).1.
Proof.
  intros Hn Hk. unfold six_digits. set (x := exponent10 640 n k (-324)).
  assert (0 <= (if 0 <=? 5 - x then div_nearest (n * 10 ^ (5 - x)) k else div_nearest n (k * 10 ^ (x - 5)))).
  { destruct (Z.leb_spec 0 (5 - x)).
    - apply div_nearest_nonneg; [|done]. pose proof (Z.pow_pos_nonneg 10 (5 - x)). nia.
    - apply div_nearest_nonneg; [lia|]. pose proof (Z.pow_pos_nonneg 10 (x - 5)). nia. }
  by destruct (_ =? 1000000).
Qed.

Definition finite (d : double) : bool :=
  match d with S754_zero _ | S754_finite _ _ _ => true | _ => false end.

Lemma general6_number d : finite d = true -> number (general6 d).
Proof.
  destruct d as [s|s| |s m e]; try discriminate; intros _; [by destruct s|].
  unfold general6. pose proof (ratio_pos m e) as [H1 H2].
  destruct (ratio m e) as [n k]. cbn [fst snd] in *.
  pose proof (six_digits_nonneg n k H1 H2) as Hd. destruct (six_digits n k) as [d x]. cbn [fst] in Hd.
  assert (forall t, number t -> number (sign_text s ++ t)) as Hs.
  { intros t [Ht1 Ht2]. destruct s; [|done]. split; [done|]. cbn. by rewrite Ht2. }
  apply Hs. destruct ((x <? -4) || (6 <=? x)) eqn:E.
  - apply number_app; [apply print_dec_number, Z.div_pos; lia|].
    rewrite all_app, fraction_num. cbn [String.append all]. rewrite all_app, digits_of_num by done.
    by destruct (x <? 0).
  - apply orb_false_iff in E as [E1 E2]. destruct (Z.ltb_spec x 0).
    + apply number_app; [done|apply fraction_num].
    + apply number_app; [|apply fraction_num]. apply print_dec_number, Z.div_pos; [done|].
      apply Z.pow_pos_nonneg; lia.
Qed.

(** *** Reading one member *)
Lemma skip_ws_spaces n s : skip_ws (spaces n ++ s) = skip_ws s.
Proof. induction n as [|n IH]; [done|]. cbn [spaces String.append]. by rewrite skip_ws_space. Qed.

Lemma number_head t : number t -> exists c r, t = String c r /\ num_char c = true.
Proof.
  intros [Hne Ht]. destruct t as [|c r]; [done|]. cbn in Ht. apply andb_true_iff in Ht as [Ht _].
  by exists c, r.
Qed.

Lemma num_char_plain c :
  num_char c = true -> is_space c = false /\ Ascii.eqb c "{"%char = false.
Proof. destruct c as [[] [] [] [] [] [] [] []]; intros [=]; by split. Qed.

Lemma value_number fuel t s :
  number t -> stops num_char s -> value (S fuel) (" " ++ t ++ s) = Some (Number t, s).
Proof.
  intros Ht Hs. destruct (number_head t Ht) as (c & r & -> & Hc).
  destruct (num_char_plain c Hc) as [H1 H2]. cbn [value]. cbn [String.append].
  rewrite skip_ws_space, skip_ws_plain by done. rewrite H2.
  change (String c (r ++ s)) with (String c r ++ s). rewrite span_app by (done || apply Ht).
  by rewrite decide_False.
Qed.

(** A member: [text] is read as the value [v], and then comes [c]. *)
Lemma members_step fuel n name text v s c s' :
  plain_name name = true ->
  value fuel (" " ++ text ++ s) = Some (v, s) -> skip_ws s = String c s' ->
  members (S fuel) (spaces n ++ quote ++ name ++ quote ++ ": " ++ text ++ s)
  = if Ascii.eqb c ","%char then '(l, r) ← members fuel s'; Some ((name, v) :: l, r)
    else if Ascii.eqb c "}"%char then Some ([(name, v)], s') else None.
Proof.
  intros Hn Hv Hs. cbn [members]. rewrite skip_ws_spaces.
  change (skip_ws (quote ++ ?x)) with (String quote_char x). cbv iota.
  change (Ascii.eqb quote_char quote_char) with true. cbv iota.
  rewrite span_app by done. cbn [quote String.append].
  change (Ascii.eqb ":" ":") with true. cbv iota.
  change (String " " (text ++ s)) with (" " ++ text ++ s). rewrite Hv. cbn [mbind option_bind].
  by rewrite Hs.
Qed.

(** White space before a member. *)
Lemma members_space fuel s : members fuel (nl ++ s) = members fuel s.
Proof.
  destruct fuel as [|fuel]; [done|]. cbn [members]. unfold nl. cbn [String.append].
  by rewrite skip_ws_space.
Qed.

Lemma number_next fuel n name t r :
  plain_name name = true -> number t ->
  members (S (S fuel)) (spaces n ++ quote ++ name ++ quote ++ ": " ++ t ++ "," ++ nl ++ r)
  = '(l, r) ← members (S fuel) r; Some ((name, Number t) :: l, r).
Proof.
  intros Hn Ht.
  rewrite (members_step _ _ _ _ (Number t) _ ","%char (nl ++ r)); [by rewrite members_space|done| |done].
  by apply value_number.
Qed.

(** The last number of an object, before its closing brace. *)
Lemma number_last fuel n k name t r :
  plain_name name = true -> number t ->
  members (S (S fuel)) (spaces n ++ quote ++ name ++ quote ++ ": " ++ t ++ nl ++ spaces k ++ "}" ++ r)
  = Some ([(name, Number t)], r).
Proof.
  intros Hn Ht. rewrite (members_step _ _ _ _ (Number t) _ "}"%char r); [done|done| |].
  - by apply value_number.
  - unfold nl. cbn [String.append]. rewrite skip_ws_space by done. by rewrite skip_ws_spaces.
Qed.

(** *** Entries *)
Section entry_text.
Variables (t1 t2 t3 t4 t5 t6 t7 : string).

(** The object printed for an event, from the texts of its numbers. *)
Definition entry_text : string :=
  "{" ++ nl
  ++ spaces 6 ++ quote ++ "count" ++ quote ++ ": " ++ t1 ++ "," ++ nl
  ++ spaces 6 ++ quote ++ "min_us" ++ quote ++ ": " ++ t2 ++ "," ++ nl
  ++ spaces 6 ++ quote ++ "mean_us" ++ quote ++ ": " ++ t3 ++ "," ++ nl
  ++ spaces 6 ++ quote ++ "p50_us" ++ quote ++ ": " ++ t4 ++ "," ++ nl
  ++ spaces 6 ++ quote ++ "p95_us" ++ quote ++ ": " ++ t5 ++ "," ++ nl
  ++ spaces 6 ++ quote ++ "p99_us" ++ quote ++ ": " ++ t6 ++ "," ++ nl
  ++ spaces 6 ++ quote ++ "max_us" ++ quote ++ ": " ++ t7 ++ nl ++ spaces 4 ++ "}".

Definition entry_members : json :=
  Object [("count", Number t1); ("min_us", Number t2); ("mean_us", Number t3);
          ("p50_us", Number t4); ("p95_us", Number t5); ("p99_us", Number t6); ("max_us", Number t7)].

Lemma entry_read fuel s :
  Forall number [t1; t2; t3; t4; t5; t6; t7] ->
  value (9 + fuel) (" " ++ entry_text ++ s) = Some (entry_members, s).
Proof.
  intros Hn.
  repeat match goal with H : Forall _ (_ :: _) |- _ => apply Forall_cons_1 in H as [? H] end.
  unfold entry_text. rewrite !string_app_assoc. cbn [Nat.add value].
  change (skip_ws (" " ++ "{" ++ ?x)) with (String "{" x). cbv iota.
  change (Ascii.eqb "{" "{") with true. cbv iota.
  change (match skip_ws (nl ++ spaces 6 ++ quote ++ ?x) with
          | "" => false | String c _ => Ascii.eqb c "}" end) with false. cbv iota.
  rewrite members_space.
  do 6 (rewrite number_next by (assumption || reflexivity)).
  rewrite number_last by (assumption || reflexivity). reflexivity.
Qed.

End entry_text.

Lemma slength_app a b : String.length (a ++ b) = (String.length a + String.length b)%nat.
Proof. induction a as [|c a IH]; [done|]. cbn. by rewrite IH. Qed.

Lemma min_max_nonneg h : Forall is_u64 (samples h) -> 0 <= min h /\ 0 <= max h.
Proof.
  intros Hs. rewrite list.Forall_forall in Hs. unfold min, max.
  destruct (samples h) as [|x l]; [done|].
  destruct (fold_min_spec l x) as [H1 _], (fold_max_spec l x) as [H2 _].
  apply Hs in H1, H2. unfold is_u64 in *. lia.
Qed.

Lemma json_entry_ok `{Target} c name last h v50 v95 v99 :
  get c name = Some h -> p50 h = Ok v50 -> p95 h = Ok v95 -> p99 h = Ok v99 ->
  json_entry c name last
  = Ok (spaces 4 ++ quote ++ name ++ quote ++ ": "
        ++ entry_text (print_dec (count h)) (print_dec (min h)) (general6 (mean h))
             (print_dec v50) (print_dec v95) (print_dec v99) (print_dec (max h))
        ++ (if last then "" else ",") ++ nl).
Proof.
  intros Hg H1 H2 H3. unfold json_entry. rewrite Hg, H1, H2, H3. cbn [mbind checked_bind].
  unfold entry_text. rewrite !string_app_assoc. reflexivity.
Qed.

(** What the report needs of an event. *)
Definition reportable (c : collector) (name : string) : Prop :=
  plain_name name = true
  /\ exists h, get c name = Some h /\ hist_ok h /\ finite (mean h) = true.

Lemma reportable_member `{Target} c name :
  reportable c name ->
  exists text member,
    (forall last, json_entry c name last
       = Ok (spaces 4 ++ quote ++ name ++ quote ++ ": " ++ text ++ (if last then "" else ",") ++ nl))
    /\ describes c name (name, member)
    /\ forall fuel s, value (9 + fuel) (" " ++ text ++ s) = Some (member, s).
Proof.
  intros [_ (h & Hg & Hh & Hf)].
  destruct (percentiles_total h Hh) as (v50 & v95 & v99 & H1 & H2 & H3 & Hi1 & Hi2 & Hi3).
  destruct Hh as (_ & _ & Hs & Hc). destruct (min_max_nonneg h Hs) as [Hmin Hmax].
  rewrite list.Forall_forall in Hs.
  eexists _, _. split; [intros last; by apply json_entry_ok|].
  split; [by exists h, v50, v95, v99|]. intros fuel s. apply entry_read.
  pose proof (fun v (H : is_u64 v) => print_dec_number v (proj1 H)) as Hu.
  repeat apply Forall_cons_2; auto using print_dec_number, general6_number, Forall_nil_2.
Qed.

Lemma entries_read `{Target} c names :
  names <> [] -> Forall (reportable c) names ->
  exists text ms,
    json_entries c names = Ok text
    /\ Forall2 (describes c) names ms
    /\ (length names <= String.length text)%nat
    /\ (exists r, text = spaces 4 ++ quote ++ r)
    /\ forall fuel s, members (length names + (9 + fuel)) (text ++ "  }" ++ s) = Some (ms, s).
Proof.
  intros Hne Hall. induction Hall as [|name names Hr Hall IH]; [done|]. clear Hne.
  destruct (reportable_member c name Hr) as (text & member & He & Hd & Hv).
  destruct Hr as [Hp _]. cbn [json_entries]. rewrite He. cbn [mbind checked_bind].
  destruct names as [|name' names].
  - do 2 eexists. split; [reflexivity|]. split; [by repeat constructor|].
    split; [cbn; lia|]. split; [rewrite !string_app_assoc; by eexists|].
    intros fuel s. rewrite !string_app_assoc. cbn [length Nat.add].
    rewrite (members_step _ _ _ _ member _ "}"%char s); [done|done|apply Hv|done].
  - destruct IH as (text' & ms & Ht & Hms & Hlen & _ & Hread); [done|].
    rewrite Ht. cbn [mbind checked_bind]. do 2 eexists. split; [reflexivity|].
    split; [by constructor|]. split.
    { rewrite !slength_app. cbn [length String.length spaces] in *. lia. }
    split; [rewrite !string_app_assoc; by eexists|].
    intros fuel s. rewrite !string_app_assoc. cbn [length Nat.add].
    rewrite (members_step _ _ _ _ member _ ","%char (nl ++ text' ++ "  }" ++ s)); [|done| |done].
    + change (Ascii.eqb "," ",") with true. cbv iota. rewrite members_space.
      cbn [length Nat.add] in Hread. by rewrite Hread.
    + replace (S (length names + S (S (S (S (S (S (S (S (S fuel))))))))))%nat
        with (9 + (length names + S fuel))%nat by lia. apply Hv.
Qed.

(** The whole document around the text of the entries. *)
Definition document (total entries : string) : string :=
  "{" ++ nl
  ++ "  " ++ quote ++ "total_messages" ++ quote ++ ": " ++ total ++ "," ++ nl
  ++ "  " ++ quote ++ "latency" ++ quote ++ ": {" ++ nl
  ++ entries
  ++ "  }" ++ nl ++ "}" ++ nl.

Lemma document_read k total entries ms :
  number total -> (k <= String.length entries + 32)%nat ->
  (forall fuel s, value (k + fuel) (" " ++ ("{" ++ nl ++ entries ++ "  }") ++ s) = Some (Object ms, s)) ->
  Json.parse (document total entries)
  = Some (Object [("total_messages", Number total); ("latency", Object ms)]).
Proof.
  intros Ht Hk Hv. unfold Json.parse.
  assert (exists fuel, S (String.length (document total entries)) = S (S (S (k + fuel)))) as (fuel & ->).
  { exists (String.length (document total entries) - 2 - k)%nat.
    unfold document. rewrite !slength_app.
    cbn [String.length quote nl]. lia. }
  assert (value (S (S (S (k + fuel)))) (document total entries)
          = Some (Object [("total_messages", Number total); ("latency", Object ms)], nl)) as ->; [|done].
  unfold document. cbn [value]. change (skip_ws ("{" ++ ?x)) with (String "{" x). cbv iota.
  change (Ascii.eqb "{" "{") with true. cbv iota.
  change (match skip_ws (nl ++ "  " ++ quote ++ ?x) with
          | "" => false | String c _ => Ascii.eqb c "}" end) with false. cbv iota.
  rewrite members_space. rewrite (number_next _ 2) by (assumption || reflexivity).
  change ("  " ++ quote ++ "latency" ++ quote ++ ": {" ++ nl ++ ?x)
    with (spaces 2 ++ quote ++ "latency" ++ quote ++ ": " ++ "{" ++ nl ++ x).
  pose proof (members_step (k + fuel) 2 "latency" ("{" ++ nl ++ entries ++ "  }") (Object ms)
    (nl ++ "}" ++ nl) "}"%char nl eq_refl (Hv fuel (nl ++ "}" ++ nl)) eq_refl) as Hm.
  rewrite !string_app_assoc in Hm. rewrite Hm. reflexivity.
Qed.

Lemma table_row_total `{Target} b c name : collector_ok c -> is_ok (table_row b c name) = true.
Proof.
  intros [_ Hc]. unfold table_row, get. destruct (histograms c !! name) as [h|] eqn:E; [|done].
  destruct (count h =? 0); [done|].
  destruct (percentiles_total h (Hc _ _ E)) as (p1 & p2 & p3 & -> & -> & -> & _). done.
Qed.

(** The table can be printed for any collector the gateway builds. *)
Lemma print_table_total `{Target} b c names :
  collector_ok c -> exists text, print_table b c names = Ok text.
Proof.
  intros Hc. assert (exists rows, table_rows b c names = Ok rows) as (rows & Hr).
  { induction names as [|name names (rows & IH)]; [by exists ""|]. cbn [table_rows].
    pose proof (table_row_total b c name Hc) as Hr. apply is_ok_exists in Hr as (row & ->).
    rewrite IH. by eexists. }
  unfold print_table. rewrite Hr. by eexists.
Qed.

Lemma to_json_total `{Target} c names :
  collector_ok c -> exists text, to_json c names = Ok text.
Proof.
  intros [_ Hc]. assert (exists entries, json_entries c names = Ok entries) as (entries & He).
  { induction names as [|name names (entries & IH)]; [by exists ""|]. cbn [json_entries].
    unfold json_entry, get. destruct (histograms c !! name) as [h|] eqn:E.
    - destruct (percentiles_total h (Hc _ _ E)) as (p1 & p2 & p3 & -> & -> & -> & _).
      cbn [mbind checked_bind]. rewrite IH. by eexists.
    - cbn [mbind checked_bind]. rewrite IH. by eexists. }
  unfold to_json. rewrite He. by eexists.
Qed.

End ReporterFacts.

(** ** Properties *)
Section properties.
Import Format LatencyHistogram BenchmarkCollector BenchFacts StatsReporter Json ReporterFacts CppStringFacts.

(** C28: the report printed at shutdown is readable JSON and says what was
    measured: for the collector after any sequence of 64-bit latencies, in
    whatever order the hash table yields the event names, [to_json] reads
    no sample out of bounds and a JSON reader gets back the total and, per
    event, the count, the minimum, the mean (as printed), the three
    percentiles and the maximum; no comma is missing or left over.  The
    names must be free of quotes and the means finite. *)
Theorem stats_json_roundtrip {T : Target} l names :
  let c := record_all empty l in
  Forall is_u64 (map snd l) ->
  names ≡ₚ event_names c ->
  Forall (fun name => plain_name name = true) names ->
  Forall (fun name => forall h, get c name = Some h -> finite (mean h) = true) names ->
  exists text members,
    to_json c names = Ok text
    /\ Json.parse text
       = Some (Object [("total_messages", int (total_messages c)); ("latency", Object members)])
    /\ Forall2 (describes c) names members.
Proof.
  intros c Hl Hperm Hplain Hfin.
  destruct (record_all_collector_ok l Hl) as [Htot Hc]. fold c in Htot, Hc.
  assert (Forall (reportable c) names) as Hr.
  { rewrite list.Forall_forall in Hplain, Hfin |- *. intros name Hin. split; [by apply Hplain|].
    assert (is_Some (histograms c !! name)) as [h Hh].
    { rewrite Hperm in Hin. unfold event_names in Hin. apply list_elem_of_fmap in Hin as ([k h] & -> & Hin).
      apply elem_of_map_to_list in Hin. by eexists. }
    exists h. split; [done|]. split; [by apply (Hc name)|]. by apply (Hfin name). }
  apply print_dec_number in Htot. unfold to_json.
  destruct names as [|name names].
  - do 2 eexists. split; [reflexivity|]. split; [|by constructor].
    apply (document_read 1 _ ""); [done|cbn; lia|]. intros fuel s. reflexivity.
  - destruct (entries_read c (name :: names)) as (text & ms & -> & Hms & Hlen & (r & Hhd) & Hread); [done..|].
    do 2 eexists. split; [reflexivity|]. split; [|exact Hms].
    apply (document_read (S (length (name :: names) + 9)) _ text); [done|lia|]. intros fuel s.
    rewrite !string_app_assoc. cbn [Nat.add value].
    change (skip_ws (" " ++ "{" ++ ?x)) with (String "{" x). cbv iota.
    change (Ascii.eqb "{" "{") with true. cbv iota. rewrite members_space.
    assert (forall x, match skip_ws (nl ++ text ++ x) with
            | "" => false | String c _ => Ascii.eqb c "}" end = false) as Hq
      by (intros x; rewrite Hhd, !string_app_assoc; reflexivity).
    rewrite Hq. replace (length (name :: names) + 9 + fuel)%nat
      with (length (name :: names) + (9 + fuel))%nat by lia.
    by rewrite Hread.
Qed.

Lemma stats_json_roundtrip_witness :
  let c := record_all (T:=x86_64) empty [("dbc_lookup", 3); ("end_to_end", 120); ("dbc_lookup", 4)] in
  exists text members,
    to_json (T:=x86_64) c ["end_to_end"; "dbc_lookup"] = Ok text
    /\ Json.parse text
       = Some (Object [("total_messages", Number "3"); ("latency", Object members)])
    /\ length members = 2%nat.
Proof.
  intros c.
  destruct (stats_json_roundtrip (T:=x86_64) [("dbc_lookup", 3); ("end_to_end", 120); ("dbc_lookup", 4)]
              ["end_to_end"; "dbc_lookup"]) as (text & ms & H1 & H2 & H3).
  - repeat (apply Forall_cons_2; [unfold is_u64; cbn; lia|]). apply Forall_nil_2.
  - vm_compute. repeat constructor.
  - repeat (apply Forall_cons_2; [reflexivity|]). apply Forall_nil_2.
  - repeat (apply Forall_cons_2; [intros h Hh; vm_compute in Hh; injection Hh as <-; vm_compute; reflexivity|]).
    apply Forall_nil_2.
  - exists text, ms. split; [exact H1|]. split; [exact H2|]. apply Forall2_length in H3. by rewrite <- H3.
Defined.

End properties.
