(* ===== verification/Shipped.v ===== *)
(** * The shipped configuration ([src/config/vehicle.dbc], [gateway.conf])

    The two files the gateway loads, as texts, and what they load as.  In
    the database text a tilde stands for the double quote. *)

From Stdlib Require Import SpecFloat Ascii QArith Qabs Qminmax Lqa.
From S2P Require Import Prelude Floats Rounding CppString Types SignalDecoder Accuracy DbcParser ConfigLoader.
Import DecoderSpec.

Fixpoint untilde (s : string) : string :=
  match s with
  | EmptyString => EmptyString
  | String c s => String (if Ascii.eqb c "~"%char then DbcParser.quote else c) (untilde s)
  end.

Definition vehicle_dbc : string := untilde "VERSION ~~

NS_ :

BS_:

BU_:

BO_ 291 EngineData: 8 Vector__XXX
 SG_ EngineRPM : 0|16@1+ (0.25,0) [0|16383.75] ~rpm~ Vector__XXX
 SG_ EngineTemp : 16|8@1+ (0.75,-40) [-40|148.75] ~degC~ Vector__XXX
 SG_ ThrottlePos : 24|8@1+ (0.392157,0) [0|100] ~%~ Vector__XXX

BO_ 292 VehicleSpeed: 8 Vector__XXX
 SG_ VehicleSpeed : 0|16@1+ (0.01,0) [0|655.35] ~km/h~ Vector__XXX
 SG_ WheelSpeed_FL : 16|16@1+ (0.01,0) [0|655.35] ~km/h~ Vector__XXX
 SG_ WheelSpeed_FR : 32|16@1+ (0.01,0) [0|655.35] ~km/h~ Vector__XXX

BO_ 293 BrakeData: 8 Vector__XXX
 SG_ BrakePressure : 0|8@1+ (1,0) [0|255] ~bar~ Vector__XXX
 SG_ BrakeActive : 8|1@1+ (1,0) [0|1] ~~ Vector__XXX
".

Definition gateway_conf : string := "# Automotive Gateway Configuration
# Format: signal_name service_id method_id

# Engine Service (0x0101)
EngineRPM     0x0101 0x8001
EngineTemp    0x0101 0x8002
ThrottlePos   0x0101 0x8003

# Vehicle Speed Service (0x0102)
VehicleSpeed  0x0102 0x8001
WheelSpeed_FL 0x0102 0x8002
WheelSpeed_FR 0x0102 0x8003

# Brake Service (0x0103)
BrakePressure 0x0103 0x8001
BrakeActive   0x0103 0x8002
".

Definition shipped_signal (name : string) (start len : Z) (scale offset lo hi : double) (unit : string)
  : SignalDef :=
  mk_signal name start len false true scale offset lo hi unit.

Definition engine_signals : list SignalDef :=
  [shipped_signal "EngineRPM" 0 16 (quotient 1 4) (d_of_int 0) (d_of_int 0) (quotient 1638375 100) "rpm";
   shipped_signal "EngineTemp" 16 8 (quotient 3 4) (d_of_int (-40)) (d_of_int (-40)) (quotient 14875 100) "degC";
   shipped_signal "ThrottlePos" 24 8 (quotient 392157 1000000) (d_of_int 0) (d_of_int 0) (d_of_int 100) "%"].

Definition speed_signals : list SignalDef :=
  [shipped_signal "VehicleSpeed" 0 16 (quotient 1 100) (d_of_int 0) (d_of_int 0) (quotient 65535 100) "km/h";
   shipped_signal "WheelSpeed_FL" 16 16 (quotient 1 100) (d_of_int 0) (d_of_int 0) (quotient 65535 100) "km/h";
   shipped_signal "WheelSpeed_FR" 32 16 (quotient 1 100) (d_of_int 0) (d_of_int 0) (quotient 65535 100) "km/h"].

Definition brake_signals : list SignalDef :=
  [shipped_signal "BrakePressure" 0 8 (d_of_int 1) (d_of_int 0) (d_of_int 0) (d_of_int 255) "bar";
   shipped_signal "BrakeActive" 8 1 (d_of_int 1) (d_of_int 0) (d_of_int 0) (d_of_int 1) ""].

Definition shipped_messages : gmap Z MessageDef :=
  {[ 291 := mk_message 291 "EngineData" 8 engine_signals;
     292 := mk_message 292 "VehicleSpeed" 8 speed_signals;
     293 := mk_message 293 "BrakeData" 8 brake_signals ]}.

Definition shipped_routes : list ConfigLoader.SignalRoute :=
  [ConfigLoader.mk_route "EngineRPM" 0x0101 0x8001;
   ConfigLoader.mk_route "EngineTemp" 0x0101 0x8002;
   ConfigLoader.mk_route "ThrottlePos" 0x0101 0x8003;
   ConfigLoader.mk_route "VehicleSpeed" 0x0102 0x8001;
   ConfigLoader.mk_route "WheelSpeed_FL" 0x0102 0x8002;
   ConfigLoader.mk_route "WheelSpeed_FR" 0x0102 0x8003;
   ConfigLoader.mk_route "BrakePressure" 0x0103 0x8001;
   ConfigLoader.mk_route "BrakeActive" 0x0103 0x8002].

(** ** Lemmas *)
Lemma vehicle_dbc_loads : DbcParser.parse ∅ (Some vehicle_dbc) = (true, shipped_messages).
Proof. vm_compute. reflexivity. Qed.

Lemma gateway_conf_loads {T : Target} :
  ConfigLoader.load [] (Some gateway_conf) = (true, shipped_routes).
Proof. destruct T as [sb ord [-> | ->]]; vm_compute; reflexivity. Qed.

#[local] Open Scope Q_scope.

(** ** Accuracy

    Each signal with what the database says in exact arithmetic - scale,
    offset, lower and upper limit - and a bound on the error of the value
    transmitted. *)
Record exact_scale := mk_scale { x_scale : Q; x_offset : Q; x_min : Q; x_max : Q; tolerance : Q }.

Definition exact_signals : list (SignalDef * exact_scale) :=
  zip (engine_signals ++ speed_signals ++ brake_signals)
    [mk_scale (1 # 4) 0 0 (1638375 # 100) 0;
     mk_scale (3 # 4) (-40 # 1) (-40 # 1) (14875 # 100) 0;
     mk_scale (392157 # 1000000) 0 0 100 (1 # 131072);
     mk_scale (1 # 100) 0 0 (65535 # 100) (1 # 16384);
     mk_scale (1 # 100) 0 0 (65535 # 100) (1 # 16384);
     mk_scale (1 # 100) 0 0 (65535 # 100) (1 # 16384);
     mk_scale 1 0 0 255 0;
     mk_scale 1 0 0 1 0].

(** These are the decimal numbers of the text.  An exact reader of numbers:
    digits with at most one point. *)
Fixpoint digits_exact (s : string) (num : Z) (den : positive) (point : bool) : Q * string :=
  match s with
  | String c s' =>
      if is_digit c then digits_exact s' (10 * num + digit_value c)%Z (if point then 10 * den else den)%positive point
      else if Ascii.eqb c "." && negb point then digits_exact s' num den true
      else (num # den, s)
  | EmptyString => (num # den, s)
  end.
Definition number_exact (s : string) : Q * string :=
  match s with
  | String "-" s' => let '(q, rest) := digits_exact s' 0 1 false in (- q, rest)
  | _ => digits_exact s 0 1 false
  end.

(** The two numbers between [open], a separator and what ends the second. *)
Fixpoint pair_after (open : ascii) (s : string) : list Q :=
  match s with
  | EmptyString => []
  | String c s' =>
      if Ascii.eqb c open
      then let '(x, rest) := number_exact s' in [x; (number_exact (sdrop 1 rest)).1]
      else pair_after open s'
  end.

(** Scale, offset and limits on each signal line of the database. *)
Definition signal_lines : list string := List.filter (String.prefix " SG_ ") (getlines vehicle_dbc).
Definition line_numbers (line : string) : list Q :=
  map Qred (pair_after "(" line ++ pair_after "[" line).
Definition scale_numbers (c : exact_scale) : list Q :=
  map Qred [x_scale c; x_offset c; x_min c; x_max c].

(** The value the database prescribes for the raw integer [n]. *)
Definition prescribed (c : exact_scale) (n : Z) : Q :=
  Qclamp (x_min c) (x_max c) (inject_Z n * x_scale c + x_offset c).

(** The [float] with these bits is finite and within the tolerance of that. *)
Definition transmits (c : exact_scale) (n bits : Z) : Prop :=
  is_u32 bits /\ is_finite (f_of_bits bits) = true
  /\ Qabs (val (f_of_bits bits) - prescribed c n) <= tolerance c.

(** *** Lemmas *)

(** The signals whose every number is a multiple of a quarter: scale,
    offset and limits in quarters. *)
Definition in_quarters (sig : SignalDef) (c : exact_scale) (q : Z * Z * Z * Z) : bool :=
  let '(s, o, l, h) := q in
  let same x y k := Qeq_bool (val x) (dyadic k (-2)) && Qeq_bool y (dyadic k (-2)) in
  let bounds := (2 ^ sg_length sig * Z.abs s + Z.abs o <? 2 ^ 24)%Z
    && (Z.abs l <? 2 ^ 24)%Z && (Z.abs h <? 2 ^ 24)%Z in
  same (sg_scale sig) (x_scale c) s && same (sg_offset sig) (x_offset c) o
  && same (sg_min_val sig) (x_min c) l && same (sg_max_val sig) (x_max c) h
  && proper_signal sig && bounds.

(** A bound [M] on the limits, and the error of the constants. *)
Definition near_enough (sig : SignalDef) (c : exact_scale) (M : Q) : bool :=
  let close x y := Qle_bool (Qabs (val x - y)) (pow2 (-34)) in
  proper_signal sig && Qeq_bool (val (sg_offset sig)) 0 && Qeq_bool (x_offset c) 0
  && close (sg_min_val sig) (x_min c) && close (sg_max_val sig) (x_max c)
  && Qle_bool (Qabs (val (sg_scale sig) - x_scale c)) (pow2 (-50))
  && Qle_bool (Qabs (val (sg_scale sig))) 1
  && Qle_bool (Qabs (val (sg_min_val sig))) M && Qle_bool (Qabs (val (sg_max_val sig))) M
  && Qle_bool M (pow2 20)
  && Qle_bool (pow2 16 * pow2 (-51) + pow2 (-1073) + M * pow2 (-24) + pow2 (-150) + pow2 (-34)) (tolerance c).

Lemma Qclamp_near lo hi x lo' hi' x' d :
  Qabs (lo - lo') <= d -> Qabs (hi - hi') <= d -> Qabs (x - x') <= d ->
  Qabs (Qclamp lo hi x - Qclamp lo' hi' x') <= d.
Proof.
  rewrite !Qabs_le. intros [] [] []. unfold Qclamp.
  destruct (Q.min_spec hi x) as [[? ->]|[? ->]], (Q.min_spec hi' x') as [[? ->]|[? ->]];
    repeat match goal with |- context [Qmax ?a ?b] => destruct (Q.max_spec a b) as [[? ->]|[? ->]] end;
    split; lra.
Qed.

Definition sent (sig : SignalDef) (n : Z) : float := f_of_double (scaled sig n).

Definition within (sig : SignalDef) (c : exact_scale) (n : Z) : Prop :=
  is_finite (sent sig n) = true /\ Qabs (val (sent sig n) - prescribed c n) <= tolerance c.

Lemma in_quarters_within sig c q n :
  in_quarters sig c q = true -> 0 <= tolerance c -> (0 <= n < 2 ^ sg_length sig)%Z -> (sg_length sig <= 16)%Z ->
  within sig c n.
Proof.
  destruct q as [[[s o] l] h]. unfold in_quarters. rewrite !andb_true_iff, !Qeq_bool_iff, !Z.ltb_lt.
  intros [[[[[[Es Es'] [Eo Eo']] [El El']] [Eh Eh']] Hp] [[Hb Hl] Hh]] Ht Hn H16.
  assert (2 ^ sg_length sig <= 2 ^ 16)%Z by (apply Z.pow_le_mono_r; lia).
  destruct (sent_exact sig n s o l h) as [Hf Hv]; try done; try lia; [nia..|].
  split; [exact Hf|]. unfold sent. rewrite Hv. unfold exact_value, prescribed.
  rewrite Es, Es', Eo, Eo', El, El', Eh, Eh'.
  match goal with |- Qabs (?a - ?a) <= _ => assert (a - a == 0) as -> by ring end. done.
Qed.

Lemma near_enough_within sig c M n :
  near_enough sig c M = true -> (0 <= n < 2 ^ sg_length sig)%Z -> (sg_length sig <= 16)%Z -> within sig c n.
Proof.
  unfold near_enough. rewrite !andb_true_iff, !Qeq_bool_iff, !Qle_bool_iff.
  intros [[[[[[[[[[Hp Ho] Ho'] Hlo] Hhi] Hs] Hs1] Hm1] Hm2] HM] Ht] Hn H16.
  assert (2 ^ sg_length sig <= 2 ^ 16)%Z by (apply Z.pow_le_mono_r; lia).
  assert (0 <= inject_Z n) as Hn0 by (change 0 with (inject_Z 0); rewrite <- Zle_Qle; lia).
  assert (inject_Z n <= pow2 16) as Hn1 by (rewrite <- (pow2_Z 16), <- Zle_Qle by lia; lia).
  assert (forall q d, Qabs q <= d -> Qabs (inject_Z n * q) <= pow2 16 * d) as Hmul.
  { intros q d Hq. pose proof (Qabs_nonneg q). rewrite Qabs_Qmult, (Qabs_pos (inject_Z n)) by done.
    apply Qmult_le_compat_nonneg; split; done. }
  destruct (sent_val sig n (pow2 16) M) as [Hf He]; [done|lia| |by vm_compute|done|done| |].
  { rewrite Ho. change (Qabs 0) with 0. specialize (Hmul _ _ Hs1). lra. }
  { pose proof (pow2_le 20 127 ltac:(lia)). lra. }
  split; [exact Hf|]. unfold sent. set (f := val (f_of_double (scaled sig n))) in *.
  assert (Qabs (exact_value sig n - prescribed c n) <= pow2 (-34)) as Hx.
  { apply Qclamp_near; [done..|]. rewrite Ho, Ho'. specialize (Hmul _ _ Hs).
    assert (inject_Z n * val (sg_scale sig) + 0 - (inject_Z n * x_scale c + 0)
            == inject_Z n * (val (sg_scale sig) - x_scale c)) as -> by ring.
    assert (pow2 16 * pow2 (-50) == pow2 (-34)) as <- by (by rewrite <- pow2_add). done. }
  assert (f - prescribed c n == (f - exact_value sig n) + (exact_value sig n - prescribed c n)) as -> by ring.
  pose proof (Qabs_triangle (f - exact_value sig n) (exact_value sig n - prescribed c n)). lra.
Qed.

(** Which of the two arguments serves a signal. *)
Definition certified (x : SignalDef * exact_scale) (why : (Z * Z * Z * Z) + Q) : bool :=
  negb (sg_is_signed x.1) && (0 <=? sg_length x.1)%Z && (sg_length x.1 <=? 16)%Z
  && match why with
     | inl q => in_quarters x.1 x.2 q && Qle_bool 0 (tolerance x.2)
     | inr M => near_enough x.1 x.2 M
     end.

Definition certificates : list ((Z * Z * Z * Z) + Q) :=
  [inl (1, 0, 0, 65535)%Z; inl (3, -160, -160, 595)%Z; inr (101 # 1); inr (656 # 1); inr (656 # 1); inr (656 # 1);
   inl (4, 0, 0, 1020)%Z; inl (4, 0, 0, 4)%Z].

Lemma shipped_certified : forallb (fun p => certified p.1 p.2) (zip exact_signals certificates) = true.
Proof. vm_compute. reflexivity. Qed.

Lemma certified_within x why n :
  certified x why = true -> (0 <= n < 2 ^ sg_length x.1)%Z -> within x.1 x.2 n.
Proof.
  unfold certified. rewrite !andb_true_iff, !Z.leb_le. intros [[_ H16] Hw] Hn. destruct why as [q|M].
  - rewrite andb_true_iff, Qle_bool_iff in Hw. destruct Hw. by eapply in_quarters_within.
  - by eapply near_enough_within.
Qed.

Lemma exact_signals_within :
  Forall (fun x => negb (sg_is_signed x.1) = true /\ (0 <= sg_length x.1 <= 16)%Z
    /\ forall n, (0 <= n < 2 ^ sg_length x.1)%Z -> within x.1 x.2 n) exact_signals.
Proof.
  pose proof shipped_certified as H. rewrite forallb_forall in H.
  assert (exact_signals = map fst (zip exact_signals certificates)) as -> by reflexivity.
  apply List.Forall_forall. intros x ([y why] & <- & Hin)%in_map_iff. specialize (H _ Hin). cbn [fst snd] in H.
  pose proof H as H'. unfold certified in H'. rewrite !andb_true_iff, !Z.leb_le in H'.
  split_and!; try tauto. intros n Hn. by apply (certified_within y why).
Qed.

Lemma integer_value_unsigned data sig :
  negb (sg_is_signed sig) = true -> (0 <= sg_length sig <= 16)%Z ->
  let n := raw_value data (sg_start_bit sig) (sg_length sig) in
  (0 <= n < 2 ^ sg_length sig)%Z /\ integer_value data sig = n.
Proof.
  intros Hu Hl n. assert (2 ^ sg_length sig <= 2 ^ 16)%Z by (apply Z.pow_le_mono_r; lia).
  assert (0 <= n < 2 ^ sg_length sig)%Z as Hn by (apply Z.mod_pos_bound; pose proof (Z.pow_pos_nonneg 2 (sg_length sig)); lia).
  split; [exact Hn|]. unfold integer_value. apply negb_true_iff in Hu. rewrite Hu. cbn [andb].
  apply SignalDecoderFacts.i64_small. lia.
Qed.

Lemma exact_signals_text : map line_numbers signal_lines = map (fun x => scale_numbers x.2) exact_signals.
Proof. vm_compute. reflexivity. Qed.

(** For every content of a frame, the value the decoder computes. *)
Lemma shipped_within data x :
  x ∈ exact_signals ->
  transmits x.2 (raw_value data (sg_start_bit x.1) (sg_length x.1))
    (f_bits (f_of_double (physical_value data x.1))).
Proof.
  intros Hx. pose proof exact_signals_within as H. rewrite list.Forall_forall in H.
  destruct (H x Hx) as (Hu & Hl & Hw). destruct (integer_value_unsigned data x.1 Hu Hl) as [Hn Hi].
  unfold transmits. rewrite f_bits_roundtrip by apply f_of_double_valid. unfold physical_value. rewrite Hi.
  split; [apply f_bits_range, f_of_double_valid|]. by apply Hw.
Qed.

(** Every signal of the database is described. *)
Lemma shipped_described :
  map_Forall (fun _ m => Forall (fun sig => exists c, (sig, c) ∈ exact_signals) (md_signals m)) shipped_messages.
Proof.
  assert (forall sigs, (forall sig, In sig sigs -> In sig (map fst exact_signals)) ->
    Forall (fun sig => exists c, (sig, c) ∈ exact_signals) sigs) as H.
  { intros sigs Hs. apply List.Forall_forall. intros sig Hin. apply Hs, in_map_iff in Hin as ([sig' c] & <- & Hin).
    exists c. by apply list_elem_of_In. }
  repeat (apply map_Forall_insert_2; [apply H; intros sig Hin; change (map fst exact_signals) with
    (engine_signals ++ speed_signals ++ brake_signals)%list; rewrite !in_app_iff; cbn [md_signals] in Hin; tauto|]).
  apply map_Forall_empty.
Qed.
