(* ===== verification/Gateway.v ===== *)
(** * The gateway ([src/src/main.cpp])

    [Module Gateway] is the program: the components put together, the CAN
    callback, the callbacks of the other descriptors, the signal handler and
    [main].  What the operating system answers is in [environment] (the files
    and the results of the calls made at startup) and in [io] (what the calls
    of one callback find: data, clock readings, the contents of stack memory,
    the order of the hash table's keys).  The state of the program includes
    the base in which [std::cout] prints integers. *)

From Stdlib Require Import SpecFloat QArith_base.
From S2P Require Import Prelude Uds DoipMessage DoipServer DoipTrace.
From S2P Require Import Floats CppString Types SomeIpMessage SomeIpPublisher SomeIpSd SomeIpSdService.
From S2P Require Import SignalDecoder DbcParser ConfigLoader.
From S2P Require Import Benchmark Watchdog EventLoop StatsReporter Shipped.

Module Gateway.
Import BenchmarkCollector.

Definition SOMEIP_PORT : Z := 30490.
Definition SOMEIP_DATA_PORT : Z := 30501.
Definition STATS_EVERY_N : Z := 10.
Definition SD_OFFER_EVERY_N : Z := 100.

(** The objects of [main] that the callbacks share, and the base [std::cout]
    was left in. *)
Record t := mk {
  dbc : gmap Z MessageDef;
  publisher : SomeIpPublisher.t;
  bench : collector;
  watchdog : Watchdog.t;
  can : CanSocket.t;
  sd : SomeIpSdService.t;
  doip : DoIpServer.t;
  frame_count : Z;
  last_offer_frame : Z;
  cout_base : base
}.

(** What the program does: calls of the components, and lines printed. *)
Variant action :=
| Udp (a : net_action)
| Sd (a : SomeIpSdService.action)
| Doip (a : DoIpServer.action)
| WatchdogAlarm
| Printed (text : string).

(** The readings of the clock during one frame. *)
Record clock := mk_clock { at_feed : Z; t0 : Z; t1 : Z; t2 : Z; t3 : Z; at_check : Z }.

(** What one callback finds. *)
Record io := mk_io {
  io_stack : list Z;
  io_can : CanSocket.input;
  io_clock : clock;
  io_names : list string;
  io_sd : SomeIpSdService.input;
  io_accept : Z;
  io_epoll_ctl : Z;
  io_recv : DoIpServer.socket_input
}.

(** The callbacks stored in the event loop. *)
Variant callback := OnCan | OnSd | OnDoipListen | OnDoipClient (client_fd : Z).

Section code.
Context {T : Target} {U : UdsService}.

Definition elapsed_us (from to : Z) : Z := u64 (to - from) / 1000.

(** The end of the CAN callback: the periodic watchdog check, offers and
    statistics. *)
Definition housekeeping (clk : clock) (names : list string) (w : t) : checked (t * list action) :=
  let '(alarm, dog) :=
    if frame_count w mod 50 =? 0 then Watchdog.check (watchdog w) (at_check clk)
    else (false, watchdog w) in
  offers ← (if SD_OFFER_EVERY_N <=? sz (frame_count w - last_offer_frame w)
            then r ← SomeIpSdService.send_offers (sd w); Ok (r.1, r.2, frame_count w)
            else Ok (sd w, [], last_offer_frame w));
  let '(sd', offered, last) := offers in
  table ← (if frame_count w mod STATS_EVERY_N =? 0
           then text ← StatsReporter.print_table (cout_base w) (bench w) names;
                Ok [Printed ("[GW] " +:+ Format.print_int (cout_base w) (frame_count w) +:+ " frames processed"
                             +:+ StatsReporter.nl +:+ text)]
           else Ok []);
  Ok (mk (dbc w) (publisher w) (bench w) dog (can w) sd' (doip w) (frame_count w) last (cout_base w),
      (if alarm then [WatchdogAlarm] else []) ++ map Sd offered ++ table).

(** The CAN callback. *)
Definition on_frame (stack : list Z) (clk : clock) (names : list string) (w : t) (frame : can_frame)
  : checked (t * list action) :=
  let dog := Watchdog.feed (watchdog w) (at_feed clk) in
  let can_id := Z.land (Types.can_id frame) CAN_EFF_MASK in
  match DbcParser.find_message (dbc w) can_id with
  | None =>
      Ok (mk (dbc w) (publisher w) (bench w) dog (can w) (sd w) (doip w)
            (frame_count w) (last_offer_frame w) (cout_base w), [])
  | Some msg =>
      let b := record_event (bench w) "dbc_lookup" (elapsed_us (t0 clk) (t1 clk)) in
      signals ← SignalDecoder.decode frame msg;
      let b := record_event b "signal_decode" (elapsed_us (t1 clk) (t2 clk)) in
      published ← SomeIpPublisher.publish_all stack (publisher w) signals;
      let b := record_event b "someip_publish" (elapsed_us (t2 clk) (t3 clk)) in
      let b := record_event b "end_to_end" (elapsed_us (t0 clk) (t3 clk)) in
      kept ← housekeeping clk names
        (mk (dbc w) published.1 b dog (can w) (sd w) (doip w) (sz (frame_count w + 1))
           (last_offer_frame w) (cout_base w));
      Ok (kept.1, map Udp published.2 ++ kept.2)
  end.

Definition with_sd (w : t) (s : SomeIpSdService.t) (b : base) : t :=
  mk (dbc w) (publisher w) (bench w) (watchdog w) (can w) s (doip w) (frame_count w)
    (last_offer_frame w) b.
Definition with_doip (w : t) (s : DoIpServer.t) (b : base) : t :=
  mk (dbc w) (publisher w) (bench w) (watchdog w) (can w) (sd w) s (frame_count w)
    (last_offer_frame w) b.

(** A subscription is logged in hexadecimal, and the line ends with
    [std::dec]; a message without one logs nothing. *)
Definition sd_base (acts : list SomeIpSdService.action) (b : base) : base :=
  match acts with [] => b | _ => Dec end.

(** Calling a callback: the lambdas given to [add_reader]. *)
Definition invoke (cb : callback) (i : io) (l : EventLoop.t callback) (w : t)
  : checked (EventLoop.step callback t action) :=
  match cb with
  | OnCan =>
      match CanSocket.on_readable (can w) (io_can i) with
      | None => Ok (EventLoop.idle l w)
      | Some frame =>
          r ← on_frame (io_stack i) (io_clock i) (io_names i) w frame;
          Ok (EventLoop.mk_step l r.1 r.2 None)
      end
  | OnSd =>
      r ← SomeIpSdService.on_readable (io_stack i) (sd w) (io_sd i);
      Ok (EventLoop.mk_step l (with_sd w r.1 (sd_base r.2 (cout_base w))) (map Sd r.2) None)
  | OnDoipListen =>
      let '(srv, acts) := DoIpServer.on_accept (doip w) (io_accept i) in
      let '(l, thrown) :=
        if io_accept i <? 0 then (l, None)
        else EventLoop.add_reader l (io_accept i) (OnDoipClient (io_accept i)) (io_epoll_ctl i) in
      Ok (EventLoop.mk_step l (with_doip w srv (cout_base w)) (map Doip acts) thrown)
  | OnDoipClient fd =>
      r ← DoIpServer.on_client_data (doip w) fd (io_recv i);
      b ← DoIpServer.on_client_base (doip w) fd (io_recv i) (cout_base w);
      Ok (EventLoop.mk_step l (with_doip w r.1 b) (map Doip r.2) None)
  end.

(** [handle_sigint], once [g_bench] and [g_loop] are set: the final report
    is printed and the loop stopped. *)
Definition handle_sigint (i : io) (l : EventLoop.t callback) (w : t)
  : checked (EventLoop.step callback t action) :=
  table ← StatsReporter.print_table (cout_base w) (bench w) (io_names i);
  json ← StatsReporter.to_json (bench w) (io_names i);
  Ok (EventLoop.mk_step (EventLoop.stop l) w [Printed table; Printed json] None).

(** What startup finds: the texts of the two files, the address given on the
    command line, and the results of the system calls, in order. *)
Record environment := mk_env {
  conf_file : option string;
  dbc_file : option string;
  local_addr : Z;
  pub_socket : Z;
  epoll_create : Z;
  can_socket : Z; can_ioctl : Z; can_bind : Z;
  sd_socket : Z; sd_bind : Z; sd_ctl : Z;
  can_ctl : Z;
  doip_socket : Z; doip_bind : Z; doip_listen : Z; doip_ctl : Z
}.

Variant started :=
| Fatal (msg : string)
| Started (l : EventLoop.t callback) (w : t) (acts : list action).

(** [inet_addr("239.0.0.1")]. *)
Definition multicast_group : Z := load [239; 0; 0; 1].

Definition register_routes (pub : SomeIpPublisher.t) (routes : list ConfigLoader.SignalRoute)
  : SomeIpPublisher.t :=
  fold_left (fun pub r =>
    SomeIpPublisher.register_signal pub (ConfigLoader.signal_name r) (ConfigLoader.service_id r)
      (ConfigLoader.method_id r)) routes pub.

(** A constructor's exception, or [add_reader]'s, ends the [try] block. *)
Definition attempt {A} (c : A + string) (k : A -> checked started) : checked started :=
  match c with inl a => k a | inr msg => Ok (Fatal msg) end.
Definition attempt_reader (l : EventLoop.t callback) (fd : Z) (cb : callback) (ctl : Z)
    (k : EventLoop.t callback -> checked started) : checked started :=
  match EventLoop.add_reader l fd cb ctl with
  | (l, None) => k l
  | (_, Some msg) => Ok (Fatal msg)
  end.

(** [main] up to [loop.run()]. *)
Definition setup (env : environment) : checked started :=
  let '(loaded, routes) := ConfigLoader.load [] (conf_file env) in
  if negb loaded then Ok (Fatal "Could not load gateway.conf") else
  let '(parsed, messages) := DbcParser.parse ∅ (dbc_file env) in
  if negb parsed then Ok (Fatal "Could not load vehicle.dbc") else
  attempt (SomeIpPublisher.construct multicast_group SOMEIP_PORT (pub_socket env)) (fun pub =>
  let dog := Watchdog.construct 2000000 in
  let pub := register_routes pub routes in
  attempt (EventLoop.construct (epoll_create env)) (fun l =>
  attempt (CanSocket.construct "vcan0" (can_socket env) (can_ioctl env) (can_bind env)) (fun can =>
  attempt (SomeIpSdService.construct (sd_socket env) (sd_bind env)) (fun sd =>
  attempt_reader l (SomeIpSdService.sock_fd sd) OnSd (sd_ctl env) (fun l =>
  let sd := SomeIpSdService.offer_service sd 0x0101 (local_addr env) SOMEIP_DATA_PORT in
  let sd := SomeIpSdService.offer_service sd 0x0102 (local_addr env) SOMEIP_DATA_PORT in
  let sd := SomeIpSdService.offer_service sd 0x0103 (local_addr env) SOMEIP_DATA_PORT in
  offers ← SomeIpSdService.send_offers sd;
  let sd := SomeIpSdService.set_on_subscribe offers.1 in
  let can := (CanSocket.register_with_loop can).1 in
  attempt_reader l (CanSocket.fd can) OnCan (can_ctl env) (fun l =>
  attempt (DoIpServer.construct 13400 (doip_socket env) (doip_bind env) (doip_listen env)) (fun doip =>
  attempt_reader l (DoIpServer.listen_fd doip) OnDoipListen (doip_ctl env) (fun l =>
  Ok (Started l (mk messages pub empty dog can sd doip 0 0 Dec) (map Sd offers.2)))))))))).

(** What [main] returns: 1 after an exception, 0 when the loop was left
    otherwise; nothing yet while it is waiting. *)
Definition exit_code (r : EventLoop.step callback t action * bool) : option Z :=
  match EventLoop.s_thrown r.1 with
  | Some _ => Some 1
  | None => if (r.2 : bool) then Some 0 else None
  end.

(** [main]: the exit code, the state when the loop was left and the actions,
    for a finite list of results of [epoll_wait]; [None] for the exit code
    while the loop is still waiting. *)
Definition main (env : environment) (waits : list (EventLoop.wait_result io))
  : checked (option Z * option t * list action) :=
  s ← setup env;
  match s with
  | Fatal _ => Ok (Some 1, None, [])
  | Started l w acts =>
      r ← EventLoop.run invoke handle_sigint l w waits;
      Ok (exit_code r, Some (EventLoop.s_world r.1), acts ++ EventLoop.s_acts r.1)
  end.

End code.
End Gateway.

(** ** What a frame is forwarded as *)
Module GatewaySpec.
Import Gateway SignalDecoder DecoderSpec SomeIpPublisher PublisherSpec.

(** The signals of a frame, as the database defines them. *)
Definition decoded (frame : can_frame) (msg : MessageDef) : list DecodedSignal :=
  map (fun sig => mk_decoded (sg_name sig) (physical_value (frame_data frame) sig) (sg_unit sig))
    (md_signals msg).

(** Those with a route, in order. *)
Definition values (w : Gateway.t) (frame : can_frame) (msg : MessageDef) : list ((Z * Z) * double) :=
  routed (signal_map (publisher w)) (decoded frame msg).

Definition message_of (w : Gateway.t) (frame : can_frame) : option MessageDef :=
  DbcParser.find_message (dbc w) (Z.land (Types.can_id frame) CAN_EFF_MASK).

(** Every signal of the database can be decoded. *)
Definition decodable_db (messages : gmap Z MessageDef) : Prop :=
  map_Forall (fun _ m => forallb decodable (md_signals m) = true) messages.

(** What the objects of the program satisfy between two callbacks. *)
Record gateway_ok (w : Gateway.t) : Prop := mk_ok {
  ok_messages : map_Forall (fun _ m => message_ok m) (dbc w);
  ok_decodable : decodable_db (dbc w);
  ok_routes : routes_ok (signal_map (publisher w));
  ok_session : is_u16 (session (publisher w));
  ok_bench : BenchFacts.collector_ok (bench w);
  ok_offers : zlen (SomeIpSdService.offered (sd w)) <= 65536;
  ok_connections : DoipTraceFacts.table_inv (doip w)
}.

(** Data from outside are bytes; the stack buffers have 1500 of them. *)
Definition io_ok (i : io) : Prop :=
  zlen (io_stack i) = 1500 /\ bytes (io_stack i)
  /\ match io_can i with CanSocket.ReadBytes l => bytes l | _ => True end
  /\ match io_sd i with SomeIpSdService.Datagram l _ => bytes l | _ => True end
  /\ match io_recv i with DoIpServer.RecvBytes l => bytes l | _ => True end.

(** Successive frames, with what is done for each. *)
Fixpoint frames {T : Target} (w : Gateway.t) (l : list (io * can_frame)) : checked (Gateway.t * list (list action)) :=
  match l with
  | [] => Ok (w, [])
  | (i, frame) :: l =>
      r ← on_frame (io_stack i) (io_clock i) (io_names i) w frame;
      rs ← frames r.1 l;
      Ok (rs.1, r.2 :: rs.2)
  end.

Definition is_offer (a : action) : bool :=
  match a with Sd (SomeIpSdService.Net (SendTo _ _ _)) => true | _ => false end.
Definition is_table (a : action) : bool := match a with Printed _ => true | _ => false end.
Definition is_alarm (a : action) : bool := match a with WatchdogAlarm => true | _ => false end.

(** The report of the signal handler: the table, and the JSON text. *)
Definition report {T : Target} (w : Gateway.t) (i : io) : checked (string * string) :=
  table ← StatsReporter.print_table (cout_base w) (bench w) (io_names i);
  json ← StatsReporter.to_json (bench w) (io_names i);
  Ok (table, json).

(** The watchdog is checked within its timeout of the frame that fed it. *)
Definition prompt (clk : clock) : Prop := u64 (at_check clk - at_feed clk) / 1000 <= 2000000.

End GatewaySpec.

(** ** Lemmas *)
Module GatewayFacts.
Import Gateway GatewaySpec SignalDecoder DecoderSpec SomeIpMessageFacts.
Import SomeIpPublisher PublisherSpec PublisherFacts BenchmarkCollector.

Section facts.
Context {T : Target} {U : UdsService}.

Lemma elapsed_us_u64 a b : is_u64 (elapsed_us a b).
Proof.
  unfold elapsed_us. pose proof (u64_range (b - a)). unfold is_u64 in *.
  split; [apply Z.div_pos; lia|]. apply Z.div_lt_upper_bound; lia.
Qed.

(** The four measurements of a frame. *)
Definition measured (clk : clock) (b : collector) : collector :=
  record_event (record_event (record_event (record_event b
    "dbc_lookup" (elapsed_us (t0 clk) (t1 clk)))
    "signal_decode" (elapsed_us (t1 clk) (t2 clk)))
    "someip_publish" (elapsed_us (t2 clk) (t3 clk)))
    "end_to_end" (elapsed_us (t0 clk) (t3 clk)).

Lemma measured_ok clk b : BenchFacts.collector_ok b -> BenchFacts.collector_ok (measured clk b).
Proof. intros Hb. unfold measured. repeat apply BenchFacts.record_event_ok; auto using elapsed_us_u64. Qed.

Lemma measured_total clk b : total_messages (measured clk b) = sz (total_messages b + 4).
Proof.
  unfold measured, record_event. cbn [total_messages].
  set (x := total_messages b). rewrite (sz_add (x + 1)), (sz_add (x + 1 + 1)), (sz_add (x + 1 + 1 + 1)).
  f_equal. lia.
Qed.

(** The state once a frame has been published. *)
Definition matched (clk : clock) (frame : can_frame) (msg : MessageDef) (w : Gateway.t) : Gateway.t :=
  let l := values w frame msg in
  Gateway.mk (dbc w)
    (with_session (publisher w) (match l with [] => session (publisher w) | _ => u16 (session (publisher w) + zlen l) end))
    (measured clk (bench w)) (Watchdog.feed (watchdog w) (at_feed clk)) (can w) (sd w) (doip w)
    (sz (frame_count w + 1)) (last_offer_frame w) (cout_base w).

Definition forwarded (frame : can_frame) (msg : MessageDef) (w : Gateway.t) : list (list Z) :=
  packets (session (publisher w)) (values w frame msg).

Lemma on_frame_unmatched stack clk names w frame :
  message_of w frame = None ->
  on_frame stack clk names w frame
  = Ok (Gateway.mk (dbc w) (publisher w) (bench w) (Watchdog.feed (watchdog w) (at_feed clk)) (can w) (sd w)
          (doip w) (frame_count w) (last_offer_frame w) (cout_base w), []).
Proof. intros Hm. unfold on_frame. fold (message_of w frame). by rewrite Hm. Qed.

Lemma on_frame_matched stack clk names w frame msg :
  zlen stack = SOMEIP_MAX_SIZE -> frame_ok frame -> gateway_ok w -> message_of w frame = Some msg ->
  on_frame stack clk names w frame
  = (kept ← housekeeping clk names (matched clk frame msg w);
     Ok (kept.1, map Udp (map (sent (publisher w)) (forwarded frame msg w)) ++ kept.2)).
Proof.
  intros Hs (_ & Hb & Hl) Hw Hm. unfold on_frame. fold (message_of w frame). rewrite Hm.
  unfold decode. pose proof (ok_messages w Hw _ _ Hm) as (_ & _ & Hsig).
  rewrite SignalDecoderFacts.decode_signals_ok by done.
  assert (forallb DecoderSpec.decodable (md_signals msg) = true) as -> by exact (ok_decodable w Hw _ _ Hm).
  cbn [mbind checked_bind]. fold (decoded frame msg). rewrite publish_all_ok by done.
  fold (values w frame msg). cbn [mbind checked_bind fst snd]. reflexivity.
Qed.

(** The periodic work at the end of a frame. *)
Definition offers_due (w : Gateway.t) : bool :=
  SD_OFFER_EVERY_N <=? sz (frame_count w - last_offer_frame w).
Definition alarm_raised (clk : clock) (w : Gateway.t) : bool :=
  (frame_count w mod 50 =? 0) && (Watchdog.check (watchdog w) (at_check clk)).1.

Definition offers_sent (w : Gateway.t) : list SomeIpSdService.action :=
  match SomeIpSdService.offered (sd w) with
  | [] => []
  | _ => [SomeIpSdService.Net (SendTo (SomeIpSdService.sock_fd (sd w))
            (SdServiceFacts.offers_packet (sd w)) SomeIpSdService.sd_group)]
  end.

Definition kept (clk : clock) (w : Gateway.t) : Gateway.t :=
  Gateway.mk (dbc w) (publisher w) (bench w)
    (if frame_count w mod 50 =? 0 then (Watchdog.check (watchdog w) (at_check clk)).2 else watchdog w)
    (can w)
    (if offers_due w
     then match SomeIpSdService.offered (sd w) with
          | [] => sd w
          | _ => SomeIpSdService.bump_session (sd w)
          end
     else sd w)
    (doip w) (frame_count w) (if offers_due w then frame_count w else last_offer_frame w) (cout_base w).

Lemma housekeeping_ok clk names w :
  BenchFacts.collector_ok (bench w) -> zlen (SomeIpSdService.offered (sd w)) <= 65536 ->
  exists text,
    housekeeping clk names w
    = Ok (kept clk w,
          (if alarm_raised clk w then [WatchdogAlarm] else [])
          ++ (if offers_due w then map Sd (offers_sent w) else [])
          ++ (if frame_count w mod STATS_EVERY_N =? 0 then [Printed text] else [])).
Proof.
  intros Hb Ho. destruct (ReporterFacts.print_table_total (cout_base w) (bench w) names Hb) as (table & Ht).
  exists ("[GW] " +:+ Format.print_int (cout_base w) (frame_count w) +:+ " frames processed" +:+ StatsReporter.nl +:+ table).
  unfold housekeeping. fold (offers_due w). rewrite Ht, SdServiceFacts.send_offers_ok by done.
  unfold kept, alarm_raised, offers_sent.
  destruct (frame_count w mod 50 =? 0); [destruct (Watchdog.check (watchdog w) (at_check clk)) as [alarm dog]|];
    destruct (offers_due w), (frame_count w mod STATS_EVERY_N =? 0);
    destruct (SomeIpSdService.offered (sd w)) as [|svc svcs]; reflexivity.
Qed.

Lemma kept_ok clk w : gateway_ok w -> gateway_ok (kept clk w).
Proof.
  intros [H1 H2 H3 H4 H5 H6 H7]. constructor; try done. unfold kept. cbn [sd].
  destruct (offers_due w); [|done]. by case (SomeIpSdService.offered (sd w)).
Qed.

Lemma matched_ok clk frame msg w : gateway_ok w -> gateway_ok (matched clk frame msg w).
Proof.
  intros [H1 H2 H3 H4 H5 H6 H7]. constructor; try done; unfold matched; cbn -[values measured].
  - destruct (values w frame msg); [done|]. apply u16_range.
  - by apply measured_ok.
Qed.

Lemma check_timeout dog now : Watchdog.timeout_us (Watchdog.check dog now).2 = Watchdog.timeout_us dog.
Proof. unfold Watchdog.check. by repeat case_match. Qed.

Lemma alarm_after_feed clk frame msg w :
  Watchdog.timeout_us (watchdog w) = 2000000 -> prompt clk ->
  alarm_raised clk (matched clk frame msg w) = false.
Proof.
  intros Ht Hp. unfold alarm_raised, matched, Watchdog.check, Watchdog.feed.
  cbn [watchdog Watchdog.last_feed_ns Watchdog.timeout_us Watchdog.fired].
  unfold prompt in Hp. rewrite Ht, (proj2 (Z.ltb_ge _ _) Hp).
  by destruct (at_feed clk =? 0); rewrite andb_false_r.
Qed.

(** One frame keeps the invariant, and raises no alarm if it is prompt. *)
Definition quiet (a : action) : Prop := a <> WatchdogAlarm.

Lemma on_frame_keeps stack clk names w frame :
  zlen stack = SOMEIP_MAX_SIZE -> frame_ok frame -> gateway_ok w ->
  exists w' acts, on_frame stack clk names w frame = Ok (w', acts) /\ gateway_ok w'
    /\ Watchdog.timeout_us (watchdog w') = Watchdog.timeout_us (watchdog w)
    /\ (Watchdog.timeout_us (watchdog w) = 2000000 -> prompt clk -> Forall quiet acts).
Proof.
  intros Hs Hf Hw. destruct (message_of w frame) as [msg|] eqn:Hm.
  - rewrite (on_frame_matched _ _ _ _ _ msg) by done. pose proof (matched_ok clk frame msg w Hw) as Hw'.
    destruct (housekeeping_ok clk names (matched clk frame msg w)) as (text & ->); [apply Hw'..|].
    do 2 eexists. split; [reflexivity|]. split; [by apply kept_ok|]. split.
    + cbn [fst kept watchdog]. by destruct (_ =? 0); rewrite ?check_timeout.
    + intros Ht Hp. rewrite alarm_after_feed by done. cbn [snd app].
      repeat (apply List.Forall_app; split).
      * by apply List.Forall_map, List.Forall_forall.
      * destruct (offers_due _); [|apply Forall_nil_2]. by apply List.Forall_map, List.Forall_forall.
      * by destruct (_ =? 0); repeat constructor.
  - rewrite on_frame_unmatched by done. do 2 eexists. split; [reflexivity|].
    split; [by destruct Hw|]. split; [done|]. intros _ _. apply Forall_nil_2.
Qed.

Lemma can_frame_ok can inp frame :
  match inp with CanSocket.ReadBytes l => bytes l | _ => True end ->
  CanSocket.on_readable can inp = Some frame -> frame_ok frame.
Proof.
  intros Hb. unfold CanSocket.on_readable. destruct inp as [e|l]; [done|].
  destruct (Z.ltb_spec (zlen (take (Z.to_nat CanSocket.CAN_FRAME_SIZE) l)) CanSocket.CAN_FRAME_SIZE) as [|Hl];
    [done|].
  destruct (CanSocket.has_callback can); [|done]. intros [= <-].
  set (raw := take _ l) in *. assert (bytes raw) as Hr by (by apply bytes_take).
  assert (length raw = 16%nat) as Hlen.
  { unfold zlen, raw, CanSocket.CAN_FRAME_SIZE in *. rewrite length_take in *. lia. }
  unfold CanSocket.frame_of_bytes. split; [|split]; cbn [Types.can_id frame_data].
  - apply load_u32; [by apply bytes_take|]. rewrite length_take. lia.
  - auto with gw.
  - rewrite length_take, length_drop. lia.
Qed.

Lemma map_quiet {A} (f : A -> action) l : (forall a, quiet (f a)) -> Forall quiet (map f l).
Proof. intros H. apply List.Forall_map, List.Forall_forall. auto. Qed.

(** Every callback keeps the invariant.  [Q] says whether the watchdog is
    known to be checked in time. *)
Section invariant.
Context (Q : Prop) (H64 : size_bits = 64).

Definition Inv (_ : EventLoop.t callback) (w : Gateway.t) : Prop :=
  gateway_ok w /\ Watchdog.timeout_us (watchdog w) = 2000000.
Definition Ok_io (i : io) : Prop := io_ok i /\ (Q -> prompt (io_clock i)).
Definition Ok_act (a : action) : Prop := Q -> quiet a.

Abbreviation good := (EventLoopFacts.good Inv Ok_act).

Lemma good_step l w acts thrown :
  Inv l w -> Forall quiet acts -> good (Ok (EventLoop.mk_step l w acts thrown)).
Proof.
  intros Hi Ha. eexists. split; [done|]. split; [done|]. cbn.
  eapply List.Forall_impl; [|exact Ha]. by intros a ? _.
Qed.

Lemma invoke_good cb i l w : Inv l w -> Ok_io i -> good (invoke cb i l w).
Proof using H64.
  intros [Hw Ht] ((Hs & Hsb & Hcan & Hsd & Hrecv) & Hp). destruct cb; cbn [invoke].
  - destruct (CanSocket.on_readable (can w) (io_can i)) as [frame|] eqn:E;
      [|by apply (EventLoopFacts.idle_good Inv Ok_act)].
    destruct (on_frame_keeps (io_stack i) (io_clock i) (io_names i) w frame)
      as (w' & acts & -> & Hw' & Ht' & Ha); [done|by eapply can_frame_ok|done|].
    eexists. split; [reflexivity|]. split; [split; [done|by rewrite <- Ht]|]. cbn.
    rewrite list.Forall_forall in Ha. apply list.Forall_forall. intros a Hin HQ. by apply Ha; auto.
  - assert (exists s acts, SomeIpSdService.on_readable (io_stack i) (sd w) (io_sd i) = Ok (s, acts)
              /\ SomeIpSdService.offered s = SomeIpSdService.offered (sd w)) as (s & acts & -> & Ho).
    { destruct (io_sd i) as [|data from]; [by do 2 eexists|].
      rewrite SdServiceFacts.on_readable_ok by done. do 2 eexists. split; [by rewrite <- surjective_pairing|].
      apply SdServiceFacts.answer_offered. }
    apply good_step; [|by apply map_quiet]. split; [|done].
    destruct Hw. constructor; try done. cbn. by rewrite Ho.
  - destruct (DoipTraceFacts.step_refines (doip w) (Accept (io_accept i)) H64 (ok_connections w Hw) I)
      as (srv & acts & Hok & Hinv & _). cbn in Hok. injection Hok as Hok. rewrite Hok.
    destruct (if io_accept i <? 0 then _ else _) as [l' thrown].
    apply good_step; [|by apply map_quiet]. split; [|done]. by destruct Hw; constructor.
  - destruct (DoipTraceFacts.step_refines (doip w) (Data client_fd (io_recv i)) H64 (ok_connections w Hw))
      as (srv & acts & Hok & Hinv & _); [done|]. cbn in Hok.
    destruct (DoipServerFacts.on_client_base_ok _ _ _ (cout_base w) _ Hok) as (b & Hb).
    rewrite Hok. cbn [mbind checked_bind]. rewrite Hb. cbn [mbind checked_bind].
    apply good_step; [|by apply map_quiet]. split; [|done]. by destruct Hw; constructor.
Qed.

Lemma handle_sigint_total i l w :
  gateway_ok w -> exists table json,
    StatsReporter.print_table (cout_base w) (bench w) (io_names i) = Ok table
    /\ StatsReporter.to_json (bench w) (io_names i) = Ok json
    /\ handle_sigint i l w
       = Ok (EventLoop.mk_step (EventLoop.stop l) w [Printed table; Printed json] None).
Proof.
  intros Hw. unfold handle_sigint.
  destruct (ReporterFacts.print_table_total (cout_base w) (bench w) (io_names i) (ok_bench w Hw)) as (table & ->).
  destruct (ReporterFacts.to_json_total (bench w) (io_names i) (ok_bench w Hw)) as (json & ->).
  by exists table, json.
Qed.

Lemma handle_sigint_good i l w : Inv l w -> good (handle_sigint i l w).
Proof.
  intros Hi. destruct (handle_sigint_total i l w (proj1 Hi)) as (t & j & _ & _ & ->).
  apply good_step; [done|]. by repeat constructor.
Qed.

Lemma run_good l w waits :
  Inv l w -> EventLoopFacts.waits_ok Ok_io waits ->
  EventLoopFacts.good_run Inv Ok_act (EventLoop.run invoke handle_sigint l w waits).
Proof using H64.
  intros Hi Hwaits. unfold EventLoop.run.
  apply (EventLoopFacts.turns_good invoke handle_sigint Inv Ok_io Ok_act); try done.
  - intros. by apply handle_sigint_good.
  - intros. by apply invoke_good.
Qed.

Lemma batch_good l w events :
  Inv l w -> Forall (fun ev => Ok_io (EventLoop.arrival_input ev)) events ->
  good (EventLoop.dispatch invoke handle_sigint l w events).
Proof using H64.
  intros Hi Hev. apply (EventLoopFacts.dispatch_good invoke handle_sigint Inv Ok_io Ok_act); try done.
  - intros. by apply handle_sigint_good.
  - intros. by apply invoke_good.
Qed.

End invariant.

Lemma waits_ok_impl (P Q : io -> Prop) waits :
  (forall i, P i -> Q i) -> EventLoopFacts.waits_ok P waits -> EventLoopFacts.waits_ok Q waits.
Proof.
  intros HPQ Hw. eapply List.Forall_impl; [|exact Hw]. intros [errno|evs|i|i]; [done| |auto..].
  intros Hev. eapply List.Forall_impl; [|exact Hev]. auto.
Qed.

Lemma io_ok_events (evs : list (EventLoop.arrival io)) :
  Forall (fun ev => io_ok (EventLoop.arrival_input ev)) evs ->
  Forall (fun ev => Ok_io False (EventLoop.arrival_input ev)) evs.
Proof. intros H. eapply List.Forall_impl; [|exact H]. by split. Qed.

(** *** Periodic work *)
Lemma existsb_map_false {A} (f : action -> bool) (g : A -> action) l :
  (forall a, f (g a) = false) -> existsb f (map g l) = false.
Proof. intros H. induction l as [|a l IH]; [done|]. cbn. by rewrite H, IH. Qed.

(** What is done for the n-th matched frame, [n] from one. *)
Definition on_schedule (n : Z) (acts : list action) : Prop :=
  existsb is_offer acts = (n mod 100 =? 0)
  /\ existsb is_table acts = (n mod 10 =? 0)
  /\ (existsb is_alarm acts = true -> n mod 50 = 0).

Definition scheduled (n : Z) (w : Gateway.t) : Prop :=
  gateway_ok w /\ SomeIpSdService.offered (sd w) <> []
  /\ frame_count w = n /\ last_offer_frame w = 100 * (n / 100).

Lemma on_frame_scheduled stack clk names w frame n :
  zlen stack = SOMEIP_MAX_SIZE -> frame_ok frame -> is_Some (message_of w frame) ->
  0 <= n < 4294967295 -> scheduled n w ->
  exists w' acts, on_frame stack clk names w frame = Ok (w', acts)
    /\ on_schedule (n + 1) acts /\ scheduled (n + 1) w' /\ dbc w' = dbc w.
Proof.
  intros Hs Hf [msg Hm] Hn (Hw & Ho & Hc & Hl). rewrite (on_frame_matched _ _ _ _ _ msg) by done.
  pose proof (matched_ok clk frame msg w Hw) as Hw'.
  destruct (housekeeping_ok clk names (matched clk frame msg w)) as (text & ->); [apply Hw'..|].
  assert (frame_count (matched clk frame msg w) = n + 1) as Hc'
    by (cbn -[values]; rewrite Hc; apply sz_small; lia).
  assert (offers_due (matched clk frame msg w) = ((n + 1) mod 100 =? 0)) as Hd.
  { unfold offers_due. rewrite Hc'. cbn [matched last_offer_frame]. rewrite Hl, sz_small by zlia.
    unfold SD_OFFER_EVERY_N. zlia. }
  do 2 eexists. split; [reflexivity|]. cbn [snd]. split; [|split]; [| |done].
  - unfold on_schedule. rewrite !existsb_app, Hd, Hc'.
    rewrite !(existsb_map_false _ Udp) by (intros; reflexivity).
    unfold alarm_raised. rewrite Hc'. unfold STATS_EVERY_N, offers_sent.
    generalize (Watchdog.check (watchdog (matched clk frame msg w)) (at_check clk)).1. intros alarm.
    cbn [matched sd].
    destruct (SomeIpSdService.offered (sd w)); [done|].
    destruct ((n + 1) mod 100 =? 0), ((n + 1) mod 10 =? 0), (Z.eqb_spec ((n + 1) mod 50) 0);
      destruct alarm; cbn; by split_and!.
  - unfold scheduled. split; [by apply kept_ok|]. unfold kept. rewrite Hc', Hd.
    cbn [sd frame_count last_offer_frame fst matched]. split_and!; try done.
    + destruct ((n + 1) mod 100 =? 0); [|done]. by destruct (SomeIpSdService.offered (sd w)) eqn:E; [|cbn; rewrite E].
    + rewrite Hl. destruct (Z.eqb_spec ((n + 1) mod 100) 0); zlia.
Qed.

Lemma frames_scheduled l : forall w n,
  0 <= n -> n + zlen l < 4294967296 -> scheduled n w ->
  Forall (fun x => zlen (io_stack x.1) = SOMEIP_MAX_SIZE /\ frame_ok x.2 /\ is_Some (message_of w x.2)) l ->
  exists w' outs, frames w l = Ok (w', outs) /\ scheduled (n + zlen l) w' /\ length outs = length l
    /\ forall k out, outs !! k = Some out -> on_schedule (n + Z.of_nat k + 1) out.
Proof.
  induction l as [|[i frame] l IH]; intros w n Hn Hlen Hw Hall.
  - exists w, []. rewrite zlen_nil, Z.add_0_r. by split_and!.
  - inversion_clear Hall as [|? ? (Hs & Hf & Hm) Hall']. cbn [fst snd] in *.
    rewrite zlen_cons in Hlen. pose proof (zlen_nonneg l).
    destruct (on_frame_scheduled (io_stack i) (io_clock i) (io_names i) w frame n)
      as (w1 & acts & H1 & Hsch & Hw1 & Hdb); [done..|lia|done|].
    destruct (IH w1 (n + 1)) as (w2 & outs & H2 & Hw2 & Hlo & Hk); [lia|lia|done| |].
    { eapply List.Forall_impl; [|exact Hall']. intros y. unfold message_of. by rewrite Hdb. }
    exists w2, (acts :: outs). cbn [frames]. rewrite H1. cbn [mbind checked_bind fst snd]. rewrite H2.
    rewrite zlen_cons. replace (n + (1 + zlen l)) with (n + 1 + zlen l) by lia.
    split_and!; [done|done|cbn; by rewrite Hlo|].
    intros [|k] out Ho; cbn in Ho.
    + injection Ho as <-. by replace (n + Z.of_nat 0 + 1) with (n + 1) by lia.
    + replace (n + Z.of_nat (S k) + 1) with (n + 1 + Z.of_nat k + 1) by lia. by apply Hk.
Qed.

(** *** Startup *)
Lemma register_routes_wf pub routes :
  routes_ok (signal_map pub) -> Forall ConfigFacts.route_wf routes ->
  routes_ok (signal_map (register_routes pub routes))
  /\ session (register_routes pub routes) = session pub.
Proof.
  intros Hp Hr. revert pub Hp. induction Hr as [|r routes [H1 H2] Hr IH]; intros pub Hp; [done|].
  cbn. destruct (IH (register_signal pub (ConfigLoader.signal_name r) (ConfigLoader.service_id r)
    (ConfigLoader.method_id r))) as [IH1 IH2]; [by apply register_routes_ok|]. done.
Qed.

Lemma load_wf file : Forall ConfigFacts.route_wf (ConfigLoader.load [] file).2.
Proof. destruct file; [|by constructor]. by apply ConfigFacts.load_lines_wf. Qed.

Lemma parse_wf file : map_Forall (fun _ m => message_ok m) (DbcParser.parse ∅ file).2.
Proof.
  destruct file as [text|]; [|apply map_Forall_empty]. intros id m Hm.
  assert (DbcInvariant.state_ok (DbcParser.parse_lines (DbcParser.mk ∅ 0 false) (getlines text))) as [H _].
  { apply DbcInvariant.parse_lines_ok. by split; [apply map_Forall_empty|]. }
  by apply H in Hm as [_ ?].
Qed.

Lemma setup_total env :
  decodable_db (DbcParser.parse ∅ (dbc_file env)).2 ->
  exists s, setup env = Ok s
    /\ match s with
       | Fatal _ => True
       | Started l w acts => Inv l w /\ frame_count w = 0 /\ last_offer_frame w = 0
           /\ Forall quiet acts
       end.
Proof.
  intros Hdec. unfold setup.
  pose proof (load_wf (conf_file env)) as Hroutes. pose proof (parse_wf (dbc_file env)) as Hmsgs.
  destruct (ConfigLoader.load [] (conf_file env)) as [[] routes]; cbn [negb]; [|by eexists].
  destruct (DbcParser.parse ∅ (dbc_file env)) as [[] messages]; cbn [negb]; [|by eexists].
  cbn [snd] in *. unfold construct, EventLoop.construct, CanSocket.construct, SomeIpSdService.construct,
    DoIpServer.construct, attempt_reader, EventLoop.add_reader.
  repeat (case_match; cbn [attempt]; [first [discriminate | by eexists]|]).
  rewrite SdServiceFacts.send_offers_ok by done.
  cbn -[ConfigLoader.load DbcParser.parse register_routes SdServiceFacts.offers_packet SomeIpSdService.sd_group].
  repeat (case_match; cbn [attempt]; [first [discriminate | by eexists]|]).
  destruct (register_routes_wf (SomeIpPublisher.mk (pub_socket env) SOMEIP_PORT 1
    (mk_sockaddr multicast_group SOMEIP_PORT) ∅) routes) as [Hr1 Hr2]; [by apply map_Forall_empty|done|].
  cbn [session] in Hr2. assert (is_u16 1) as Hs by done. rewrite <- Hr2 in Hs.
  eexists. split; [reflexivity|]. split_and!; try done.
  constructor; first [done | apply BenchFacts.empty_ok | apply map_Forall_empty].
Qed.

(** *** Shutting down *)
Lemma run_inv env l w acts pre r :
  size_bits = 64 -> decodable_db (DbcParser.parse ∅ (dbc_file env)).2 ->
  setup env = Ok (Started l w acts) -> EventLoopFacts.waits_ok io_ok pre ->
  EventLoop.run invoke handle_sigint l w pre = Ok r -> Inv (EventLoop.s_loop r.1) (EventLoop.s_world r.1).
Proof.
  intros H64 Hdec Hs Hpre Hr. destruct (setup_total env Hdec) as (s & Hs' & Hst).
  rewrite Hs in Hs'. injection Hs' as <-. destruct Hst as (Hi & _).
  destruct (run_good False H64 l w pre Hi) as (r' & Hr' & Hi' & _).
  { eapply waits_ok_impl; [|exact Hpre]. by split. }
  rewrite Hr in Hr'. by injection Hr' as <-.
Qed.

Lemma signal_report i l w : gateway_ok w -> exists table json,
  report w i = Ok (table, json)
  /\ handle_sigint i l w = Ok (EventLoop.mk_step (EventLoop.stop l) w [Printed table; Printed json] None).
Proof.
  intros Hw. destruct (handle_sigint_total i l w Hw) as (table & json & H1 & H2 & H3).
  exists table, json. unfold report. rewrite H1. cbn [mbind checked_bind]. by rewrite H2.
Qed.

(** Nothing but [run] sets [running_]. *)
Lemma invoke_running cb i l w r : invoke cb i l w = Ok r ->
  EventLoop.running (EventLoop.s_loop r) = EventLoop.running l.
Proof.
  destruct cb; cbn [invoke].
  - destruct (CanSocket.on_readable (can w) (io_can i)) as [frame|]; [|by intros [= <-]].
    destruct (on_frame _ _ _ _ _); [|done]. by intros [= <-].
  - destruct (SomeIpSdService.on_readable _ _ _); [|done]. by intros [= <-].
  - destruct (DoIpServer.on_accept _ _). destruct (io_accept i <? 0); by intros [= <-].
  - destruct (DoIpServer.on_client_data _ _ _); [|done]. cbn [mbind checked_bind].
    destruct (DoIpServer.on_client_base _ _ _ _); [|done]. by intros [= <-].
Qed.

Lemma handle_sigint_stops i l w r : handle_sigint i l w = Ok r ->
  EventLoop.running (EventLoop.s_loop r) = false.
Proof.
  unfold handle_sigint. destruct (StatsReporter.print_table _ _ _); [|done]. cbn [mbind checked_bind].
  destruct (StatsReporter.to_json _ _); [|done]. by intros [= <-].
Qed.

Lemma batch_stopped events : forall l w r,
  EventLoop.running l = false -> EventLoop.dispatch invoke handle_sigint l w events = Ok r ->
  EventLoop.running (EventLoop.s_loop r) = false.
Proof.
  induction events as [|ev events IH]; intros l w r Hl; cbn [EventLoop.dispatch]; [by intros [= <-]|].
  match goal with |- (_ ← ?c; _) = _ -> _ => destruct c as [r1|] eqn:E; [|done] end. cbn [mbind checked_bind].
  assert (EventLoop.running (EventLoop.s_loop r1) = false) as H1.
  { destruct ev as [fd mask i|i]; [|by eapply handle_sigint_stops]. unfold EventLoop.handle_event in E.
    destruct (negb _); [|by injection E as <-].
    destruct (EventLoop.readers l !! fd); [|by injection E as <-]. by rewrite (invoke_running _ _ _ _ _ E). }
  unfold EventLoop.and_then. destruct (EventLoop.s_thrown r1); [by intros [= <-]|].
  destruct (EventLoop.dispatch _ _ _ _ events) as [r2|] eqn:E2; [|done]. intros [= <-].
  exact (IH _ _ _ H1 E2).
Qed.

(** A loop told to stop finishes the batch it is in and looks at nothing else. *)
Lemma stopped_turns l w waits : EventLoop.running l = false ->
  EventLoop.turns invoke handle_sigint false l w waits = Ok (EventLoop.idle l w, true).
Proof. intros Hl. destruct waits; cbn [EventLoop.turns orb]; by rewrite Hl. Qed.

Lemma stopped_batch l w events :
  size_bits = 64 -> Inv l w -> EventLoop.running l = false ->
  Forall (fun ev => io_ok (EventLoop.arrival_input ev)) events ->
  exists r, EventLoop.dispatch invoke handle_sigint l w events = Ok r
    /\ forall waits, EventLoop.then_run r (fun l w => EventLoop.turns invoke handle_sigint false l w waits)
         = Ok (r, true).
Proof.
  intros H64 Hi Hl Hev. destruct (batch_good False H64 l w events Hi (io_ok_events _ Hev)) as (r & Hr & _).
  exists r. split; [done|]. intros waits. pose proof (batch_stopped _ _ _ _ Hl Hr) as Hs.
  unfold EventLoop.then_run. rewrite stopped_turns by done. destruct r as [l' w' a [msg|]]; [done|].
  cbn. by rewrite app_nil_r.
Qed.

(** [main] over a run that was still waiting and what comes then. *)
Lemma main_continues env l w acts pre r rest x :
  setup env = Ok (Started l w acts) ->
  EventLoop.run invoke handle_sigint l w pre = Ok r -> r.2 = false ->
  EventLoop.turns invoke handle_sigint true (EventLoop.s_loop r.1) (EventLoop.s_world r.1) rest = Ok x ->
  main env (pre ++ rest)
  = Ok (exit_code x, Some (EventLoop.s_world x.1), acts ++ EventLoop.s_acts r.1 ++ EventLoop.s_acts x.1).
Proof.
  intros Hs Hr Hw Hx. unfold main. rewrite Hs. cbn [mbind checked_bind].
  unfold EventLoop.run in *. pose proof (EventLoopFacts.turns_thrown _ _ _ _ _ _ _ Hr Hw) as Ht.
  rewrite EventLoopFacts.turns_app, Hr. cbn [mbind checked_bind]. rewrite Hw.
  unfold EventLoop.then_run. rewrite Ht, Hx. by destruct x as [[] ?].
Qed.

Lemma interrupted_turn l w i w1 acts l1 post :
  handle_sigint i l w = Ok (EventLoop.mk_step (EventLoop.stop l1) w1 acts None) ->
  EventLoop.turns invoke handle_sigint true l w (EventLoop.Interrupted i :: post)
  = Ok (EventLoop.mk_step (EventLoop.stop l1) w1 acts None, true).
Proof.
  intros Hsig. cbn [EventLoop.turns orb negb]. rewrite Hsig. cbn [mbind checked_bind].
  unfold EventLoop.then_run. cbn [EventLoop.s_thrown EventLoop.s_loop EventLoop.s_world EventLoop.s_acts].
  rewrite stopped_turns by done. cbn. by rewrite app_nil_r.
Qed.

Lemma late_turn l w i w1 acts l1 post x :
  handle_sigint i l w = Ok (EventLoop.mk_step l1 w1 acts None) ->
  EventLoop.turns invoke handle_sigint true l1 w1 post = Ok x ->
  EventLoop.turns invoke handle_sigint true l w (EventLoop.Late i :: post)
  = Ok (EventLoop.mk_step (EventLoop.s_loop x.1) (EventLoop.s_world x.1) (acts ++ EventLoop.s_acts x.1)
          (EventLoop.s_thrown x.1), x.2).
Proof.
  intros Hsig Hx. cbn [EventLoop.turns orb negb]. rewrite Hsig. cbn [mbind checked_bind].
  unfold EventLoop.then_run. cbn [EventLoop.s_thrown EventLoop.s_loop EventLoop.s_world EventLoop.s_acts].
  by rewrite Hx.
Qed.

Lemma signalled_batch l w evs1 r1 i sacts evs2 r2 l1 post :
  EventLoop.dispatch invoke handle_sigint l w evs1 = Ok r1 -> EventLoop.s_thrown r1 = None ->
  handle_sigint i (EventLoop.s_loop r1) (EventLoop.s_world r1)
  = Ok (EventLoop.mk_step l1 (EventLoop.s_world r1) sacts None) ->
  EventLoop.dispatch invoke handle_sigint l1 (EventLoop.s_world r1) evs2 = Ok r2 ->
  (forall waits, EventLoop.then_run r2 (fun l w => EventLoop.turns invoke handle_sigint false l w waits)
    = Ok (r2, true)) ->
  EventLoop.turns invoke handle_sigint true l w (EventLoop.Ready (evs1 ++ EventLoop.Signal i :: evs2) :: post)
  = Ok (EventLoop.mk_step (EventLoop.s_loop r2) (EventLoop.s_world r2)
          (EventLoop.s_acts r1 ++ sacts ++ EventLoop.s_acts r2) (EventLoop.s_thrown r2), true).
Proof.
  intros H1 Ht Hsig H2 Hend. cbn [EventLoop.turns orb negb]. rewrite EventLoopFacts.dispatch_app, H1.
  cbn [mbind checked_bind]. unfold EventLoop.and_then at 1. rewrite Ht. cbn [EventLoop.dispatch].
  rewrite Hsig. cbn [mbind checked_bind]. unfold EventLoop.and_then.
  cbn [EventLoop.s_thrown EventLoop.s_loop EventLoop.s_world EventLoop.s_acts]. rewrite H2.
  cbn [mbind checked_bind EventLoop.s_thrown EventLoop.s_loop EventLoop.s_world EventLoop.s_acts].
  specialize (Hend post). revert Hend. unfold EventLoop.then_run.
  cbn [EventLoop.s_thrown EventLoop.s_loop EventLoop.s_world EventLoop.s_acts].
  destruct (EventLoop.s_thrown r2) eqn:E; [done|].
  destruct (EventLoop.turns _ _ _ _ _ _) as [x|]; [|done]. cbn [mbind checked_bind].
  destruct r2 as [l2 w2 a2 t2], x as [[l3 w3 a3 t3] c]. cbn in *. intros [= -> -> Ha -> ->].
  by rewrite <- !app_assoc, Ha, E.
Qed.

(** *** The shipped files *)
Lemma shipped_decodable : decodable_db shipped_messages.
Proof. repeat (apply map_Forall_insert_2; [reflexivity|]). apply map_Forall_empty. Qed.

Lemma shipped_messages_ok : map_Forall (fun _ m => message_ok m) shipped_messages.
Proof. pose proof (parse_wf (Some vehicle_dbc)) as H. by rewrite vehicle_dbc_loads in H. Qed.

Lemma shipped_ids id : is_Some (shipped_messages !! id) <-> id ∈ [0x123; 0x124; 0x125].
Proof.
  unfold shipped_messages. rewrite !lookup_insert_is_Some', lookup_singleton_is_Some.
  rewrite !elem_of_cons, elem_of_nil. lia.
Qed.

(** Signals that all have a route are all forwarded. *)
Lemma routed_all m sigs :
  forallb (fun s => bool_decide (is_Some (m !! ds_name s))) sigs = true ->
  length (routed m sigs) = length sigs.
Proof.
  induction sigs as [|s sigs IH]; [done|]. cbn [forallb]. intros [Hs Hr]%andb_true_iff.
  apply bool_decide_eq_true in Hs as [r Hs]. unfold routed. rewrite bind_cons.
  fold (routed m sigs). rewrite Hs. cbn. by rewrite IH.
Qed.

Definition shipped_map : gmap string (Z * Z) :=
  signal_map (register_routes (SomeIpPublisher.mk 0 0 0 (mk_sockaddr 0 0) ∅) shipped_routes).

Lemma shipped_map_routes pub :
  signal_map pub = ∅ -> signal_map (register_routes pub shipped_routes) = shipped_map.
Proof. intros H. unfold shipped_map, register_routes, shipped_routes. cbn. by rewrite H. Qed.

Lemma shipped_all_routed :
  forallb (fun id => match shipped_messages !! id with
    | Some m => forallb (fun s => bool_decide (is_Some (shipped_map !! sg_name s))) (md_signals m)
    | None => false end) [0x123; 0x124; 0x125] = true.
Proof. vm_compute. reflexivity. Qed.

Lemma shipped_values w frame msg :
  dbc w = shipped_messages -> signal_map (publisher w) = shipped_map ->
  message_of w frame = Some msg -> length (values w frame msg) = length (md_signals msg).
Proof.
  intros Hd Hm Hf. unfold message_of, DbcParser.find_message in Hf. rewrite Hd in Hf.
  unfold values, decoded. rewrite Hm, routed_all; [by rewrite length_map|].
  set (id := Z.land _ _) in Hf. assert (id ∈ [0x123; 0x124; 0x125]) as Hin by (apply shipped_ids; by eexists).
  pose proof shipped_all_routed as Hall. rewrite forallb_forall in Hall.
  specialize (Hall id (proj1 (list_elem_of_In _ _) Hin)). rewrite Hf in Hall.
  rewrite forallb_forall in *. intros d Hd'. apply in_map_iff in Hd' as (sig & <- & Hs). by apply Hall.
Qed.

(** Signals that all have a route, one by one. *)
Lemma routed_each (P : SignalDef -> Prop) data m sigs :
  Forall (fun sig => P sig /\ is_Some (m !! sg_name sig)) sigs ->
  Forall2 (fun sig x => P sig /\ m !! sg_name sig = Some x.1 /\ x.2 = physical_value data sig)
    sigs (routed m (map (fun sig => mk_decoded (sg_name sig) (physical_value data sig) (sg_unit sig)) sigs)).
Proof.
  induction 1 as [|sig sigs [HP [r Hr]] _ IH]; [apply Forall2_nil_2|]. cbn [map]. unfold routed. rewrite bind_cons.
  cbn [ds_name ds_value]. rewrite Hr. by apply Forall2_cons_2.
Qed.

(** Each is sent with some session number. *)
Lemma packets_each sess l :
  Forall (fun x => is_u16 x.1.1 /\ is_u16 x.1.2) l ->
  Forall2 (fun x p => exists sess, parse_packet p
    = Some (notification x.1.1 x.1.2 sess (be32 (f_bits (f_of_double x.2))))) l (packets (u16 sess) l).
Proof.
  intros H. revert sess. induction H as [|[r v] l Hr _ IH]; intros sess; [apply Forall2_nil_2|].
  cbn [packets]. apply Forall2_cons_2; [|apply IH]. eexists. by apply PublisherFacts.parse_signal_packet.
Qed.

Lemma shipped_each msg id :
  shipped_messages !! id = Some msg ->
  Forall (fun sig => (exists c, (sig, c) ∈ exact_signals) /\ is_Some (shipped_map !! sg_name sig)) (md_signals msg).
Proof.
  intros Hm. assert (id ∈ [0x123; 0x124; 0x125]) as Hin by (apply shipped_ids; by eexists).
  pose proof shipped_all_routed as Hall. rewrite forallb_forall in Hall.
  specialize (Hall id (proj1 (list_elem_of_In _ _) Hin)). rewrite Hm, forallb_forall in Hall.
  pose proof (shipped_described id msg Hm) as Hd. rewrite List.Forall_forall in Hd. apply List.Forall_forall.
  intros sig Hs. split; [by apply Hd|]. specialize (Hall _ Hs). by apply bool_decide_eq_true in Hall.
Qed.

Lemma shipped_forwarded w frame msg :
  gateway_ok w -> dbc w = shipped_messages -> signal_map (publisher w) = shipped_map ->
  message_of w frame = Some msg ->
  Forall2 (fun sig p => exists route sess,
      (exists c, (sig, c) ∈ exact_signals) /\ signal_map (publisher w) !! sg_name sig = Some route
      /\ parse_packet p = Some (notification route.1 route.2 sess
           (be32 (f_bits (f_of_double (physical_value (frame_data frame) sig))))))
    (md_signals msg) (forwarded frame msg w).
Proof.
  intros Hw Hd Hm Hf. unfold message_of, DbcParser.find_message in Hf. rewrite Hd in Hf.
  apply shipped_each in Hf. rewrite <- Hm in Hf. apply (routed_each _ (frame_data frame)) in Hf.
  fold (decoded frame msg) in Hf. fold (values w frame msg) in Hf.
  assert (Forall (fun x => is_u16 x.1.1 /\ is_u16 x.1.2) (values w frame msg)) as Hu.
  { apply list.Forall_forall. intros [r v] Hin. by eapply PublisherFacts.routed_ok; [apply Hw|]. }
  apply (packets_each (session (publisher w))) in Hu. rewrite u16_small in Hu by apply Hw.
  eapply Forall2_trans; [|exact Hf|exact Hu].
  cbv beta. intros sig [r v] p (H1 & H2 & H3) (sess & H4). cbn [fst snd] in *. subst v.
  exists r, sess. by split_and!.
Qed.

End facts.
End GatewayFacts.

(** ** Properties *)
Section properties.
Import Gateway GatewaySpec GatewayFacts SomeIpPublisher PublisherSpec SomeIpMessageFacts.

(** C1: a CAN frame goes all the way through.  If the database knows its
    identifier (without the flag bits), the callback never fails and sends,
    in the order of the signals, one SOME/IP notification per signal that
    has a route: a receiver reads from the k-th the route's service and
    method, the k-th next session number and the physical value the database
    gives for the frame's bits, rounded to [float].  Nothing else goes to the
    data socket, one frame and four measurements are counted, and the
    diagnostic server is untouched.  Any other frame feeds the watchdog and
    does nothing else. *)
Theorem gateway_frame_forwarded {T : Target} stack clk names w frame :
  zlen stack = SOMEIP_MAX_SIZE -> frame_ok frame -> gateway_ok w ->
  match message_of w frame with
  | None =>
      on_frame stack clk names w frame
      = Ok (Gateway.mk (dbc w) (publisher w) (bench w) (Watchdog.feed (watchdog w) (at_feed clk))
              (can w) (sd w) (doip w) (frame_count w) (last_offer_frame w) (cout_base w), [])
  | Some msg =>
      let l := values w frame msg in
      exists w' pkts rest,
        on_frame stack clk names w frame
        = Ok (w', map (fun p => Udp (SendTo (sock_fd (publisher w)) p (dest_addr (publisher w)))) pkts ++ rest)
        /\ Forall (fun a => match a with Udp _ | Doip _ => False | _ => True end) rest
        /\ length pkts = length l
        /\ (forall k r v, l !! k = Some (r, v) ->
             exists p, pkts !! k = Some p
               /\ parse_packet p = Some (notification r.1 r.2 (u16 (session (publisher w) + Z.of_nat k))
                                           (be32 (f_bits (f_of_double v)))))
        /\ session (publisher w') = u16 (session (publisher w) + zlen l)
        /\ signal_map (publisher w') = signal_map (publisher w)
        /\ frame_count w' = sz (frame_count w + 1)
        /\ BenchmarkCollector.total_messages (bench w') = sz (BenchmarkCollector.total_messages (bench w) + 4)
        /\ doip w' = doip w /\ dbc w' = dbc w
  end.
Proof.
  intros Hs Hf Hw. destruct (message_of w frame) as [msg|] eqn:Hm; [|by apply on_frame_unmatched].
  intros l. rewrite (on_frame_matched _ _ _ _ _ msg) by done.
  pose proof (matched_ok clk frame msg w Hw) as Hw'.
  destruct (housekeeping_ok clk names (matched clk frame msg w)) as (text & ->); [apply Hw'..|].
  exists (kept clk (matched clk frame msg w)), (forwarded frame msg w). eexists.
  split; [by rewrite map_map|]. split.
  { repeat (apply List.Forall_app; split); try (by repeat case_match; repeat constructor).
    destruct (offers_due _); [|apply Forall_nil_2]. by apply List.Forall_map, List.Forall_forall. }
  split; [apply PublisherFacts.packets_length|]. split.
  { intros k r v Hk. eexists. split; [by apply PublisherFacts.packets_lookup; [apply Hw|]|].
    apply PublisherFacts.parse_signal_packet. eapply PublisherFacts.routed_ok; [apply Hw|].
    by eapply list_elem_of_lookup_2. }
  split_and!; try done; [|apply measured_total].
  cbn -[values]. fold l. destruct l; [|done].
  change (zlen []) with 0. rewrite Z.add_0_r, u16_small; [done|apply Hw].
Qed.

(** The gateway as it starts on the shipped files. *)
Definition shipped_env (addr : Z) : environment :=
  mk_env (Some gateway_conf) (Some vehicle_dbc) addr 5 6 7 0 0 8 0 0 0 9 0 0 0.

Definition shipped_loop : EventLoop.t callback :=
  EventLoop.mk 6 false (<[9 := OnDoipListen]> (<[7 := OnCan]> (<[8 := OnSd]> ∅))).

Definition shipped_gateway {T : Target} (addr : Z) : Gateway.t :=
  Gateway.mk shipped_messages
    (register_routes (SomeIpPublisher.mk 5 SOMEIP_PORT 1 (mk_sockaddr multicast_group SOMEIP_PORT) ∅)
       shipped_routes)
    BenchmarkCollector.empty (Watchdog.construct 2000000) (CanSocket.mk 7 "vcan0" true)
    (SomeIpSdService.mk 8 2
       [SomeIpSdService.mk_offered 0x0101 addr 30501; SomeIpSdService.mk_offered 0x0102 addr 30501;
        SomeIpSdService.mk_offered 0x0103 addr 30501] [] true)
    (DoIpServer.mk 9 13400 ∅) 0 0 Dec.

Lemma shipped_gateway_ok {T : Target} {U : UdsService} addr : gateway_ok (shipped_gateway addr).
Proof.
  constructor; first [done | apply BenchFacts.empty_ok | apply map_Forall_empty | idtac].
  - apply shipped_messages_ok.
  - apply shipped_decodable.
  - apply (register_routes_wf _ shipped_routes); [apply map_Forall_empty|].
    pose proof (load_wf (Some gateway_conf)) as H. by rewrite gateway_conf_loads in H.
Qed.

Lemma shipped_setup {T : Target} addr :
  exists acts, setup (shipped_env addr) = Ok (Started shipped_loop (shipped_gateway addr) acts).
Proof.
  unfold setup. cbn [conf_file dbc_file shipped_env]. rewrite gateway_conf_loads, vehicle_dbc_loads.
  unfold construct, EventLoop.construct, CanSocket.construct, SomeIpSdService.construct,
    DoIpServer.construct, attempt_reader, EventLoop.add_reader.
  cbn [attempt negb pub_socket epoll_create can_socket can_ioctl can_bind sd_socket sd_bind sd_ctl can_ctl
       doip_socket doip_bind doip_listen doip_ctl shipped_env Z.ltb Z.compare].
  rewrite SdServiceFacts.send_offers_ok by done.
  eexists. reflexivity.
Qed.

(** An engine frame: 2600 rpm, 85.25 degC, throttle 23.14 %. *)
Definition demo_frame : can_frame := mk_frame 0x123 8 [0xA0; 0x28; 0xA7; 0x3B; 0; 0; 0; 0].
Definition demo_clock : clock := mk_clock 1000 2000 5000 9000 20000 30000.

Lemma gateway_frame_forwarded_witness :
  exists w' pkts rest,
    on_frame (T:=x86_64) (replicate 1500 0xAA) demo_clock []
      (shipped_gateway (T:=x86_64) 0x0100007F) demo_frame
    = Ok (w', map (fun p => Udp (SendTo 5 p (mk_sockaddr 0x010000EF 30490))) pkts ++ rest)
    /\ length pkts = 3%nat /\ frame_count w' = 1
    /\ parse_packet <$> pkts !! 1%nat
       = Some (Some (notification 0x0101 0x8002 2 [0x42; 0xAA; 0x80; 0x00])).
Proof.
  pose proof (gateway_frame_forwarded (T:=x86_64) (replicate 1500 0xAA) demo_clock []
    (shipped_gateway (T:=x86_64) 0x0100007F) demo_frame) as H.
  assert (message_of (shipped_gateway (T:=x86_64) 0x0100007F) demo_frame
          = Some (mk_message 291 "EngineData" 8 engine_signals)) as Hm by (vm_compute; reflexivity).
  rewrite Hm in H.
  destruct H as (w' & pkts & rest & H1 & _ & H2 & H3 & _ & _ & H4 & _).
  - reflexivity.
  - split; [unfold is_u32; cbn; lia|]. split; [closed_bytes|reflexivity].
  - exact (shipped_gateway_ok (T:=x86_64) (U:=gateway_uds) 0x0100007F).
  - exists w', pkts, rest. split; [exact H1|].
    split; [rewrite H2; vm_compute; reflexivity|].
    split; [rewrite H4; vm_compute; reflexivity|].
    destruct (H3 1%nat (0x0101, 0x8002) (d_div (d_of_int 341) (d_of_int 4))) as (p & -> & Hp);
      [vm_compute; reflexivity|].
    cbn. rewrite Hp. vm_compute. reflexivity.
Defined.

(** C3: the gateway never runs into undefined behaviour or an endless loop.
    On a 64-bit machine, with any configuration files whose signals can be
    decoded, whatever the system calls return at startup and whatever
    arrives afterwards in whatever order - frames, SD datagrams, diagnostic
    connections and data, failed calls, signals - [main] comes to a result:
    it exits with 1 before or after the loop, with 0 once stopped, or is
    waiting for more, in a state that keeps every component's invariant. *)
Theorem gateway_total {T : Target} {U : UdsService} env waits :
  size_bits = 64 -> decodable_db (DbcParser.parse ∅ (dbc_file env)).2 ->
  EventLoopFacts.waits_ok io_ok waits ->
  exists code w acts,
    main env waits = Ok (code, w, acts)
    /\ (code = None \/ code = Some 0 \/ code = Some 1)
    /\ match w with
       | Some w => gateway_ok w
       | None => code = Some 1 /\ acts = []
       end.
Proof.
  intros H64 Hdec Hwaits. destruct (setup_total env Hdec) as (s & Hs & Hst).
  unfold main. rewrite Hs. cbn [mbind checked_bind].
  destruct s as [msg|l w acts]; [do 3 eexists; split; [done|]; split; auto|].
  destruct Hst as (Hi & _). destruct (run_good False H64 l w waits Hi) as (r & -> & [Hw _] & _).
  { eapply waits_ok_impl; [|exact Hwaits]. by split. }
  cbn [mbind checked_bind]. do 3 eexists. split; [reflexivity|]. split; [|exact Hw].
  unfold exit_code. destruct (EventLoop.s_thrown r.1); [by auto|]. destruct (r.2); auto.
Qed.

(** A frame, a connection and a signal. *)
Definition demo_io : io :=
  mk_io (replicate 1500 0xAA)
    (CanSocket.ReadBytes (CanSocket.bytes_of_frame (T:=x86_64) demo_frame)) demo_clock
    ["end_to_end"; "dbc_lookup"; "signal_decode"; "someip_publish"]
    SomeIpSdService.RecvFailed 12 0 (DoIpServer.RecvError 11).

Lemma demo_io_ok : io_ok demo_io.
Proof. split; [reflexivity|]. split; [closed_bytes|]. split; [closed_bytes|]. by split. Qed.

Lemma shipped_env_decodable addr :
  decodable_db (DbcParser.parse ∅ (dbc_file (shipped_env addr))).2.
Proof. cbn [dbc_file shipped_env]. rewrite vehicle_dbc_loads. exact shipped_decodable. Qed.

Lemma gateway_total_witness :
  let waits := [EventLoop.Ready [EventLoop.Event 9 1 demo_io; EventLoop.Event 7 1 demo_io];
                EventLoop.Interrupted demo_io] in
  exists code w acts,
    main (T:=x86_64) (U:=gateway_uds) (shipped_env 0x0100007F) waits = Ok (code, w, acts)
    /\ (code = None \/ code = Some 0 \/ code = Some 1)
    /\ match w with Some w => gateway_ok w | None => code = Some 1 /\ acts = [] end.
Proof.
  intros waits. apply (gateway_total (T:=x86_64) (U:=gateway_uds)).
  - reflexivity.
  - exact (shipped_env_decodable 0x0100007F).
  - apply Forall_cons_2; [|apply Forall_cons_2; [exact demo_io_ok|apply Forall_nil_2]].
    repeat (apply Forall_cons_2; [exact demo_io_ok|]). apply Forall_nil_2.
Defined.

(** C32: SIGINT ends the program in order, unless it comes at the one wrong
    moment.  Take any run that is waiting in [epoll_wait], the loop not left.
    If the signal interrupts [epoll_wait], the table (in the base [std::cout]
    was left in) and the JSON report are printed, nothing that would have
    come later is looked at, and [main] returns 0.  If it comes between two
    callbacks, the report is printed at once, the rest of that batch is
    still served, and then [main] ends, without waiting again: with 0, or with
    1 if one of those callbacks throws.  If it comes between the test of
    [running_] and the call of [epoll_wait], the report is printed but [main]
    goes on waiting: it ends only after serving whatever is ready next. *)
Theorem gateway_shutdown {T : Target} {U : UdsService} env l w acts pre r :
  size_bits = 64 -> decodable_db (DbcParser.parse ∅ (dbc_file env)).2 ->
  setup env = Ok (Started l w acts) ->
  EventLoopFacts.waits_ok io_ok pre ->
  EventLoop.run invoke handle_sigint l w pre = Ok r -> r.2 = false ->
  let l0 := EventLoop.s_loop r.1 in
  let w0 := EventLoop.s_world r.1 in
  let before := acts ++ EventLoop.s_acts r.1 in
  let code (x : EventLoop.step callback Gateway.t action) :=
    match EventLoop.s_thrown x with None => Some 0 | Some _ => Some 1 end in
  (forall i post, exists table json,
     report w0 i = Ok (table, json)
     /\ main env (pre ++ EventLoop.Interrupted i :: post)
        = Ok (Some 0, Some w0, before ++ [Printed table; Printed json]))
  /\ (forall evs1 i evs2,
       Forall (fun ev => io_ok (EventLoop.arrival_input ev)) (evs1 ++ evs2) ->
       exists r1, EventLoop.dispatch invoke handle_sigint l0 w0 evs1 = Ok r1
       /\ (EventLoop.s_thrown r1 = None ->
          exists table json r2,
            report (EventLoop.s_world r1) i = Ok (table, json)
            /\ EventLoop.dispatch invoke handle_sigint (EventLoop.stop (EventLoop.s_loop r1))
                 (EventLoop.s_world r1) evs2 = Ok r2
            /\ forall post,
                 main env (pre ++ EventLoop.Ready (evs1 ++ EventLoop.Signal i :: evs2) :: post)
                 = Ok (code r2, Some (EventLoop.s_world r2),
                       before ++ EventLoop.s_acts r1 ++ [Printed table; Printed json]
                       ++ EventLoop.s_acts r2)))
  /\ (forall i, exists table json,
       report w0 i = Ok (table, json)
       /\ main env (pre ++ [EventLoop.Late i]) = Ok (None, Some w0, before ++ [Printed table; Printed json])
       /\ forall evs, Forall (fun ev => io_ok (EventLoop.arrival_input ev)) evs ->
          exists r2,
            EventLoop.dispatch invoke handle_sigint (EventLoop.stop l0) w0 evs = Ok r2
            /\ forall post,
                 main env (pre ++ EventLoop.Late i :: EventLoop.Ready evs :: post)
                 = Ok (code r2, Some (EventLoop.s_world r2),
                       before ++ [Printed table; Printed json] ++ EventLoop.s_acts r2)).
Proof.
  intros H64 Hdec Hs Hpre Hr Hwait l0 w0 before code.
  assert (Inv l0 w0) as Hi0 by (by eapply run_inv).
  split; [|split].
  - intros i post. destruct (signal_report i l0 w0 (proj1 Hi0)) as (table & json & Hrep & Hsig).
    exists table, json. split; [exact Hrep|].
    rewrite (main_continues _ _ _ _ _ _ _ _ Hs Hr Hwait (interrupted_turn _ _ _ _ _ _ post Hsig)).
    unfold before. by rewrite <- app_assoc.
  - intros evs1 i evs2 [He1 He2]%List.Forall_app.
    destruct (batch_good False H64 l0 w0 evs1 Hi0 (io_ok_events _ He1)) as (r1 & Hd1 & Hi1 & _).
    exists r1. split; [exact Hd1|]. intros Ht1.
    destruct (signal_report i (EventLoop.s_loop r1) _ (proj1 Hi1)) as (table & json & Hrep & Hsig).
    destruct (stopped_batch (EventLoop.stop (EventLoop.s_loop r1)) _ evs2 H64 Hi1 eq_refl He2) as (r2 & Hd2 & Hend).
    exists table, json, r2. split; [exact Hrep|]. split; [exact Hd2|]. intros post.
    rewrite (main_continues _ _ _ _ _ _ _ _ Hs Hr Hwait
      (signalled_batch _ _ _ _ _ _ _ _ _ post Hd1 Ht1 Hsig Hd2 Hend)).
    unfold before, code, exit_code. cbn. rewrite <- !app_assoc. by destruct (EventLoop.s_thrown r2).
  - intros i. destruct (signal_report i l0 w0 (proj1 Hi0)) as (table & json & Hrep & Hsig).
    exists table, json. split; [exact Hrep|]. split.
    + rewrite (main_continues _ _ _ _ _ _ _ _ Hs Hr Hwait (late_turn _ _ _ _ _ _ [] _ Hsig eq_refl)).
      unfold before. cbn. by rewrite <- app_assoc.
    + intros evs He. destruct (stopped_batch (EventLoop.stop l0) w0 evs H64 Hi0 eq_refl He) as (r2 & Hd2 & Hend).
      exists r2. split; [exact Hd2|]. intros post.
      assert (EventLoop.turns invoke handle_sigint true (EventLoop.stop l0) w0 (EventLoop.Ready evs :: post)
              = Ok (r2, true)) as Hturn by (cbn [EventLoop.turns orb negb]; rewrite Hd2; apply Hend).
      rewrite (main_continues _ _ _ _ _ _ _ _ Hs Hr Hwait (late_turn _ _ _ _ _ _ _ _ Hsig Hturn)).
      unfold before, code, exit_code. cbn. rewrite <- !app_assoc. by destruct (EventLoop.s_thrown r2).
Qed.

Lemma gateway_shutdown_witness :
  exists w acts table json,
    main (T:=x86_64) (U:=gateway_uds) (shipped_env 0x0100007F)
      ([EventLoop.Ready [EventLoop.Event 7 1 demo_io]] ++ EventLoop.Interrupted demo_io :: [])
    = Ok (Some 0, Some w, acts ++ [Printed table; Printed json])
    /\ frame_count w = 1.
Proof.
  destruct (shipped_setup (T:=x86_64) 0x0100007F) as (acts & Hs).
  assert (exists r, EventLoop.run (invoke (T:=x86_64) (U:=gateway_uds)) (handle_sigint (T:=x86_64)) shipped_loop
            (shipped_gateway (T:=x86_64) 0x0100007F) [EventLoop.Ready [EventLoop.Event 7 1 demo_io]] = Ok r
          /\ r.2 = false /\ frame_count (EventLoop.s_world r.1) = 1)
    as (r & Hr & Hrun & Hc)
    by (eexists; split; [vm_compute; reflexivity|]; split_and!; reflexivity).
  destruct (gateway_shutdown (T:=x86_64) (U:=gateway_uds) (shipped_env 0x0100007F) shipped_loop
    (shipped_gateway (T:=x86_64) 0x0100007F) acts [EventLoop.Ready [EventLoop.Event 7 1 demo_io]] r)
    as (Hint & _ & _).
  - reflexivity.
  - exact (shipped_env_decodable 0x0100007F).
  - exact Hs.
  - apply Forall_cons_2; [|apply Forall_nil_2]. apply Forall_cons_2; [exact demo_io_ok|apply Forall_nil_2].
  - exact Hr.
  - exact Hrun.
  - destruct (Hint demo_io []) as (table & json & _ & Hmain).
    exists (EventLoop.s_world r.1), (acts ++ EventLoop.s_acts r.1), table, json. split; [exact Hmain|exact Hc].
Defined.

(** After a tester has read the trouble codes the report is in hexadecimal:
    31 measurements are reported as "1f".  The next message of a tester puts
    the stream right again. *)
Definition tester : DoIpServer.t :=
  DoIpServer.mk 9 13400 {[12 := DoIpServer.mk_conn 12 true 0x0E00 (replicate 4096 0) 0]}.

Definition diagnostic_io (request : list Z) : io :=
  mk_io (io_stack demo_io) (io_can demo_io) demo_clock [] (io_sd demo_io) 12 0
    (DoIpServer.RecvBytes (doip_frame 0x8001 ([0x0E; 0x00; 0x00; 0x01] ++ request))).

Lemma read_dtc_leaves_hex :
  let base_after request :=
    r ← invoke (T:=x86_64) (U:=gateway_uds) (OnDoipClient 12) (diagnostic_io request) shipped_loop
          (with_doip (shipped_gateway (T:=x86_64) 0x0100007F) tester Dec);
    Ok (cout_base (EventLoop.s_world r)) in
  base_after [0x19; 0x02] = Ok Hex /\ base_after [0x3E; 0x00] = Ok Dec
  /\ Format.print_int Hex 31 = "1f".
Proof. split_and!; vm_compute; reflexivity. Qed.

(** C31: the periodic work follows the frame counter exactly: counting the
    frames the database knows from the start of the loop, a service
    discovery offer is sent with every 100th, the table is printed with
    every 10th, and only with a 50th can the watchdog raise the alarm, for
    as long as the 32-bit counter of the smallest target lasts. *)
Theorem gateway_schedule {T : Target} w l :
  gateway_ok w -> SomeIpSdService.offered (sd w) <> [] ->
  frame_count w = 0 -> last_offer_frame w = 0 -> zlen l < 4294967296 ->
  Forall (fun x => zlen (io_stack x.1) = SOMEIP_MAX_SIZE /\ frame_ok x.2 /\ is_Some (message_of w x.2)) l ->
  exists w' outs,
    frames w l = Ok (w', outs) /\ length outs = length l /\ frame_count w' = zlen l
    /\ forall k out, outs !! k = Some out ->
        let n := Z.of_nat k + 1 in
        existsb is_offer out = (n mod 100 =? 0)
        /\ existsb is_table out = (n mod 10 =? 0)
        /\ (existsb is_alarm out = true -> n mod 50 = 0).
Proof.
  intros Hw Ho Hc Hl Hlen Hall.
  destruct (frames_scheduled l w 0) as (w' & outs & H1 & (_ & _ & H2 & _) & H3 & H4);
    [lia|lia|done|done|].
  exists w', outs. by split_and!.
Qed.

Lemma gateway_schedule_witness :
  exists w' outs,
    frames (T:=x86_64) (shipped_gateway (T:=x86_64) 0x0100007F) (replicate 10 (demo_io, demo_frame)) = Ok (w', outs)
    /\ frame_count w' = 10
    /\ exists out, outs !! 9%nat = Some out /\ existsb is_table out = true.
Proof.
  destruct (gateway_schedule (T:=x86_64) (shipped_gateway (T:=x86_64) 0x0100007F) (replicate 10 (demo_io, demo_frame)))
    as (w' & outs & H1 & H2 & H3 & H4).
  - exact (shipped_gateway_ok (T:=x86_64) (U:=gateway_uds) 0x0100007F).
  - discriminate.
  - reflexivity.
  - reflexivity.
  - unfold zlen; cbn; lia.
  - repeat (apply Forall_cons_2; [split; [reflexivity|]; split;
      [split; [unfold is_u32; cbn; lia|split; [closed_bytes|reflexivity]]|vm_compute; eexists; reflexivity]|]).
    apply Forall_nil_2.
  - exists w', outs. split; [exact H1|]. split; [exact H3|].
    destruct (outs !! 9%nat) as [out|] eqn:E.
    + exists out. split; [reflexivity|]. destruct (H4 9%nat out E) as (_ & H5 & _). exact H5.
    + exfalso. apply lookup_ge_None in E. rewrite H2 in E. cbn in E. lia.
Defined.

(** C33: a silent bus goes unnoticed.  The watchdog is fed by every frame and
    checked only inside the same callback, a moment later: whatever happens
    during a run, and however long no frame arrives, no alarm is ever
    raised, as long as each callback runs from feed to check within the two
    seconds of the timeout. *)
Theorem gateway_silence_unnoticed {T : Target} {U : UdsService} env l w acts waits r :
  size_bits = 64 -> decodable_db (DbcParser.parse ∅ (dbc_file env)).2 ->
  setup env = Ok (Started l w acts) ->
  EventLoopFacts.waits_ok (fun i => io_ok i /\ prompt (io_clock i)) waits ->
  EventLoop.run invoke handle_sigint l w waits = Ok r ->
  WatchdogAlarm ∉ acts ++ EventLoop.s_acts r.1.
Proof.
  intros H64 Hdec Hs Hwaits Hr. destruct (setup_total env Hdec) as (s & Hs' & Hst).
  rewrite Hs in Hs'. injection Hs' as <-. destruct Hst as (Hi & _ & _ & Hq).
  destruct (run_good True H64 l w waits Hi) as (r' & Hr' & _ & Ha).
  { eapply waits_ok_impl; [|exact Hwaits]. intros i [? ?]. by split. }
  rewrite Hr in Hr'. injection Hr' as <-. rewrite list.Forall_forall in Hq, Ha.
  intros [Hin|Hin]%elem_of_app; [by apply (Hq _ Hin)|by apply (Ha _ Hin)].
Qed.

(** Two frames, the second one hour after the first. *)
Definition late_io : io :=
  mk_io (io_stack demo_io) (io_can demo_io)
    (mk_clock 3600000001000 3600000002000 3600000005000 3600000009000 3600000020000 3600000030000)
    [] (io_sd demo_io) 12 0 (io_recv demo_io).

Lemma demo_prompt : prompt (io_clock demo_io).
Proof. vm_compute. discriminate. Qed.
Lemma late_prompt : prompt (io_clock late_io).
Proof. vm_compute. discriminate. Qed.
Lemma late_io_ok : io_ok late_io.
Proof. unfold io_ok, late_io. cbn [io_stack io_can io_sd io_recv]. exact demo_io_ok. Qed.

Lemma gateway_silence_unnoticed_witness :
  exists acts r,
    EventLoop.run (invoke (T:=x86_64) (U:=gateway_uds)) (handle_sigint (T:=x86_64)) shipped_loop
      (shipped_gateway (T:=x86_64) 0x0100007F)
      [EventLoop.Ready [EventLoop.Event 7 1 demo_io]; EventLoop.Ready [EventLoop.Event 7 1 late_io]] = Ok r
    /\ WatchdogAlarm ∉ acts ++ EventLoop.s_acts r.1.
Proof.
  destruct (shipped_setup (T:=x86_64) 0x0100007F) as (acts & Hs). exists acts.
  assert (exists r, EventLoop.run (invoke (T:=x86_64) (U:=gateway_uds)) (handle_sigint (T:=x86_64)) shipped_loop
      (shipped_gateway (T:=x86_64) 0x0100007F)
      [EventLoop.Ready [EventLoop.Event 7 1 demo_io]; EventLoop.Ready [EventLoop.Event 7 1 late_io]] = Ok r)
    as (r & Hr) by (eexists; vm_compute; reflexivity).
  exists r. split; [exact Hr|].
  apply (gateway_silence_unnoticed (T:=x86_64) (U:=gateway_uds) (shipped_env 0x0100007F) shipped_loop
    (shipped_gateway (T:=x86_64) 0x0100007F) acts
    [EventLoop.Ready [EventLoop.Event 7 1 demo_io]; EventLoop.Ready [EventLoop.Event 7 1 late_io]] r).
  - reflexivity.
  - exact (shipped_env_decodable 0x0100007F).
  - exact Hs.
  - apply Forall_cons_2; [apply Forall_cons_2; [exact (conj demo_io_ok demo_prompt)|apply Forall_nil_2]|].
    apply Forall_cons_2; [apply Forall_cons_2; [exact (conj late_io_ok late_prompt)|apply Forall_nil_2]|].
    apply Forall_nil_2.
  - exact Hr.
Defined.

(** C34: what reaches a subscriber of the shipped gateway is what the database
    says.  With the database and the routes loaded from the shipped files,
    every frame the database knows, whatever its data, is decoded and
    published without fault as one notification per signal, in order, on the
    signal's route; a subscriber reads from its payload a finite [float]
    within the tolerance of the value the database prescribes for the raw
    integer in the frame's bits - times the scale, plus the offset, cut off
    at the limits, in exact arithmetic on the decimal numbers of the text.  The engine speed and temperature and
    the brake signals are sent exactly, the throttle position within
    [2 ^ -17] percent, the speeds within [2 ^ -14] km/h: the constants that
    are not dyadic, two roundings in [double] and one to [float] cost no
    more. *)
Theorem shipped_values_accurate {T : Target} stack clk names w frame msg pub :
  zlen stack = SOMEIP_MAX_SIZE -> frame_ok frame -> gateway_ok w ->
  dbc w = (DbcParser.parse ∅ (Some vehicle_dbc)).2 ->
  signal_map pub = ∅ ->
  signal_map (publisher w) = signal_map (register_routes pub (ConfigLoader.load [] (Some gateway_conf)).2) ->
  message_of w frame = Some msg ->
  map (fun x => (sg_name x.1, tolerance x.2)) exact_signals
  = [("EngineRPM", 0); ("EngineTemp", 0); ("ThrottlePos", 1 # 131072);
     ("VehicleSpeed", 1 # 16384); ("WheelSpeed_FL", 1 # 16384); ("WheelSpeed_FR", 1 # 16384);
     ("BrakePressure", 0); ("BrakeActive", 0)]%Q
  /\ map line_numbers signal_lines = map (fun x => scale_numbers x.2) exact_signals
  /\ exists w' pkts rest,
      on_frame stack clk names w frame
      = Ok (w', map (fun p => Udp (SendTo (sock_fd (publisher w)) p (dest_addr (publisher w)))) pkts ++ rest)
      /\ Forall2 (fun sig p => exists c route sess bits,
           (sig, c) ∈ exact_signals /\ signal_map (publisher w) !! sg_name sig = Some route
           /\ parse_packet p = Some (notification route.1 route.2 sess (be32 bits))
           /\ transmits c (DecoderSpec.raw_value (frame_data frame) (sg_start_bit sig) (sg_length sig)) bits)
         (md_signals msg) pkts.
Proof.
  intros Hs Hf Hw Hd Hp Hm Hmsg. split; [reflexivity|]. split; [exact exact_signals_text|].
  rewrite vehicle_dbc_loads in Hd. cbn [snd] in Hd.
  rewrite gateway_conf_loads in Hm. cbn [snd] in Hm. rewrite shipped_map_routes in Hm by done.
  rewrite (on_frame_matched _ _ _ _ _ msg) by done.
  pose proof (matched_ok clk frame msg w Hw) as Hw'.
  destruct (housekeeping_ok clk names (matched clk frame msg w)) as (text & ->); [apply Hw'..|].
  exists (kept clk (matched clk frame msg w)), (forwarded frame msg w). eexists.
  split; [by rewrite map_map|].
  pose proof (shipped_forwarded w frame msg Hw Hd Hm Hmsg) as Hfw.
  eapply list.Forall2_impl; [exact Hfw|]. cbv beta. intros sig p (route & sess & Hin & Hr & Hpk).
  destruct Hin as (c & Hin). pose proof (shipped_within (frame_data frame) (sig, c) Hin) as Ht.
  do 4 eexists. split; [exact Hin|]. split; [exact Hr|]. split; [exact Hpk|]. exact Ht.
Qed.

Lemma shipped_values_accurate_witness :
  exists w' pkts rest,
    on_frame (T:=x86_64) (replicate 1500 0xAA) demo_clock []
      (shipped_gateway (T:=x86_64) 0x0100007F) demo_frame
    = Ok (w', map (fun p => Udp (SendTo 5 p (mk_sockaddr 0x010000EF 30490))) pkts ++ rest)
    /\ exists p c sess bits, pkts !! 2%nat = Some p
       /\ parse_packet p = Some (notification 0x0101 0x8003 sess (be32 bits))
       /\ transmits c 59 bits.
Proof.
  destruct (shipped_values_accurate (T:=x86_64) (replicate 1500 0xAA) demo_clock []
    (shipped_gateway (T:=x86_64) 0x0100007F) demo_frame (mk_message 291 "EngineData" 8 engine_signals)
    (SomeIpPublisher.mk 5 SOMEIP_PORT 1 (mk_sockaddr (multicast_group (T:=x86_64)) SOMEIP_PORT) ∅)) as (_ & _ & w' & pkts & rest & H1 & H2).
  - reflexivity.
  - split; [unfold is_u32; cbn; lia|]. split; [closed_bytes|reflexivity].
  - exact (shipped_gateway_ok (T:=x86_64) (U:=gateway_uds) 0x0100007F).
  - rewrite vehicle_dbc_loads. reflexivity.
  - reflexivity.
  - rewrite (gateway_conf_loads (T:=x86_64)). reflexivity.
  - vm_compute; reflexivity.
  - exists w', pkts, rest. split; [exact H1|].
    apply Forall2_length in H2 as Hl. destruct pkts as [|p1 [|p2 [|p3 [|]]]]; try discriminate Hl.
    apply Forall2_cons_1 in H2 as (_ & H2). apply Forall2_cons_1 in H2 as (_ & H2).
    apply Forall2_cons_1 in H2 as ((c & route & sess & bits & _ & Hr & Hp & Ht) & _).
    assert (route = (0x0101, 0x8003)) as -> by (vm_compute in Hr; by injection Hr as <-).
    exists p3, c, sess, bits. split; [reflexivity|]. split; [exact Hp|].
    change (transmits c (DecoderSpec.raw_value [0xA0; 0x28; 0xA7; 0x3B; 0; 0; 0; 0] 24 8) bits) in Ht.
    assert (DecoderSpec.raw_value [0xA0; 0x28; 0xA7; 0x3B; 0; 0; 0; 0] 24 8 = 59) as E by reflexivity.
    rewrite E in Ht. exact Ht.
Defined.

(** The shipped files fit together.  With them and a working system the
    gateway starts, watching its three sockets; the database knows exactly
    the three frames of the simulator; every signal of each has a route, so
    no value is lost; no two signals share a service and method, and each
    service is one that is offered.  The offers name the data port 30501,
    though, while the notifications go to port 30490. *)
Theorem gateway_shipped_files {T : Target} {U : UdsService} addr :
  exists acts,
    setup (shipped_env addr)
    = Ok (Started (EventLoop.mk 6 false (<[9 := OnDoipListen]> (<[7 := OnCan]> (<[8 := OnSd]> ∅))))
            (shipped_gateway addr) acts)
    /\ gateway_ok (shipped_gateway addr)
    /\ (forall id, is_Some (dbc (shipped_gateway addr) !! id) <-> id ∈ [0x123; 0x124; 0x125])
    /\ (forall frame msg, message_of (shipped_gateway addr) frame = Some msg ->
         length (values (shipped_gateway addr) frame msg) = length (md_signals msg))
    /\ NoDup (map snd (map_to_list (signal_map (publisher (shipped_gateway addr)))))
    /\ Forall (fun r => r ∈ map SomeIpSdService.of_service (SomeIpSdService.offered (sd (shipped_gateway addr))))
         (map (fun x => x.2.1) (map_to_list (signal_map (publisher (shipped_gateway addr)))))
    /\ Forall (fun o => SomeIpSdService.of_port o = 30501 /\ sin_port (dest_addr (publisher (shipped_gateway addr))) = 30490)
         (SomeIpSdService.offered (sd (shipped_gateway addr))).
Proof.
  destruct (shipped_setup addr) as (acts & Hs). exists acts. split; [exact Hs|].
  split; [apply shipped_gateway_ok|]. split; [exact shipped_ids|].
  assert (signal_map (publisher (shipped_gateway addr)) = shipped_map) as Hm by (by apply shipped_map_routes).
  split; [intros frame msg; by apply shipped_values|]. rewrite Hm. split_and!.
  - apply (bool_decide_unpack _). vm_compute. exact I.
  - apply (bool_decide_unpack _). vm_compute. exact I.
  - repeat (apply Forall_cons_2; [split; reflexivity|]). apply Forall_nil_2.
Qed.

End properties.
