(* ===== verification/Pipeline.v ===== *)
(** * From the simulator to the subscriber

    The programs of the repository put together: [can_simulator] puts frames
    on the bus, the gateway - as it starts on the shipped files - decodes
    and publishes them, and [someip_sd_subscriber] shows what arrives.  The
    bus and the network deliver everything, in order. *)

From Stdlib Require Import SpecFloat QArith Qabs Qminmax Lqa.
From S2P Require Import Prelude Floats Rounding Types Uds SomeIpMessage SomeIpPublisher SomeIpSdService.
From S2P Require Import Subscribers SignalDecoder Accuracy CanTools DbcParser ConfigLoader Shipped Gateway.

(** ** What is claimed *)
Module PipelineSpec.
Import Gateway CanSimulator.

(** The datagrams the gateway sends, as far as the data socket of the
    subscriber gets them. *)
Definition heard {T : Target} (other : bool) (acts : list action) : list (list Z) :=
  omap (fun a => match a with
                 | Udp (SendTo _ p dest) | Sd (SomeIpSdService.Net (SendTo _ p dest)) =>
                     if SdSubscriber.reached other dest then Some p else None
                 | _ => None
                 end) acts.

(** The signals of one round: the name, the value of the curve, and the
    signal's step in the database; the brake signals are not truncated. *)
Definition simulated {L : Sine} (t : double) : list (string * Q * Q) :=
  [("EngineRPM"%string, val (rpm t), 1 # 4);
   ("EngineTemp"%string, val (temp t), 3 # 4);
   ("ThrottlePos"%string, val (throttle t), 392157 # 1000000);
   ("VehicleSpeed"%string, val (speed t), 1 # 100);
   ("WheelSpeed_FL"%string, (val (speed t) + 1)%Q, 1 # 100);
   ("WheelSpeed_FR"%string, (val (speed t) - 1)%Q, 1 # 100);
   ("BrakePressure"%string, (if braking t then 40 else 0)%Q, 0%Q);
   ("BrakeActive"%string, (if braking t then 1 else 0)%Q, 0%Q)].

Definition near (f : float) (x step : Q) : Prop :=
  is_finite f = true /\ Qle (Qabs (val f - x)) (step * (65 # 64)).

Definition shows (line : SdSubscriber.shown) (want : string * Q * Q) : Prop :=
  SdSubscriber.sh_name line = want.1.1 /\ near (SdSubscriber.sh_value line) want.1.2 want.2.

End PipelineSpec.

(** ** Lemmas *)
Module PipelineFacts.
Import Gateway GatewaySpec GatewayFacts SomeIpPublisher PublisherSpec PublisherFacts PipelineSpec.
Import SdSubscriber SubscriberFacts.

(** *** The wire *)
Section wire.
Context {T : Target} {U : UdsService}.

(** The lines for routed values, numbered from [sess]. *)
Fixpoint numbered (sess : Z) (l : list ((Z * Z) * double)) : list shown :=
  match l with
  | [] => []
  | (r, v) :: l => mk_shown (signal_name r.1 r.2) (f_of_double v) sess :: numbered (u16 (sess + 1)) l
  end.

Definition route_ok (x : (Z * Z) * double) : Prop :=
  is_u16 x.1.1 /\ is_u16 x.1.2 /\ x.1.1 <> 0xFFFF.

Lemma numbered_app s l1 l2 :
  is_u16 s -> numbered s (l1 ++ l2) = numbered s l1 ++ numbered (u16 (s + zlen l1)) l2.
Proof.
  revert s. induction l1 as [|[r v] l1 IH]; intros s Hs.
  - change (zlen []) with 0. by rewrite Z.add_0_r, u16_small.
  - cbn [app numbered]. rewrite IH by apply u16_range. rewrite zlen_cons.
    replace (u16 (u16 (s + 1) + zlen l1)) with (u16 (s + (1 + zlen l1))) by zlia. done.
Qed.

Lemma lines_of_packets s l :
  is_u16 s -> Forall route_ok l -> lines_of (map Datagram (packets s l)) = numbered s l.
Proof.
  intros Hs Hl. revert s Hs. induction Hl as [|[r v] l (H1 & H2 & H3) _ IH]; intros s Hs; [done|].
  cbn [packets map numbered]. unfold lines_of. cbn [omap list_omap recvfrom snd].
  assert (zlen (signal_packet r s v) = 20) as Hp by (unfold signal_packet; by rewrite SomeIpMessageFacts.packet_length).
  assert (20 <= BUF_SIZE) by done. rewrite take_ge by (unfold zlen in Hp; lia).
  rewrite line_of_packet by done. cbn [mbind]. f_equal. apply IH. apply u16_range.
Qed.

Lemma packets_bytes s l : Forall bytes (packets s l).
Proof.
  revert s. induction l as [|[r v] l IH]; intros s; [apply Forall_nil_2|].
  apply Forall_cons_2; [apply signal_packet_bytes|apply IH].
Qed.

Lemma numbered_shows s l wants :
  Forall2 (fun x want => signal_name x.1.1 x.1.2 = want.1.1 /\ near (f_of_double x.2) want.1.2 want.2) l wants ->
  Forall2 shows (numbered s l) wants.
Proof.
  intros H. revert s. induction H as [|[r v] want l wants [H1 H2] _ IH]; intros s; [apply Forall2_nil_2|].
  cbn [numbered]. apply Forall2_cons_2; [by split|apply IH].
Qed.

Lemma numbered_session s l k line :
  is_u16 s -> numbered s l !! k = Some line -> sh_session line = u16 (s + Z.of_nat k).
Proof.
  revert s k. induction l as [|[r v] l IH]; intros s k Hs Hk; [done|].
  destruct k as [|k]; cbn [numbered lookup list_lookup] in Hk.
  - injection Hk as <-. cbn. by rewrite Z.add_0_r, u16_small.
  - apply IH in Hk; [|apply u16_range]. rewrite Hk. zlia.
Qed.

(** *** The gateway's part *)

(** What the shipped gateway sends for a frame. *)
Definition shipped_routed (frame : can_frame) : list ((Z * Z) * double) :=
  match shipped_messages !! Z.land (can_id frame) CAN_EFF_MASK with
  | Some msg => routed shipped_map (decoded frame msg)
  | None => []
  end.

Definition data_group : sockaddr_in := mk_sockaddr multicast_group SOMEIP_PORT.

Lemma heard_app other l1 l2 : heard other (l1 ++ l2) = heard other l1 ++ heard other l2.
Proof. apply omap_app. Qed.

(** The group the gateway publishes to is the one the tool joins. *)
Lemma heard_published other pub pkts :
  dest_addr pub = data_group -> heard other (map Udp (map (PublisherFacts.sent pub) pkts)) = pkts.
Proof.
  intros Hd. induction pkts as [|p pkts IH]; [done|]. unfold heard in *. cbn. rewrite Hd, IH.
  unfold SdSubscriber.reached. change (sin_port data_group =? DATA_PORT) with true.
  change (sin_addr data_group) with (load DATA_MULTICAST). by rewrite Z.eqb_refl, orb_true_r.
Qed.

Lemma heard_offers other w :
  exists pkts, heard other (map Sd (offers_sent w)) = pkts
    /\ lines_of (map Datagram pkts) = [] /\ Forall bytes pkts.
Proof.
  eexists. split; [reflexivity|]. unfold offers_sent. destruct (SomeIpSdService.offered (sd w)); [by split|].
  unfold heard. cbn [map omap list_omap].
  destruct (SdServiceFacts.offers_packet_bytes (sd w)) as [Hb [pkt Hl]].
  destruct (SdSubscriber.reached other _); [|by split].
  split; [|by apply Forall_cons_2]. unfold lines_of. cbn [map omap list_omap recvfrom snd].
  rewrite Hl. change (Z.to_nat BUF_SIZE) with (S (S (Z.to_nat 1498))). cbn [take]. by rewrite line_of_sd.
Qed.

(** Nothing else is sent to the network by UDP. *)
Lemma heard_none other l :
  Forall (fun a => match a with Udp _ | Sd _ => False | _ => True end) l -> heard other l = [].
Proof. induction 1 as [|a l Ha _ IH]; [done|]. unfold heard. cbn. by destruct a. Qed.

Lemma lines_of_app l1 l2 : lines_of (l1 ++ l2) = lines_of l1 ++ lines_of l2.
Proof. apply omap_app. Qed.

Lemma bytes_received pkts :
  Forall bytes pkts -> Forall (fun r => bytes (recvfrom r BUF_SIZE).2) (map Datagram pkts).
Proof.
  intros H. apply List.Forall_map. eapply List.Forall_impl; [|exact H]. intros p Hp. by apply Forall_take.
Qed.

(** A gateway on the shipped files. *)
Definition on_shipped (w : Gateway.t) : Prop :=
  gateway_ok w /\ dbc w = shipped_messages /\ signal_map (publisher w) = shipped_map
  /\ dest_addr (publisher w) = data_group.

(** What the subscriber makes of what is sent for a frame: the signals are
    shown, and offers in between are not. *)
Lemma frame_sent other i w frame :
  zlen (io_stack i) = SOMEIP_MAX_SIZE -> frame_ok frame -> on_shipped w ->
  is_Some (shipped_messages !! Z.land (can_id frame) CAN_EFF_MASK) -> Forall route_ok (shipped_routed frame) ->
  exists w' acts, on_frame (io_stack i) (io_clock i) (io_names i) w frame = Ok (w', acts)
    /\ on_shipped w'
    /\ lines_of (map Datagram (heard other acts)) = numbered (session (publisher w)) (shipped_routed frame)
    /\ Forall bytes (heard other acts)
    /\ session (publisher w') = u16 (session (publisher w) + zlen (shipped_routed frame)).
Proof.
  intros Hs Hf (Hw & Hd & Hm & Ha) [msg Hmsg] Hro.
  assert (message_of w frame = Some msg) as Hmo by (unfold message_of, DbcParser.find_message; by rewrite Hd).
  assert (values w frame msg = shipped_routed frame) as Hv by (unfold values, shipped_routed; by rewrite Hm, Hmsg).
  rewrite (on_frame_matched _ _ _ _ _ msg) by done.
  pose proof (matched_ok (io_clock i) frame msg w Hw) as Hw'. set (w1 := matched (io_clock i) frame msg w) in *.
  destruct (housekeeping_ok (io_clock i) (io_names i) w1) as (text & ->); [apply Hw'..|].
  do 2 eexists. split; [reflexivity|]. cbn [fst snd].
  destruct (heard_offers other w1) as (offers & Ho & Hol & Hob).
  assert (heard other (map Udp (map (PublisherFacts.sent (publisher w)) (forwarded frame msg w))
    ++ (if alarm_raised (io_clock i) w1 then [WatchdogAlarm] else [])
    ++ (if offers_due w1 then map Sd (offers_sent w1) else [])
    ++ (if frame_count w1 mod STATS_EVERY_N =? 0 then [Printed text] else []))
    = packets (session (publisher w)) (shipped_routed frame) ++ (if offers_due w1 then offers else [])) as ->.
  { unfold forwarded. rewrite !heard_app, heard_published, Hv by done. f_equal.
    rewrite (heard_none other (if alarm_raised _ _ then _ else _)) by (case_match; repeat constructor).
    rewrite (heard_none other (if _ =? 0 then _ else _)) by (case_match; repeat constructor).
    rewrite app_nil_r. by destruct (offers_due w1). }
  split; [split_and!; [by apply kept_ok|done|done|done]|]. split; [|split].
  - rewrite map_app, lines_of_app, lines_of_packets by (done || apply Hw).
    destruct (offers_due w1); [rewrite Hol|]; apply app_nil_r.
  - apply Forall_app_2; [apply packets_bytes|]. by destruct (offers_due w1).
  - cbn -[values]. rewrite Hv. destruct (shipped_routed frame); [|done].
    change (zlen []) with 0. rewrite Z.add_0_r, u16_small; [done|apply Hw].
Qed.

Lemma frames_sent other fs : forall ios w,
  length ios = length fs -> Forall (fun i => zlen (io_stack i) = SOMEIP_MAX_SIZE) ios ->
  Forall (fun frame => frame_ok frame /\ is_Some (shipped_messages !! Z.land (can_id frame) CAN_EFF_MASK)) fs ->
  Forall route_ok (concat (map shipped_routed fs)) -> on_shipped w ->
  exists w' outs, frames w (zip ios fs) = Ok (w', outs) /\ on_shipped w'
    /\ lines_of (map Datagram (concat (map (heard other) outs)))
       = numbered (session (publisher w)) (concat (map shipped_routed fs))
    /\ Forall bytes (concat (map (heard other) outs)).
Proof.
  induction fs as [|frame fs IH]; intros [|i ios] w Hlen Hio Hfs Hro Hw; try done; [by exists w, []|].
  apply Forall_cons_1 in Hio as [Hi Hio]. apply Forall_cons_1 in Hfs as [[Hf Hm] Hfs].
  cbn [map concat] in Hro. apply Forall_app in Hro as [Hro Hros].
  destruct (frame_sent other i w frame Hi Hf Hw Hm Hro) as (w1 & acts & Hok & Hw1 & Hs & Hb & Hsess).
  destruct (IH ios w1 ltac:(by injection Hlen) Hio Hfs Hros Hw1) as (w' & outs & Hrest & Hw' & Hrs & Hbs).
  exists w', (acts :: outs). cbn [zip zip_with frames]. rewrite Hok. cbn [mbind checked_bind fst].
  rewrite Hrest. split; [done|]. split; [done|]. cbn [map concat]. split; [|by apply Forall_app_2].
  rewrite map_app, lines_of_app, Hs, Hrs, Hsess, numbered_app; [done|]. apply Hw.
Qed.

End wire.

(** *** The values *)
Section values.
Import CanSimulator SimulatorFacts.
#[local] Open Scope Q_scope.

(** What is computed once for each signal: the scale is within [d] of the one
    prescribed, and the error [e] of the integer, that of the scale and that
    of the transmission make less than 65/64 of a step. *)
Definition shown_check (x : SignalDef * exact_scale) (d e step : Q) : bool :=
  Qle_bool (Qabs (val (sg_scale x.1) - x_scale x.2)) d
  && Qle_bool (e + tolerance x.2 + pow2 16 * d) (step * (65 # 64)).

Lemma shown_near x data v d e step :
  x ∈ exact_signals -> shown_check x d e step = true ->
  let n := DecoderSpec.raw_value data (sg_start_bit x.1) (sg_length x.1) in
  Qabs (inject_Z n * val (sg_scale x.1) + x_offset x.2 - v) <= e -> x_min x.2 <= v -> v <= x_max x.2 ->
  near (f_of_double (DecoderSpec.physical_value data x.1)) v step.
Proof.
  intros Hin Hc n He Hlo Hhi. pose proof exact_signals_within as Hall.
  rewrite list.Forall_forall in Hall. destruct (Hall x Hin) as (Hu & Hl & Hw).
  destruct (integer_value_unsigned data x.1 Hu Hl) as [Hn Hi]. fold n in Hn, Hi.
  destruct (Hw n Hn) as [Hf Ht]. unfold DecoderSpec.physical_value. rewrite Hi. fold (Shipped.sent x.1 n).
  split; [done|]. unfold shown_check in Hc. rewrite andb_true_iff, !Qle_bool_iff in Hc. destruct Hc as [Hd Hb].
  assert (2 ^ sg_length x.1 <= 2 ^ 16)%Z by (apply Z.pow_le_mono_r; lia).
  assert (0 <= inject_Z n) as Hn0 by (change 0 with (inject_Z 0); rewrite <- Zle_Qle; lia).
  assert (inject_Z n <= pow2 16) as Hn1 by (rewrite <- (pow2_Z 16), <- Zle_Qle by lia; lia).
  assert (Qabs (inject_Z n * (val (sg_scale x.1) - x_scale x.2)) <= pow2 16 * d) as Hs.
  { rewrite Qabs_Qmult, (Qabs_pos (inject_Z n)) by done. apply Qmult_le_compat_nonneg; split; try done. apply Qabs_nonneg. }
  assert (Qabs (prescribed x.2 n - v) <= e + pow2 16 * d) as Hp.
  { assert (v == Qclamp (x_min x.2) (x_max x.2) v) as Hv.
    { unfold Qclamp. rewrite (Q.min_r (x_max x.2) v), Q.max_r by done. done. }
    rewrite Hv. apply Qclamp_close.
    assert (inject_Z n * x_scale x.2 + x_offset x.2 - v
      == (inject_Z n * val (sg_scale x.1) + x_offset x.2 - v) - inject_Z n * (val (sg_scale x.1) - x_scale x.2)) as -> by ring.
    rewrite Qabs_le in *. lra. }
  assert (val (Shipped.sent x.1 n) - v == (val (Shipped.sent x.1 n) - prescribed x.2 n) + (prescribed x.2 n - v)) as -> by ring.
  pose proof (Qabs_triangle (val (Shipped.sent x.1 n) - prescribed x.2 n) (prescribed x.2 n - v)). lra.
Qed.

Lemma shipped_scale x : x ∈ exact_signals -> 0 <= val (sg_scale x.1).
Proof.
  assert (forallb (fun x => Qle_bool 0 (val (sg_scale x.1))) exact_signals = true) as H by (by vm_compute).
  rewrite forallb_forall in H. intros Hx. apply Qle_bool_iff, H. by apply list_elem_of_In.
Qed.

Lemma shown_encoded x data v step k :
  exact_signals !! k = Some x ->
  shown_check x (pow2 (-50)) (val (sg_scale x.1) + pow2 (-32)) step = true ->
  encodes data (sg_start_bit x.1) (sg_length x.1) (sg_scale x.1) (v - x_offset x.2) ->
  x_min x.2 <= v -> v <= x_max x.2 ->
  near (f_of_double (DecoderSpec.physical_value data x.1)) v step.
Proof.
  intros Hk Hc He. apply (shown_near x data v _ _ _ (list_elem_of_lookup_2 _ _ _ Hk) Hc).
  unfold encodes in He. set (n := inject_Z _) in *. destruct He as [He1 He2]. cbv zeta.
  assert (n * val (sg_scale x.1) + x_offset x.2 - v == n * val (sg_scale x.1) - (v - x_offset x.2)) as -> by ring.
  pose proof (shipped_scale x (list_elem_of_lookup_2 _ _ _ Hk)). pose proof (pow2_pos (-32)). apply Qabs_le. split; lra.
Qed.

(** The routes of the shipped configuration, as the gateway looks them up. *)
Definition routes_table : list (string * (Z * Z)) :=
  [("EngineRPM"%string, (0x0101, 0x8001)%Z); ("EngineTemp"%string, (0x0101, 0x8002)%Z);
   ("ThrottlePos"%string, (0x0101, 0x8003)%Z); ("VehicleSpeed"%string, (0x0102, 0x8001)%Z);
   ("WheelSpeed_FL"%string, (0x0102, 0x8002)%Z); ("WheelSpeed_FR"%string, (0x0102, 0x8003)%Z);
   ("BrakePressure"%string, (0x0103, 0x8001)%Z); ("BrakeActive"%string, (0x0103, 0x8002)%Z)].

Lemma routes_table_ok : Forall (fun p => shipped_map !! p.1 = Some p.2) routes_table.
Proof. repeat (apply Forall_cons_2; [vm_compute; reflexivity|]). apply Forall_nil_2. Qed.

(** Signals that appear in the table, with their routes. *)
Lemma routed_table data sigs routes :
  Forall2 (fun sig r => In (sg_name sig, r) routes_table) sigs routes ->
  routed shipped_map (map (fun sig => mk_decoded (sg_name sig) (DecoderSpec.physical_value data sig) (sg_unit sig)) sigs)
  = zip routes (map (DecoderSpec.physical_value data) sigs).
Proof.
  induction 1 as [|sig r sigs routes Hin _ IH]; [done|]. cbn [map]. unfold routed. rewrite bind_cons.
  fold (routed shipped_map (map (fun sig => mk_decoded (sg_name sig) (DecoderSpec.physical_value data sig) (sg_unit sig)) sigs)).
  pose proof routes_table_ok as H. rewrite List.Forall_forall in H. pose proof (H _ Hin) as E. cbn [fst snd] in E.
  cbn [ds_name]. rewrite E, IH. done.
Qed.

Lemma frame_routed f id msg routes :
  can_id f = id -> shipped_messages !! Z.land id CAN_EFF_MASK = Some msg ->
  Forall2 (fun sig r => In (sg_name sig, r) routes_table) (md_signals msg) routes ->
  shipped_routed f = zip routes (map (DecoderSpec.physical_value (frame_data f)) (md_signals msg)).
Proof. intros <- Hm Hr. unfold shipped_routed, decoded. rewrite Hm. by apply routed_table. Qed.

Ltac routes_of_table :=
  repeat (apply Forall2_cons_2; [repeat first [left; reflexivity | right]|]); apply Forall2_nil_2.

(** The [k]-th signal. *)
Definition signal_at (k : nat) : SignalDef * exact_scale :=
  nth k exact_signals (shipped_signal "" 0 0 (d_of_int 0) (d_of_int 0) (d_of_int 0) (d_of_int 0) "", mk_scale 0 0 0 0 0).

Lemma checks_encoded :
  forallb (fun '(k, step) => shown_check (signal_at k) (pow2 (-50)) (val (sg_scale (signal_at k).1) + pow2 (-32)) step)
    [(0%nat, 1 # 4); (1%nat, 3 # 4); (2%nat, 392157 # 1000000); (3%nat, 1 # 100); (4%nat, 1 # 100); (5%nat, 1 # 100)]
  && forallb (fun k => shown_check (signal_at k) 0 0 0) [6%nat; 7%nat] = true.
Proof. vm_compute. reflexivity. Qed.

Context {L : Sine}.

Definition shown_as (x : (Z * Z) * double) (want : string * Q * Q) : Prop :=
  signal_name x.1.1 x.1.2 = want.1.1 /\ near (f_of_double x.2) want.1.2 want.2.

Lemma encodes_eq data start len step x y : x == y -> encodes data start len step x -> encodes data start len step y.
Proof. intros E [H1 H2]. split; lra. Qed.

Lemma engine_shown t k e :
  time_ok t k -> can_id e = 291%Z ->
  encodes (frame_data e) 0 16 (quotient 1 4) (val (rpm t)) ->
  encodes (frame_data e) 16 8 (quotient 3 4) (val (temp t) + 40) ->
  encodes (frame_data e) 24 8 (quotient 392157 1000000) (val (throttle t)) ->
  Forall route_ok (shipped_routed e) /\ Forall2 shown_as (shipped_routed e) (take 3 (simulated t)).
Proof.
  intros Ht Hid H1 H2 H3.
  destruct (curves_between t k Ht) as ((_ & Hr1 & Hr2) & (_ & Hp1 & Hp2) & (_ & Hh1 & Hh2) & _).
  pose proof checks_encoded as Hc. cbn [forallb] in Hc. rewrite !andb_true_iff in Hc.
  destruct Hc as ((C0 & C1 & C2 & _) & _).
  rewrite (frame_routed e 291 (mk_message 291 "EngineData" 8 engine_signals)
    [(0x0101, 0x8001)%Z; (0x0101, 0x8002)%Z; (0x0101, 0x8003)%Z] Hid); [|vm_compute; reflexivity|routes_of_table].
  cbn [md_signals engine_signals map zip zip_with simulated take]. split.
  { repeat (apply Forall_cons_2; [unfold route_ok, is_u16; cbn [fst snd]; lia|]). apply Forall_nil_2. }
  repeat apply Forall2_cons_2; try apply Forall2_nil_2; (split; [reflexivity|]).
  - apply (shown_encoded (signal_at 0) _ _ _ 0); [reflexivity|exact C0| |cbn; lra|cbn; lra].
    apply (encodes_eq _ _ _ _ (val (rpm t))); [cbn [x_offset]; cbn; ring|exact H1].
  - apply (shown_encoded (signal_at 1) _ _ _ 1); [reflexivity|exact C1| |cbn; lra|cbn; lra].
    apply (encodes_eq _ _ _ _ (val (temp t) + 40)); [cbn; ring|exact H2].
  - apply (shown_encoded (signal_at 2) _ _ _ 2); [reflexivity|exact C2| |cbn; lra|cbn; lra].
    apply (encodes_eq _ _ _ _ (val (throttle t))); [cbn; ring|exact H3].
Qed.

Lemma speed_shown t k s :
  time_ok t k -> can_id s = 292%Z ->
  encodes (frame_data s) 0 16 (quotient 1 100) (val (speed t)) ->
  encodes (frame_data s) 16 16 (quotient 1 100) (val (speed t) + 1) ->
  encodes (frame_data s) 32 16 (quotient 1 100) (val (speed t) - 1) ->
  Forall route_ok (shipped_routed s) /\ Forall2 shown_as (shipped_routed s) (take 3 (drop 3 (simulated t))).
Proof.
  intros Ht Hid H1 H2 H3. destruct (curves_between t k Ht) as (_ & _ & _ & (_ & Hs1 & Hs2)).
  pose proof checks_encoded as Hc. cbn [forallb] in Hc. rewrite !andb_true_iff in Hc.
  destruct Hc as ((_ & _ & _ & C3 & C4 & C5 & _) & _).
  rewrite (frame_routed s 292 (mk_message 292 "VehicleSpeed" 8 speed_signals)
    [(0x0102, 0x8001)%Z; (0x0102, 0x8002)%Z; (0x0102, 0x8003)%Z] Hid); [|vm_compute; reflexivity|routes_of_table].
  cbn [md_signals speed_signals map zip zip_with simulated take drop]. split.
  { repeat (apply Forall_cons_2; [unfold route_ok, is_u16; cbn [fst snd]; lia|]). apply Forall_nil_2. }
  repeat apply Forall2_cons_2; try apply Forall2_nil_2; (split; [reflexivity|]).
  - apply (shown_encoded (signal_at 3) _ _ _ 3); [reflexivity|exact C3| |cbn; lra|cbn; lra].
    apply (encodes_eq _ _ _ _ (val (speed t))); [cbn; ring|exact H1].
  - apply (shown_encoded (signal_at 4) _ _ _ 4); [reflexivity|exact C4| |cbn; lra|cbn; lra].
    apply (encodes_eq _ _ _ _ (val (speed t) + 1)); [cbn; ring|exact H2].
  - apply (shown_encoded (signal_at 5) _ _ _ 5); [reflexivity|exact C5| |cbn; lra|cbn; lra].
    apply (encodes_eq _ _ _ _ (val (speed t) - 1)); [cbn; ring|exact H3].
Qed.

(** The brake signals are shown as they are. *)
Lemma brake_shown t b :
  can_id b = 293%Z ->
  DecoderSpec.raw_value (frame_data b) 0 8 = (if braking t then 40 else 0)%Z ->
  DecoderSpec.raw_value (frame_data b) 8 1 = (if braking t then 1 else 0)%Z ->
  Forall route_ok (shipped_routed b) /\ Forall2 shown_as (shipped_routed b) (drop 6 (simulated t)).
Proof.
  intros Hid H1 H2. pose proof checks_encoded as Hc. cbn [forallb] in Hc. rewrite !andb_true_iff in Hc.
  destruct Hc as (_ & C6 & C7 & _).
  rewrite (frame_routed b 293 (mk_message 293 "BrakeData" 8 brake_signals)
    [(0x0103, 0x8001)%Z; (0x0103, 0x8002)%Z] Hid); [|vm_compute; reflexivity|routes_of_table].
  cbn [md_signals brake_signals map zip zip_with simulated drop]. split.
  { repeat (apply Forall_cons_2; [unfold route_ok, is_u16; cbn [fst snd]; lia|]). apply Forall_nil_2. }
  repeat apply Forall2_cons_2; try apply Forall2_nil_2; (split; [reflexivity|]).
  - apply (shown_near (signal_at 6) _ _ 0 0); [by apply (list_elem_of_lookup_2 _ 6)|exact C6| | |].
    all: change (sg_start_bit (signal_at 6).1) with 0%Z; change (sg_length (signal_at 6).1) with 8%Z;
      rewrite ?H1; destruct (braking t); vm_compute; discriminate.
  - apply (shown_near (signal_at 7) _ _ 0 0); [by apply (list_elem_of_lookup_2 _ 7)|exact C7| | |].
    all: change (sg_start_bit (signal_at 7).1) with 8%Z; change (sg_length (signal_at 7).1) with 1%Z;
      rewrite ?H2; destruct (braking t); vm_compute; discriminate.
Qed.

(** *** A round *)
Definition on_the_bus (f : can_frame) : Prop :=
  frame_ok f /\ is_Some (shipped_messages !! Z.land (can_id f) CAN_EFF_MASK).

Lemma bus_frame f : frame_ok f -> can_id f = 291%Z \/ can_id f = 292%Z \/ can_id f = 293%Z -> on_the_bus f.
Proof.
  intros Hf Hid. split; [exact Hf|]. apply shipped_ids.
  assert (Z.land (can_id f) CAN_EFF_MASK = can_id f) as -> by (destruct Hid as [-> | [-> | ->]]; reflexivity).
  rewrite !elem_of_cons. lia.
Qed.

Lemma round_shown t k r :
  time_ok t k -> faithful t r ->
  length (sent_frames r) = 3%nat /\ Forall on_the_bus (sent_frames r)
  /\ Forall route_ok (concat (map shipped_routed (sent_frames r)))
  /\ Forall2 shown_as (concat (map shipped_routed (sent_frames r))) (simulated t).
Proof.
  intros Ht (e & s & b & -> & Hok & Hids & He1 & He2 & He3 & Hs1 & Hs2 & Hs3 & Hb1 & Hb2).
  injection Hids as Hide Hids Hidb.
  destruct (engine_shown t k e Ht Hide He1 He2 He3) as [He He'].
  destruct (speed_shown t k s Ht Hids Hs1 Hs2 Hs3) as [Hs Hs'].
  destruct (brake_shown t b Hidb Hb1 Hb2) as [Hb Hb'].
  cbn [map concat]. rewrite app_nil_r. split; [done|]. split; [|split].
  - repeat (apply Forall_cons_1 in Hok as [? Hok]).
    repeat (apply Forall_cons_2; [apply bus_frame; [assumption|tauto]|]). apply Forall_nil_2.
  - by repeat apply Forall_app_2.
  - change (simulated t) with (take 3 (simulated t) ++ take 3 (drop 3 (simulated t)) ++ drop 6 (simulated t)).
    by repeat apply Forall2_app.
Qed.

Lemma rounds_shown ts rs :
  Forall (fun t => exists k, time_ok t k) ts -> Forall2 faithful ts rs ->
  let fs := concat (map sent_frames rs) in
  length fs = (3 * length rs)%nat /\ Forall on_the_bus fs
  /\ Forall route_ok (concat (map shipped_routed fs))
  /\ Forall2 shown_as (concat (map shipped_routed fs)) (concat (map simulated ts)).
Proof.
  intros Ht Hf. cbv zeta. induction Hf as [|t r ts rs Hr _ IH]; [by split_and!; constructor|].
  apply Forall_cons_1 in Ht as [[k Ht] Hts]. destruct (IH Hts) as (Hl & Hb & Hro & Hsh).
  destruct (round_shown t k r Ht Hr) as (Hl1 & Hb1 & Hro1 & Hsh1).
  cbn [map concat]. rewrite map_app, concat_app. split; [rewrite length_app; cbn [length]; lia|].
  split; [by apply Forall_app_2|]. split; [by apply Forall_app_2|by apply Forall2_app].
Qed.

End values.
End PipelineFacts.

(** ** Properties *)
Section properties.
Import Gateway GatewaySpec GatewayFacts PipelineSpec PipelineFacts CanSimulator SimulatorFacts.

(** C2: what is simulated is what is shown.  The simulator runs for [n] rounds,
    its frames reach the gateway - in any state it may be in with the
    shipped database and routes -, and what the gateway sends reaches the
    service-discovery subscriber as far as its data socket gets it: the
    notifications, and the periodic offers too where the host hears that
    [other] group.  Nothing fails on the way, and the subscriber shows, in
    order, the eight signals of every round under their names, numbered
    consecutively, and nothing else: the brake signals exactly, the others
    within 65/64 of the signal's step of the simulator's curve at that time.
    Truncation in the simulator, clamping and rounding in the gateway and
    the conversion to [float] included. *)
Theorem simulated_values_shown {T : Target} {U : UdsService} {L : Sine} other sock_res n w ios buf :
  0 <= sock_res -> Z.of_nat n < 2 ^ 53 - 1 -> on_shipped w ->
  length ios = (3 * n)%nat -> Forall (fun i => zlen (io_stack i) = SOMEIP_MAX_SIZE) ios ->
  zlen buf = BUF_SIZE ->
  exists rs w' outs lines,
    CanSimulator.main sock_res n = Ok (inr rs)
    /\ frames w (zip ios (concat (map sent_frames rs))) = Ok (w', outs)
    /\ SdSubscriber.listen buf (map Datagram (concat (map (heard other) outs))) = Ok lines
    /\ Forall2 shows lines (concat (map simulated (times n (d_of_int 0))))
    /\ (forall k line, lines !! k = Some line ->
          SdSubscriber.sh_session line = u16 (SomeIpPublisher.session (publisher w) + Z.of_nat k))
    /\ on_shipped w'.
Proof.
  intros Hsock Hn Hw Hios Hstack Hbuf.
  destruct (run_ok n (d_of_int 0) 0 start_time_ok ltac:(lia)) as (rs & Hrs & Hf).
  destruct (rounds_shown _ _ (times_ok n (d_of_int 0) 0 start_time_ok ltac:(lia)) Hf) as (Hl & Hb & Hro & Hsh).
  assert (length rs = n) as Hlr.
  { apply Forall2_length in Hf. rewrite <- Hf. clear. generalize (d_of_int 0). induction n; intros; cbn; auto. }
  destruct (frames_sent other _ ios w ltac:(by rewrite Hl, Hlr) Hstack Hb Hro Hw) as (w' & outs & Hfr & Hw' & Hout & Hby).
  set (L' := concat (map shipped_routed (concat (map sent_frames rs)))) in *.
  exists rs, w', outs, (numbered (SomeIpPublisher.session (publisher w)) L').
  split; [unfold CanSimulator.main; by rewrite (proj2 (Z.ltb_ge _ _)), Hrs by lia|]. split; [done|].
  assert (is_u16 (SomeIpPublisher.session (publisher w))) as Hs by apply Hw.
  split; [|split; [|split]].
  - rewrite SubscriberFacts.listen_ok; [by rewrite Hout|done|by apply bytes_received].
  - by apply numbered_shows.
  - intros k line. by apply numbered_session.
  - done.
Qed.

(** Two rounds through a gateway that has just started. *)
Lemma simulated_values_shown_witness :
  exists rs w' outs lines,
    CanSimulator.main (L:=square_wave) 3 2 = Ok (inr rs)
    /\ frames (T:=x86_64) (shipped_gateway (T:=x86_64) 0x0100007F)
         (zip (replicate 6 demo_io) (concat (map sent_frames rs))) = Ok (w', outs)
    /\ SdSubscriber.listen (T:=x86_64) (replicate 1500 0) (map Datagram (concat (map (heard (T:=x86_64) true) outs))) = Ok lines
    /\ map SdSubscriber.sh_name (firstn 3 lines) = ["EngineRPM"; "EngineTemp"; "ThrottlePos"]%string
    /\ length lines = 16%nat.
Proof.
  destruct (simulated_values_shown (T:=x86_64) (U:=gateway_uds) (L:=square_wave) true 3 2
    (shipped_gateway (T:=x86_64) 0x0100007F) (replicate 6 demo_io) (replicate 1500 0))
    as (rs & w' & outs & lines & H1 & H2 & H3 & H4 & _).
  - lia.
  - cbn; lia.
  - split; [exact (shipped_gateway_ok (T:=x86_64) (U:=gateway_uds) 0x0100007F)|].
    split; [reflexivity|]. split; [unfold shipped_gateway; by apply shipped_map_routes|].
    unfold shipped_gateway. vm_compute. reflexivity.
  - reflexivity.
  - apply Forall_replicate. vm_compute. reflexivity.
  - vm_compute. reflexivity.
  - exists rs, w', outs, lines. split; [exact H1|]. split; [exact H2|]. split; [exact H3|].
    cbn [times map concat simulated app] in H4.
    repeat match goal with H : Forall2 shows _ (_ :: _) |- _ =>
      apply Forall2_cons_inv_r in H as (? & ? & [? _] & ? & ->) end.
    match goal with H : Forall2 shows _ [] |- _ => apply Forall2_nil_inv_r in H as -> end. cbn [firstn map length fst] in *.
    repeat match goal with H : SdSubscriber.sh_name _ = _ |- _ => rewrite H; clear H end.
    split; reflexivity.
Defined.

End properties.
